(* ===== verification/_CoqProject ===== *)
-Q . S2P
Prelude.v
GoBytes.v
GoNet.v
Netstruct.v
Protocol.v
Frame.v
EtherTable.v
Machine.v
Transform.v
P2P.v
Crypto.v
SNState.v
Community.v
Supernode.v
SNWire.v
SNInvariant.v
SNSafety.v
SNSample.v
SNProps.v
SNLife.v
SNCleanup.v
SNSync.v
SNListen.v
Hosts.v
HostsProps.v
Edge.v
EdgeProps.v
EdgeSession.v
EdgeDirect.v
P2Viz.v
EdgeApi.v
Log.v
GoTime.v
Management.v
ManagementProps.v
MgmtLoop.v
Benchmark.v
NAT.v
Transport.v
EdgeRun.v
EdgeSetup.v
EdgeNew.v
Overlapped.v
TapDevice.v
TapWindows.v
Commands.v
