(* ===== verification/Prelude.v ===== *)
(** * n2n-go: a verification of the supernode, the edge and what they share

    n2n-go is a layer 2 VPN.  Edges join a community through a supernode; they
    send Ethernet frames to each other directly where a hole can be punched and
    through the supernode otherwise.

    ** The program and its files

    - The wire format ([src/pkg/protocol]): a 30-byte header with community
      hash and MAC addresses, a 7-byte fast-path header, typed messages and the
      table of handlers.  [Protocol]; the messages, their packet types and the
      codec are in [Netstruct].
    - Frames ([src/pkg/tuntap/frame.go], [ethertype.go], [arp.go]): [Frame],
      with the tables of protocol numbers in [EtherTable].
    - Machine identity and derived MAC addresses ([src/pkg/machine]): [Machine].
    - Payload pipeline and buffer pools ([src/pkg/tranform], [src/pkg/buffers]
      and the pipeline that [NewEdgeClient] builds): [Transform].
    - The peer registry of an edge ([src/pkg/p2p/p2p.go]): [P2P]; the graph the
      supernode's page draws of a community ([p2viz.go]): [P2Viz].
    - The key exchange ([src/pkg/crypto]): [Crypto].
    - The supernode ([src/pkg/supernode]): its structs in [SNState], the
      operations of a community in [Community], registration, forwarding,
      handlers, dispatch and cleanup in [Supernode]; the goroutines of [Listen]
      and [Shutdown] with the buffers they share, and the end of its [main], in
      [SNListen].
    - The edge client ([src/pkg/edge]): its state, transports, handlers,
      requests and one turn of each loop in [Edge]; the goroutines of [Run] and
      [Close] in [EdgeRun]; configuration and opening of the connections in
      [EdgeSetup], the whole of [NewEdgeClient] in [EdgeNew]; the pages of its HTTP
      interface in [EdgeApi].
    - What an edge uses on the way: the websocket transport and its proxies
      ([src/pkg/transport]): [Transport]; port mappings at the gateway
      ([src/pkg/natclient]): [NAT]; the hosts file ([src/pkg/syshosts]):
      [Hosts]; the TAP device and its configuration ([src/pkg/tuntap]):
      [TapDevice] for the common part, Linux, macOS and NetBSD, [TapWindows] for
      Windows, whose asynchronous handles ([overlapped_windows.go]) are in
      [Overlapped].
    - Operation: the management socket ([src/pkg/management]): [Management],
      its accept loop, connections and [Stop] as goroutines in [MgmtLoop];
      the log with its database ([src/pkg/log], [src/pkg/appdir]): [Log]; the
      packets and statistics of the benchmarks ([src/pkg/benchmark]):
      [Benchmark]; the commands of [src/cmd] and the loading of configurations:
      [Commands].

    [Prelude] (this file), [GoBytes], [GoNet] and [GoTime] hold what the code uses of the
    language and its standard library: byte strings, integers with their
    wrap-around, errors, the state monad, UTF-8, hexadecimal, SHA-256, textual
    addresses, layouts of times and durations.

    Messages flow as in the program: an edge reads a frame ([handleTAP_frame]),
    wraps it with [Transform] and [Protocol] and sends it; [ProcessPacket] of
    the supernode reads the datagram, dispatches it through
    [SnMessageHandlers], the handler works on the communities ([Community]),
    which ask [Machine] and [Crypto] to check an edge's claim, and forwards the
    packet or answers; the edge that receives it ([receive]) dispatches it
    through its own table, and its registry ([P2P]) follows the peers.

    ** How the code is modelled

    A Go function is a function with the same name; one that can fail returns
    an [outcome]: a value, an error or a panic (index out of range, nil
    dereference, a fatal exit).  A method that changes a struct is a
    computation of the state monad [M]; a state change made before an error
    stays.  Pointers that the code shares ([*Edge], [*Community], [*Peer]) are
    locations of a heap, so that two maps to one object alias as they do there.
    The clock is a field of the state; every step of time is a step of the
    relation [supernode_step] or an input of [edge_do].  The locks of the code
    are not modelled: a handler is a function of the state it is called on.  In
    the running supernode ([SNListen]) a call begins and returns in two steps,
    and has that function's effect as long as no two calls have overlapped; the
    effect of overlapping ones is left open, but for the one race that is worked
    out ([register_locked], the part of [RegisterCommunity] after the exclusive
    lock is taken).  Where goroutines
    wait for each other they are steps of a relation ([EdgeRun], [SNListen], [MgmtLoop]),
    labelled by whether they need an event from outside.  A [range]
    over a map visits it in an order the class [MapRange] leaves open; theorems
    hold for all orders.

    Code outside the repository is a class of operations, with the documented
    facts a theorem relies on as a second class: the protobuf runtime ([Proto],
    [ProtoLaws]), the IP pool ([IPPool]), RSA and PEM ([RSALib], [RSALaws]),
    AES-GCM and the compressors ([CryptoLib], [CipherLaws]), the database
    ([SQLite], [SQLiteLaws]), the gateways ([UPnPLib], [UPnPLaws], [PMPLib],
    [PMPLaws]: a success means what was asked, an error may or may not have been
    preceded by it), the file of the management socket ([SocketFS]), the sockets ([Net]: each write succeeds or fails depending on
    what was written before), the TAP device as the edge sees it ([TapDev]), the
    system calls ([Unix], [RawSockets], [Netlink], [Commands] for the programs
    that are run, [WinAPI], [WinTap], with [FdLaws], [RawLaws], [LinkLaws],
    [ExecLaws], [EventLaws], [FileLaws], [TapLaws], [AddrLaws]), configuration
    files ([Viper]), service names ([UDPServices]) and the like.  Each has an
    instance that is evaluated in the witnesses ([SNSample] collects those of the supernode).  The interface
    [NATClient] is a class with the promise [NATClientSpec]: both clients are
    shown to keep it, and setup and cleanup are proved from it.  [DeviceIO] and
    [Platform] are the interfaces between [Interface], [Device] and the four
    operating systems.

    ** What is proved

    - The supernode, whole packets and runs ([SNProps] from [SNWire],
      [SNInvariant], [SNSafety]): in every reachable state communities and edges
      are filed consistently and every edge's MAC is the one derived from the
      machine id it proved; runs of packets do not panic as long as no MAC is
      claimed in two communities, and a run of four packets that does panic
      otherwise; relayed packets stay inside the sender's community, on the
      normal and on the fast path; unicast, broadcast and the answer to unknown
      senders, with the counters.
    - Single operations ([SNLife], [SNCleanup], [SNSync]): registration,
      heartbeat, unregistration, creation of communities with the lost update
      of two concurrent creations, cleanup of exactly the stale edges, and the
      peer list, which puts an edge's registry in agreement with the supernode.
    - The running supernode ([SNListen]): whatever the interleaving of its
      goroutines, the packets processed are those received, each once and
      unchanged although buffers are reused, and what was received before a
      completed [Shutdown] was processed; while calls do not overlap, its state
      is one that [supernode_step] reaches; a signal ends the process in a bounded number of steps, but
      [Shutdown] itself waits for a datagram; an empty datagram ends it too.
    - Edges and supernode together: a frame travels from one TAP device to the
      other ([EdgeProps], on both paths), an edge joins and recovers after the
      supernode has forgotten it, or waits for ever when an answer is lost
      ([EdgeSession]), and pings open the direct path ([EdgeDirect]).  The pages
      with a timeout answer, the one without polls until its answer comes with
      entries or the timeout of another page clears the flag ([EdgeApi]).
    - Starting and stopping an edge: creating one gives a whole edge with the MAC
      its supernode will recompute, or nothing ([EdgeSetup], [EdgeNew]), but a
      fatal exit can leave a port mapping behind; nothing is read after it was
      closed and closing completes, but for a read of the TAP device that only a
      frame ends and for the gateway and the management clients it waits for
      ([EdgeRun]); a port mapping is set up at one gateway and taken down again,
      where an attempt that failed may have left its own ([NAT]); the handshakes with proxies ([Transport]).
    - Devices: an interface owns one descriptor or handle while it is open and
      none after a failure or a close, on Unix ([TapDevice]) and on Windows
      ([TapWindows]), where the events of its asynchronous operations are not
      shared ([Overlapped]); what a configuration leaves on the link, on each
      system; the form of a created device and of the address in the registry;
      codes that are ignored and announcements that are not broadcast.
    - The registry ([P2P]) refines a map from MAC to peer information; the
      graph has a state for every pair of peers of which one reports the other,
      and never shows a direct connection ([P2Viz]).
    - The formats: packing and unpacking are inverse in both directions, errors
      are exact, flagging changes one bit, typed messages survive the wire,
      frames and fast-path headers round trip, accessors do not panic, names
      that differ in a rune hash differently.
    - The payload pipeline and the key exchange are undone by their receivers;
      edge and supernode derive the same unicast MAC; machine ids are stable.
    - The hosts file ([HostsProps]): formatting is inverted by parsing, adding
      and removing act on the set of pairs, the normalisations keep what they
      should; removal of some names of an address is lost, and wrapped lines
      share an array that a later addition overwrites.
    - The management socket ([ManagementProps], [MgmtLoop]): serving a connection
      ends, nothing runs without the password, a command is answered by its
      handler, connections do not influence each other, [Stop] returns when the
      clients fall silent and then nothing of the server runs, but a client
      that goes on keeps it waiting; the log returns what was logged ([Log]); pings of the benchmark are
      answered with valid checksums and its statistics are ordered
      ([Benchmark]).  The log command prints the newest rows and reads the times
      the log prints, the shortcut of the up command is what its comment says
      when no community is configured, and the control command is refused by an edge of another community
      ([Commands]).

    ** Bounds

    Recursion is structural, with fuel where the code loops on a shrinking
    string: decimal digits ([itoa_aux], the digits of a 64-bit number), runes
    and host name chunks (the length of the input; each turn consumes at least
    one element), hextets of an IPv6 address (eight), the folding of a checksum
    (three carries of a sum of 16-bit words), the command loop of a connection
    (one turn more than there are bytes, [connection_ends]) and the lines of a
    proxy's answer (likewise, [read_header_fuel]).  The repeated request of the
    UPnP client is its own recursion equation ([upnp_add_unfold]).  Loops with a
    bound in the code have that bound: sixteen TAP devices, three buffers for the
    list of adapters, ten refreshes of an address; a duration has at most as many
    parts as characters, and the calendar is checked over the 146097 days of its
    period ([GoTime]).  Steps of goroutines are bounded by [remaining].  Integers
    are [Z] with [u8] to [u64] written where the code's type wraps; counters
    are 64 bits.

    ** What is not modelled

    The system calls themselves, the HTTP router and its assets, the parsing of
    configuration files and command lines (viper, urfave/cli), generated protobuf
    code, constant HTML, and the measuring loops of the benchmarks, which time
    system calls.  A call of [ProcessPacket] is one step of [SNListen]: the
    interleavings of two handlers inside it are modelled only where
    [register_locked] says so.
    The writes of a management connection either fail or are taken whole.  What
    is left beside these are accessors, wrappers that forward to a function that
    is modelled, code inside comments, help texts, and the creation of
    directories. *)
From stdpp Require Import gmap list strings fin_maps sets.
From Stdlib Require Import ZArith Lia.
Open Scope Z_scope.

(** ** Bytes, strings and machine integers

    A Go byte is a [Z] between 0 and 255, a Go [string] or [[]byte] is the
    list of its bytes; [str] turns a literal into one. *)
Definition is_byte (b : Z) : Prop := 0 <= b < 256.

Definition bytes_ok (l : list Z) : Prop := Forall is_byte l.

Definition u8 (z : Z) : Z := z mod 256.
Definition u16 (z : Z) : Z := z mod 2 ^ 16.
Definition u32 (z : Z) : Z := z mod 2 ^ 32.
Definition u64 (z : Z) : Z := z mod 2 ^ 64.
Definition i64 (z : Z) : Z := (z + 2 ^ 63) mod 2 ^ 64 - 2 ^ 63.

Definition len (l : list Z) : Z := Z.of_nat (length l).

Definition str (s : string) : list Z :=
  (fun a => Z.of_N (Ascii.N_of_ascii a)) <$> String.list_ascii_of_string s.

#[export] Instance is_byte_dec b : Decision (is_byte b).
Proof. unfold is_byte. apply _. Defined.

#[export] Instance bytes_ok_dec l : Decision (bytes_ok l).
Proof. unfold bytes_ok. apply _. Defined.

(** ** Errors and outcomes

    An error value carries the constant part of its message and, for
    [fmt.Errorf] with a wrapping verb, the error it wraps.  A call either
    returns a value, returns an error or panics (index out of range, nil
    dereference). *)
Inductive goerr :=
  | ErrNew (msg : string)
  | ErrWrap (msg : string) (inner : goerr).

#[export] Instance goerr_eq_dec : EqDecision goerr.
Proof. solve_decision. Defined.

(** [errors.Is]: the error or one it wraps is the sentinel. *)
Fixpoint errors_is (e target : goerr) : bool :=
  bool_decide (e = target) ||
  match e with
  | ErrNew _ => false
  | ErrWrap _ i => errors_is i target
  end.

Inductive outcome (A : Type) :=
  | Ok (a : A)
  | Err (e : goerr)
  | Panic.
Arguments Ok {A} _.
Arguments Err {A} _.
Arguments Panic {A}.

#[export] Instance outcome_ret : MRet outcome := fun _ a => Ok a.
#[export] Instance outcome_bind : MBind outcome := fun _ _ f o =>
  match o with
  | Ok a => f a
  | Err e => Err e
  | Panic => Panic
  end.

#[export] Instance outcome_eq_dec {A} `{EqDecision A} : EqDecision (outcome A).
Proof. solve_decision. Defined.

Definition is_panic {A} (o : outcome A) : bool :=
  match o with Panic => true | _ => false end.

(** [x[i]]: a read that panics out of range. *)
Definition index {A} (l : list A) (i : nat) : outcome A :=
  match l !! i with Some x => Ok x | None => Panic end.

(** [x[i:j]] of a slice whose capacity is its length. *)
Definition slice {A} (l : list A) (i j : nat) : outcome (list A) :=
  if bool_decide (i <= j)%nat && bool_decide (j <= length l)%nat
  then Ok (take (j - i) (drop i l)) else Panic.

(** [copy(dst[i:j], src)] for a range inside [dst]: the first
    [min (j-i) (len src)] bytes are overwritten. *)
Definition copy_at {A} (dst : list A) (i j : nat) (src : list A) : list A :=
  let n := Nat.min (j - i) (length src) in
  take i dst ++ take n src ++ drop (i + n) dst.

(** ** Stateful code

    A method is a function of the state; an error or a panic keeps the
    writes made before it. *)
Definition M (S A : Type) : Type := S -> outcome A * S.

#[export] Instance M_ret {S} : MRet (M S) := fun _ a s => (Ok a, s).
#[export] Instance M_bind {S} : MBind (M S) := fun _ _ f m s =>
  match m s with
  | (Ok a, s') => f a s'
  | (Err e, s') => (Err e, s')
  | (Panic, s') => (Panic, s')
  end.

Section StateMonad.
Context {S : Type}.

Definition merr {A} (e : goerr) : M S A := fun s => (Err e, s).
Definition mpanic {A} : M S A := fun s => (Panic, s).
Definition gets {A} (f : S -> A) : M S A := fun s => (Ok (f s), s).
Definition modify (f : S -> S) : M S unit := fun s => (Ok tt, f s).
Definition mlift {A} (o : outcome A) : M S A := fun s => (o, s).

(** [v, err := m()] with the error inspected by the caller. *)
Definition mtry {A} (m : M S A) : M S (A + goerr) := fun s =>
  match m s with
  | (Ok a, s') => (Ok (inl a), s')
  | (Err e, s') => (Ok (inr e), s')
  | (Panic, s') => (Panic, s')
  end.

(** A call whose returned values are ignored. *)
Definition mignore {A} (m : M S A) : M S unit := mtry m ≫= fun _ => mret tt.

(** A comma-ok or pointer read that panics when it misses. *)
Definition mderef {A} (o : option A) : M S A :=
  match o with Some a => mret a | None => mpanic end.

Fixpoint mfor {A} (l : list A) (body : A -> M S unit) : M S unit :=
  match l with
  | [] => mret tt
  | x :: l' => body x ;; mfor l' body
  end.
End StateMonad.

Lemma bind_ok {S A B} (m : M S A) (k : A -> M S B) s a s1 :
  m s = (Ok a, s1) -> (m ≫= k) s = k a s1.
Proof. intros E. unfold mbind, M_bind. by rewrite E. Qed.

Lemma bind_err {S A B} (m : M S A) (k : A -> M S B) s e s1 :
  m s = (Err e, s1) -> (m ≫= k) s = (Err e, s1).
Proof. intros E. unfold mbind, M_bind. by rewrite E. Qed.

Lemma gets_bind {S A B} (f : S -> A) (k : A -> M S B) s : (gets f ≫= k) s = k (f s) s.
Proof. done. Qed.

(** *** A predicate kept by a method whatever it returns *)
Definition preserves {S A} (I : S -> Prop) (m : M S A) : Prop :=
  forall s, I s -> I (m s).2.

(** [m] never panics from a state in [I], and ends in [I]. *)
Definition safe {S A} (I : S -> Prop) (m : M S A) : Prop :=
  forall s, I s -> (m s).1 <> Panic /\ I (m s).2.

Create HintDb go_inv.

Section Preserves.
Context {S : Type} (I : S -> Prop).

Lemma preserves_ret {A} (a : A) : preserves I (mret a).
Proof. by intros s H. Qed.
Lemma preserves_fail {A} e : preserves I (merr e : M S A).
Proof. by intros s H. Qed.
Lemma preserves_panic {A} : preserves I (mpanic : M S A).
Proof. by intros s H. Qed.
Lemma preserves_gets {A} (f : S -> A) : preserves I (gets f).
Proof. by intros s H. Qed.
Lemma preserves_lift {A} (o : outcome A) : preserves I (mlift o).
Proof. by intros s H. Qed.
Lemma preserves_deref {A} (o : option A) : preserves I (mderef o).
Proof. by destruct o; intros s H. Qed.
Lemma preserves_modify f : (forall s, I s -> I (f s)) -> preserves I (modify f).
Proof. intros Hf s H. by apply Hf. Qed.
Lemma preserves_bind {A B} (m : M S A) (k : A -> M S B) :
  preserves I m -> (forall a, preserves I (k a)) -> preserves I (m ≫= k).
Proof.
  intros Hm Hk s H. unfold mbind, M_bind. specialize (Hm s H).
  destruct (m s) as [[a|e|] s']; [by apply Hk|done|done].
Qed.
Lemma preserves_try {A} (m : M S A) : preserves I m -> preserves I (mtry m).
Proof.
  intros Hm s H. unfold mtry. specialize (Hm s H).
  by destruct (m s) as [[a|e|] s'].
Qed.
Lemma preserves_ignore {A} (m : M S A) : preserves I m -> preserves I (mignore m).
Proof. intros Hm. apply preserves_bind; [by apply preserves_try|]. intros; apply preserves_ret. Qed.
Lemma preserves_for {A} (l : list A) (body : A -> M S unit) :
  (forall x, x ∈ l -> preserves I (body x)) -> preserves I (mfor l body).
Proof.
  induction l as [|x l IH]; intros Hb; [apply preserves_ret|].
  apply preserves_bind; [apply Hb; left|]. intros _. apply IH.
  intros y Hy. apply Hb. by right.
Qed.
Lemma preserves_if {A} (b : bool) (m1 m2 : M S A) :
  preserves I m1 -> preserves I m2 -> preserves I (if b then m1 else m2).
Proof. by destruct b. Qed.
End Preserves.

#[export] Hint Resolve preserves_ret preserves_fail preserves_panic preserves_gets
  preserves_lift preserves_deref preserves_bind preserves_try preserves_ignore
  preserves_for preserves_if : go_inv.

(** Walks the structure of a method, leaving the state updates. *)
Ltac preserve_step :=
  match goal with
  | |- preserves _ (mbind _ _) => apply preserves_bind; [|intros]
  | |- preserves _ (mret _) => apply preserves_ret
  | |- preserves _ (merr _) => apply preserves_fail
  | |- preserves _ mpanic => apply preserves_panic
  | |- preserves _ (gets _) => apply preserves_gets
  | |- preserves _ (mlift _) => apply preserves_lift
  | |- preserves _ (mderef _) => apply preserves_deref
  | |- preserves _ (mtry _) => apply preserves_try
  | |- preserves _ (mignore _) => apply preserves_ignore
  | |- preserves _ (mfor _ _) => apply preserves_for; intros
  | |- preserves _ (if ?b then _ else _) => destruct b eqn:?
  | |- preserves _ (match ?x with _ => _ end) => destruct x eqn:?
  end.

Ltac preserve := repeat (preserve_step || (solve [eauto with go_inv nocore])).

(** ** Ranging over a map

    Go visits the entries of a map in an unspecified order: the order is a
    parameter, of which only that it is some enumeration of the entries is
    known.  Instances below fix one for evaluation. *)
Class MapRange (K : Type) `{Countable K} := {
  map_range : forall {A : Type}, gmap K A -> list (K * A);
  map_range_perm : forall {A : Type} (m : gmap K A), map_range m ≡ₚ map_to_list m }.

Definition default_range (K : Type) `{Countable K} : MapRange K := {|
  map_range A m := map_to_list m;
  map_range_perm A m := Permutation_refl _ |}.

Lemma elem_of_map_range `{MapRange K} {A} (m : gmap K A) k a :
  (k, a) ∈ map_range m <-> m !! k = Some a.
Proof. rewrite map_range_perm. apply elem_of_map_to_list. Qed.

Lemma elem_of_range_keys `{MapRange K} {A} (m : gmap K A) k : k ∈ (map_range m).*1 <-> is_Some (m !! k).
Proof.
  rewrite list_elem_of_fmap. split.
  - intros ([k' a] & -> & Hin). apply elem_of_map_range in Hin. by exists a.
  - intros [a Ha]. exists (k, a). split; [done|]. by apply elem_of_map_range.
Qed.

Lemma elem_of_range_values `{MapRange K} {A} (m : gmap K A) a : a ∈ (map_range m).*2 <-> exists k, m !! k = Some a.
Proof.
  rewrite list_elem_of_fmap. split.
  - intros ([k a'] & -> & Hin). apply elem_of_map_range in Hin. by exists k.
  - intros [k Ha]. exists (k, a). split; [done|]. by apply elem_of_map_range.
Qed.

Lemma NoDup_map_range `{MapRange K} {A} (m : gmap K A) : NoDup (map_range m).*1.
Proof. rewrite map_range_perm. apply NoDup_fst_map_to_list. Qed.

(** ** List lemmas *)
Lemma if_decide_ext {A} (P Q : Prop) `{Decision P, Decision Q} (a b : A) :
  (P <-> Q) -> (if bool_decide P then a else b) = (if bool_decide Q then a else b).
Proof. intros HPQ. by rewrite (bool_decide_ext P Q HPQ). Qed.

Lemma bytes_ok_app l1 l2 : bytes_ok (l1 ++ l2) <-> bytes_ok l1 /\ bytes_ok l2.
Proof. apply Forall_app. Qed.

Lemma bytes_ok_take n l : bytes_ok l -> bytes_ok (take n l).
Proof. apply Forall_take. Qed.

Lemma bytes_ok_drop n l : bytes_ok l -> bytes_ok (drop n l).
Proof. apply Forall_drop. Qed.

Lemma bytes_ok_lookup l i b : bytes_ok l -> l !! i = Some b -> is_byte b.
Proof. intros H Hi. by apply (Forall_lookup_1 _ _ _ _ H Hi). Qed.

Lemma u8_byte z : is_byte (u8 z).
Proof. unfold is_byte, u8. apply Z.mod_pos_bound. lia. Qed.

Lemma i64_small z : - 2 ^ 63 <= z < 2 ^ 63 -> i64 z = z.
Proof. intros. unfold i64. rewrite Z.mod_small; lia. Qed.

(** Concatenating bit fields is addition. *)
Lemma lor_disjoint a b n : 0 <= n -> 0 <= b < 2 ^ n -> Z.lor (a * 2 ^ n) b = a * 2 ^ n + b.
Proof.
  intros Hn Hb. pose proof (Z.add_lor_land (a * 2 ^ n) b).
  assert (Z.land (a * 2 ^ n) b = 0); [|lia].
  apply Z.bits_inj'. intros i Hi. rewrite Z.land_spec, Z.bits_0.
  destruct (Z.lt_ge_cases i n); [by rewrite Z.mul_pow2_bits_low|].
  rewrite andb_comm. destruct (Z.eq_dec b 0) as [->|]; [by rewrite Z.bits_0|].
  rewrite (Z.bits_above_log2 b i); [done|lia|].
  apply Z.log2_lt_pow2; [lia|]. pose proof (Z.pow_le_mono_r 2 n i). lia.
Qed.

Lemma length_copy_at {A} (dst src : list A) i j :
  (i <= j)%nat -> (j <= length dst)%nat -> length (copy_at dst i j src) = length dst.
Proof.
  intros. unfold copy_at. rewrite !length_app, !length_take, length_drop. lia.
Qed.

(** A full-width copy into an exactly sized window. *)
Lemma copy_at_window {A} (pre w post src : list A) i j :
  i = length pre -> j = (length pre + length w)%nat -> length src = length w ->
  copy_at (pre ++ w ++ post) i j src = pre ++ src ++ post.
Proof.
  intros -> -> Hl. unfold copy_at.
  replace (Nat.min _ _) with (length src) by lia.
  rewrite take_app_length, firstn_all. f_equal. f_equal.
  rewrite <-drop_drop, drop_app_length, Hl. apply drop_app_length.
Qed.

#[export] Hint Resolve u8_byte bytes_ok_take bytes_ok_drop : go_inv.

(** Case analysis on the boolean decisions of a hypothesis or goal. *)
Ltac bdestruct :=
  repeat match goal with
  | H : context [bool_decide ?P] |- _ => destruct (bool_decide_reflect P)
  | |- context [bool_decide ?P] => destruct (bool_decide_reflect P)
  end; simpl in *.

(** Well-formedness of an explicit byte list from that of its elements. *)
Ltac solve_bytes :=
  unfold bytes_ok in *; repeat (apply Forall_cons_2; [assumption|]);
  first [apply Forall_nil_2 | assumption].

(** Unfolds the state monad's operations. *)
Ltac munfold :=
  unfold mignore, mtry, gets, modify, mlift, mderef, merr, mpanic in *;
  unfold mbind, M_bind, mret, M_ret in *.

(** ** A computation on a part of the state *)
Definition zoom {S T A} (get : S -> T) (put : T -> S -> S) (m : M T A) : M S A :=
  fun s => ((m (get s)).1, put (m (get s)).2 s).

Lemma zoom_eq {S T A} (get : S -> T) put (m : M T A) s r t : m (get s) = (r, t) -> zoom get put m s = (r, put t s).
Proof. unfold zoom. by intros ->. Qed.

(** ** Sums over a list of goroutines: a measure after one of them moved. *)
Lemma sum_insert {A} (f : A -> nat) l i x y : l !! i = Some y ->
  (sum_list (f <$> <[i := x]> l) + f y = sum_list (f <$> l) + f x)%nat.
Proof.
  intros H. rewrite insert_take_drop by (by eapply lookup_lt_Some). rewrite <-(take_drop_middle l i y H) at 3.
  rewrite !fmap_app, !fmap_cons, !sum_list_with_app. cbn. lia.
Qed.
