(* ===== verification/GoBytes.v ===== *)
(** * Go's standard library on bytes and strings

    [encoding/binary], [encoding/hex], [unicode/utf8], [strings] and
    [crypto/sha256], as far as the repository uses them.  Strings are byte
    lists; a rune is its code point. *)
From S2P Require Import Prelude.
From stdpp Require Import list strings.
From Stdlib Require Import ZArith Lia.
Open Scope Z_scope.

(** ** [encoding/binary] *)

(** [BigEndian.PutUint8*n] and [BigEndian.Uint8*n]. *)
Fixpoint be_put (n : nat) (z : Z) : list Z :=
  match n with
  | O => []
  | S n' => u8 (Z.shiftr z (8 * Z.of_nat n')) :: be_put n' z
  end.

Definition be_get (l : list Z) : Z := foldl (fun acc b => acc * 256 + b) 0 l.

(** [LittleEndian.PutUint64] and [LittleEndian.Uint64]. *)
Fixpoint le_put (n : nat) (z : Z) : list Z :=
  match n with
  | O => []
  | S n' => u8 z :: le_put n' (Z.shiftr z 8)
  end.

Fixpoint le_get (l : list Z) : Z :=
  match l with
  | [] => 0
  | b :: l' => b + 256 * le_get l'
  end.

(** ** Digits *)
Definition hexdigit (d : Z) : Z := if d <? 10 then 48 + d else 87 + d.

Definition hexval (c : Z) : option Z :=
  if (48 <=? c) && (c <=? 57) then Some (c - 48)
  else if (97 <=? c) && (c <=? 102) then Some (c - 87)
  else if (65 <=? c) && (c <=? 70) then Some (c - 55)
  else None.

Definition hex2 (b : Z) : list Z := [hexdigit (b / 16); hexdigit (b mod 16)].

(** [hex.EncodeToString] and [hex.DecodeString]. *)
Definition hex_encode (l : list Z) : list Z := l ≫= hex2.

Fixpoint hex_decode (s : list Z) : option (list Z) :=
  match s with
  | [] => Some []
  | c1 :: c2 :: s' =>
      h ← hexval c1; l ← hexval c2; r ← hex_decode s'; Some (16 * h + l :: r)
  | _ => None
  end.

(** [strconv.Itoa] on a non-negative integer; the fuel is the number of
    digits that can be needed. *)
Fixpoint itoa_aux (fuel : nat) (z : Z) (acc : list Z) : list Z :=
  match fuel with
  | O => acc
  | S f => if z <? 10 then 48 + z :: acc
           else itoa_aux f (z / 10) (48 + z mod 10 :: acc)
  end.

Definition itoa (z : Z) : list Z :=
  if z <? 0 then 45 :: itoa_aux 20 (- z) [] else itoa_aux 20 z [].

(** ** UTF-8: [for i, c := range s] *)
Definition is_cont (lo hi b : Z) : bool := (lo <=? b) && (b <=? hi).

Definition RuneError : Z := 65533.

(** [utf8.DecodeRuneInString]: the rune and the width of its encoding. *)
Definition decode_rune (l : list Z) : Z * nat :=
  match l with
  | [] => (RuneError, O)
  | b0 :: t =>
    if b0 <? 128 then (b0, 1%nat)
    else if (194 <=? b0) && (b0 <=? 223) then
      match t with
      | b1 :: _ => if is_cont 128 191 b1
                   then ((b0 - 192) * 64 + (b1 - 128), 2%nat) else (RuneError, 1%nat)
      | _ => (RuneError, 1%nat)
      end
    else if (224 <=? b0) && (b0 <=? 239) then
      match t with
      | b1 :: b2 :: _ =>
        let lo := if b0 =? 224 then 160 else 128 in
        let hi := if b0 =? 237 then 159 else 191 in
        if is_cont lo hi b1 && is_cont 128 191 b2
        then ((b0 - 224) * 4096 + (b1 - 128) * 64 + (b2 - 128), 3%nat)
        else (RuneError, 1%nat)
      | _ => (RuneError, 1%nat)
      end
    else if (240 <=? b0) && (b0 <=? 244) then
      match t with
      | b1 :: b2 :: b3 :: _ =>
        let lo := if b0 =? 240 then 144 else 128 in
        let hi := if b0 =? 244 then 143 else 191 in
        if is_cont lo hi b1 && is_cont 128 191 b2 && is_cont 128 191 b3
        then ((b0 - 240) * 262144 + (b1 - 128) * 4096 + (b2 - 128) * 64 + (b3 - 128), 4%nat)
        else (RuneError, 1%nat)
      | _ => (RuneError, 1%nat)
      end
    else (RuneError, 1%nat)
  end.

(** The iterations of a [range] over a string: byte index, rune and the
    encoded bytes.  Every step consumes at least one byte, so the length
    of the string is enough fuel. *)
Fixpoint range_str_aux (fuel : nat) (i : nat) (l : list Z) : list (nat * Z * list Z) :=
  match fuel, l with
  | S f, _ :: _ =>
      let '(r, w) := decode_rune l in
      (i, r, take w l) :: range_str_aux f (i + w) (drop w l)
  | _, _ => []
  end.

Definition range_str (l : list Z) : list (nat * Z * list Z) :=
  range_str_aux (length l) 0 l.

Definition runes (l : list Z) : list Z := (fun x => x.1.2) <$> range_str l.

(** ** [strings] *)

(** [unicode.IsSpace]. *)
Definition IsSpace (r : Z) : bool :=
  ((9 <=? r) && (r <=? 13)) || (r =? 32) || (r =? 133) || (r =? 160)
  || (r =? 5760) || ((8192 <=? r) && (r <=? 8202)) || (r =? 8232) || (r =? 8233)
  || (r =? 8239) || (r =? 8287) || (r =? 12288).

Definition space_seg (x : nat * Z * list Z) : bool := IsSpace x.1.2.

Fixpoint drop_while {A} (f : A -> bool) (l : list A) : list A :=
  match l with
  | [] => []
  | x :: l' => if f x then drop_while f l' else l
  end.

Definition segs_bytes (l : list (nat * Z * list Z)) : list Z := l ≫= snd.

Definition TrimSpace (s : list Z) : list Z :=
  segs_bytes (reverse (drop_while space_seg
    (reverse (drop_while space_seg (range_str s))))).

(** [strings.Fields]: the maximal runs of non-space runes. *)
Fixpoint fields_aux (l : list (nat * Z * list Z)) (cur : list Z) : list (list Z) :=
  match l with
  | [] => match cur with [] => [] | _ => [cur] end
  | x :: l' =>
      if space_seg x
      then match cur with [] => fields_aux l' [] | _ => cur :: fields_aux l' [] end
      else fields_aux l' (cur ++ x.2)
  end.

Definition Fields (s : list Z) : list (list Z) := fields_aux (range_str s) [].

Fixpoint strings_Join (l : list (list Z)) (sep : list Z) : list Z :=
  match l with
  | [] => []
  | [x] => x
  | x :: l' => x ++ sep ++ strings_Join l' sep
  end.

(** [strings.Split] on a one-byte separator. *)
Fixpoint split_byte (sep : Z) (s : list Z) : list (list Z) :=
  match s with
  | [] => [[]]
  | c :: s' =>
      match split_byte sep s' with
      | h :: t => if c =? sep then [] :: h :: t else (c :: h) :: t
      | [] => [[]]
      end
  end.

Definition HasPrefix (s p : list Z) : bool := bool_decide (take (length p) s = p).

(** [strings.Contains] *)
Fixpoint contains (s p : list Z) : bool :=
  HasPrefix s p || match s with [] => false | _ :: s' => contains s' p end.

(** [err.Error()] *)
Fixpoint error_text (e : goerr) : list Z :=
  match e with ErrNew m => str m | ErrWrap m e' => str m ++ str ": " ++ error_text e' end.

(** [io.EOF] *)
Definition io_EOF : goerr := ErrNew "EOF".

(** The letter cases of a string; [unicode.ToLower] and [unicode.ToUpper] on a
    string that is not ASCII only are parameters. *)
Class UnicodeLower := unicode_lower : list Z -> list Z.
Class UnicodeUpper := unicode_upper : list Z -> list Z.

Definition ascii_lower (b : Z) : Z := if (65 <=? b) && (b <=? 90) then b + 32 else b.
Definition ascii_upper (b : Z) : Z := if (97 <=? b) && (b <=? 122) then b - 32 else b.

Definition ToLower `{UnicodeLower} (s : list Z) : list Z :=
  if forallb (fun b => b <? 128) s then ascii_lower <$> s else unicode_lower s.

Definition ToUpper `{UnicodeUpper} (s : list Z) : list Z :=
  if forallb (fun b => b <? 128) s then ascii_upper <$> s else unicode_upper s.
Definition HasSuffix (s p : list Z) : bool :=
  bool_decide ((length p <= length s)%nat) &&
  bool_decide (drop (length s - length p) s = p).

(** Go's [<] on strings: bytewise lexicographic. *)
Fixpoint str_ltb (a b : list Z) : bool :=
  match a, b with
  | [], [] => false
  | [], _ :: _ => true
  | _ :: _, [] => false
  | x :: a', y :: b' => if x =? y then str_ltb a' b' else x <? y
  end.

(** ** [crypto/sha256] *)
Module Sha256.
(** The constants are the first 32 bits of the fractional parts of the cube and
    square roots of the first primes, found here bit by bit. *)
Definition prime (n : nat) : bool :=
  forallb (fun d => negb (Nat.eqb (n mod d) 0)) (seq 2 (n - 2)).
Definition primes : list Z :=
  Z.of_nat <$> List.filter prime (seq 2 310).

Fixpoint root (k : Z) (bits : nat) (n r : Z) : Z :=
  match bits with
  | O => r
  | S b => let r' := r + 2 ^ Z.of_nat b in root k b n (if r' ^ k <=? n then r' else r)
  end.

Definition K : list Z :=
  Eval vm_compute in (fun p => u32 (root 3 36 (p * 2 ^ 96) 0)) <$> take 64 primes.

Definition H0 : list Z :=
  Eval vm_compute in (fun p => u32 (root 2 36 (p * 2 ^ 64) 0)) <$> take 8 primes.

Definition rotr (x n : Z) : Z := Z.lor (Z.shiftr x n) (u32 (Z.shiftl x (32 - n))).
Definition s0 (x : Z) : Z := Z.lxor (Z.lxor (rotr x 7) (rotr x 18)) (Z.shiftr x 3).
Definition s1 (x : Z) : Z := Z.lxor (Z.lxor (rotr x 17) (rotr x 19)) (Z.shiftr x 10).
Definition S0 (x : Z) : Z := Z.lxor (Z.lxor (rotr x 2) (rotr x 13)) (rotr x 22).
Definition S1 (x : Z) : Z := Z.lxor (Z.lxor (rotr x 6) (rotr x 11)) (rotr x 25).
Definition ch (e f g : Z) : Z := Z.lxor (Z.land e f) (Z.land (Z.lxor e 0xffffffff) g).
Definition maj (a b c : Z) : Z := Z.lxor (Z.lxor (Z.land a b) (Z.land a c)) (Z.land b c).

(** Message schedule, newest word first. *)
Fixpoint schedule (n : nat) (w : list Z) : list Z :=
  match n with
  | O => w
  | S n' =>
      let x := u32 (s1 (nth 1 w 0) + nth 6 w 0 + s0 (nth 14 w 0) + nth 15 w 0) in
      schedule n' (x :: w)
  end.

Definition round (st : list Z) (kw : Z * Z) : list Z :=
  match st with
  | [a; b; c; d; e; f; g; h] =>
      let t1 := u32 (h + S1 e + ch e f g + kw.1 + kw.2) in
      let t2 := u32 (S0 a + maj a b c) in
      [u32 (t1 + t2); a; b; c; u32 (d + t1); e; f; g]
  | _ => st
  end.

Fixpoint words (l : list Z) : list Z :=
  match l with
  | a :: b :: c :: d :: l' => be_get [a; b; c; d] :: words l'
  | _ => []
  end.

Definition block (st : list Z) (blk : list Z) : list Z :=
  let w := reverse (schedule 48 (reverse (words blk))) in
  zip_with (fun x y => u32 (x + y)) st (foldl round st (zip K w)).

Definition pad (m : list Z) : list Z :=
  let k := Z.to_nat ((55 - len m) mod 64) in
  m ++ [128] ++ replicate k 0 ++ be_put 8 (8 * len m).

Fixpoint blocks (n : nat) (st : list Z) (m : list Z) : list Z :=
  match n with
  | O => st
  | S n' => blocks n' (block st (take 64 m)) (drop 64 m)
  end.

Definition Sum256 (m : list Z) : list Z :=
  let p := pad m in
  blocks (length p / 64)%nat H0 p ≫= be_put 4.
End Sha256.

Example sha256_abc :
  hex_encode (Sha256.Sum256 (str "abc"))
  = str "ba7816bf8f01cfea414140de5dae2223b00361a396177a9cb410ff61f20015ad".
Proof. vm_compute. reflexivity. Qed.

(** ** Lemmas *)
Lemma length_be_put n z : length (be_put n z) = n.
Proof. induction n; simpl; auto. Qed.

Lemma length_le_put n z : length (le_put n z) = n.
Proof. revert z. induction n; intros; simpl; auto. Qed.

Lemma be_put_ok n z : bytes_ok (be_put n z).
Proof. induction n; simpl; constructor; auto using u8_byte. Qed.

Lemma le_put_ok n z : bytes_ok (le_put n z).
Proof.
  revert z. induction n as [|n IH]; intros; simpl; constructor; [apply u8_byte|apply IH].
Qed.

Lemma be_get_snoc l b : be_get (l ++ [b]) = be_get l * 256 + b.
Proof. unfold be_get. by rewrite foldl_app. Qed.

Lemma be_get_acc l : forall a, foldl (fun acc b => acc * 256 + b) a l
  = a * 256 ^ len l + be_get l.
Proof.
  unfold be_get, len. induction l as [|b l IH]; intros a.
  - simpl. lia.
  - cbn [foldl length]. rewrite IH, (IH (0 * 256 + b)), Nat2Z.inj_succ, Z.pow_succ_r by lia. lia.
Qed.

Lemma be_get_cons b l : be_get (b :: l) = b * 256 ^ len l + be_get l.
Proof. unfold be_get at 1. cbn [foldl]. rewrite be_get_acc. lia. Qed.

Lemma be_get_bound l : bytes_ok l -> 0 <= be_get l < 256 ^ len l.
Proof.
  induction 1 as [|b l Hb _ IH]; [done|].
  rewrite be_get_cons. unfold len in *. cbn [length].
  rewrite Nat2Z.inj_succ, Z.pow_succ_r by lia. unfold is_byte in Hb. nia.
Qed.

Lemma be_get_put n z : be_get (be_put n z) = z mod 256 ^ Z.of_nat n.
Proof.
  induction n as [|n IH].
  - simpl. change (256 ^ 0) with 1. by rewrite Z.mod_1_r.
  - cbn [be_put]. rewrite be_get_cons, IH. unfold len, u8. rewrite length_be_put.
    rewrite Z.shiftr_div_pow2 by lia.
    replace (2 ^ (8 * Z.of_nat n)) with (256 ^ Z.of_nat n)
      by (rewrite Z.pow_mul_r by lia; done).
    rewrite Nat2Z.inj_succ, Z.pow_succ_r by lia.
    rewrite (Z.mul_comm 256), Z.rem_mul_r by lia. lia.
Qed.

(** The low bytes do not see a multiple of a higher power. *)
Lemma be_put_high k n b z : (k <= n)%nat -> be_put k (b * 256 ^ Z.of_nat n + z) = be_put k z.
Proof.
  induction k as [|k IHk]; intros Hkn; [done|]. cbn [be_put].
  rewrite IHk by lia. f_equal. unfold u8.
  rewrite !Z.shiftr_div_pow2 by lia.
  replace (Z.of_nat n) with (Z.of_nat (n - S k) + 1 + Z.of_nat k) by lia.
  rewrite !Z.pow_add_r, Z.pow_1_r by lia.
  replace (2 ^ (8 * Z.of_nat k)) with (256 ^ Z.of_nat k)
    by (rewrite Z.pow_mul_r by lia; done).
  replace (b * (256 ^ Z.of_nat (n - S k) * 256 * 256 ^ Z.of_nat k))
    with ((b * 256 ^ Z.of_nat (n - S k) * 256) * 256 ^ Z.of_nat k) by lia.
  by rewrite Z.div_add_l, Z.add_comm, Z.mod_add by lia.
Qed.

Lemma be_put_get l : bytes_ok l -> be_put (length l) (be_get l) = l.
Proof.
  intros H. induction H as [|b l Hb Hl IH]; [done|].
  cbn [length be_put]. rewrite be_get_cons.
  pose proof (be_get_bound l Hl) as Hbd. unfold len in *.
  assert (Hp : 256 ^ Z.of_nat (length l) > 0) by lia.
  f_equal.
  - unfold u8. rewrite Z.shiftr_div_pow2 by lia.
    replace (2 ^ (8 * Z.of_nat (length l))) with (256 ^ Z.of_nat (length l))
      by (rewrite Z.pow_mul_r by lia; done).
    rewrite Z.div_add_l, (Z.div_small (be_get l)) by lia.
    rewrite Z.mod_small; unfold is_byte in Hb; lia.
  - rewrite be_put_high by lia. apply IH.
Qed.

Lemma le_get_put n z : le_get (le_put n z) = z mod 256 ^ Z.of_nat n.
Proof.
  revert z. induction n as [|n IH]; intros z.
  - simpl. change (256 ^ 0) with 1. by rewrite Z.mod_1_r.
  - cbn [le_put le_get]. rewrite IH. unfold u8.
    rewrite Z.shiftr_div_pow2 by lia. change (2 ^ 8) with 256.
    rewrite Nat2Z.inj_succ, Z.pow_succ_r, Z.rem_mul_r by lia. lia.
Qed.

Lemma hexval_hexdigit d : 0 <= d < 16 -> hexval (hexdigit d) = Some d.
Proof.
  intros H. unfold hexval, hexdigit.
  destruct (Z.ltb_spec d 10); repeat case_match; f_equal; lia.
Qed.

Lemma hexdigit_byte d : 0 <= d < 16 -> is_byte (hexdigit d) /\ hexdigit d <> 58 /\ hexdigit d < 128.
Proof. intros H. unfold hexdigit, is_byte. destruct (Z.ltb_spec d 10); lia. Qed.

Lemma hex_decode_encode l : bytes_ok l -> hex_decode (hex_encode l) = Some l.
Proof.
  induction 1 as [|b l Hb _ IH]; [done|]. unfold is_byte in Hb.
  unfold hex_encode. rewrite bind_cons. fold (hex_encode l). simpl.
  rewrite !hexval_hexdigit by (split; try apply Z.mod_pos_bound; try apply Z.div_pos;
    try apply Z.div_lt_upper_bound; lia).
  simpl. rewrite IH. simpl. f_equal. f_equal. pose proof (Z.div_mod b 16). lia.
Qed.

(** Decoding always consumes input and stays inside it. *)
Lemma decode_rune_width l : l <> [] ->
  (1 <= (decode_rune l).2 <= length l)%nat.
Proof.
  intros Hl. destruct l as [|b0 t]; [done|]. unfold decode_rune.
  repeat case_match; simpl; lia.
Qed.

Lemma range_str_aux_bytes f : forall i l, (length l <= f)%nat ->
  segs_bytes (range_str_aux f i l) = l.
Proof.
  induction f as [|f IH]; intros i l Hf.
  - destruct l; [done|simpl in Hf; lia].
  - destruct l as [|b l]; [done|]. cbn [range_str_aux].
    pose proof (decode_rune_width (b :: l) ltac:(done)) as Hw.
    destruct (decode_rune (b :: l)) as [r w]. simpl in Hw.
    unfold segs_bytes. rewrite bind_cons. fold (segs_bytes (range_str_aux f (i + w) (drop w (b :: l)))).
    rewrite IH by (rewrite length_drop; simpl in *; lia).
    apply take_drop.
Qed.

(** The segments of a string concatenate back to it. *)
Lemma range_str_bytes l : segs_bytes (range_str l) = l.
Proof. by apply range_str_aux_bytes. Qed.

Lemma decode_rune_ascii b l : 0 <= b < 128 -> decode_rune (b :: l) = (b, 1%nat).
Proof. intros H. unfold decode_rune. destruct (Z.ltb_spec b 128); [done|lia]. Qed.

(** On ASCII text a rune is a byte. *)
Lemma runes_ascii l : Forall (fun b => 0 <= b < 128) l -> runes l = l.
Proof.
  unfold runes, range_str. generalize 0%nat.
  induction l as [|b l IH]; intros i H; [done|].
  inversion H; subst. cbn [length range_str_aux].
  rewrite decode_rune_ascii by done.
  rewrite fmap_cons. f_equal. by apply IH.
Qed.

Lemma decode_rune_bound l : bytes_ok l -> 0 <= (decode_rune l).1 < 2 ^ 32.
Proof.
  intros H. unfold decode_rune, is_cont. 
  destruct l as [|b0 t]; [simpl; unfold RuneError; lia|].
  inversion H as [|? ? Hb Ht]; subst. unfold is_byte in Hb.
  repeat case_match; simpl; unfold RuneError;
    rewrite ?andb_true_iff, ?Z.leb_le, ?Z.ltb_ge, ?Z.ltb_lt in *; try lia.
Qed.

Lemma str_ltb_irrefl a : str_ltb a a = false.
Proof. induction a as [|x a IH]; simpl; [done|]. by rewrite Z.eqb_refl. Qed.

Lemma str_ltb_trans a b c : str_ltb a b = true -> str_ltb b c = true -> str_ltb a c = true.
Proof.
  revert b c. induction a as [|x a IH]; intros [|y b] [|z c]; simpl; try done.
  destruct (Z.eqb_spec x y), (Z.eqb_spec y z), (Z.eqb_spec x z); subst; try lia; eauto;
  intros; rewrite ?Z.ltb_lt in *; try lia.
Qed.

Lemma str_ltb_total a b : str_ltb a b = false -> str_ltb b a = false -> a = b.
Proof.
  revert b. induction a as [|x a IH]; intros [|y b]; simpl; try done.
  rewrite (Z.eqb_sym y x). destruct (Z.eqb_spec x y).
  - subst. intros. f_equal. auto.
  - rewrite !Z.ltb_ge. lia.
Qed.

#[export] Hint Resolve be_put_ok le_put_ok : go_inv.

(** A SHA-256 digest has 32 bytes. *)
Lemma length_sha_round st kw : length st = 8%nat -> length (Sha256.round st kw) = 8%nat.
Proof. intros H. do 9 (destruct st as [|? st]; try done). Qed.

Lemma length_sha_block st blk : length st = 8%nat -> length (Sha256.block st blk) = 8%nat.
Proof.
  intros H. unfold Sha256.block. rewrite length_zip_with, H.
  assert (forall l s, length s = 8%nat -> length (foldl Sha256.round s l) = 8%nat) as Hf.
  { induction l as [|x l IH]; intros s Hs; simpl; [done|]. by apply IH, length_sha_round. }
  by rewrite Hf.
Qed.

Lemma length_Sum256 m : length (Sha256.Sum256 m) = 32%nat.
Proof.
  unfold Sha256.Sum256.
  assert (forall n s l, length s = 8%nat -> length (Sha256.blocks n s l) = 8%nat) as Hb.
  { induction n as [|n IH]; intros s l Hs; simpl; [done|]. by apply IH, length_sha_block. }
  generalize (Hb (length (Sha256.pad m) / 64)%nat Sha256.H0 (Sha256.pad m) eq_refl).
  generalize (Sha256.blocks (length (Sha256.pad m) / 64) Sha256.H0 (Sha256.pad m)). intros l Hl.
  do 9 (destruct l as [|? l]; try done).
Qed.
