(* ===== verification/GoNet.v ===== *)
(** * Go's standard library on addresses

    [net.HardwareAddr], [net.IP], [net.UDPAddr], [netip] and their text
    forms, as the repository uses them.  An address is the list of its
    bytes; a nil or empty slice is the empty list. *)
From S2P Require Import Prelude GoBytes.
From stdpp Require Import list strings gmap.
From Stdlib Require Import ZArith Lia.
Open Scope Z_scope.

(** ** Hardware addresses *)
Definition HardwareAddr_String (mac : list Z) : list Z := strings_Join (hex2 <$> mac) [58].

Definition xtoi2 (c1 c2 : Z) : option Z :=
  h ← hexval c1; l ← hexval c2; Some (16 * h + l).

(** [n] two-digit groups followed by [sep], the last one by the end. *)
Fixpoint mac_groups (n : nat) (sep : Z) (s : list Z) : option (list Z) :=
  match n, s with
  | O, [] => Some []
  | S O, [c1; c2] => b ← xtoi2 c1 c2; Some [b]
  | S n', c1 :: c2 :: e :: s' =>
      b ← xtoi2 c1 c2;
      if e =? sep then r ← mac_groups n' sep s'; Some (b :: r) else None
  | _, _ => None
  end.

(** The [0000.0000.0000] form. *)
Fixpoint mac_quads (n : nat) (s : list Z) : option (list Z) :=
  match n, s with
  | S O, [c1; c2; c3; c4] =>
      a ← xtoi2 c1 c2; b ← xtoi2 c3 c4; Some [a; b]
  | S n', c1 :: c2 :: c3 :: c4 :: e :: s' =>
      a ← xtoi2 c1 c2; b ← xtoi2 c3 c4;
      if e =? 46 then r ← mac_quads n' s'; Some (a :: b :: r) else None
  | _, _ => None
  end.

Definition mac_len (n : nat) : bool := bool_decide (n = 6 \/ n = 8 \/ n = 20)%nat.

Definition ParseMAC (s : list Z) : option (list Z) :=
  if bool_decide (length s < 14)%nat then None else
  let sep := nth 2 s 0 in
  if (sep =? 58) || (sep =? 45) then
    if bool_decide ((length s + 1) mod 3 = 0)%nat && mac_len ((length s + 1) / 3)
    then mac_groups ((length s + 1) / 3) sep s else None
  else if nth 4 s 0 =? 46 then
    if bool_decide ((length s + 1) mod 5 = 0)%nat && mac_len (2 * (length s + 1) / 5)
    then mac_quads ((length s + 1) / 5) s else None
  else None.

(** ** IP addresses *)
Definition v4InV6Prefix : list Z := [0; 0; 0; 0; 0; 0; 0; 0; 0; 0; 255; 255].

(** [nil] is the empty list. *)
Definition To4 (ip : list Z) : list Z :=
  if bool_decide (length ip = 4)%nat then ip
  else if bool_decide (length ip = 16)%nat && bool_decide (take 12 ip = v4InV6Prefix)
  then drop 12 ip else [].

Definition IP_Equal (a b : list Z) : bool :=
  if bool_decide (length a = length b) then bool_decide (a = b)
  else if bool_decide (length a = 4 /\ length b = 16)%nat then bool_decide (b = v4InV6Prefix ++ a)
  else if bool_decide (length a = 16 /\ length b = 4)%nat then bool_decide (a = v4InV6Prefix ++ b)
  else false.

Definition IPv4_String (ip : list Z) : list Z := strings_Join (itoa <$> ip) [46].

(** *** IPv6 text: the longest run of at least two zero groups is elided *)
Fixpoint hextets (ip : list Z) : list Z :=
  match ip with
  | a :: b :: r => 256 * a + b :: hextets r
  | _ => []
  end.

Definition hex_trim (v : Z) : list Z :=
  let ds := [v / 4096; v / 256 mod 16; v / 16 mod 16; v mod 16] in
  match drop_while (fun d => d =? 0) ds with
  | [] => [48]
  | l => hexdigit <$> l
  end.

Fixpoint zero_run (l : list Z) : nat :=
  match l with
  | 0 :: l' => S (zero_run l')
  | _ => O
  end.

(** Start and length of the first longest zero run. *)
Fixpoint best_run (i : nat) (l : list Z) (best : nat * nat) : nat * nat :=
  match l with
  | [] => best
  | _ :: l' =>
      let r := zero_run l in
      best_run (S i) l' (if bool_decide (2 <= r /\ best.2 < r)%nat then (i, r) else best)
  end.

Definition IPv6_String (ip : list Z) : list Z :=
  let h := hextets ip in
  let '(st, n) := best_run 0 h (8, 0)%nat in
  if bool_decide (n = 0)%nat then strings_Join (hex_trim <$> h) [58]
  else strings_Join (hex_trim <$> take st h) [58] ++ [58; 58] ++ strings_Join (hex_trim <$> drop (st + n) h) [58].

Definition IP_String (ip : list Z) : list Z :=
  if bool_decide (ip = []) then str "<nil>"
  else if negb (bool_decide (length ip = 4 \/ length ip = 16)%nat) then str "?" ++ hex_encode ip
  else match To4 ip with
       | [] => IPv6_String ip
       | p4 => IPv4_String p4
       end.

(** *** Parsing *)
Definition parse_digits (base : Z) (s : list Z) : option Z :=
  foldl (fun acc c => a ← acc; d ← hexval c; if d <? base then Some (a * base + d) else None)
    (Some 0) s.

Definition parse_octet (s : list Z) : option Z :=
  match s with
  | [] => None
  | [48] => Some 0
  | 48 :: _ => None
  | _ => if bool_decide (length s <= 3)%nat
         then v ← parse_digits 10 s; if v <=? 255 then Some v else None
         else None
  end.

Definition parseIPv4 (s : list Z) : option (list Z) :=
  match split_byte 46 s with
  | [a; b; c; d] =>
      a ← parse_octet a; b ← parse_octet b; c ← parse_octet c; d ← parse_octet d;
      Some [a; b; c; d]
  | _ => None
  end.

Fixpoint take_hex (s : list Z) : list Z :=
  match s with
  | c :: s' => match hexval c with Some _ => c :: take_hex s' | None => [] end
  | [] => []
  end.

(** The group loop of [netip.parseIPv6]; [acc] is what [ip[:i]] holds and
    [ell] the position of the ellipsis.  Eight groups need eight rounds. *)
Fixpoint v6_groups (fuel : nat) (s acc : list Z) (ell : option nat)
  : option (list Z * option nat) :=
  match fuel with
  | O => match s with [] => Some (acc, ell) | _ => None end
  | S f =>
    let ds := take_hex s in
    let rest := drop (length ds) s in
    if bool_decide (ds = []) || bool_decide (4 < length ds)%nat then None else
    match rest with
    | 46 :: _ =>
        if (bool_decide (ell = None) && negb (bool_decide (length acc = 12)%nat))
           || bool_decide (16 < length acc + 4)%nat then None
        else v4 ← parseIPv4 s; Some (acc ++ v4, ell)
    | _ =>
      v ← parse_digits 16 ds;
      let acc' := acc ++ [v / 256; v mod 256] in
      match rest with
      | [] => Some (acc', ell)
      | 58 :: 58 :: s'' =>
          if bool_decide (ell = None)
          then match s'' with
               | [] => Some (acc', Some (length acc'))
               | _ => v6_groups f s'' acc' (Some (length acc'))
               end
          else None
      | [58] => None
      | 58 :: s'' => v6_groups f s'' acc' ell
      | _ => None
      end
    end
  end.

Definition v6_expand (r : list Z * option nat) : option (list Z) :=
  let '(acc, ell) := r in
  if bool_decide (length acc < 16)%nat then
    e ← ell; Some (take e acc ++ replicate (16 - length acc) 0 ++ drop e acc)
  else if bool_decide (ell = None) then Some acc else None.

Definition parseIPv6 (s : list Z) : option (list Z) :=
  match s with
  | [58; 58] => Some (replicate 16 0)
  | 58 :: 58 :: s' => v6_groups 8 s' [] (Some O) ≫= v6_expand
  | _ => v6_groups 8 s [] None ≫= v6_expand
  end.

(** [netip.ParseAddr] restricted to addresses without a zone. *)
Fixpoint addr_kind (s : list Z) : option Z :=
  match s with
  | [] => None
  | c :: s' => if (c =? 46) || (c =? 58) || (c =? 37) then Some c else addr_kind s'
  end.

Definition ParseAddr (s : list Z) : option (list Z) :=
  match addr_kind s with
  | Some 46 => parseIPv4 s
  | Some 58 => if bool_decide (37 ∈ s) then None else parseIPv6 s
  | _ => None
  end.

(** [net.ParseIP]: always the 16-byte form. *)
Definition ParseIP (s : list Z) : option (list Z) :=
  ip ← ParseAddr s;
  Some (if bool_decide (length ip = 4)%nat then v4InV6Prefix ++ ip else ip).

(** ** Socket addresses *)

(** The dynamic types of [net.Addr] the repository meets: a websocket
    connection carries its connection id. *)
Inductive netAddr :=
  | UDPAddr (ip : list Z) (port : Z)
  | TCPAddr (ip : list Z) (port : Z)
  | WSSAddr (connID : list Z)
  | OtherAddr (text : list Z).

#[export] Instance netAddr_eq_dec : EqDecision netAddr.
Proof. solve_decision. Defined.

Definition JoinHostPort (host port : list Z) : list Z :=
  if bool_decide (58 ∈ host) then [91] ++ host ++ [93; 58] ++ port
  else host ++ [58] ++ port.

Definition ipEmptyString (ip : list Z) : list Z :=
  match ip with [] => [] | _ => IP_String ip end.

Definition Addr_String (a : netAddr) : list Z :=
  match a with
  | UDPAddr ip port | TCPAddr ip port => JoinHostPort (ipEmptyString ip) (itoa port)
  | WSSAddr c => c
  | OtherAddr t => t
  end.

Fixpoint last_colon (s : list Z) : option nat :=
  match s with
  | [] => None
  | c :: s' => match last_colon s' with
               | Some i => Some (S i)
               | None => if c =? 58 then Some O else None
               end
  end.

Fixpoint index_byte (b : Z) (s : list Z) : option nat :=
  match s with
  | [] => None
  | c :: s' => if c =? b then Some O else S <$> index_byte b s'
  end.

(** [net.SplitHostPort]; every failure is one of its address errors. *)
Definition SplitHostPort (hp : list Z) : option (list Z * list Z) :=
  i ← last_colon hp;
  '(host, j, k) ←
    (if bool_decide (head hp = Some 91) then
       e ← index_byte 93 hp;
       if bool_decide (S e = i) then Some (take (e - 1) (drop 1 hp), 1%nat, S e) else None
     else
       let host := take i hp in
       if bool_decide (58 ∈ host) then None else Some (host, 0%nat, 0%nat));
  if bool_decide (91 ∈ drop j hp) || bool_decide (93 ∈ drop k hp) then None
  else Some (host, drop (S i) hp).

(** The digit loop of [net.parsePort], with its 32-bit accumulator;
    [None] when the text needs a service lookup. *)
Fixpoint port_digits (s : list Z) (n : Z) : option Z :=
  match s with
  | [] => Some n
  | c :: s' =>
      if (48 <=? c) && (c <=? 57) then
        if 2 ^ 30 <=? n then Some (2 ^ 32 - 1)
        else let n10 := u32 (n * 10) in
             let nn := u32 (n10 + (c - 48)) in
             if nn <? n10 then Some (2 ^ 32 - 1) else port_digits s' nn
      else None
  end.

(** The system's service names ([/etc/services]), behind [net.LookupPort]. *)
Class UDPServices := udp_service : list Z -> option Z.

(** [port, _ := net.LookupPort("udp", s)]: 0 on an error. *)
Definition LookupPort `{UDPServices} (s : list Z) : Z :=
  match s with
  | [] => 0
  | c :: s' =>
      let neg := c =? 45 in
      match port_digits (if neg || (c =? 43) then s' else s) 0 with
      | Some n => if neg then 0 else if n <=? 65535 then n else 0
      | None => default 0 (udp_service s)
      end
  end.

(** ** Lemmas *)
Lemma length_HardwareAddr_String mac :
  length (HardwareAddr_String mac) = (3 * length mac - 1)%nat.
Proof.
  unfold HardwareAddr_String. induction mac as [|b [|c mac] IH]; [done|done|].
  change (strings_Join (hex2 <$> b :: c :: mac) [58])
    with (hex2 b ++ [58] ++ strings_Join (hex2 <$> c :: mac) [58]).
  rewrite !length_app, IH. simpl. lia.
Qed.

Lemma xtoi2_hex2 b : is_byte b -> xtoi2 (hexdigit (b / 16)) (hexdigit (b mod 16)) = Some b.
Proof.
  intros Hb. unfold is_byte in Hb. unfold xtoi2.
  rewrite !hexval_hexdigit by (split; try apply Z.mod_pos_bound; try apply Z.div_pos;
    try apply Z.div_lt_upper_bound; lia).
  simpl. f_equal. pose proof (Z.div_mod b 16). lia.
Qed.

Lemma mac_groups_step n sep c1 c2 e s :
  mac_groups (S (S n)) sep (c1 :: c2 :: e :: s) =
  b ← xtoi2 c1 c2; if e =? sep then r ← mac_groups (S n) sep s; Some (b :: r) else None.
Proof. done. Qed.

Lemma mac_groups_String mac : mac <> [] -> bytes_ok mac ->
  mac_groups (length mac) 58 (HardwareAddr_String mac) = Some mac.
Proof.
  unfold HardwareAddr_String. intros Hne H. induction H as [|b l Hb Hl IH]; [done|].
  destruct l as [|c l].
  - simpl. by rewrite xtoi2_hex2.
  - change (strings_Join (hex2 <$> b :: c :: l) [58])
      with (hexdigit (b / 16) :: hexdigit (b mod 16) :: 58 :: strings_Join (hex2 <$> c :: l) [58]).
    cbn [length] in IH |- *. rewrite mac_groups_step, xtoi2_hex2 by done.
    cbn [mbind option_bind]. rewrite Z.eqb_refl, IH by done. done.
Qed.

Lemma ParseMAC_String mac : length mac = 6%nat -> bytes_ok mac ->
  ParseMAC (HardwareAddr_String mac) = Some mac.
Proof.
  intros Hl Hok.
  pose proof (mac_groups_String mac ltac:(by destruct mac) Hok) as Hg. rewrite Hl in Hg.
  pose proof (length_HardwareAddr_String mac) as Hs. rewrite Hl in Hs. simpl in Hs.
  unfold ParseMAC. rewrite Hs, bool_decide_eq_false_2 by lia.
  assert (nth 2 (HardwareAddr_String mac) 0 = 58) as ->.
  { destruct mac as [|a [|b mac]]; try done. }
  exact Hg.
Qed.

Lemma HardwareAddr_String_inj a b : length a = 6%nat -> length b = 6%nat ->
  bytes_ok a -> bytes_ok b -> HardwareAddr_String a = HardwareAddr_String b -> a = b.
Proof.
  intros Ha Hb Hoa Hob Heq.
  apply (f_equal ParseMAC) in Heq. rewrite !ParseMAC_String in Heq by done. congruence.
Qed.

(** *** Dotted quads parse back *)
Definition octet_check (n : nat) : bool :=
  bool_decide (parse_octet (itoa (Z.of_nat n)) = Some (Z.of_nat n))
  && bool_decide (46 ∉ itoa (Z.of_nat n)) && bool_decide (58 ∉ itoa (Z.of_nat n))
  && bool_decide (37 ∉ itoa (Z.of_nat n)).

Lemma octet_check_all : forallb octet_check (seq 0 256) = true.
Proof. vm_compute. reflexivity. Qed.

Lemma octet_facts b : is_byte b ->
  parse_octet (itoa b) = Some b /\ 46 ∉ itoa b /\ 58 ∉ itoa b /\ 37 ∉ itoa b.
Proof.
  intros Hb. unfold is_byte in Hb. pose proof octet_check_all as H.
  rewrite forallb_forall in H. specialize (H (Z.to_nat b)).
  unfold octet_check in H. rewrite Z2Nat.id in H by lia.
  rewrite !andb_true_iff, !bool_decide_eq_true in H.
  destruct H as [[[? ?] ?] ?]; [|tauto]. apply in_seq. lia.
Qed.

Lemma split_byte_none sep s : sep ∉ s -> split_byte sep s = [s].
Proof.
  induction s as [|c s IH]; [done|]. intros H.
  rewrite not_elem_of_cons in H. destruct H as [Hc Hs]. simpl.
  rewrite IH by done. destruct (Z.eqb_spec c sep); [congruence|done].
Qed.

Lemma split_byte_app sep a s : sep ∉ a ->
  split_byte sep (a ++ sep :: s) = a :: split_byte sep s.
Proof.
  induction a as [|c a IH]; intros H.
  - simpl. destruct (split_byte sep s) eqn:E.
    + destruct s as [|x s]; simpl in E; [done|]. repeat case_match; done.
    + by rewrite Z.eqb_refl.
  - rewrite not_elem_of_cons in H. destruct H as [Hc Hs]. simpl.
    rewrite IH by done. destruct (Z.eqb_spec c sep); [congruence|done].
Qed.

Lemma addr_kind_dot s t : 46 ∉ s -> 58 ∉ s -> 37 ∉ s -> addr_kind (s ++ 46 :: t) = Some 46.
Proof.
  induction s as [|c s IH]; [done|]. rewrite !not_elem_of_cons. intros [? ?] [? ?] [? ?].
  simpl. destruct (Z.eqb_spec c 46), (Z.eqb_spec c 58), (Z.eqb_spec c 37); try congruence. auto.
Qed.

Lemma ParseAddr_IPv4_String ip : length ip = 4%nat -> bytes_ok ip ->
  ParseAddr (IPv4_String ip) = Some ip.
Proof.
  intros Hl Hok. destruct ip as [|a [|b [|c [|d [|? ?]]]]]; try done.
  unfold bytes_ok in Hok. rewrite !Forall_cons in Hok.
  destruct Hok as (Ha & Hb & Hc & Hd & _).
  apply octet_facts in Ha as (Pa & Da & Ca & Za). apply octet_facts in Hb as (Pb & Db & Cb & Zb).
  apply octet_facts in Hc as (Pc & Dc & Cc & Zc). apply octet_facts in Hd as (Pd & Dd & Cd & Zd).
  unfold ParseAddr, parseIPv4, IPv4_String. simpl.
  rewrite addr_kind_dot by done.
  rewrite !split_byte_app, split_byte_none by done. simpl.
  rewrite Pa, Pb, Pc, Pd. done.
Qed.

(** [net.ParseIP] inverts [IP.String] on IPv4 addresses. *)
Lemma ParseIP_IPv4_String ip : length ip = 4%nat -> bytes_ok ip ->
  ParseIP (IP_String ip) = Some (v4InV6Prefix ++ ip).
Proof.
  intros Hl Hok. unfold IP_String.
  rewrite bool_decide_eq_false_2 by (by destruct ip).
  rewrite bool_decide_eq_true_2 by lia. simpl.
  assert (To4 ip = ip) as Ht by (unfold To4; by rewrite bool_decide_eq_true_2).
  rewrite Ht. destruct ip as [|x ip]; [done|].
  unfold ParseIP. rewrite ParseAddr_IPv4_String by done. simpl.
  by rewrite bool_decide_eq_true_2.
Qed.

Example ParseIP_v6 : ParseIP (str "fe80::1:0:0:8") = Some [254;128;0;0;0;0;0;0;0;1;0;0;0;0;0;8]
  /\ IP_String [254;128;0;0;0;0;0;0;0;1;0;0;0;0;0;8] = str "fe80::1:0:0:8"
  /\ ParseIP (str "::ffff:1.2.3.4") = ParseIP (str "1.2.3.4")
  /\ ParseIP (str "1.2.3") = None /\ ParseIP (str "1.2.3.04") = None
  /\ Addr_String (UDPAddr [0;0;0;0;0;0;0;0;0;0;0;0;0;0;0;1] 7777) = str "[::1]:7777".
Proof. vm_compute. repeat split; reflexivity. Qed.
