(* ===== verification/Netstruct.v ===== *)
(** * Protocol messages and their codec

    The message structs of [pkg/protocol/netstruct] and [pkg/p2p] (generated
    from the [.proto] files), the packet types of [pkg/protocol/spec] and the
    generic codec of [pkg/protocol/codec].  The protobuf runtime is a third
    party library: [Proto T] is what the codec calls of it, [ProtoLaws T] its
    documented round trip.  A nil message pointer is [None]; a protobuf map
    field has no nil/empty distinction (the decoder leaves an absent map nil). *)
From S2P Require Import Prelude GoBytes.
From stdpp Require Import gmap list strings countable.
From Stdlib Require Import ZArith Lia.
Open Scope Z_scope.

(** ** [pkg/protocol/spec] *)
Definition TypeRegisterRequest : Z := 1.
Definition TypeUnregisterRequest : Z := 2.
Definition TypeHeartbeat : Z := 3.
Definition TypeData : Z := 4.
Definition TypeAck : Z := 5.
Definition TypePeerListRequest : Z := 6.
Definition TypePeerInfo : Z := 7.
Definition TypePing : Z := 8.
Definition TypeP2PStateInfo : Z := 9.
Definition TypeP2PFullState : Z := 10.
Definition TypeLeasesInfos : Z := 11.
Definition TypeOnlineCheck : Z := 12.
Definition TypeSNPublicSecret : Z := 251.
Definition TypeRegisterResponse : Z := 252.
Definition TypeRetryRegisterRequest : Z := 253.
Definition TypeICECandidate : Z := 14.
Definition TypeTURNCredentials : Z := 15.

Definition PacketType_String (pt : Z) : list Z :=
  if pt =? TypeRegisterRequest then str "RegisterRequest"
  else if pt =? TypeUnregisterRequest then str "UnregisterRequest"
  else if pt =? TypeHeartbeat then str "Heartbeat"
  else if pt =? TypeData then str "Data"
  else if pt =? TypeAck then str "Ack"
  else if pt =? TypePeerListRequest then str "PeerListRequest"
  else if pt =? TypePeerInfo then str "PeerInfo"
  else if pt =? TypePing then str "Ping"
  else if pt =? TypeP2PStateInfo then str "P2PStateInfo"
  else if pt =? TypeLeasesInfos then str "LeasesInfos"
  else if pt =? TypeRegisterResponse then str "RegisterResponse"
  else if pt =? TypeRetryRegisterRequest then str "RetryRegisterRequest"
  else if pt =? TypeSNPublicSecret then str "SNPublicSecret"
  else if pt =? TypeICECandidate then str "ICECandidate"
  else if pt =? TypeTURNCredentials then str "TURNCredentials"
  else str "Unknown".

(** ** Message structs *)
Record SnPublicSecret := mkSnPublicSecret {
  sps_IsRequest : bool; sps_PemData : list Z }.

Record RegisterRequest := mkRegisterRequest {
  rreq_EdgeMacAddr : list Z; rreq_EdgeDesc : list Z; rreq_CommunityName : list Z;
  rreq_EncryptedMachineId : list Z; rreq_ClearMachineId : list Z }.

Record RetryRegisterRequest := mkRetryRegisterRequest {}.

Record RegisterResponse := mkRegisterResponse {
  rresp_IsRegisterOk : bool; rresp_VirtualIp : list Z; rresp_Masklen : Z }.

Record HeartbeatPulse := mkHeartbeatPulse {
  hb_EdgeMacAddr : list Z; hb_CommunityName : list Z;
  hb_EncryptedMachineId : list Z; hb_ClearMachineId : list Z }.

Record UnregisterRequest := mkUnregisterRequest {
  unreg_EdgeMacAddr : list Z; unreg_CommunityName : list Z;
  unreg_EncryptedMachineId : list Z }.

Record PeerListRequest := mkPeerListRequest { plr_CommunityName : list Z }.

Record PeerToPing := mkPeerToPing { ptp_CheckId : list Z; ptp_IsPong : bool }.

Record IppoolLease := mkIppoolLease {
  il_Ip : list Z; il_Mac : list Z; il_ExpiryNs : Z; il_Sticky : bool; il_LastRenewNs : Z }.

Record LeaseEdgeInfos := mkLeaseEdgeInfos {
  lei_EdgeId : list Z; lei_IsRegistered : bool;
  lei_TimeSinceLastUpdateNs : Z; lei_VirtualIp : list Z }.

Record LeaseWithEdgeInfos := mkLeaseWithEdgeInfos {
  lwei_Lease : option IppoolLease; lwei_LeaseEdgeInfos : option LeaseEdgeInfos }.

Record LeasesInfos := mkLeasesInfos {
  li_IsRequest : bool; li_CommunityName : list Z;
  li_LeasesWithEdgesInfos : gmap (list Z) LeaseWithEdgeInfos }.

Record OnlineCheck := mkOnlineCheck { oc_IsReply : bool; oc_Cookie : list Z }.

Record Ack := mkAck {}.

Record ICECandidate := mkICECandidate {
  ice_TargetMac : list Z; ice_Candidate : list Z; ice_SdpMid : list Z;
  ice_SdpMlineIndex : Z }.

Record TURNCredentials := mkTURNCredentials {
  turn_Username : list Z; turn_Password : list Z; turn_Ttl : Z; turn_Uris : list (list Z) }.

Record PeerInfo := mkPeerInfo {
  pi_VirtualIp : list Z; pi_MacAddr : list Z; pi_PubSocket : list Z;
  pi_Community : list Z; pi_Desc : list Z }.

Record PeerInfoList := mkPeerInfoList {
  pil_HasOrigin : bool; pil_Origin : option PeerInfo;
  pil_PeerInfos : list PeerInfo; pil_EventType : Z }.

Record PeerP2PInfos := mkPeerP2PInfos {
  ppi_From : option PeerInfo; ppi_To : list PeerInfo }.

Record PeerCachedInfo := mkPeerCachedInfo {
  pci_Desc : list Z; pci_MacAddr : list Z; pci_VirtualIp : list Z;
  pci_Community : list Z; pci_LastUpdateNs : Z }.

Record P2PFullState := mkP2PFullState {
  pfs_CommunityName : list Z; pfs_IsRequest : bool;
  pfs_Reachables : gmap (list Z) PeerP2PInfos;
  pfs_Unreachables : gmap (list Z) PeerCachedInfo }.

(** *** Decidable equality and countability of the messages *)
Ltac solve_countable f g :=
  refine (inj_countable' f g _); by intros [].

#[export] Instance SnPublicSecret_eq_dec : EqDecision SnPublicSecret.
Proof. solve_decision. Defined.
#[export] Instance SnPublicSecret_countable : Countable SnPublicSecret.
Proof. solve_countable (fun x => (sps_IsRequest x, sps_PemData x)) (fun y => let '(a0, a1) := y in mkSnPublicSecret a0 a1). Defined.
#[export] Instance RegisterRequest_eq_dec : EqDecision RegisterRequest.
Proof. solve_decision. Defined.
#[export] Instance RegisterRequest_countable : Countable RegisterRequest.
Proof. solve_countable (fun x => (rreq_EdgeMacAddr x, rreq_EdgeDesc x, rreq_CommunityName x, rreq_EncryptedMachineId x, rreq_ClearMachineId x)) (fun y => let '(a0, a1, a2, a3, a4) := y in mkRegisterRequest a0 a1 a2 a3 a4). Defined.
#[export] Instance RegisterResponse_eq_dec : EqDecision RegisterResponse.
Proof. solve_decision. Defined.
#[export] Instance RegisterResponse_countable : Countable RegisterResponse.
Proof. solve_countable (fun x => (rresp_IsRegisterOk x, rresp_VirtualIp x, rresp_Masklen x)) (fun y => let '(a0, a1, a2) := y in mkRegisterResponse a0 a1 a2). Defined.
#[export] Instance HeartbeatPulse_eq_dec : EqDecision HeartbeatPulse.
Proof. solve_decision. Defined.
#[export] Instance HeartbeatPulse_countable : Countable HeartbeatPulse.
Proof. solve_countable (fun x => (hb_EdgeMacAddr x, hb_CommunityName x, hb_EncryptedMachineId x, hb_ClearMachineId x)) (fun y => let '(a0, a1, a2, a3) := y in mkHeartbeatPulse a0 a1 a2 a3). Defined.
#[export] Instance UnregisterRequest_eq_dec : EqDecision UnregisterRequest.
Proof. solve_decision. Defined.
#[export] Instance UnregisterRequest_countable : Countable UnregisterRequest.
Proof. solve_countable (fun x => (unreg_EdgeMacAddr x, unreg_CommunityName x, unreg_EncryptedMachineId x)) (fun y => let '(a0, a1, a2) := y in mkUnregisterRequest a0 a1 a2). Defined.
#[export] Instance PeerListRequest_eq_dec : EqDecision PeerListRequest.
Proof. solve_decision. Defined.
#[export] Instance PeerListRequest_countable : Countable PeerListRequest.
Proof. solve_countable (fun x => plr_CommunityName x) mkPeerListRequest. Defined.
#[export] Instance PeerToPing_eq_dec : EqDecision PeerToPing.
Proof. solve_decision. Defined.
#[export] Instance PeerToPing_countable : Countable PeerToPing.
Proof. solve_countable (fun x => (ptp_CheckId x, ptp_IsPong x)) (fun y => let '(a0, a1) := y in mkPeerToPing a0 a1). Defined.
#[export] Instance IppoolLease_eq_dec : EqDecision IppoolLease.
Proof. solve_decision. Defined.
#[export] Instance IppoolLease_countable : Countable IppoolLease.
Proof. solve_countable (fun x => (il_Ip x, il_Mac x, il_ExpiryNs x, il_Sticky x, il_LastRenewNs x)) (fun y => let '(a0, a1, a2, a3, a4) := y in mkIppoolLease a0 a1 a2 a3 a4). Defined.
#[export] Instance LeaseEdgeInfos_eq_dec : EqDecision LeaseEdgeInfos.
Proof. solve_decision. Defined.
#[export] Instance LeaseEdgeInfos_countable : Countable LeaseEdgeInfos.
Proof. solve_countable (fun x => (lei_EdgeId x, lei_IsRegistered x, lei_TimeSinceLastUpdateNs x, lei_VirtualIp x)) (fun y => let '(a0, a1, a2, a3) := y in mkLeaseEdgeInfos a0 a1 a2 a3). Defined.
#[export] Instance LeaseWithEdgeInfos_eq_dec : EqDecision LeaseWithEdgeInfos.
Proof. solve_decision. Defined.
#[export] Instance LeaseWithEdgeInfos_countable : Countable LeaseWithEdgeInfos.
Proof. solve_countable (fun x => (lwei_Lease x, lwei_LeaseEdgeInfos x)) (fun y => let '(a0, a1) := y in mkLeaseWithEdgeInfos a0 a1). Defined.
#[export] Instance LeasesInfos_eq_dec : EqDecision LeasesInfos.
Proof. solve_decision. Defined.
#[export] Instance LeasesInfos_countable : Countable LeasesInfos.
Proof. solve_countable (fun x => (li_IsRequest x, li_CommunityName x, li_LeasesWithEdgesInfos x)) (fun y => let '(a0, a1, a2) := y in mkLeasesInfos a0 a1 a2). Defined.
#[export] Instance PeerInfo_eq_dec : EqDecision PeerInfo.
Proof. solve_decision. Defined.
#[export] Instance PeerInfo_countable : Countable PeerInfo.
Proof. solve_countable (fun x => (pi_VirtualIp x, pi_MacAddr x, pi_PubSocket x, pi_Community x, pi_Desc x)) (fun y => let '(a0, a1, a2, a3, a4) := y in mkPeerInfo a0 a1 a2 a3 a4). Defined.
#[export] Instance PeerInfoList_eq_dec : EqDecision PeerInfoList.
Proof. solve_decision. Defined.
#[export] Instance PeerInfoList_countable : Countable PeerInfoList.
Proof. solve_countable (fun x => (pil_HasOrigin x, pil_Origin x, pil_PeerInfos x, pil_EventType x)) (fun y => let '(a0, a1, a2, a3) := y in mkPeerInfoList a0 a1 a2 a3). Defined.
#[export] Instance PeerP2PInfos_eq_dec : EqDecision PeerP2PInfos.
Proof. solve_decision. Defined.
#[export] Instance PeerP2PInfos_countable : Countable PeerP2PInfos.
Proof. solve_countable (fun x => (ppi_From x, ppi_To x)) (fun y => let '(a0, a1) := y in mkPeerP2PInfos a0 a1). Defined.
#[export] Instance PeerCachedInfo_eq_dec : EqDecision PeerCachedInfo.
Proof. solve_decision. Defined.
#[export] Instance PeerCachedInfo_countable : Countable PeerCachedInfo.
Proof. solve_countable (fun x => (pci_Desc x, pci_MacAddr x, pci_VirtualIp x, pci_Community x, pci_LastUpdateNs x)) (fun y => let '(a0, a1, a2, a3, a4) := y in mkPeerCachedInfo a0 a1 a2 a3 a4). Defined.
#[export] Instance P2PFullState_eq_dec : EqDecision P2PFullState.
Proof. solve_decision. Defined.
#[export] Instance P2PFullState_countable : Countable P2PFullState.
Proof. solve_countable (fun x => (pfs_CommunityName x, pfs_IsRequest x, pfs_Reachables x, pfs_Unreachables x)) (fun y => let '(a0, a1, a2, a3) := y in mkP2PFullState a0 a1 a2 a3). Defined.
#[export] Instance OnlineCheck_eq_dec : EqDecision OnlineCheck.
Proof. solve_decision. Defined.
#[export] Instance OnlineCheck_countable : Countable OnlineCheck.
Proof. solve_countable (fun x => (oc_IsReply x, oc_Cookie x)) (fun y => let '(a0, a1) := y in mkOnlineCheck a0 a1). Defined.
#[export] Instance Ack_eq_dec : EqDecision Ack.
Proof. solve_decision. Defined.
#[export] Instance Ack_countable : Countable Ack.
Proof. solve_countable (fun _ : Ack => tt) (fun _ : unit => mkAck). Defined.
#[export] Instance ICECandidate_eq_dec : EqDecision ICECandidate.
Proof. solve_decision. Defined.
#[export] Instance ICECandidate_countable : Countable ICECandidate.
Proof. solve_countable (fun x => (ice_TargetMac x, ice_Candidate x, ice_SdpMid x, ice_SdpMlineIndex x)) (fun y => let '(a0, a1, a2, a3) := y in mkICECandidate a0 a1 a2 a3). Defined.
#[export] Instance TURNCredentials_eq_dec : EqDecision TURNCredentials.
Proof. solve_decision. Defined.
#[export] Instance TURNCredentials_countable : Countable TURNCredentials.
Proof. solve_countable (fun x => (turn_Username x, turn_Password x, turn_Ttl x, turn_Uris x)) (fun y => let '(a0, a1, a2, a3) := y in mkTURNCredentials a0 a1 a2 a3). Defined.

(** [p2p.PeerInfoEventType]. *)
Definition TypeList : Z := 1.
Definition TypeRegister : Z := 2.
Definition TypeUnregister : Z := 3.

(** ** [PacketTyped]: the packet type a message travels as *)
Class PacketTyped (T : Type) := PacketType : Z.
Arguments PacketType T {_}.

#[export] Instance LeasesInfos_pt : PacketTyped LeasesInfos := TypeLeasesInfos.
#[export] Instance OnlineCheck_pt : PacketTyped OnlineCheck := TypeOnlineCheck.
#[export] Instance SnPublicSecret_pt : PacketTyped SnPublicSecret := TypeSNPublicSecret.
#[export] Instance RegisterRequest_pt : PacketTyped RegisterRequest := TypeRegisterRequest.
#[export] Instance RetryRegisterRequest_pt : PacketTyped RetryRegisterRequest := TypeRetryRegisterRequest.
#[export] Instance RegisterResponse_pt : PacketTyped RegisterResponse := TypeRegisterResponse.
#[export] Instance HeartbeatPulse_pt : PacketTyped HeartbeatPulse := TypeHeartbeat.
#[export] Instance UnregisterRequest_pt : PacketTyped UnregisterRequest := TypeUnregisterRequest.
#[export] Instance PeerListRequest_pt : PacketTyped PeerListRequest := TypePeerListRequest.
#[export] Instance PeerToPing_pt : PacketTyped PeerToPing := TypePing.
#[export] Instance ICECandidate_pt : PacketTyped ICECandidate := TypeICECandidate.
#[export] Instance TURNCredentials_pt : PacketTyped TURNCredentials := TypeTURNCredentials.
#[export] Instance Ack_pt : PacketTyped Ack := TypeAck.
#[export] Instance PeerInfoList_pt : PacketTyped PeerInfoList := TypePeerInfo.
#[export] Instance PeerP2PInfos_pt : PacketTyped PeerP2PInfos := TypeP2PStateInfo.
#[export] Instance P2PFullState_pt : PacketTyped P2PFullState := TypeP2PFullState.

(** ** The protobuf runtime and the codec *)

(** [proto.Marshal] (which refuses a string that is not UTF-8) and
    [proto.Unmarshal] at one message type. *)
Class Proto (T : Type) := {
  Marshal : T -> option (list Z);
  Unmarshal : list Z -> option T }.

(** What protobuf documents: encoding yields bytes that decode to the
    message. *)
Class ProtoLaws (T : Type) `{Proto T} : Prop := {
  unmarshal_marshal : forall x b, Marshal x = Some b -> Unmarshal b = Some x;
  marshal_ok : forall x b, Marshal x = Some b -> bytes_ok b }.

Definition errMarshal : goerr := ErrNew "proto: marshal".
Definition errUnmarshal : goerr := ErrNew "proto: unmarshal".

Definition codec_Encode {T} `{Proto T} (x : T) : outcome (list Z) :=
  match Marshal x with Some b => Ok b | None => Err errMarshal end.

Definition codec_Decode {T} `{Proto T} (data : list Z) : outcome T :=
  match Unmarshal data with
  | Some x => Ok x
  | None => Err (ErrWrap "error while decoding" errUnmarshal)
  end.

(** *** A concrete runtime for evaluation

    Any countable type has a codec over the bits of its encoding; it is the
    instance the examples run on. *)
Fixpoint pos_bits (p : positive) : list Z :=
  match p with
  | xH => []
  | xO p => 0 :: pos_bits p
  | xI p => 1 :: pos_bits p
  end.

Fixpoint bits_pos (l : list Z) : positive :=
  match l with
  | [] => xH
  | b :: l' => if b =? 0 then xO (bits_pos l') else xI (bits_pos l')
  end.

Lemma bits_pos_bits p : bits_pos (pos_bits p) = p.
Proof. induction p as [p IH|p IH|]; simpl; congruence. Qed.

Lemma pos_bits_ok p : bytes_ok (pos_bits p).
Proof.
  unfold bytes_ok, is_byte. induction p as [p IH|p IH|]; simpl; constructor; auto; lia.
Qed.

Definition countable_proto (T : Type) `{Countable T} : Proto T := {|
  Marshal x := Some (pos_bits (encode x));
  Unmarshal b := decode (bits_pos b) |}.

Lemma countable_proto_laws (T : Type) `{Countable T} : @ProtoLaws T (countable_proto T).
Proof.
  constructor; simpl; intros x b Hb; inversion Hb.
  - by rewrite bits_pos_bits, decode_encode.
  - apply pos_bits_ok.
Qed.

(** ** The codec laws *)

(** Encoding followed by decoding is the identity. *)
Lemma codec_roundtrip_lemma {T} `{ProtoLaws T} (x : T) b :
  codec_Encode x = Ok b -> codec_Decode b = Ok x.
Proof.
  unfold codec_Encode, codec_Decode. destruct (Marshal x) eqn:E; [|done].
  intros [= <-]. by rewrite (unmarshal_marshal _ _ E).
Qed.
