(* ===== verification/Protocol.v ===== *)
(** * The wire protocol: [pkg/protocol]

    Community hashing, the 30-byte ProtoV header and its packing, the VFuze
    fast-path header, raw and typed messages, and the handler table. *)
From S2P Require Import Prelude GoBytes GoNet Netstruct.
From stdpp Require Import gmap list strings.
From Stdlib Require Import ZArith Lia Znumtheory.
Open Scope Z_scope.

(** ** [protocol.go] *)
Definition DefaultTimestampDrift : Z := 16 * 10 ^ 9.

Definition FlagExtendedAddressing : Z := 0x01.
Definition FlagFromSuperNode : Z := 0x02.

(** [hash[i%length] ^= byte(c) ^ byte(i)] over the runes of [s]; a zero
    [length] divides by zero at the first rune. *)
Definition HashString (s : list Z) (length : nat) : outcome (list Z) :=
  if bool_decide (s = []) then Ok (replicate length 0)
  else if bool_decide (length = 0%nat) then Panic
  else Ok (foldl (fun hash x =>
         let '(i, c, _) := x in
         let k := (i mod length)%nat in
         alter (fun h => Z.lxor h (Z.lxor (u8 c) (u8 (Z.of_nat i)))) k hash)
       (replicate length 0) (range_str s)).

Definition fnv_prime : Z := 16777619.
Definition fnv_offset : Z := 2166136261.

(** One iteration: [hash ^= uint32(c); hash *= prime]. *)
Definition fnv_step (hash c : Z) : Z := u32 (Z.lxor hash (u32 c) * fnv_prime).

Definition HashCommunity (community : list Z) : Z :=
  if bool_decide (community = []) then 0
  else foldl fnv_step fnv_offset (runes community).

Definition VerifyCommunityHash (community : list Z) (expectedHash : Z) : bool :=
  HashCommunity community =? expectedHash.

(** ** [protoV.go] *)
Definition ProtoVHeaderSize : nat := 30.
Definition VersionV : Z := 5.

Record ProtoVHeader := mkHeader {
  Version : Z; TTL : Z; hPacketType : Z; Flags : Z;
  Sequence : Z; CommunityID : Z;
  SourceID : list Z; DestID : list Z;
  Timestamp : Z; Checksum : Z }.

(** The field types: uint8, uint16, uint32 and [6]byte. *)
Definition header_wf (h : ProtoVHeader) : Prop :=
  is_byte (Version h) /\ is_byte (TTL h) /\ is_byte (hPacketType h) /\ is_byte (Flags h) /\
  0 <= Sequence h < 2 ^ 16 /\ 0 <= CommunityID h < 2 ^ 32 /\
  (length (SourceID h) = 6%nat /\ bytes_ok (SourceID h)) /\
  (length (DestID h) = 6%nat /\ bytes_ok (DestID h)) /\
  0 <= Timestamp h < 2 ^ 32 /\ 0 <= Checksum h < 2 ^ 32.

#[export] Instance header_wf_dec h : Decision (header_wf h).
Proof. unfold header_wf. apply _. Defined.

(** [nil] for the all-zero array. *)
Definition bytesToMAC (arr : list Z) : option (list Z) :=
  if forallb (fun b => b =? 0) arr then None else Some arr.

Definition GetSrcMACAddr (h : ProtoVHeader) : option (list Z) := bytesToMAC (SourceID h).
Definition GetDstMACAddr (h : ProtoVHeader) : option (list Z) := bytesToMAC (DestID h).
Definition HasSrcMACAddr (h : ProtoVHeader) : bool := bool_decide (GetSrcMACAddr h <> None).
Definition HasDstMACAddr (h : ProtoVHeader) : bool := bool_decide (GetDstMACAddr h <> None).

Definition errNilSrc : goerr := ErrNew "NewProtoVHeader: source macAddr cannot be nil".

(** [src[:6]] panics on a shorter non-nil address; [now] is the clock in
    seconds. *)
Definition NewProtoVHeader (now ttl pType seq : Z) (community : list Z)
    (src dst : option (list Z)) : outcome ProtoVHeader :=
  let h d s := mkHeader VersionV ttl pType 0 seq (HashCommunity community) s d (u32 now) 0 in
  match src with
  | None => Err errNilSrc
  | Some s =>
      s6 ← slice s 0 6;
      match dst with
      | None => Ok (h (replicate 6 0) s6)
      | Some d => d6 ← slice d 0 6; Ok (h d6 s6)
      end
  end.

(** [time.Time.Sub] saturates; negating the minimal duration wraps. *)
Definition minDuration : Z := - 2 ^ 63.
Definition maxDuration : Z := 2 ^ 63 - 1.
Definition time_Sub (t u : Z) : Z := Z.max minDuration (Z.min maxDuration (t - u)).
Definition neg64 (d : Z) : Z := if d =? minDuration then minDuration else - d.

(** [ref] and [allowedDrift] in nanoseconds. *)
Definition VerifyTimestamp (h : ProtoVHeader) (ref allowedDrift : Z) : bool :=
  let diff := time_Sub (Timestamp h * 10 ^ 9) ref in
  let diff := if diff <? 0 then neg64 diff else diff in
  diff <=? allowedDrift.

Definition set_Flags (h : ProtoVHeader) (f : Z) : ProtoVHeader :=
  mkHeader (Version h) (TTL h) (hPacketType h) f (Sequence h) (CommunityID h)
    (SourceID h) (DestID h) (Timestamp h) (Checksum h).

(** [h.Flags &= ^flag] on a uint8. *)
Definition SetFlag (h : ProtoVHeader) (flag : Z) (value : bool) : ProtoVHeader :=
  if value then set_Flags h (Z.lor (Flags h) flag)
  else set_Flags h (Z.land (Flags h) (Z.lxor flag 255)).

Definition HasFlag (h : ProtoVHeader) (flag : Z) : bool :=
  negb (Z.land (Flags h) flag =? 0).

Definition SetFromSupernode (h : ProtoVHeader) (value : bool) : ProtoVHeader :=
  SetFlag h FlagFromSuperNode value.

Definition IsFromSupernode (h : ProtoVHeader) : bool := HasFlag h FlagFromSuperNode.

(** ** [vfuze.go] *)
Definition ProtoVFuzeSize : nat := 7.
Definition VersionVFuze : Z := 0x51.

Definition VFuzeHeaderBytes (dst : list Z) : outcome (list Z) :=
  d ← slice dst 0 6;
  Ok (copy_at (VersionVFuze :: replicate 6 0) 1 7 d).

Definition errVFuzeShort : goerr := ErrNew "short packet not vFuze".
Definition errNotVFuze : goerr := ErrNew "packet is not VersionVFuze".

Definition VFuzePacketDestMACAddr (packet : list Z) : outcome (list Z) :=
  if bool_decide (length packet < ProtoVFuzeSize)%nat then Err errVFuzeShort
  else v ← index packet 0;
       if negb (v =? VersionVFuze) then Err errNotVFuze
       else slice packet 1 7.

(** ** [ident.go] *)
Definition SNMacAddrString : list Z := str "CA:FE:C0:FF:EE:00".
Definition SupernodeMACAddr : list Z := default [] (ParseMAC SNMacAddrString).
Definition IsSNMacAddr (mac : list Z) : bool :=
  bool_decide (HardwareAddr_String mac = HardwareAddr_String SupernodeMACAddr).
Definition IsSNMacAddrString (macStr : list Z) : bool :=
  bool_decide (macStr = HardwareAddr_String SupernodeMACAddr).

(** ** [message.go] *)
Record RawMessage := mkRaw {
  Header : ProtoVHeader; Payload : list Z; FromAddr : netAddr; rawPacket : list Z }.

(** [binary.Write(BigEndian, header)]: the fields in declaration order. *)
Definition header_bytes (h : ProtoVHeader) : list Z :=
  [Version h; TTL h; hPacketType h; Flags h]
  ++ be_put 2 (Sequence h) ++ be_put 4 (CommunityID h)
  ++ SourceID h ++ DestID h ++ be_put 4 (Timestamp h) ++ be_put 4 (Checksum h).

Definition PackProtoVDatagram (h : ProtoVHeader) (payload : list Z) : list Z :=
  header_bytes h ++ payload.

(** [binary.Read(BigEndian, &header)]: fails when fewer than 30 bytes are
    left. *)
Definition header_read (b : list Z) : option ProtoVHeader :=
  if bool_decide (length b < ProtoVHeaderSize)%nat then None else
  Some (mkHeader (nth 0 b 0) (nth 1 b 0) (nth 2 b 0) (nth 3 b 0)
    (be_get (take 2 (drop 4 b))) (be_get (take 4 (drop 6 b)))
    (take 6 (drop 10 b)) (take 6 (drop 16 b))
    (be_get (take 4 (drop 22 b))) (be_get (take 4 (drop 26 b)))).

Definition errShort : goerr := ErrNew "packet too short".
Definition errVersion : goerr := ErrNew "not a VersionV packet".
Definition errHeader : goerr := ErrNew "Error parsing header".

Definition UnpackProtoVDatagram (packet : list Z) : outcome (ProtoVHeader * list Z) :=
  if bool_decide (length packet < ProtoVHeaderSize)%nat then Err errShort
  else
    version ← index packet 0;
    if negb (version =? VersionV) then Err errVersion
    else
      hb ← slice packet 0 ProtoVHeaderSize;
      match header_read hb with
      | None => Err errHeader
      | Some h => p ← slice packet ProtoVHeaderSize (length packet); Ok (h, p)
      end.

Definition mac_string (m : option (list Z)) : list Z :=
  match m with Some m => HardwareAddr_String m | None => [] end.

Definition DestMACAddr (r : RawMessage) : list Z :=
  if HasDstMACAddr (Header r) then mac_string (GetDstMACAddr (Header r)) else [].

Definition EdgeMACAddr (r : RawMessage) : list Z :=
  if HasSrcMACAddr (Header r) then mac_string (GetSrcMACAddr (Header r)) else [].

Definition CommunityHash (r : RawMessage) : Z := CommunityID (Header r).

Definition FlagPacketFromSupernode (packet : list Z) : outcome (list Z) :=
  '(h, p) ← UnpackProtoVDatagram packet;
  Ok (PackProtoVDatagram (SetFromSupernode h true) p).

Definition NewRawMessage (packet : list Z) (addr : netAddr) : outcome RawMessage :=
  match UnpackProtoVDatagram packet with
  | Ok (h, p) => Ok (mkRaw h p addr packet)
  | Err e => Err (ErrWrap "from" e)
  | Panic => Panic
  end.

Record DataMessage := mkDataMessage {
  dm_RawMsg : RawMessage; dm_EdgeMACAddr : list Z;
  dm_CommunityHash : Z; dm_DestMACAddr : list Z }.

Definition errNotData : goerr := ErrNew "not a TypeData packet".

Definition ToDataMessage (r : RawMessage) : outcome DataMessage :=
  if negb (hPacketType (Header r) =? TypeData) then Err errNotData
  else Ok (mkDataMessage r (mac_string (GetSrcMACAddr (Header r)))
             (CommunityID (Header r)) (mac_string (GetDstMACAddr (Header r)))).

Definition DataMessage_ToPacket (d : DataMessage) : list Z := rawPacket (dm_RawMsg d).

Definition errPacketType : goerr := ErrNew "not a packet of this type".

(** [ToMessage[T]]; the typed message is the raw one with the decoded
    payload. *)
Definition ToMessage (T : Type) `{PacketTyped T, Proto T} (r : RawMessage) : outcome T :=
  if negb (hPacketType (Header r) =? PacketType T) then Err errPacketType
  else codec_Decode (Payload r).

Definition MessageFromPacket (T : Type) `{PacketTyped T, Proto T}
    (packet : list Z) (addr : netAddr) : outcome (RawMessage * T) :=
  match NewRawMessage packet addr with
  | Err e => Err (ErrWrap "error while parsing MessageFromPacket" e)
  | Panic => Panic
  | Ok r => m ← ToMessage T r; Ok (r, m)
  end.

(** ** [handler.go] *)
Definition errNoHandler : goerr := ErrNew "not MessageHandler found for unkown packetType".

Definition Handle {S} (mh : gmap Z (RawMessage -> M S unit)) (r : RawMessage) : M S unit :=
  match mh !! hPacketType (Header r) with
  | None => merr errNoHandler
  | Some fn => fn r
  end.

(** ** The header round trips *)
Lemma length_header_bytes h :
  length (SourceID h) = 6%nat -> length (DestID h) = 6%nat ->
  length (header_bytes h) = ProtoVHeaderSize.
Proof.
  intros Hs Hd. unfold header_bytes. rewrite !length_app, !length_be_put, Hs, Hd. done.
Qed.

Lemma be_get_put_small n z : 0 <= z < 256 ^ Z.of_nat n -> be_get (be_put n z) = z.
Proof. intros. rewrite be_get_put. by apply Z.mod_small. Qed.

Lemma be_put_get_n n l : length l = n -> bytes_ok l -> be_put n (be_get l) = l.
Proof. intros <-. apply be_put_get. Qed.

Lemma header_read_bytes h : header_wf h -> header_read (header_bytes h) = Some h.
Proof.
  intros (Hv & Ht & Hp & Hf & Hseq & Hc & [Hs _] & [Hd _] & Hts & Hck).
  unfold header_read. rewrite length_header_bytes by done.
  rewrite bool_decide_eq_false_2 by lia. f_equal.
  destruct h as [v t p f sq c s d ts ck]. unfold header_bytes. simpl in *.
  destruct s as [|s0 [|s1 [|s2 [|s3 [|s4 [|s5 [|? ?]]]]]]]; try done.
  destruct d as [|d0 [|d1 [|d2 [|d3 [|d4 [|d5 [|? ?]]]]]]]; try done.
  change (mkHeader v t p f (be_get (be_put 2 sq)) (be_get (be_put 4 c))
    [s0; s1; s2; s3; s4; s5] [d0; d1; d2; d3; d4; d5]
    (be_get (be_put 4 ts)) (be_get (be_put 4 ck))
    = mkHeader v t p f sq c [s0; s1; s2; s3; s4; s5] [d0; d1; d2; d3; d4; d5] ts ck).
  by rewrite !be_get_put_small.
Qed.

(** The layout of a 30-byte prefix. *)
Lemma header_bytes_read b h : length b = ProtoVHeaderSize -> bytes_ok b ->
  header_read b = Some h -> header_bytes h = b.
Proof.
  intros Hl Hok. unfold header_read. rewrite bool_decide_eq_false_2 by lia.
  intros [= <-]. unfold ProtoVHeaderSize in Hl.
  do 30 (destruct b as [|? b]; [done|]). destruct b; [|done].
  unfold header_bytes. cbn [Version TTL hPacketType Flags Sequence CommunityID SourceID DestID Timestamp Checksum
    nth take drop].
  unfold bytes_ok in Hok. rewrite !Forall_cons in Hok. destruct_and! Hok.
  rewrite !be_put_get_n by first [reflexivity | solve_bytes].
  done.
Qed.

(** [UnpackProtoVDatagram] in closed form: it never panics, and it fails
    exactly on a short packet or on another version. *)
Lemma Unpack_spec packet :
  UnpackProtoVDatagram packet =
  if bool_decide (length packet < ProtoVHeaderSize)%nat then Err errShort
  else if negb (nth 0 packet 0 =? VersionV) then Err errVersion
  else match header_read (take ProtoVHeaderSize packet) with
       | Some h => Ok (h, drop ProtoVHeaderSize packet)
       | None => Err errHeader
       end.
Proof.
  unfold UnpackProtoVDatagram. case_bool_decide; [done|].
  destruct packet as [|v p]; [simpl in *; unfold ProtoVHeaderSize in *; lia|].
  cbn [index lookup list_lookup mbind outcome_bind nth].
  destruct (negb (v =? VersionV)); [done|].
  unfold slice. rewrite !bool_decide_eq_true_2 by lia. cbn [andb mbind outcome_bind].
  rewrite Nat.sub_0_r, drop_0. destruct (header_read _); [|done].
  simpl. do 2 f_equal. by rewrite firstn_all2 by (rewrite length_drop; simpl; lia).
Qed.

Lemma header_read_some b : length b = ProtoVHeaderSize -> is_Some (header_read b).
Proof. intros H. unfold header_read. rewrite bool_decide_eq_false_2 by lia. eauto. Qed.

Lemma Unpack_Pack_lemma h p : header_wf h -> Version h = VersionV ->
  UnpackProtoVDatagram (PackProtoVDatagram h p) = Ok (h, p).
Proof.
  intros Hwf Hv. pose proof Hwf as (_ & _ & _ & _ & _ & _ & [Hs _] & [Hd _] & _).
  pose proof (length_header_bytes h Hs Hd) as Hl.
  rewrite Unpack_spec. unfold PackProtoVDatagram.
  rewrite bool_decide_eq_false_2 by (rewrite length_app; lia).
  assert (nth 0 (header_bytes h ++ p) 0 = Version h) as -> by done.
  rewrite Hv, Z.eqb_refl. cbn [negb].
  rewrite <-Hl, take_app_length, drop_app_length, header_read_bytes by done. done.
Qed.

Lemma Pack_Unpack_lemma packet h p : bytes_ok packet ->
  UnpackProtoVDatagram packet = Ok (h, p) -> PackProtoVDatagram h p = packet.
Proof.
  intros Hok. rewrite Unpack_spec. case_bool_decide; [done|].
  destruct (negb _); [done|]. destruct (header_read _) as [h'|] eqn:E; [|done].
  intros [= <- <-]. unfold PackProtoVDatagram.
  rewrite (header_bytes_read (take ProtoVHeaderSize packet) h');
    [apply take_drop|rewrite length_take; lia|by apply bytes_ok_take|done].
Qed.

(** ** Flags *)
Lemma lor_byte a b : is_byte a -> is_byte b -> is_byte (Z.lor a b).
Proof.
  unfold is_byte. intros Ha Hb. split; [apply Z.lor_nonneg; lia|].
  destruct (Z.eq_dec (Z.lor a b) 0) as [->|Hne]; [lia|].
  change 256 with (2 ^ 8). apply Z.log2_lt_pow2; [pose proof (Z.lor_nonneg a b); lia|].
  rewrite Z.log2_lor by lia.
  destruct (Z.eq_dec a 0) as [->|], (Z.eq_dec b 0) as [->|]; simpl;
    repeat (apply Z.max_lub_lt); try (simpl; lia); apply Z.log2_lt_pow2; lia.
Qed.

Lemma header_wf_set_Flags h f : is_byte f -> header_wf h -> header_wf (set_Flags h f).
Proof. unfold header_wf. simpl. tauto. Qed.

Lemma HasFlag_SetFlag h flag : 0 < flag -> HasFlag (SetFlag h flag true) flag = true.
Proof.
  intros Hf. unfold HasFlag, SetFlag. simpl. apply negb_true_iff, Z.eqb_neq.
  intros H. apply (f_equal (fun z => Z.testbit z (Z.log2 flag))) in H.
  rewrite Z.land_spec, Z.lor_spec, Z.bits_0, Z.bit_log2 in H by lia.
  by destruct (Z.testbit (Flags h) (Z.log2 flag)).
Qed.

(** ** Community hashing *)
Definition fnv_inverse : Z := 899433627.

Lemma lxor_u32 a b : 0 <= a < 2 ^ 32 -> 0 <= b < 2 ^ 32 -> 0 <= Z.lxor a b < 2 ^ 32.
Proof.
  intros Ha Hb. split; [apply Z.lxor_nonneg; lia|].
  destruct (Z.eq_dec (Z.lxor a b) 0) as [->|Hne]; [lia|].
  apply Z.log2_lt_pow2; [pose proof (proj2 (Z.lxor_nonneg a b)); lia|].
  eapply Z.le_lt_trans; [apply Z.log2_lxor; lia|].
  apply Z.max_lub_lt;
    [destruct (Z.eq_dec a 0) as [->|] | destruct (Z.eq_dec b 0) as [->|]];
    try (simpl; lia); apply Z.log2_lt_pow2; lia.
Qed.

Lemma fnv_step_undo h c : 0 <= h < 2 ^ 32 -> 0 <= c < 2 ^ 32 ->
  u32 (fnv_step h c * fnv_inverse) = Z.lxor h c.
Proof.
  intros Hh Hc. pose proof (lxor_u32 h c Hh Hc) as Hx. unfold fnv_step, u32.
  rewrite (Z.mod_small c) by done.
  rewrite Z.mul_mod_idemp_l by lia. rewrite <-Z.mul_assoc.
  rewrite <-Z.mul_mod_idemp_r by lia.
  replace ((fnv_prime * fnv_inverse) mod 2 ^ 32) with 1 by (vm_compute; done).
  rewrite Z.mul_1_r. by apply Z.mod_small.
Qed.

Lemma fnv_step_range h c : 0 <= fnv_step h c < 2 ^ 32.
Proof. unfold fnv_step, u32. apply Z.mod_pos_bound. lia. Qed.

Lemma lxor_cancel_l a b c : Z.lxor a b = Z.lxor a c -> b = c.
Proof.
  intros H. apply (f_equal (Z.lxor a)) in H.
  by rewrite <-!Z.lxor_assoc, Z.lxor_nilpotent, !Z.lxor_0_l in H.
Qed.

Lemma fnv_step_inj_rune h c1 c2 : 0 <= h < 2 ^ 32 ->
  0 <= c1 < 2 ^ 32 -> 0 <= c2 < 2 ^ 32 -> fnv_step h c1 = fnv_step h c2 -> c1 = c2.
Proof.
  intros Hh H1 H2 H. apply (f_equal (fun x => u32 (x * fnv_inverse))) in H.
  rewrite !fnv_step_undo in H by done. by apply lxor_cancel_l in H.
Qed.

Lemma fnv_step_inj_hash h1 h2 c : 0 <= h1 < 2 ^ 32 -> 0 <= h2 < 2 ^ 32 ->
  0 <= c < 2 ^ 32 -> fnv_step h1 c = fnv_step h2 c -> h1 = h2.
Proof.
  intros H1 H2 Hc H. apply (f_equal (fun x => u32 (x * fnv_inverse))) in H.
  rewrite !fnv_step_undo in H by done. rewrite !(Z.lxor_comm _ c) in H.
  by apply lxor_cancel_l in H.
Qed.

Lemma fnv_fold_range l h : 0 <= h < 2 ^ 32 -> 0 <= foldl fnv_step h l < 2 ^ 32.
Proof.
  revert h. induction l as [|c l IH]; intros h Hh; [done|]. simpl. apply IH, fnv_step_range.
Qed.

Lemma fnv_fold_inj l h1 h2 : Forall (fun c => 0 <= c < 2 ^ 32) l ->
  0 <= h1 < 2 ^ 32 -> 0 <= h2 < 2 ^ 32 ->
  foldl fnv_step h1 l = foldl fnv_step h2 l -> h1 = h2.
Proof.
  intros Hl. revert h1 h2. induction Hl as [|c l Hc _ IH]; intros h1 h2 H1 H2 H; [done|].
  simpl in H. apply IH in H; [|apply fnv_step_range..].
  by apply fnv_step_inj_hash in H.
Qed.

Lemma runes_range s : bytes_ok s -> Forall (fun c => 0 <= c < 2 ^ 32) (runes s).
Proof.
  unfold runes, range_str. generalize 0%nat, (length s) at 1. intros i f. revert i s.
  induction f as [|f IH]; intros i s Hs; [constructor|].
  destruct s as [|b s]; [constructor|]. cbn [range_str_aux].
  pose proof (decode_rune_bound (b :: s) Hs) as Hr.
  destruct (decode_rune (b :: s)) as [r w]. rewrite fmap_cons. constructor; [done|].
  apply IH. by apply bytes_ok_drop.
Qed.

Lemma HashCommunity_range c : 0 <= HashCommunity c < 2 ^ 32.
Proof.
  unfold HashCommunity. case_bool_decide; [lia|]. apply fnv_fold_range.
  unfold fnv_offset. lia.
Qed.

(** ** Properties *)

(** C18. Packing a well-formed VersionV header with any payload and unpacking
    the datagram gives back the same header and payload. *)
Theorem unpack_pack h p : header_wf h -> Version h = VersionV ->
  UnpackProtoVDatagram (PackProtoVDatagram h p) = Ok (h, p).
Proof. apply Unpack_Pack_lemma. Qed.

Lemma unpack_pack_witness :
  UnpackProtoVDatagram (PackProtoVDatagram
    (mkHeader 5 64 4 2 513 16909060 [2;4;6;8;10;12] [1;3;5;7;9;11] 1700000000 7) [170; 187])
  = Ok (mkHeader 5 64 4 2 513 16909060 [2;4;6;8;10;12] [1;3;5;7;9;11] 1700000000 7, [170; 187]).
Proof.
  apply (unpack_pack (mkHeader 5 64 4 2 513 16909060 [2;4;6;8;10;12] [1;3;5;7;9;11] 1700000000 7)
    [170; 187]).
  - apply (bool_decide_unpack _). vm_compute. exact I.
  - reflexivity.
Defined.

(** The wire format is canonical: whatever datagram is accepted, packing
    the header and payload it unpacked to reproduces the same bytes. *)
Theorem pack_unpack packet h p : bytes_ok packet ->
  UnpackProtoVDatagram packet = Ok (h, p) -> PackProtoVDatagram h p = packet.
Proof. apply Pack_Unpack_lemma. Qed.

Definition sample_packet : list Z :=
  [5;64;4;0;0;9;1;2;3;4;2;2;2;2;2;2;6;6;6;6;6;6;0;0;0;1;0;0;0;0;77;88].

Lemma pack_unpack_witness : exists h p,
  UnpackProtoVDatagram sample_packet = Ok (h, p) /\ PackProtoVDatagram h p = sample_packet.
Proof.
  exists (mkHeader 5 64 4 0 9 16909060 [2;2;2;2;2;2] [6;6;6;6;6;6] 1 0), [77;88].
  split; [vm_compute; reflexivity|]. apply pack_unpack.
  - apply (bool_decide_unpack _). vm_compute. exact I.
  - vm_compute. reflexivity.
Defined.

(** Unpacking is total and its errors are exact: a packet is rejected as
    short exactly when it has fewer than 30 bytes, as foreign exactly when it
    is long enough with another version byte, and accepted otherwise; it
    never panics. *)
Theorem unpack_errors packet :
  (UnpackProtoVDatagram packet = Err errShort <-> (length packet < 30)%nat) /\
  (UnpackProtoVDatagram packet = Err errVersion <->
     (30 <= length packet)%nat /\ nth 0 packet 0 <> 5) /\
  ((exists h p, UnpackProtoVDatagram packet = Ok (h, p)) <->
     (30 <= length packet)%nat /\ nth 0 packet 0 = 5) /\
  UnpackProtoVDatagram packet <> Panic.
Proof.
  rewrite Unpack_spec. unfold ProtoVHeaderSize. case_bool_decide as Hl.
  - repeat split; naive_solver lia.
  - destruct (header_read_some (take 30 packet)) as [h Hh];
      [rewrite length_take; unfold ProtoVHeaderSize; lia|].
    rewrite Hh. unfold VersionV.
    destruct (Z.eqb_spec (nth 0 packet 0) 5); simpl; repeat split; naive_solver lia.
Qed.

(** Relaying marks the packet and nothing else: flagging an accepted
    packet yields the same bytes with the supernode bit set in byte 3. *)
Theorem flag_packet packet h p : bytes_ok packet ->
  UnpackProtoVDatagram packet = Ok (h, p) ->
  FlagPacketFromSupernode packet = Ok (<[3%nat := Z.lor (nth 3 packet 0) 2]> packet).
Proof.
  intros Hok Hu. unfold FlagPacketFromSupernode. rewrite Hu. simpl. f_equal.
  pose proof (Pack_Unpack_lemma _ _ _ Hok Hu) as <-. reflexivity.
Qed.

Lemma flag_packet_witness :
  FlagPacketFromSupernode sample_packet
  = Ok (<[3%nat := Z.lor (nth 3 sample_packet 0) 2]> sample_packet).
Proof.
  apply (flag_packet sample_packet
    (mkHeader 5 64 4 0 9 16909060 [2;2;2;2;2;2] [6;6;6;6;6;6] 1 0) [77;88]).
  - apply (bool_decide_unpack _). vm_compute. exact I.
  - vm_compute. reflexivity.
Defined.

(** The community hash separates names that differ in a single rune:
    the FNV-1a step is injective in the state and in the rune, so two such
    names never collide. *)
Theorem hash_one_rune n1 n2 a x y b : bytes_ok n1 -> bytes_ok n2 ->
  runes n1 = a ++ x :: b -> runes n2 = a ++ y :: b -> x <> y ->
  HashCommunity n1 <> HashCommunity n2.
Proof.
  intros H1 H2 E1 E2 Hxy. unfold HashCommunity.
  rewrite !bool_decide_eq_false_2 by (intros ->; by destruct a).
  rewrite E1, E2, !foldl_app. simpl. intros Heq. apply Hxy.
  pose proof (runes_range _ H1) as R1. pose proof (runes_range _ H2) as R2.
  rewrite E1 in R1. rewrite E2 in R2. rewrite Forall_app, Forall_cons in R1, R2.
  apply fnv_fold_inj in Heq; [|naive_solver|apply fnv_step_range..].
  apply fnv_step_inj_rune in Heq; try naive_solver.
  apply fnv_fold_range. unfold fnv_offset. lia.
Qed.

Lemma hash_one_rune_witness : HashCommunity (str "acme") <> HashCommunity (str "acne").
Proof.
  apply (hash_one_rune (str "acme") (str "acne") (str "ac") 109 110 (str "e"));
    try (apply (bool_decide_unpack _); vm_compute; exact I); vm_compute; try reflexivity.
Defined.

(** The VFuze header round trip: prefixing a payload with the VFuze header
    of a 6-byte destination and reading the destination back returns it. *)
Theorem vfuze_roundtrip dst payload hdr : length dst = 6%nat ->
  VFuzeHeaderBytes dst = Ok hdr ->
  VFuzePacketDestMACAddr (hdr ++ payload) = Ok dst /\ length hdr = ProtoVFuzeSize.
Proof.
  intros Hl. unfold VFuzeHeaderBytes.
  do 6 (destruct dst as [|? dst]; [done|]). destruct dst; [|done].
  simpl. intros [= <-]. split; reflexivity.
Qed.

Lemma vfuze_roundtrip_witness :
  VFuzePacketDestMACAddr ([0x51;2;0;0;0;0;7] ++ [1;2;3]) = Ok [2;0;0;0;0;7]
  /\ length [0x51;2;0;0;0;0;7] = ProtoVFuzeSize.
Proof. apply (vfuze_roundtrip [2;0;0;0;0;7]); reflexivity. Defined.

(** A typed message survives the wire: a packet built from a well-formed
    header carrying the message's packet type and the encoded message is
    parsed back to that message. *)
Theorem message_roundtrip (T : Type) `{PacketTyped T, ProtoLaws T} h (x : T) b addr :
  header_wf h -> Version h = VersionV -> hPacketType h = PacketType T ->
  codec_Encode x = Ok b ->
  MessageFromPacket T (PackProtoVDatagram h b) addr
  = Ok (mkRaw h b addr (PackProtoVDatagram h b), x).
Proof.
  intros Hwf Hv Ht Hb. unfold MessageFromPacket, NewRawMessage.
  rewrite Unpack_Pack_lemma by done. unfold ToMessage. simpl.
  rewrite Ht, Z.eqb_refl. simpl. by rewrite (codec_roundtrip_lemma _ _ Hb).
Qed.

Lemma message_roundtrip_witness :
  let P := countable_proto (list Z) in
  @MessageFromPacket (list Z) (8 : PacketTyped (list Z)) P
    (PackProtoVDatagram (mkHeader 5 64 8 0 1 77 [2;2;2;2;2;2] [4;4;4;4;4;4] 9 0)
       (pos_bits (encode [1;2;3]))) (WSSAddr [])
  = Ok (mkRaw (mkHeader 5 64 8 0 1 77 [2;2;2;2;2;2] [4;4;4;4;4;4] 9 0)
          (pos_bits (encode [1;2;3])) (WSSAddr [])
          (PackProtoVDatagram (mkHeader 5 64 8 0 1 77 [2;2;2;2;2;2] [4;4;4;4;4;4] 9 0)
             (pos_bits (encode [1;2;3]))), [1;2;3]).
Proof.
  apply (@message_roundtrip (list Z) (8 : PacketTyped (list Z)) (countable_proto (list Z))
    (countable_proto_laws (list Z))); try reflexivity.
  apply (bool_decide_unpack _). vm_compute. exact I.
Defined.

(** The timestamp check is the drift test it claims to be for every
    reference time within 292 years of the packet's clock (beyond that
    [Time.Sub] saturates): it accepts exactly when the distance is at most
    the allowed drift. *)
Theorem verify_timestamp h ref drift :
  Z.abs (Timestamp h * 10 ^ 9 - ref) < 2 ^ 63 ->
  VerifyTimestamp h ref drift = true <-> Z.abs (Timestamp h * 10 ^ 9 - ref) <= drift.
Proof.
  intros Hr. unfold VerifyTimestamp, time_Sub, neg64, minDuration, maxDuration.
  rewrite Z.min_r, Z.max_r by lia.
  destruct (Z.ltb_spec (Timestamp h * 10 ^ 9 - ref) 0); [|rewrite Z.leb_le; lia].
  destruct (Z.eqb_spec (Timestamp h * 10 ^ 9 - ref) (- 2 ^ 63)); rewrite Z.leb_le; lia.
Qed.

Lemma verify_timestamp_witness :
  VerifyTimestamp (mkHeader 5 64 3 0 1 0 [] [] 100 0) (117 * 10 ^ 9) DefaultTimestampDrift = true
  <-> Z.abs (100 * 10 ^ 9 - 117 * 10 ^ 9) <= DefaultTimestampDrift.
Proof.
  apply (verify_timestamp (mkHeader 5 64 3 0 1 0 [] [] 100 0)). vm_compute. reflexivity.
Defined.
