(* ===== verification/Frame.v ===== *)
(** * Ethernet frames: [pkg/tuntap/frame.go], [ethertype.go], [arp.go]

    The fast accessors index without checks and panic on a short frame; the
    safe ones test the length first. *)
From S2P Require Import Prelude GoBytes GoNet.
From stdpp Require Import list strings.
From Stdlib Require Import ZArith Lia.
Open Scope Z_scope.

(** ** [ethertype.go] *)
Record Ethertype := mkEthertype { Hi : Z; Lo : Z }.

#[export] Instance Ethertype_eq_dec : EqDecision Ethertype.
Proof. solve_decision. Defined.

Definition Ethertype_Value (e : Ethertype) : Z := Z.lor (Z.shiftl (Hi e) 8) (Lo e).

Definition Ethertype_String (e : Ethertype) : list Z :=
  str "0x" ++ hex_encode (be_put 2 (Ethertype_Value e)).

Definition EthertypeIPv4 : Ethertype := mkEthertype 0x08 0x00.
Definition EthertypeIPv6 : Ethertype := mkEthertype 0x86 0xdd.
Definition EthertypeARP : Ethertype := mkEthertype 0x08 0x06.

(** ** [frame.go] *)
Inductive Tagging := NotTagged | Tagged | DoubleTagged.

#[export] Instance Tagging_eq_dec : EqDecision Tagging.
Proof. solve_decision. Defined.

(** The value of the constant: the bytes taken by the tagging. *)
Definition tag_bytes (t : Tagging) : nat :=
  match t with NotTagged => 0 | Tagged => 4 | DoubleTagged => 8 end.

Definition MinFrameSize : nat := 14.
Definition MinTaggedFrameSize : nat := 18.
Definition MinDoubleTaggedSize : nat := 22.
Definition Dot1QTagType : Z := 0x8100.
Definition Dot1AdTagType : Z := 0x88a8.
Definition BroadcastAddr : list Z := [255; 255; 255; 255; 255; 255].

Definition ErrFrameTooShort : goerr := ErrNew "mac frame too short".
Definition errNotTagged : goerr := ErrNew "frame is not VLAN tagged".
Definition errBuffer : goerr := ErrNew "buffer too small".

Definition be16 (hi lo : Z) : Z := Z.lor (Z.shiftl hi 8) lo.

Definition FastDestination (f : list Z) : outcome (list Z) := slice f 0 6.
Definition FastSource (f : list Z) : outcome (list Z) := slice f 6 12.

Definition FastTaggingType (f : list Z) : outcome Tagging :=
  a ← index f 12; b ← index f 13;
  let typeField := be16 a b in
  if typeField =? Dot1QTagType then
    if bool_decide (18 <= length f)%nat then
      c ← index f 16; d ← index f 17;
      if be16 c d =? Dot1QTagType then Ok DoubleTagged else Ok Tagged
    else Ok Tagged
  else if typeField =? Dot1AdTagType then Ok DoubleTagged
  else Ok NotTagged.

Definition FastEthertype (f : list Z) (t : Tagging) : outcome Ethertype :=
  let pos := (12 + tag_bytes t)%nat in
  hi ← index f pos; lo ← index f (pos + 1); Ok (mkEthertype hi lo).

Definition FastPayload (f : list Z) (t : Tagging) : outcome (list Z) :=
  slice f (12 + tag_bytes t + 2) (length f).

Definition FastVLANID (f : list Z) : outcome Z :=
  a ← index f 14; b ← index f 15;
  Ok (Z.lor (Z.shiftl (Z.land a 0x0F) 8) b).

Definition Destination (f : list Z) : outcome (list Z) :=
  if bool_decide (length f < 6)%nat then Err ErrFrameTooShort else FastDestination f.

Definition Source (f : list Z) : outcome (list Z) :=
  if bool_decide (length f < 12)%nat then Err ErrFrameTooShort else FastSource f.

Definition DetectTagging (f : list Z) : outcome Tagging :=
  if bool_decide (length f < MinFrameSize)%nat then Err ErrFrameTooShort
  else FastTaggingType f.

(** The size test shared by [GetEthertype] and [ParseFrame]. *)
Definition min_size (t : Tagging) : nat :=
  match t with
  | NotTagged => MinFrameSize
  | Tagged => MinTaggedFrameSize
  | DoubleTagged => MinDoubleTaggedSize
  end.

Definition GetEthertype (f : list Z) : outcome Ethertype :=
  if bool_decide (length f < MinFrameSize)%nat then Err ErrFrameTooShort
  else t ← FastTaggingType f;
       if bool_decide (length f < min_size t)%nat then Err ErrFrameTooShort
       else FastEthertype f t.

(** [Payload] asks for two bytes more than [GetEthertype] of an untagged
    frame. *)
Definition payload_min_size (t : Tagging) : nat :=
  match t with
  | NotTagged => MinFrameSize + 2
  | Tagged => MinTaggedFrameSize
  | DoubleTagged => MinDoubleTaggedSize
  end.

Definition frame_Payload (f : list Z) : outcome (list Z) :=
  if bool_decide (length f < MinFrameSize)%nat then Err ErrFrameTooShort
  else t ← FastTaggingType f;
       if bool_decide (length f < payload_min_size t)%nat then Err ErrFrameTooShort
       else FastPayload f t.

Definition GetVLANID (f : list Z) : outcome Z :=
  if bool_decide (length f < MinFrameSize)%nat then Err ErrFrameTooShort
  else t ← FastTaggingType f;
       if bool_decide (t = NotTagged) then Err errNotTagged
       else if bool_decide (length f < MinTaggedFrameSize)%nat then Err ErrFrameTooShort
       else FastVLANID f.

Definition IsBroadcast (addr : list Z) : bool :=
  if bool_decide (length addr < 6)%nat then false
  else (nth 0 addr 0 =? 0xff) && (nth 1 addr 0 =? 0xff) && (nth 2 addr 0 =? 0xff)
       && (nth 3 addr 0 =? 0xff) && (nth 4 addr 0 =? 0xff) && (nth 5 addr 0 =? 0xff).

Definition IsMulticast (addr : list Z) : bool :=
  bool_decide (0 < length addr)%nat && (Z.land (nth 0 addr 0) 0x01 =? 0x01).

Definition IsIPv4Multicast (addr : list Z) : bool :=
  if bool_decide (length addr < 3)%nat then false
  else (nth 0 addr 0 =? 0x01) && (nth 1 addr 0 =? 0x00) && (nth 2 addr 0 =? 0x5e).

Definition IsIPv6Multicast (addr : list Z) : bool :=
  if bool_decide (length addr < 2)%nat then false
  else (nth 0 addr 0 =? 0x33) && (nth 1 addr 0 =? 0x33).

(** The writes of [NewFrame] and [NewFrameInto]. *)
Definition write_frame (buf dst src : list Z) (e : Ethertype) (payload : list Z) : list Z :=
  let buf := copy_at buf 0 6 dst in
  let buf := copy_at buf 6 12 src in
  let buf := <[12%nat := Hi e]> buf in
  let buf := <[13%nat := Lo e]> buf in
  copy_at buf 14 (length buf) payload.

Definition NewFrame (dst src : list Z) (e : Ethertype) (payload : list Z) : list Z :=
  write_frame (replicate (14 + length payload) 0) dst src e payload.

(** The buffer after the call and the number of bytes written. *)
Definition NewFrameInto (buffer dst src : list Z) (e : Ethertype) (payload : list Z)
  : outcome (list Z * nat) :=
  let requiredSize := (14 + length payload)%nat in
  if bool_decide (length buffer < requiredSize)%nat then Err errBuffer
  else Ok (write_frame buffer dst src e payload, requiredSize).

(** The results of [ParseFrame] besides the error; on an error some of them
    are already set. *)
Record Parsed := mkParsed {
  p_dst : list Z; p_src : list Z; p_tagging : Tagging; p_ethertype : Ethertype;
  p_payload : list Z; p_err : option goerr }.

Definition ParseFrame (f : list Z) : outcome Parsed :=
  if bool_decide (length f < MinFrameSize)%nat
  then Ok (mkParsed [] [] NotTagged (mkEthertype 0 0) [] (Some ErrFrameTooShort))
  else
    dst ← FastDestination f; src ← FastSource f; t ← FastTaggingType f;
    if bool_decide (length f < min_size t)%nat
    then Ok (mkParsed dst src t (mkEthertype 0 0) [] (Some ErrFrameTooShort))
    else e ← FastEthertype f t; p ← FastPayload f t;
         Ok (mkParsed dst src t e p None).

(** ** [arp.go]: the frame [SendGratuitousARP] hands to [sendRawFrame] *)
Definition errARPv4 : goerr := ErrNew "SendGratuitousARP currently only supports IPv4".
Definition errNoHwAddr : goerr := ErrNew "cannot send gratuitous ARP: hardware address not available".
Definition errShortHwAddr : goerr := ErrNew "cannot send gratuitous ARP: invalid hardware address length".

(** [hw] is what [HardwareAddr()] of the interface returns, [None] for nil. *)
Definition SendGratuitousARP (hw : option (list Z)) (vip : list Z) : outcome (list Z) :=
  match To4 vip with
  | [] => Err errARPv4
  | ip4 =>
    match hw with
    | None => Err errNoHwAddr
    | Some mac =>
      if bool_decide (length mac < 6)%nat then Err errShortHwAddr else
      let srcMAC := take 6 mac in
      let a := replicate 28 0 in
      let a := copy_at a 0 2 (be_put 2 1) in
      let a := copy_at a 2 4 (be_put 2 0x0800) in
      let a := <[4%nat := 6]> a in
      let a := <[5%nat := 4]> a in
      let a := copy_at a 6 8 (be_put 2 2) in
      let a := copy_at a 8 14 srcMAC in
      let a := copy_at a 14 18 ip4 in
      let a := copy_at a 18 24 srcMAC in
      let a := copy_at a 24 28 ip4 in
      let e := replicate (14 + 28) 0 in
      let e := copy_at e 0 6 [0xff; 0xff; 0xff; 0xff; 0xff; 0xff] in
      let e := copy_at e 6 12 srcMAC in
      let e := copy_at e 12 14 [0x08; 0x06] in
      let e := copy_at e 14 42 a in
      Ok e
    end
  end.

(** ** Lemmas *)
Lemma index_ok {A} (l : list A) i : (i < length l)%nat -> exists x, index l i = Ok x /\ l !! i = Some x.
Proof.
  intros H. unfold index. destruct (lookup_lt_is_Some_2 l i H) as [x Hx]. rewrite Hx. eauto.
Qed.

Lemma slice_ok {A} (l : list A) i j : (i <= j)%nat -> (j <= length l)%nat ->
  slice l i j = Ok (take (j - i) (drop i l)).
Proof. intros. unfold slice. by rewrite !bool_decide_eq_true_2. Qed.

Lemma FastTaggingType_ok f : (14 <= length f)%nat -> exists t, FastTaggingType f = Ok t.
Proof.
  intros H. unfold FastTaggingType.
  destruct (index_ok f 12) as (a & -> & _); [lia|].
  destruct (index_ok f 13) as (b & -> & _); [lia|]. simpl.
  destruct (be16 a b =? Dot1QTagType); [|destruct (be16 a b =? Dot1AdTagType); eauto].
  case_bool_decide; [|eauto].
  destruct (index_ok f 16) as (c & -> & _); [lia|].
  destruct (index_ok f 17) as (d & -> & _); [lia|]. simpl.
  destruct (be16 c d =? Dot1QTagType); eauto.
Qed.

Lemma FastEthertype_ok f t : (min_size t <= length f)%nat -> exists e, FastEthertype f t = Ok e.
Proof.
  intros H. unfold FastEthertype.
  assert (12 + tag_bytes t + 1 < length f)%nat by (destruct t; simpl in *; unfold MinFrameSize, MinTaggedFrameSize, MinDoubleTaggedSize in *; lia).
  destruct (index_ok f (12 + tag_bytes t)) as (a & -> & _); [lia|].
  destruct (index_ok f (12 + tag_bytes t + 1)) as (b & -> & _); [lia|]. simpl. eauto.
Qed.

Lemma FastPayload_ok f t : (min_size t <= length f)%nat ->
  FastPayload f t = Ok (drop (14 + tag_bytes t) f).
Proof.
  intros H. unfold FastPayload.
  assert (12 + tag_bytes t + 2 <= length f)%nat by (destruct t; simpl in *; unfold MinFrameSize, MinTaggedFrameSize, MinDoubleTaggedSize in *; lia).
  rewrite slice_ok by lia. f_equal.
  rewrite firstn_all2 by (rewrite length_drop; lia). f_equal. lia.
Qed.

(** The frame laid out by [write_frame] when the addresses are complete. *)
Lemma write_frame_layout hdr rest dst src e payload :
  length hdr = 14%nat -> length dst = 6%nat -> length src = 6%nat ->
  (length payload <= length rest)%nat ->
  write_frame (hdr ++ rest) dst src e payload
  = dst ++ src ++ [Hi e; Lo e] ++ payload ++ drop (length payload) rest.
Proof.
  intros Hh Hd Hs Hp.
  do 14 (destruct hdr as [|? hdr]; [done|]). destruct hdr; [|done].
  do 6 (destruct dst as [|? dst]; [done|]). destruct dst; [|done].
  do 6 (destruct src as [|? src]; [done|]). destruct src; [|done].
  unfold write_frame, copy_at. simpl. rewrite Nat.sub_0_r, Nat.min_r by lia.
  by rewrite firstn_all.
Qed.

Lemma NewFrame_layout dst src e payload : length dst = 6%nat -> length src = 6%nat ->
  NewFrame dst src e payload = dst ++ src ++ [Hi e; Lo e] ++ payload.
Proof.
  intros Hd Hs. unfold NewFrame. rewrite replicate_add.
  rewrite write_frame_layout by (rewrite ?length_replicate; done).
  rewrite drop_ge by (rewrite length_replicate; lia). by rewrite app_nil_r.
Qed.

Lemma be16_value e : be16 (Hi e) (Lo e) = Ethertype_Value e.
Proof. done. Qed.

Lemma min_size_le_14 t : (14 <= min_size t)%nat.
Proof. destruct t; unfold min_size, MinFrameSize, MinTaggedFrameSize, MinDoubleTaggedSize; lia. Qed.

Lemma FastVLANID_ok f : (16 <= length f)%nat -> bytes_ok f ->
  exists v, FastVLANID f = Ok v /\ 0 <= v < 4096.
Proof.
  intros H Hok. unfold FastVLANID.
  destruct (index_ok f 14) as (a & -> & _); [lia|].
  destruct (index_ok f 15) as (b & -> & Hb); [lia|]. simpl. eexists. split; [done|].
  pose proof (bytes_ok_lookup _ _ _ Hok Hb) as Hbb. unfold is_byte in Hbb.
  assert (Z.land a 15 = a mod 16) as -> by (change 15 with (Z.ones 4); rewrite Z.land_ones by lia; done).
  pose proof (Z.mod_pos_bound a 16 ltac:(lia)).
  rewrite Z.shiftl_mul_pow2, lor_disjoint by lia. lia.
Qed.

(** ** Properties *)

(** The bounds-checked frame accessors never panic, whatever bytes the
    TAP device or a peer delivers. *)
Theorem safe_accessors f :
  Destination f <> Panic /\ Source f <> Panic /\ DetectTagging f <> Panic /\
  GetEthertype f <> Panic /\ frame_Payload f <> Panic /\ GetVLANID f <> Panic /\
  ParseFrame f <> Panic.
Proof.
  unfold Destination, Source, DetectTagging, GetEthertype, frame_Payload, GetVLANID, ParseFrame,
    FastDestination, FastSource, MinFrameSize.
  split_and!.
  - case_bool_decide; [done|]. by rewrite slice_ok by lia.
  - case_bool_decide; [done|]. by rewrite slice_ok by lia.
  - case_bool_decide; [done|]. destruct (FastTaggingType_ok f) as [t ->]; [lia|done].
  - case_bool_decide; [done|]. destruct (FastTaggingType_ok f) as [t ->]; [lia|]. simpl.
    case_bool_decide; [done|]. destruct (FastEthertype_ok f t) as [e ->]; [lia|done].
  - case_bool_decide; [done|]. destruct (FastTaggingType_ok f) as [t ->]; [lia|]. simpl.
    case_bool_decide; [done|]. rewrite FastPayload_ok; [done|].
    destruct t; simpl in *; unfold MinFrameSize in *; lia.
  - case_bool_decide; [done|]. destruct (FastTaggingType_ok f) as [t ->]; [lia|]. simpl.
    repeat case_bool_decide; [done|done|]. unfold FastVLANID, MinTaggedFrameSize in *.
    destruct (index_ok f 14) as (a & -> & _); [lia|].
    by destruct (index_ok f 15) as (b & -> & _); [lia|].
  - case_bool_decide; [done|]. rewrite !slice_ok by lia. simpl.
    destruct (FastTaggingType_ok f) as [t ->]; [lia|]. simpl. case_bool_decide; [done|].
    destruct (FastEthertype_ok f t) as [e ->]; [lia|]. simpl.
    by rewrite FastPayload_ok by lia.
Qed.

(** Building a frame and parsing it is a round trip: for complete
    addresses and an ethertype that is not a VLAN tag, [ParseFrame] of
    [NewFrame] returns the same destination, source, ethertype and payload,
    untagged and without error. *)
Theorem parse_new_frame dst src e payload :
  length dst = 6%nat -> length src = 6%nat ->
  Ethertype_Value e <> Dot1QTagType -> Ethertype_Value e <> Dot1AdTagType ->
  ParseFrame (NewFrame dst src e payload) = Ok (mkParsed dst src NotTagged e payload None).
Proof.
  intros Hd Hs Hq Ha. rewrite NewFrame_layout by done.
  do 6 (destruct dst as [|? dst]; [done|]). destruct dst; [|done].
  do 6 (destruct src as [|? src]; [done|]). destruct src; [|done].
  rewrite <-be16_value in Hq, Ha. unfold ParseFrame.
  rewrite bool_decide_eq_false_2 by (simpl; unfold MinFrameSize; lia).
  unfold FastDestination, FastSource. rewrite !slice_ok by (simpl; lia).
  unfold FastTaggingType. cbn [index lookup list_lookup mbind outcome_bind app].
  rewrite (proj2 (Z.eqb_neq _ _) Hq), (proj2 (Z.eqb_neq _ _) Ha).
  cbn [mbind outcome_bind min_size].
  rewrite bool_decide_eq_false_2 by (simpl; unfold MinFrameSize; lia).
  rewrite FastPayload_ok by (simpl; unfold MinFrameSize; lia).
  cbn [FastEthertype tag_bytes index lookup list_lookup mbind outcome_bind Nat.add].
  by destruct e.
Qed.

Lemma parse_new_frame_witness :
  ParseFrame (NewFrame [2;0;0;0;0;1] [2;0;0;0;0;2] EthertypeIPv4 [69;0;0;20])
  = Ok (mkParsed [2;0;0;0;0;1] [2;0;0;0;0;2] NotTagged EthertypeIPv4 [69;0;0;20] None).
Proof. apply parse_new_frame; try reflexivity; vm_compute; discriminate. Defined.

(** Writing a frame into a preallocated buffer produces exactly the bytes
    [NewFrame] allocates, reports their number and leaves the rest of the
    buffer as it was; a buffer that is too small is refused. *)
Theorem new_frame_into buffer dst src e payload :
  length dst = 6%nat -> length src = 6%nat ->
  NewFrameInto buffer dst src e payload =
  if bool_decide (length buffer < 14 + length payload)%nat then Err errBuffer
  else Ok (NewFrame dst src e payload ++ drop (14 + length payload) buffer,
           (14 + length payload)%nat).
Proof.
  intros Hd Hs. unfold NewFrameInto. case_bool_decide; [done|]. do 2 f_equal.
  rewrite NewFrame_layout by done.
  rewrite <-(take_drop 14 buffer) at 1.
  rewrite write_frame_layout by (rewrite ?length_take, ?length_drop; lia).
  rewrite drop_drop. by rewrite <-!app_assoc.
Qed.

Lemma new_frame_into_witness :
  NewFrameInto (replicate 17 9) [1;1;1;1;1;1] [2;2;2;2;2;2] EthertypeARP [5;6]
  = Ok (NewFrame [1;1;1;1;1;1] [2;2;2;2;2;2] EthertypeARP [5;6] ++ [9], 16%nat).
Proof.
  exact (new_frame_into (replicate 17 9) [1;1;1;1;1;1] [2;2;2;2;2;2] EthertypeARP [5;6]
    eq_refl eq_refl).
Defined.

(** The all-in-one parser agrees with the single accessors: when
    [ParseFrame] succeeds, [Destination], [Source], [DetectTagging] and
    [GetEthertype] return its fields, and [Payload] returns its payload
    except on an untagged frame of 14 or 15 bytes, which [Payload] alone
    rejects as too short. *)
Theorem parse_frame_agrees f r : ParseFrame f = Ok r -> p_err r = None ->
  Destination f = Ok (p_dst r) /\ Source f = Ok (p_src r) /\
  DetectTagging f = Ok (p_tagging r) /\ GetEthertype f = Ok (p_ethertype r) /\
  frame_Payload f =
    (if bool_decide (p_tagging r = NotTagged /\ length f < 16)%nat
     then Err ErrFrameTooShort else Ok (p_payload r)).
Proof.
  unfold ParseFrame, Destination, Source, DetectTagging, GetEthertype, frame_Payload,
    FastDestination, FastSource, MinFrameSize.
  case_bool_decide as Hl; [by intros [= <-]|].
  rewrite !slice_ok by lia. rewrite !(bool_decide_eq_false_2 (length f < _)%nat) by lia.
  destruct (FastTaggingType_ok f) as [t Ht]; [lia|]. rewrite Ht. cbn [mbind outcome_bind].
  case_bool_decide as Hm; [by intros [= <-]|].
  destruct (FastEthertype_ok f t) as [e He]; [lia|]. rewrite He. cbn [mbind outcome_bind].
  rewrite FastPayload_ok by lia. intros [= <-] _. cbn. split_and!; try done.
  destruct t; simpl in *; unfold MinFrameSize in *; repeat case_bool_decide; try done; naive_solver lia.
Qed.

Lemma parse_frame_agrees_witness :
  let f := NewFrame [1;1;1;1;1;1] [2;2;2;2;2;2] EthertypeARP [7] in
  Destination f = Ok [1;1;1;1;1;1] /\ Source f = Ok [2;2;2;2;2;2] /\
  DetectTagging f = Ok NotTagged /\ GetEthertype f = Ok EthertypeARP /\
  frame_Payload f = Err ErrFrameTooShort.
Proof.
  exact (parse_frame_agrees (NewFrame [1;1;1;1;1;1] [2;2;2;2;2;2] EthertypeARP [7])
    (mkParsed [1;1;1;1;1;1] [2;2;2;2;2;2] NotTagged EthertypeARP [7] None) eq_refl eq_refl).
Defined.

(** The gratuitous ARP announcement is a broadcast ARP reply for the given
    IPv4 address: the emitted frame parses as a 42-byte broadcast frame from
    the interface's MAC with the ARP ethertype, whose payload announces that
    MAC and IP as both sender and target. *)
Theorem gratuitous_arp mac vip ip4 : length mac = 6%nat -> length ip4 = 4%nat ->
  To4 vip = ip4 ->
  exists frame, SendGratuitousARP (Some mac) vip = Ok frame /\ length frame = 42%nat /\
    ParseFrame frame = Ok (mkParsed BroadcastAddr mac NotTagged EthertypeARP
      ([0; 1; 8; 0; 6; 4; 0; 2] ++ mac ++ ip4 ++ mac ++ ip4) None).
Proof.
  intros Hm Hi Ht. unfold SendGratuitousARP. rewrite Ht.
  do 4 (destruct ip4 as [|? ip4]; [done|]). destruct ip4; [|done].
  do 6 (destruct mac as [|? mac]; [done|]). destruct mac; [|done].
  rewrite bool_decide_eq_false_2 by (simpl; lia).
  eexists. split; [reflexivity|]. split; reflexivity.
Qed.

Lemma gratuitous_arp_witness : exists frame,
  SendGratuitousARP (Some [2;0;0;0;0;5]) (v4InV6Prefix ++ [10;128;0;7]) = Ok frame /\
  length frame = 42%nat /\
  ParseFrame frame = Ok (mkParsed BroadcastAddr [2;0;0;0;0;5] NotTagged EthertypeARP
    ([0; 1; 8; 0; 6; 4; 0; 2] ++ [2;0;0;0;0;5] ++ [10;128;0;7] ++ [2;0;0;0;0;5] ++ [10;128;0;7]) None).
Proof. apply gratuitous_arp; reflexivity. Defined.

(** A VLAN id read from a frame is a 12-bit value, and only a frame
    recognised as tagged yields one. *)
Theorem vlan_id_range f v : bytes_ok f -> GetVLANID f = Ok v ->
  0 <= v < 4096 /\ DetectTagging f <> Ok NotTagged.
Proof.
  intros Hok. unfold GetVLANID, DetectTagging. case_bool_decide; [done|].
  destruct (FastTaggingType f) as [t| |]; simpl; try done.
  repeat case_bool_decide; try done. intros Hv.
  destruct (FastVLANID_ok f) as (v' & Hv' & Hr); [unfold MinTaggedFrameSize in *; lia|done|].
  split; [congruence|]. congruence.
Qed.

Lemma vlan_id_range_witness :
  0 <= 291 < 4096 /\
  DetectTagging [1;1;1;1;1;1;2;2;2;2;2;2;0x81;0;0x41;0x23;8;0] <> Ok NotTagged.
Proof.
  apply vlan_id_range.
  - apply (bool_decide_unpack _). vm_compute. exact I.
  - vm_compute. reflexivity.
Defined.
