(* ===== verification/EtherTable.v ===== *)
(** * Protocol numbers: the tables of [pkg/tuntap/ethertype.go]

    The registered types an Ethernet frame can carry and the protocols of an IP
    packet, by the names of the source. *)
From S2P Require Import Prelude GoBytes Frame.
From stdpp Require Import list strings sorting.
From Stdlib Require Import ZArith Lia.
Open Scope Z_scope.

Definition Ethertypes : list (string * Ethertype) :=
  [
   ("IPv4", mkEthertype 0x08 0x00); ("ARP", mkEthertype 0x08 0x06); ("WakeOnLAN", mkEthertype 0x08 0x42);
   ("TRILL", mkEthertype 0x22 0xF3); ("DECnetPhase4", mkEthertype 0x60 0x03); ("RARP", mkEthertype 0x80 0x35);
   ("AppleTalk", mkEthertype 0x80 0x9B); ("AARP", mkEthertype 0x80 0xF3); ("IPX1", mkEthertype 0x81 0x37);
   ("IPX2", mkEthertype 0x81 0x38); ("QNXQnet", mkEthertype 0x82 0x04); ("IPv6", mkEthertype 0x86 0xDD);
   ("EthernetFlowControl", mkEthertype 0x88 0x08); ("IEEE802_3", mkEthertype 0x88 0x09); ("CobraNet", mkEthertype 0x88 0x19);
   ("MPLSUnicast", mkEthertype 0x88 0x47); ("MPLSMulticast", mkEthertype 0x88 0x48); ("PPPoEDiscovery", mkEthertype 0x88 0x63);
   ("PPPoESession", mkEthertype 0x88 0x64); ("JumboFrames", mkEthertype 0x88 0x70); ("HomePlug1_0MME", mkEthertype 0x88 0x7B);
   ("IEEE802_1X", mkEthertype 0x88 0x8E); ("PROFINET", mkEthertype 0x88 0x92); ("HyperSCSI", mkEthertype 0x88 0x9A);
   ("AoE", mkEthertype 0x88 0xA2); ("EtherCAT", mkEthertype 0x88 0xA4); ("EthernetPowerlink", mkEthertype 0x88 0xAB);
   ("LLDP", mkEthertype 0x88 0xCC); ("SERCOS3", mkEthertype 0x88 0xCD); ("HomePlugAVMME", mkEthertype 0x88 0xE1);
   ("MRP", mkEthertype 0x88 0xE3); ("IEEE802_1AE", mkEthertype 0x88 0xE5); ("IEEE1588", mkEthertype 0x88 0xF7);
   ("IEEE802_1ag", mkEthertype 0x89 0x02); ("FCoE", mkEthertype 0x89 0x06); ("FCoEInit", mkEthertype 0x89 0x14);
   ("RoCE", mkEthertype 0x89 0x15); ("CTP", mkEthertype 0x90 0x00); ("VeritasLLT", mkEthertype 0xCA 0xFE)].

Definition IPProtocols : list (string * Z) :=
  [
   ("HOPOPT", 0x00); ("ICMP", 0x01); ("IGMP", 0x02); ("GGP", 0x03); ("IPv4Encapsulation", 0x04);
   ("ST", 0x05); ("TCP", 0x06); ("CBT", 0x07); ("EGP", 0x08); ("IGP", 0x09);
   ("BBN_RCC_MON", 0x0A); ("NVP_II", 0x0B); ("PUP", 0x0C); ("ARGUS", 0x0D); ("EMCON", 0x0E);
   ("XNET", 0x0F); ("CHAOS", 0x10); ("UDP", 0x11); ("MUX", 0x12); ("DCN_MEAS", 0x13);
   ("HMP", 0x14); ("PRM", 0x15); ("XNS_IDP", 0x16); ("TRUNK_1", 0x17); ("TRUNK_2", 0x18);
   ("LEAF_1", 0x19); ("LEAF_2", 0x1A); ("RDP", 0x1B); ("IRTP", 0x1C); ("ISO_TP4", 0x1D);
   ("NETBLT", 0x1E); ("MFE_NSP", 0x1F); ("MERIT_INP", 0x20); ("DCCP", 0x21); ("ThirdPC", 0x22);
   ("IDPR", 0x23); ("XTP", 0x24); ("DDP", 0x25); ("IDPR_CMTP", 0x26); ("TPxx", 0x27);
   ("IL", 0x28); ("IPv6Encapsulation", 0x29); ("SDRP", 0x2A); ("IPv6_Route", 0x2B); ("IPv6_Frag", 0x2C);
   ("IDRP", 0x2D); ("RSVP", 0x2E); ("GRE", 0x2F); ("MHRP", 0x30); ("BNA", 0x31);
   ("ESP", 0x32); ("AH", 0x33); ("I_NLSP", 0x34); ("SWIPE", 0x35); ("NARP", 0x36);
   ("MOBILE", 0x37); ("TLSP", 0x38); ("SKIP", 0x39); ("IPv6_ICMP", 0x3A); ("IPv6_NoNxt", 0x3B);
   ("IPv6_Opts", 0x3C); ("CFTP", 0x3E); ("SAT_EXPAK", 0x40); ("KRYPTOLAN", 0x41); ("RVD", 0x42);
   ("IPPC", 0x43); ("SAT_MON", 0x45); ("VISA", 0x46); ("IPCV", 0x47); ("CPNX", 0x48);
   ("CPHB", 0x49); ("WSN", 0x4A); ("PVP", 0x4B); ("BR_SAT_MON", 0x4C); ("SUN_ND", 0x4D);
   ("WB_MON", 0x4E); ("WB_EXPAK", 0x4F); ("ISO_IP", 0x50); ("VMTP", 0x51); ("SECURE_VMTP", 0x52);
   ("VINES", 0x53); ("TTP", 0x54); ("IPTM", 0x54); ("NSFNET_IGP", 0x55); ("DGP", 0x56);
   ("TCF", 0x57); ("EIGRP", 0x58); ("OSPF", 0x59); ("Sprite_RPC", 0x5A); ("LARP", 0x5B);
   ("MTP", 0x5C); ("AX_25", 0x5D); ("IPIP", 0x5E); ("MICP", 0x5F); ("SCC_SP", 0x60);
   ("ETHERIP", 0x61); ("ENCAP", 0x62); ("GMTP", 0x64); ("IFMP", 0x65); ("PNNI", 0x66);
   ("PIM", 0x67); ("ARIS", 0x68); ("SCPS", 0x69); ("QNX", 0x6A); ("A_N", 0x6B);
   ("IPComp", 0x6C); ("SNP", 0x6D); ("Compaq_Peer", 0x6E); ("IPX_in_IP", 0x6F); ("VRRP", 0x70);
   ("PGM", 0x71); ("L2TP", 0x73); ("DDX", 0x74); ("IATP", 0x75); ("STP", 0x76);
   ("SRP", 0x77); ("UTI", 0x78); ("SMP", 0x79); ("SM", 0x7A); ("PTP", 0x7B);
   ("FIRE", 0x7D); ("CRTP", 0x7E); ("CRUDP", 0x7F); ("SSCOPMCE", 0x80); ("IPLT", 0x81);
   ("SPS", 0x82); ("PIPE", 0x83); ("SCTP", 0x84); ("FC", 0x85); ("manet", 0x8A);
   ("HIP", 0x8B); ("Shim6", 0x8C)].

Definition ethertype_ok (e : Ethertype) : bool :=
  bool_decide (is_byte (Hi e)) && bool_decide (is_byte (Lo e)) && (0x600 <=? Ethertype_Value e) &&
  negb (Ethertype_Value e =? Dot1QTagType) && negb (Ethertype_Value e =? Dot1AdTagType).

Lemma ethertypes_ok : forallb (fun x => ethertype_ok x.2) Ethertypes = true.
Proof. vm_compute. reflexivity. Qed.

(** A frame of any listed type is read back as it was made: none of them is a
    tag, none is a length of an IEEE 802.3 frame, and no two are the same. *)
Theorem listed_types_roundtrip name e dst src payload : (name, e) ∈ Ethertypes -> length dst = 6%nat -> length src = 6%nat ->
  ParseFrame (NewFrame dst src e payload) = Ok (mkParsed dst src NotTagged e payload None) /\
  0x600 <= Ethertype_Value e /\ forall name', (name', e) ∈ Ethertypes -> name' = name.
Proof.
  intros H Hd Hs. pose proof ethertypes_ok as F. rewrite forallb_forall in F. specialize (F (name, e)).
  rewrite <-list_elem_of_In in F. specialize (F H). cbn in F. unfold ethertype_ok in F. rewrite !andb_true_iff, !negb_true_iff in F.
  destruct F as ((((_ & _) & H6) & Hq) & Ha). apply Z.leb_le in H6. apply Z.eqb_neq in Hq, Ha.
  split; [by apply parse_new_frame|]. split; [done|]. intros name' H'.
  assert (NoDup (snd <$> Ethertypes)) as N by (apply (bool_decide_unpack _); vm_compute; exact I).
  apply list_elem_of_lookup in H as [i Hi]. apply list_elem_of_lookup in H' as [j Hj].
  assert (i = j) as -> by (eapply (NoDup_lookup (snd <$> Ethertypes)); [exact N|by rewrite list_lookup_fmap, Hi|by rewrite list_lookup_fmap, Hj]).
  congruence.
Qed.

(** The common types are those of the table. *)
Lemma common_listed : Forall (.∈ Ethertypes) [("IPv4", EthertypeIPv4); ("IPv6", EthertypeIPv6); ("ARP", EthertypeARP)].
Proof. apply (bool_decide_unpack _). vm_compute. exact I. Qed.

(** Every protocol number fits the byte of its type. *)
Lemma protocols_bytes : Forall (fun x => is_byte x.2) IPProtocols.
Proof. apply (bool_decide_unpack _). vm_compute. exact I. Qed.

Lemma listed_types_roundtrip_witness :
  ParseFrame (NewFrame [2;0;0;0;0;1] [2;0;0;0;0;2] (mkEthertype 0x88 0xCC) [1; 2]) =
    Ok (mkParsed [2;0;0;0;0;1] [2;0;0;0;0;2] NotTagged (mkEthertype 0x88 0xCC) [1; 2] None).
Proof.
  apply (listed_types_roundtrip "LLDP" (mkEthertype 0x88 0xCC) [2;0;0;0;0;1] [2;0;0;0;0;2] [1; 2]); [|reflexivity..].
  apply (bool_decide_unpack _). vm_compute. exact I.
Defined.
