(* ===== verification/Machine.v ===== *)
(** * Machine identity: [pkg/machine]

    The persistent machine id and the MAC address derived from it.  The edge
    derives its own address ([GenerateMac]), the supernode recomputes it from
    the decrypted id ([ExtGenerateMac]). *)
From S2P Require Import Prelude GoBytes GoNet Frame.
From stdpp Require Import list strings.
From Stdlib Require Import ZArith Lia.
Open Scope Z_scope.

(** ** [mac.go] *)
Definition HASH_KEY : list Z :=
  [0xd3; 0x1e; 0x48; 0xfa; 0x90; 0xfe; 0x4b; 0x4c; 0x9d; 0xaf; 0xd5; 0xd7; 0xa1; 0xb1; 0x2e; 0x8a].

(** [(v << k) | (v >> (64 - k))] on a uint64. *)
Definition rotl64 (v k : Z) : Z := Z.lor (u64 (Z.shiftl v k)) (Z.shiftr v (64 - k)).

Definition sip_state : Type := Z * Z * Z * Z.

(** The mixing shared by the loop body and the finalisation. *)
Definition sip_mix (st : sip_state) : sip_state :=
  let '(v0, v1, v2, v3) := st in
  let v0 := u64 (v0 + v1) in
  let v2 := u64 (v2 + v3) in
  let v1 := rotl64 v1 13 in
  let v3 := rotl64 v3 15 in
  let v0 := Z.lxor v0 v3 in
  let v2 := Z.lxor v2 v1 in
  let v1 := u64 (v1 + v2) in
  let v3 := u64 (v3 + v0) in
  let v2 := rotl64 v2 5 in
  let v0 := rotl64 v0 10 in
  let v3 := Z.lxor v3 v1 in
  let v2 := Z.lxor v2 v0 in
  (v0, v1, v2, v3).

Definition sip_round (st : sip_state) (k : Z) : sip_state :=
  let '(v0, v1, v2, v3) := st in sip_mix (v0, v1, v2, Z.lxor v3 k).

Definition notSipHash24 (key seed : list Z) : Z :=
  let v0 := le_get (take 8 seed) in
  let v1 := le_get (take 8 (drop 8 seed)) in
  let v2 := Z.lxor v0 0x736f6d6570736575 in
  let v3 := Z.lxor v1 0x646f72616e646f6d in
  let '(v0, v1, v2, v3) := sip_mix (foldl sip_round (v0, v1, v2, v3) key) in
  Z.lxor (Z.lxor (Z.lxor v0 v1) v2) v3.

Definition markRandomMAC (mac : list Z) : list Z :=
  match mac with [] => [] | b :: m => Z.lor b 0x02 :: m end.

Definition clear_multicast (mac : list Z) : list Z :=
  match mac with [] => [] | b :: m => Z.land b 0xfe :: m end.

Definition extGenerateMac (machineIDBytes idString hashKey : list Z) (idx : Z) : list Z :=
  let data := machineIDBytes ++ idString in
  let data := if 0 <? idx then data ++ le_put 8 idx else data in
  let result := notSipHash24 data hashKey in
  clear_multicast (markRandomMAC (take 6 (le_put 8 result))).

Definition ExtGenerateMac (communityName machineIDBytes : list Z) : list Z :=
  extGenerateMac machineIDBytes communityName HASH_KEY 12345.

(** ** [machineid.go] *)

(** The id file under the application directory and the two caches of the
    process: the id, and that the directory is known. *)
Record MachineState := mkMachine {
  ms_file : option (list Z); ms_cache : option (list Z); ms_dir : bool }.

(** What the host answers: whether the home directory is known, the 16 bytes
    of [crypto/rand] ([None] when the reader fails), whether the file is
    written (or else what a failed write leaves of it) and whether it is read. *)
Record IdHost := mkIdHost {
  ih_home : bool; ih_rand : option (list Z); ih_written : bool; ih_left : option (list Z); ih_read : bool }.

Definition errDecodeId : goerr := ErrNew "cannot decode machine-id".
Definition errNoId : goerr := ErrNew "unable to get machine id".

(** [log.Fatalf] ends the process, as a panic does.  A directory that cannot be
    made shows when the file is written. *)
Definition appDir (x : IdHost) : M MachineState unit :=
  s ← gets id;
  if ms_dir s then mret tt
  else if ih_home x then modify (fun s => mkMachine (ms_file s) (ms_cache s) true)
  else mpanic.

Definition fileExists (x : IdHost) : M MachineState bool :=
  appDir x;;
  s ← gets id;
  mret (bool_decide (is_Some (ms_file s))).

Definition ensureMachineID (x : IdHost) : M MachineState unit :=
  found ← fileExists x;
  if (found : bool) then mret tt else
  match ih_rand x with
  | None => mpanic
  | Some rnd =>
      modify (fun s => mkMachine (if ih_written x then Some (hex_encode rnd) else ih_left x) (ms_cache s) (ms_dir s));;
      if ih_written x then mret tt else mpanic
  end.

Definition GetMachineID (x : IdHost) : M MachineState (list Z) :=
  ensureMachineID x;;
  s ← gets id;
  match ms_cache s with
  | Some id => mret id
  | None =>
    match (if ih_read x then ms_file s else None) with
    | Some content =>
      let idStr := TrimSpace content in
      if bool_decide (length idStr = 32)%nat then
        match hex_decode idStr with
        | Some data => modify (fun s => mkMachine (ms_file s) (Some data) (ms_dir s));; mret data
        | None => merr errDecodeId
        end
      else merr errNoId
    | None => merr errNoId
    end
  end.

Definition netGenerateMac (x : IdHost) (idString hashKey : list Z) (idx : Z) : M MachineState (list Z) :=
  machineIDBytes ← GetMachineID x;
  let data := machineIDBytes ++ idString in
  let data := if 0 <? idx then data ++ le_put 8 idx else data in
  let result := notSipHash24 data hashKey in
  mret (clear_multicast (markRandomMAC (take 6 (le_put 8 result)))).

Definition GenerateMac (x : IdHost) (communityName : list Z) : M MachineState (list Z) :=
  m ← mtry (netGenerateMac x communityName HASH_KEY 12345);
  match m with
  | inl mac => mret mac
  | inr _ => merr (ErrNew "Error generating MAC")
  end.

(** ** Lemmas *)
Lemma extGenerateMac_shape id name key idx :
  exists b t, extGenerateMac id name key idx = Z.land (Z.lor b 2) 254 :: t /\
    is_byte b /\ bytes_ok t /\ length t = 5%nat.
Proof.
  unfold extGenerateMac. generalize (notSipHash24
    (if 0 <? idx then (id ++ name) ++ le_put 8 idx else id ++ name) key). intros r.
  exists (u8 r), (take 5 (le_put 7 (Z.shiftr r 8))). split_and!; try done.
  - apply u8_byte.
  - apply bytes_ok_take, le_put_ok.
Qed.

(** Setting bit 1 and clearing bit 0 of a byte, checked on every byte. *)
Definition mac_bits_check (n : nat) : bool :=
  let b := Z.of_nat n in let c := Z.land (Z.lor b 2) 254 in
  bool_decide (is_byte c) && (Z.land c 1 =? 0) && (Z.land c 2 =? 2).

Lemma mac_bits_all : forallb mac_bits_check (seq 0 256) = true.
Proof. vm_compute. reflexivity. Qed.

Lemma mac_bits b : is_byte b ->
  let c := Z.land (Z.lor b 2) 254 in is_byte c /\ Z.land c 1 = 0 /\ Z.land c 2 = 2.
Proof.
  intros Hb. unfold is_byte in Hb. pose proof mac_bits_all as H.
  rewrite forallb_forall in H. specialize (H (Z.to_nat b)).
  unfold mac_bits_check in H. rewrite Z2Nat.id in H by lia.
  rewrite !andb_true_iff, bool_decide_eq_true, !Z.eqb_eq in H. simpl.
  destruct H as [[? ?] ?]; [|tauto]. apply in_seq. lia.
Qed.

Lemma derived_unicast community id : IsMulticast (ExtGenerateMac community id) = false.
Proof.
  unfold ExtGenerateMac, IsMulticast.
  destruct (extGenerateMac_shape id community HASH_KEY 12345) as (b & t & -> & Hb & _).
  pose proof (mac_bits b Hb) as (_ & H1 & _). simpl. by rewrite H1.
Qed.

Lemma length_hex_encode l : length (hex_encode l) = (2 * length l)%nat.
Proof. induction l as [|b l IH]; [done|]. unfold hex_encode in *. rewrite bind_cons, length_app, IH. simpl. lia. Qed.

Lemma hex_encode_ascii l : bytes_ok l ->
  Forall (fun c => 48 <= c < 128) (hex_encode l).
Proof.
  induction 1 as [|b l Hb _ IH]; [constructor|]. unfold hex_encode in *. rewrite bind_cons.
  apply Forall_app. split; [|done]. unfold is_byte in Hb.
  assert (forall d, 0 <= d < 16 -> 48 <= hexdigit d < 128) as Hd.
  { intros d Hd. unfold hexdigit. destruct (Z.ltb_spec d 10); lia. }
  repeat constructor; apply Hd; split; try apply Z.mod_pos_bound; try apply Z.div_pos;
    try apply Z.div_lt_upper_bound; lia.
Qed.

Lemma drop_while_none {A} (f : A -> bool) l : Forall (fun x => f x = false) l -> drop_while f l = l.
Proof. destruct 1 as [|x l Hx _]; [done|]. simpl. by rewrite Hx. Qed.

(** Text with no white space is its own trimming. *)
Lemma TrimSpace_nospace s : Forall (fun x => space_seg x = false) (range_str s) -> TrimSpace s = s.
Proof.
  intros H. unfold TrimSpace.
  rewrite (drop_while_none _ (range_str s)) by done.
  rewrite drop_while_none by (by apply Forall_reverse).
  rewrite reverse_involutive. apply range_str_bytes.
Qed.

Lemma range_str_ascii_nospace s : Forall (fun c => 48 <= c < 128) s ->
  Forall (fun x => space_seg x = false) (range_str s).
Proof.
  unfold range_str. generalize 0%nat. induction s as [|c s IH]; intros i H; [constructor|].
  inversion H as [|? ? Hc Hs]; subst. cbn [length range_str_aux].
  rewrite decode_rune_ascii by lia. constructor; [|by apply IH].
  unfold space_seg, IsSpace. simpl.
  repeat match goal with
  | |- context [?a <=? ?b] => destruct (Z.leb_spec a b); try lia
  | |- context [?a =? ?b] => destruct (Z.eqb_spec a b); try lia
  end; done.
Qed.

(** A file written by [ensureMachineID] reads back as the id. *)
Lemma read_id_file rnd : length rnd = 16%nat -> bytes_ok rnd ->
  TrimSpace (hex_encode rnd) = hex_encode rnd /\ length (hex_encode rnd) = 32%nat /\
  hex_decode (hex_encode rnd) = Some rnd.
Proof.
  intros Hl Hok. split_and!.
  - by apply TrimSpace_nospace, range_str_ascii_nospace, hex_encode_ascii.
  - rewrite length_hex_encode. lia.
  - by apply hex_decode_encode.
Qed.

(** ** Properties *)

(** A derived MAC address is a valid locally administered unicast
    address: six bytes, the local bit set, the multicast bit clear, so no
    edge can claim a multicast or broadcast address. *)
Theorem generated_mac_unicast community id :
  let mac := ExtGenerateMac community id in
  length mac = 6%nat /\ bytes_ok mac /\ IsMulticast mac = false /\
  IsBroadcast mac = false /\ Z.land (nth 0 mac 0) 2 = 2.
Proof.
  unfold ExtGenerateMac.
  destruct (extGenerateMac_shape id community HASH_KEY 12345) as (b & t & -> & Hb & Ht & Hl).
  pose proof (mac_bits b Hb) as (Hc & H1 & H2). split_and!.
  - simpl. lia.
  - by constructor.
  - unfold IsMulticast. simpl. by rewrite H1.
  - unfold IsBroadcast. case_bool_decide; [done|]. cbn [nth].
    destruct (Z.eqb_spec (Z.land (Z.lor b 2) 254) 255) as [E|]; [|done].
    rewrite E in H1. done.
  - done.
Qed.

(** The same process asks again. *)
Lemma GetMachineID_cached x s mid : ms_cache s = Some mid -> is_Some (ms_file s) -> ms_dir s = true ->
  GetMachineID x s = (Ok mid, s).
Proof. destruct s as [[f|] c []]; cbn; intros -> [? Hf] ?; done. Qed.

(** A later process reads the file. *)
Lemma GetMachineID_read x rnd d : length rnd = 16%nat -> bytes_ok rnd -> ih_home x = true -> ih_read x = true ->
  GetMachineID x (mkMachine (Some (hex_encode rnd)) None d) = (Ok rnd, mkMachine (Some (hex_encode rnd)) (Some rnd) true).
Proof.
  intros Hl Hok Hh Hr. destruct (read_id_file rnd Hl Hok) as (Ht & Hlen & Hd).
  unfold GetMachineID, ensureMachineID, fileExists, appDir. munfold. unfold id.
  destruct d; cbn; rewrite ?Hh; cbn; by rewrite Hr, Ht, Hlen, bool_decide_eq_true_2, Hd.
Qed.

(** A host that gives an id to a process that has none. *)
Lemma GetMachineID_fresh x rnd : length rnd = 16%nat -> bytes_ok rnd ->
  ih_home x = true -> ih_rand x = Some rnd -> ih_written x = true -> ih_read x = true ->
  GetMachineID x (mkMachine None None false) = (Ok rnd, mkMachine (Some (hex_encode rnd)) (Some rnd) true).
Proof.
  intros Hl Hok Hh Hx Hw Hr. rewrite <- (GetMachineID_read x rnd true) by done.
  unfold GetMachineID, ensureMachineID, fileExists, appDir. munfold. unfold id. cbn. rewrite Hh. cbn. by rewrite Hx, Hw.
Qed.

(** Why a process can have no identity and ends. *)
Definition no_identity (x : IdHost) (s : MachineState) : Prop :=
  ms_dir s = false /\ ih_home x = false \/ ms_file s = None /\ (ih_rand x = None \/ ih_written x = false).

(** What a call returns and leaves: the id it keeps, an error, or the end of
    the process, for one of the three reasons. *)
Lemma GetMachineID_cases x s :
  match GetMachineID x s with
  | (Ok id, s') => ms_cache s' = Some id /\ is_Some (ms_file s') /\ ms_dir s' = true
  | (Err _, _) => True
  | (Panic, _) => no_identity x s
  end.
Proof.
  unfold GetMachineID, ensureMachineID, fileExists, appDir, no_identity. munfold. unfold id.
  destruct s as [[f|] [c|] []], x as [[] [r|] [] l []]; cbn; try done; try (by left); try (by right; auto);
    (case_bool_decide; [|done]); by destruct (hex_decode _).
Qed.

(** The machine id is stable: on a fresh machine that has a home directory,
    random bytes and a writable file the first call stores a new id, and every
    later call, in the same process or after a restart (empty caches), returns
    that same id whatever randomness is offered. *)
Theorem machine_id_stable x x' rnd : length rnd = 16%nat -> bytes_ok rnd ->
  ih_home x = true -> ih_rand x = Some rnd -> ih_written x = true -> ih_read x = true ->
  ih_home x' = true -> ih_read x' = true ->
  let first := GetMachineID x (mkMachine None None false) in
  first.1 = Ok rnd /\
  (GetMachineID x' first.2).1 = Ok rnd /\
  (GetMachineID x' (mkMachine (ms_file first.2) None false)).1 = Ok rnd.
Proof.
  intros Hl Hok ?????? first. unfold first. rewrite (GetMachineID_fresh x rnd) by done. cbn [fst snd ms_file].
  rewrite (GetMachineID_cached x' _ rnd) by done. by rewrite (GetMachineID_read x' rnd).
Qed.

Definition sample_id : list Z := [1;2;3;4;5;6;7;8;9;10;11;12;13;14;15;255].
Definition sample_host : IdHost := mkIdHost true (Some sample_id) true None true.

Lemma machine_id_stable_witness :
  let first := GetMachineID sample_host (mkMachine None None false) in
  first.1 = Ok sample_id /\ (GetMachineID sample_host first.2).1 = Ok sample_id /\
  (GetMachineID sample_host (mkMachine (ms_file first.2) None false)).1 = Ok sample_id.
Proof.
  apply (machine_id_stable sample_host sample_host sample_id); [reflexivity| |reflexivity..].
  apply (bool_decide_unpack _). vm_compute. exact I.
Defined.

(** A write that fails half way ends the process and leaves a file, and from
    then on no process has an id: the file exists, and is not one. *)
Theorem half_written_id x x' left : ih_home x = true -> is_Some (ih_rand x) -> ih_written x = false -> ih_left x = Some left ->
  length (TrimSpace left) <> 32%nat -> ih_home x' = true ->
  let first := GetMachineID x (mkMachine None None false) in
  first.1 = Panic /\ GetMachineID x' (mkMachine (ms_file first.2) None false) = (Err errNoId, mkMachine (Some left) None true).
Proof.
  intros Hh [r Hr] Hw Hl Hn Hh'. unfold GetMachineID, ensureMachineID, fileExists, appDir. munfold. unfold id. cbn.
  rewrite Hh. cbn. rewrite Hr, Hw, Hl. split; [done|]. cbn. rewrite Hh'. cbn. destruct (ih_read x'); [|done]. by rewrite bool_decide_eq_false_2.
Qed.

Lemma half_written_id_witness :
  let x := mkIdHost true (Some sample_id) false (Some (str "0102")) true in
  (GetMachineID x (mkMachine None None false)).1 = Panic /\
  GetMachineID sample_host (mkMachine (Some (str "0102")) None false) = (Err errNoId, mkMachine (Some (str "0102")) None true).
Proof.
  exact (half_written_id (mkIdHost true (Some sample_id) false (Some (str "0102")) true) sample_host (str "0102")
    eq_refl (mk_is_Some _ _ eq_refl) eq_refl eq_refl ltac:(vm_compute; discriminate) eq_refl).
Defined.

(** Edge and supernode agree on the address: the MAC an edge generates
    for its community is the one the supernode recomputes from the edge's
    machine id. *)
Theorem edge_supernode_mac_agree x community s id s' :
  GetMachineID x s = (Ok id, s') ->
  GenerateMac x community s = (Ok (ExtGenerateMac community id), s').
Proof.
  intros H. unfold GenerateMac, netGenerateMac, mtry, mbind, M_bind. rewrite H. done.
Qed.

Lemma edge_supernode_mac_agree_witness :
  GenerateMac sample_host (str "acme") (mkMachine (Some []) (Some sample_id) true)
  = (Ok (ExtGenerateMac (str "acme") sample_id), mkMachine (Some []) (Some sample_id) true).
Proof. apply edge_supernode_mac_agree. reflexivity. Defined.
