(* ===== verification/Transform.v ===== *)
(** * Payload transforms and buffer pools: [pkg/tranform], [pkg/buffers]

    A transform is a record of its two operations, as the Go interface; the
    payload processor runs a list of them forwards on output and backwards on
    input.  AES-GCM and the compressors are libraries: their operations are
    parameters, their documented inverses are the class [CipherLaws].
    Randomness is a supply of bytes that a reader consumes. *)
From S2P Require Import Prelude GoBytes.
From stdpp Require Import list strings.
From Stdlib Require Import ZArith Lia.
Open Scope Z_scope.

(** ** [tranform.go] *)
Record Transform := mkTransform {
  Apply : list Z -> M (list Z) (list Z);
  Reverse : list Z -> outcome (list Z) }.

Definition NewNoOpTransform : Transform :=
  mkTransform (fun data => mret data) (fun data => Ok data).

(** What a transform promises to the processor. *)
Class TransformLaws (t : Transform) : Prop := {
  reverse_apply : forall data rnd out rnd',
    Apply t data rnd = (Ok out, rnd') -> Reverse t out = Ok data }.

(** ** The libraries *)
Class CryptoLib := {
  gcm_NonceSize : nat;
  gcm_Seal : list Z -> list Z -> list Z -> list Z;         (* key nonce plaintext *)
  gcm_Open : list Z -> list Z -> list Z -> option (list Z); (* key nonce ciphertext *)
  zstd_compress : list Z -> option (list Z);
  zstd_decompress : list Z -> option (list Z);
  gzip_compress : list Z -> option (list Z);
  gzip_decompress : list Z -> option (list Z) }.

Class CipherLaws `{CryptoLib} : Prop := {
  gcm_open_seal : forall key nonce p,
    length nonce = gcm_NonceSize -> gcm_Open key nonce (gcm_Seal key nonce p) = Some p;
  zstd_inverse : forall d c, zstd_compress d = Some c -> zstd_decompress c = Some d;
  gzip_inverse : forall d c, gzip_compress d = Some c -> gzip_decompress c = Some d }.

Section Transforms.
Context `{CryptoLib}.

(** ** [transform_aes.go] *)
Definition keyFromPassphrase (passphrase : list Z) : list Z := Sha256.Sum256 passphrase.

(** [io.ReadFull(rand.Reader, nonce)]. *)
Definition read_full (n : nat) : M (list Z) (list Z) := fun rnd =>
  if bool_decide (length rnd < n)%nat then (Err (ErrNew "unexpected EOF"), [])
  else (Ok (take n rnd), drop n rnd).

Definition aes_Apply (key plaintext : list Z) : M (list Z) (list Z) :=
  n ← mtry (read_full gcm_NonceSize);
  match n with
  | inr e => merr (ErrWrap "aesgcm apply (encrypt): failed to generate nonce" e)
  | inl nonce => mret (nonce ++ gcm_Seal key nonce plaintext)
  end.

Definition errAesShort : goerr := ErrNew "aesgcm reverse (decrypt): ciphertext too short".
Definition errAesOpen : goerr := ErrNew "aesgcm reverse (decrypt): failed to open GCM message".

Definition aes_Reverse (key ciphertext : list Z) : outcome (list Z) :=
  if bool_decide (length ciphertext < gcm_NonceSize)%nat then Err errAesShort
  else match gcm_Open key (take gcm_NonceSize ciphertext) (drop gcm_NonceSize ciphertext) with
       | Some p => Ok p
       | None => Err errAesOpen
       end.

(** A SHA-256 sum is a valid AES-256 key, so the constructor does not fail. *)
Definition NewAESGCMTransform (passphrase : list Z) : Transform :=
  let key := keyFromPassphrase passphrase in
  mkTransform (aes_Apply key) (aes_Reverse key).

(** ** [transform_zstd.go] and [transform_gzip.go] *)
Definition of_lib (e : goerr) (o : option (list Z)) : outcome (list Z) :=
  match o with Some x => Ok x | None => Err e end.

Definition NewZstdTransform : Transform :=
  mkTransform (fun data => mlift (of_lib (ErrNew "zstd apply (compress)") (zstd_compress data)))
    (fun data => of_lib (ErrNew "zstd reverse (decompress)") (zstd_decompress data)).

Definition NewGzipTransform : Transform :=
  mkTransform (fun data => mlift (of_lib (ErrNew "gzip apply (compress)") (gzip_compress data)))
    (fun data => of_lib (ErrNew "gzip reverse (decompress)") (gzip_decompress data)).

(** ** [processor.go] *)
Definition errNoTransform : goerr :=
  ErrNew "payload processor requires at least one transform; use NewNoOpTransform() for an empty pipeline".

Definition NewPayloadProcessor (pipeline : list Transform) : outcome (list Transform) :=
  if bool_decide (length pipeline = 0)%nat then Err errNoTransform else Ok pipeline.

(** The forward loop. *)
Fixpoint PrepareOutput (p : list Transform) (payload : list Z) : M (list Z) (list Z) :=
  match p with
  | [] => mret payload
  | t :: p' =>
      r ← mtry (Apply t payload);
      match r with
      | inl cur => PrepareOutput p' cur
      | inr e => merr (ErrWrap "prepare output: transform Apply failed" e)
      end
  end.

(** [for i := len - 1; i >= 0; i--]: [n] transforms are left to undo. *)
Fixpoint parse_loop (p : list Transform) (n : nat) (cur : list Z) : outcome (list Z) :=
  match n with
  | O => Ok cur
  | S i =>
      match p !! i with
      | None => Panic
      | Some t =>
        match Reverse t cur with
        | Ok cur' => parse_loop p i cur'
        | Err e => Err (ErrWrap "parse input: transform Reverse failed" e)
        | Panic => Panic
        end
      end
  end.

Definition ParseInput (p : list Transform) (payload : list Z) : outcome (list Z) :=
  parse_loop p (length p) payload.

(** The pipeline [NewEdgeClient] builds from its configuration. *)
Definition edge_transforms (compressPayload : bool) (passphrase : list Z) : list Transform :=
  let ts := if compressPayload then [NewZstdTransform] else [] in
  let ts := if bool_decide (passphrase <> []) then ts ++ [NewAESGCMTransform passphrase] else ts in
  if bool_decide (length ts < 1)%nat then ts ++ [NewNoOpTransform] else ts.

(** ** Lemmas *)
Lemma NoOp_laws : TransformLaws NewNoOpTransform.
Proof. constructor. simpl. intros d r o r' E. by inversion E. Qed.

Lemma parse_loop_app p q n cur : (n <= length p)%nat ->
  parse_loop (p ++ q) n cur = parse_loop p n cur.
Proof.
  revert cur. induction n as [|n IH]; intros cur Hn; [done|]. simpl.
  rewrite lookup_app_l by lia. destruct (p !! n); [|done].
  destruct (Reverse t cur); try done. apply IH. lia.
Qed.

Lemma parse_loop_snoc p t cur :
  ParseInput (p ++ [t]) cur =
  match Reverse t cur with
  | Ok cur' => ParseInput p cur'
  | Err e => Err (ErrWrap "parse input: transform Reverse failed" e)
  | Panic => Panic
  end.
Proof.
  unfold ParseInput. rewrite length_app, Nat.add_1_r. simpl.
  rewrite list_lookup_middle by done. destruct (Reverse t cur); try done.
  by rewrite parse_loop_app.
Qed.

Lemma PrepareOutput_snoc p t payload rnd out rnd' :
  PrepareOutput (p ++ [t]) payload rnd = (Ok out, rnd') ->
  exists mid rnd1, PrepareOutput p payload rnd = (Ok mid, rnd1) /\ Apply t mid rnd1 = (Ok out, rnd').
Proof.
  revert payload rnd. induction p as [|u p IH]; intros payload rnd.
  - simpl. unfold mbind, M_bind, mtry. destruct (Apply t payload rnd) as [[x|e|] r] eqn:E; try done.
    intros [= <- <-]. eauto.
  - simpl. unfold mbind, M_bind, mtry.
    destruct (Apply u payload rnd) as [[x|e|] r] eqn:E; try done. apply IH.
Qed.
End Transforms.

Section TransformLaws.
Context `{CipherLaws}.

#[export] Instance AES_laws passphrase : TransformLaws (NewAESGCMTransform passphrase).
Proof.
  constructor. simpl. intros data rnd out rnd'.
  unfold aes_Apply, read_full, mtry, mbind, M_bind. case_bool_decide; simpl; [done|].
  intros [= <- <-]. unfold aes_Reverse.
  assert (length (take gcm_NonceSize rnd) = gcm_NonceSize) as Hl by (rewrite length_take; lia).
  rewrite bool_decide_eq_false_2 by (rewrite length_app; lia).
  rewrite (take_app_length' (take gcm_NonceSize rnd)) by done.
  rewrite (drop_app_length' (take gcm_NonceSize rnd)) by done.
  by rewrite gcm_open_seal.
Qed.

#[export] Instance Zstd_laws : TransformLaws NewZstdTransform.
Proof.
  constructor. simpl. unfold mlift, of_lib. intros data rnd out rnd'.
  destruct (zstd_compress data) eqn:E; [|done]. intros [= <- <-]. by rewrite (zstd_inverse _ _ E).
Qed.

#[export] Instance Gzip_laws : TransformLaws NewGzipTransform.
Proof.
  constructor. simpl. unfold mlift, of_lib. intros data rnd out rnd'.
  destruct (gzip_compress data) eqn:E; [|done]. intros [= <- <-]. by rewrite (gzip_inverse _ _ E).
Qed.

(** Every pipeline an edge can be configured with is lawful. *)
Lemma edge_transforms_laws c k : Forall TransformLaws (edge_transforms c k).
Proof.
  unfold edge_transforms. repeat case_bool_decide; destruct c; simpl in *; try lia;
    repeat apply Forall_cons_2; try apply Forall_nil_2; apply _ || apply NoOp_laws.
Qed.

Lemma edge_transforms_nonempty c k : edge_transforms c k <> [].
Proof. unfold edge_transforms. destruct c; repeat case_bool_decide; simpl in *; try done; lia. Qed.
End TransformLaws.

Lemma pipeline_inverse ts payload rnd out rnd' : Forall TransformLaws ts ->
  PrepareOutput ts payload rnd = (Ok out, rnd') -> ParseInput ts out = Ok payload.
Proof.
  intros Hts. revert out rnd'. induction ts as [|t ts IH] using rev_ind; intros out rnd' Hp.
  - simpl in Hp. by inversion Hp.
  - apply PrepareOutput_snoc in Hp as (mid & r1 & Hp & Ha).
    rewrite Forall_app in Hts. destruct Hts as [Hts Ht]. apply Forall_cons in Ht as [Ht _].
    rewrite parse_loop_snoc. rewrite (reverse_apply _ _ _ _ Ha). by eapply IH.
Qed.

(** A library for evaluation: sealing and compressing prefix a marker byte. *)
#[export] Instance toy_crypto : CryptoLib := {|
  gcm_NonceSize := 2;
  gcm_Seal key nonce p := 7 :: p;
  gcm_Open key nonce c := match c with 7 :: p => Some p | _ => None end;
  zstd_compress d := Some (40 :: d);
  zstd_decompress c := match c with 40 :: d => Some d | _ => None end;
  gzip_compress d := Some (31 :: d);
  gzip_decompress c := match c with 31 :: d => Some d | _ => None end |}.

#[export] Instance toy_laws : CipherLaws.
Proof. constructor; simpl; [done|intros d c [= <-]; done|intros d c [= <-]; done]. Qed.

(** ** Buffer pools: [pkg/buffers] *)
Module Buffers.
(** A slice is its backing array up to its capacity, and a length. *)
Record buf := mkBuf { arr : list Z; blen : nat }.
Definition cap (b : buf) : nat := length (arr b).

Record BufferPool := mkPool { pool : list buf; size : nat }.

Definition DefaultBufferSize : nat := Z.to_nat 65507.

Definition NewBufferPool (size : nat) : BufferPool := mkPool [] size.

Definition fresh (n : nat) : buf := mkBuf (replicate n 0) n.

(** [sync.Pool.Get] hands out some pooled buffer ([pick]) or a new one. *)
Definition Get (pick : option nat) (p : BufferPool) : buf * BufferPool :=
  let '(b, rest) :=
    match pick ≫= fun i => (pool p) !! i, pick with
    | Some b, Some i => (b, take i (pool p) ++ drop (S i) (pool p))
    | _, _ => (fresh (size p), pool p)
    end in
  let b := if bool_decide (cap b < size p)%nat then fresh (size p)
           else mkBuf (arr b) (size p) in
  (b, mkPool rest (size p)).

Definition Put (b : option buf) (p : BufferPool) : BufferPool :=
  match b with
  | None => p
  | Some b => if bool_decide (cap b < size p)%nat then p
              else mkPool (mkBuf (arr b) (size p) :: pool p) (size p)
  end.

(** Every pooled buffer has the pool's length and the capacity for it. *)
Definition pool_wf (p : BufferPool) : Prop :=
  Forall (fun b => blen b = size p /\ (size p <= cap b)%nat) (pool p).

(** A buffer handed out by a pool always has exactly the pool's size and
    a backing array large enough for it, [Get] and [Put] keep the pool
    well formed, and a buffer smaller than the pool's size is never kept. *)
Theorem pool_buffers p pick b : pool_wf p ->
  (blen (Get pick p).1 = size p /\ (size p <= cap (Get pick p).1)%nat) /\
  pool_wf (Get pick p).2 /\ pool_wf (Put b p) /\
  (forall c, b = Some c -> (cap c < size p)%nat -> Put b p = p).
Proof.
  intros Hwf. unfold Get, Put. split; [|split_and!].
  - destruct (pick ≫= _) as [x|], pick as [i|]; simpl; case_bool_decide; simpl; try done;
      unfold cap in *; simpl in *; rewrite ?length_replicate in *; lia.
  - unfold pool_wf in *. destruct (pick ≫= _) as [x|], pick as [i|]; simpl; try done.
    apply Forall_app. split; [by apply Forall_take|by apply Forall_drop].
  - destruct b as [c|]; [|done]. case_bool_decide; [done|]. unfold pool_wf, cap in *. simpl.
    constructor; [|done]. simpl. lia.
  - intros c -> Hc. by rewrite bool_decide_eq_true_2.
Qed.

Lemma pool_buffers_witness :
  let p := NewBufferPool 4 in let b := Some (mkBuf [1;2] 2) in
  (blen (Get None p).1 = size p /\ (size p <= cap (Get None p).1)%nat) /\
  pool_wf (Get None p).2 /\ pool_wf (Put b p) /\
  (forall c, b = Some c -> (cap c < size p)%nat -> Put b p = p).
Proof. apply (pool_buffers (NewBufferPool 4) None (Some (mkBuf [1;2] 2))). constructor. Defined.
End Buffers.

(** ** Properties *)

(** C19. The payload pipeline is undone by the receiver: for every pipeline
    an edge can be configured with (compression on or off, encryption on or
    off), what [PrepareOutput] produces, [ParseInput] of the same pipeline
    turns back into the payload. *)
Theorem edge_pipeline_roundtrip `{CipherLaws} compress passphrase payload rnd out rnd' :
  PrepareOutput (edge_transforms compress passphrase) payload rnd = (Ok out, rnd') ->
  ParseInput (edge_transforms compress passphrase) out = Ok payload.
Proof. apply pipeline_inverse, edge_transforms_laws. Qed.

Lemma edge_pipeline_roundtrip_witness :
  ParseInput (edge_transforms true (str "secret")) [9; 8; 7; 40; 1; 2; 3] = Ok [1; 2; 3].
Proof.
  apply (edge_pipeline_roundtrip true (str "secret") [1;2;3] [9;8;77] [9; 8; 7; 40; 1; 2; 3] [77]).
  reflexivity.
Defined.

(** An empty pipeline is refused and a configured edge never has one:
    the constructor succeeds on every pipeline built from a configuration. *)
Theorem edge_pipeline_accepted `{CryptoLib} compress passphrase :
  NewPayloadProcessor [] = Err errNoTransform /\
  NewPayloadProcessor (edge_transforms compress passphrase)
  = Ok (edge_transforms compress passphrase).
Proof.
  split; [done|]. unfold NewPayloadProcessor. case_bool_decide as Hl; [|done].
  unfold edge_transforms in Hl. destruct compress; repeat case_bool_decide; simpl in *; lia.
Qed.
