(* ===== verification/P2P.v ===== *)
(** * The peer registry of an edge: [pkg/p2p/p2p.go]

    Peers are heap objects shared by the MAC and the socket index, so both
    indices map to locations.  The registry is specified by the map from MAC
    to [PeerInfo] it represents ([reg_view]); the peer list events refine the
    obvious operations on that map. *)
From S2P Require Import Prelude GoBytes GoNet Netstruct.
From stdpp Require Import gmap list strings fin_maps.
From Stdlib Require Import ZArith Lia.
Open Scope Z_scope.

Inductive UDPWriteStrategy := UDPEnforceSupernode | UDPBestEffort | UDPEnforceP2P.

Inductive P2PCapacity :=
  | P2PUnknown | P2PPending | P2PAvailable | P2PFullDuplex | P2PUnavailable.

#[export] Instance P2PCapacity_eq_dec : EqDecision P2PCapacity.
Proof. solve_decision. Defined.
#[export] Instance UDPWriteStrategy_eq_dec : EqDecision UDPWriteStrategy.
Proof. solve_decision. Defined.

Definition P2PCapacity_String (pt : P2PCapacity) : list Z :=
  match pt with
  | P2PUnknown => str "Unknown"
  | P2PPending => str "Pending"
  | P2PAvailable => str "Available"
  | P2PUnavailable => str "Unavailable"
  | P2PFullDuplex => str "FullDuplex"
  end.

Record Peer := mkPeer {
  Infos : PeerInfo; P2PStatus : P2PCapacity; IsFullDuplex : bool;
  P2PCheckID : list Z; pendingTTL : Z; UpdatedAt : Z }.

Definition resetPendingTTL (p : Peer) : Peer :=
  mkPeer (Infos p) (P2PStatus p) (IsFullDuplex p) (P2PCheckID p) 30 (UpdatedAt p).

(** [reg.Peers] and [reg.peerBySocket] hold locations of [pheap]; [None] is a
    nil map of community data. *)
Record PeerRegistry := mkReg {
  reg_CommunityName : list Z;
  Me : option Peer;
  Peers : gmap (list Z) nat;
  peerBySocket : gmap (list Z) nat;
  pheap : gmap nat Peer;
  pnext : nat;
  Reachables : option (gmap (list Z) PeerP2PInfos);
  UnReachables : option (gmap (list Z) PeerCachedInfo);
  IsWaitingCommunityDatas : bool;
  hasPendingChanges : bool }.

Definition NewPeerRegistry (communityName : list Z) : PeerRegistry :=
  mkReg communityName None ∅ ∅ ∅ 0 None None false false.

Definition set_index (peers sock : gmap (list Z) nat) (r : PeerRegistry) : PeerRegistry :=
  mkReg (reg_CommunityName r) (Me r) peers sock (pheap r) (pnext r)
    (Reachables r) (UnReachables r) (IsWaitingCommunityDatas r) (hasPendingChanges r).
Definition set_pheap (h : gmap nat Peer) (n : nat) (r : PeerRegistry) : PeerRegistry :=
  mkReg (reg_CommunityName r) (Me r) (Peers r) (peerBySocket r) h n
    (Reachables r) (UnReachables r) (IsWaitingCommunityDatas r) (hasPendingChanges r).
Definition set_pending (b : bool) (r : PeerRegistry) : PeerRegistry :=
  mkReg (reg_CommunityName r) (Me r) (Peers r) (peerBySocket r) (pheap r) (pnext r)
    (Reachables r) (UnReachables r) (IsWaitingCommunityDatas r) b.
Definition set_waiting (b : bool) (r : PeerRegistry) : PeerRegistry :=
  mkReg (reg_CommunityName r) (Me r) (Peers r) (peerBySocket r) (pheap r) (pnext r)
    (Reachables r) (UnReachables r) b (hasPendingChanges r).
Definition set_me (m : option Peer) (r : PeerRegistry) : PeerRegistry :=
  mkReg (reg_CommunityName r) m (Peers r) (peerBySocket r) (pheap r) (pnext r)
    (Reachables r) (UnReachables r) (IsWaitingCommunityDatas r) (hasPendingChanges r).
Definition set_datas (a : option (gmap (list Z) PeerP2PInfos))
    (b : option (gmap (list Z) PeerCachedInfo)) (w : bool) (r : PeerRegistry) : PeerRegistry :=
  mkReg (reg_CommunityName r) (Me r) (Peers r) (peerBySocket r) (pheap r) (pnext r)
    a b w (hasPendingChanges r).

Definition errNilReachables : goerr := ErrNew "received nil reachables in P2PFullStateMessage".
Definition errPeerNotFound : goerr := ErrNew "peer with MAC address not found".
Definition errSocketNil : goerr := ErrNew "cannot GetPeerBySocket with nil net.UDPAddr".
Definition errSocketNotFound : goerr := ErrNew "peer with Socket not found".
Definition errFullDuplex : goerr := ErrNew "cannot set full duplex without first P2PAvailable state".
Definition errPeerExists : goerr := ErrNew "peer with MAC address already exists".
Definition errEventType : goerr := ErrNew "unknown event type".

Definition UpdateP2PCommunityDatas (reachables : option (gmap (list Z) PeerP2PInfos))
    (unreachables : option (gmap (list Z) PeerCachedInfo)) : M PeerRegistry unit :=
  match reachables with
  | None => merr errNilReachables
  | Some _ => modify (set_datas reachables (Some (default ∅ unreachables)) false)
  end.

Definition HasPendingChanges : M PeerRegistry bool := gets hasPendingChanges.
Definition SetPendingChanges : M PeerRegistry unit := modify (set_pending true).
Definition ClearPendingChanges : M PeerRegistry unit := modify (set_pending false).

Definition GetPeer (MACAddr : list Z) : M PeerRegistry nat :=
  r ← gets id;
  match Peers r !! MACAddr with
  | None => merr errPeerNotFound
  | Some l => mret l
  end.

Definition GetPeerBySocket (addr : option netAddr) : M PeerRegistry nat :=
  match addr with
  | None => merr errSocketNil
  | Some a =>
      r ← gets id;
      match peerBySocket r !! Addr_String a with
      | None => merr errSocketNotFound
      | Some l => mret l
      end
  end.

(** The new peer, whether it changed, or an error. *)
Definition SetFullDuplex (p : Peer) (value : bool) : outcome (Peer * bool) :=
  if value && negb (bool_decide (P2PStatus p = P2PAvailable)) then Err errFullDuplex
  else Ok (mkPeer (Infos p) (P2PStatus p) value (P2PCheckID p) (pendingTTL p) (UpdatedAt p),
           negb (Bool.eqb value (IsFullDuplex p))).

Definition UpdateP2PStatus (now : Z) (status : P2PCapacity) (checkid : list Z) (p : Peer)
  : Peer * bool :=
  let p1 :=
    if bool_decide (P2PStatus p = status) then
      if bool_decide (status = P2PPending)
      then mkPeer (Infos p) (P2PStatus p) (IsFullDuplex p) (P2PCheckID p) (pendingTTL p - 1) (UpdatedAt p)
      else p
    else if bool_decide (P2PStatus p = P2PUnknown) && bool_decide (status = P2PPending)
         then resetPendingTTL p else p in
  let p2 :=
    if pendingTTL p1 <? 1
    then mkPeer (Infos p1) P2PUnavailable (IsFullDuplex p1) [] (pendingTTL p1) now
    else mkPeer (Infos p1) status (IsFullDuplex p1) checkid (pendingTTL p1) now in
  (p2, negb (bool_decide (P2PStatus p = status))).

Definition mac_key (i : PeerInfo) : list Z := HardwareAddr_String (pi_MacAddr i).

Section Registry.
Context {US : UDPServices} {MR : MapRange (list Z)}.

Definition parseUDPAddr (socket : list Z) : option netAddr :=
  '(host, portStr) ← SplitHostPort socket;
  ip ← ParseIP host;
  Some (UDPAddr ip (LookupPort portStr)).

Definition Peer_UDPAddr (p : Peer) : option netAddr := parseUDPAddr (pi_PubSocket (Infos p)).

(** [p.UDPAddr().String()], also of a nil address. *)
Definition sock_key (i : PeerInfo) : list Z :=
  match parseUDPAddr (pi_PubSocket i) with Some a => Addr_String a | None => str "<nil>" end.

Definition GetPeerP2PInfos (r : PeerRegistry) : PeerP2PInfos :=
  match Me r with
  | None => mkPeerP2PInfos None []
  | Some me => mkPeerP2PInfos (Some (Infos me))
      (omap (fun kl => Infos <$> pheap r !! kl.2) (map_range (Peers r)))
  end.

Definition AddPeer (now : Z) (infos : PeerInfo) (overwrite : bool) : M PeerRegistry nat :=
  let macAddr := mac_key infos in
  r ← gets id;
  match Peers r !! macAddr with
  | Some l =>
      orig ← mderef (pheap r !! l);
      if negb overwrite then merr errPeerExists else
      let reset := negb (bool_decide (pi_VirtualIp (Infos orig) = pi_VirtualIp infos))
                   || negb (bool_decide (pi_PubSocket (Infos orig) = pi_PubSocket infos)) in
      let p := mkPeer infos (if reset then P2PUnknown else P2PStatus orig) (IsFullDuplex orig)
                 (if reset then [] else P2PCheckID orig) (pendingTTL orig) now in
      modify (fun r => set_pheap (<[l := p]> (pheap r)) (pnext r) r);;
      modify (fun r => set_index (Peers r)
        (<[sock_key infos := l]> (delete (sock_key (Infos orig)) (peerBySocket r))) r);;
      SetPendingChanges;;
      mret l
  | None =>
      let l := pnext r in
      let p := mkPeer infos P2PUnknown false [] 0 now in
      modify (fun r => set_pheap (<[l := p]> (pheap r)) (S l) r);;
      modify (fun r => set_index (<[macAddr := l]> (Peers r))
        (<[sock_key infos := l]> (peerBySocket r)) r);;
      SetPendingChanges;;
      mret l
  end.

Definition RemovePeer (MACAddr : list Z) : M PeerRegistry unit :=
  r ← gets id;
  match Peers r !! MACAddr with
  | None => mret tt
  | Some l =>
      p ← mderef (pheap r !! l);
      modify (fun r => set_index (delete MACAddr (Peers r))
        (delete (sock_key (Infos p)) (peerBySocket r)) r);;
      SetPendingChanges
  end.

(** The locations of the peers with a status, in range order. *)
Definition peers_with (st : P2PCapacity) (r : PeerRegistry) : list nat :=
  omap (fun kl => p ← pheap r !! kl.2;
          if bool_decide (P2PStatus p = st) then Some kl.2 else None) (map_range (Peers r)).

Definition GetP2PUnknownPeers : M PeerRegistry (list nat) := gets (peers_with P2PUnknown).
Definition GetP2PAvailablePeers : M PeerRegistry (list nat) := gets (peers_with P2PAvailable).

Definition update_peer (l : nat) (f : Peer -> Peer) : M PeerRegistry unit :=
  modify (fun r => set_pheap (alter f l (pheap r)) (pnext r) r).

(** Pending peers whose time to live ran out are updated on the way. *)
Definition GetP2PendingPeers (now : Z) : M PeerRegistry (list nat) :=
  r ← gets id;
  let pend := peers_with P2PPending r in
  let alive l := match pheap r !! l with Some p => 0 <? pendingTTL p | None => false end in
  mfor (List.filter (fun l => negb (alive l)) pend)
    (fun l => update_peer l (fun p => (UpdateP2PStatus now P2PUnavailable [] p).1));;
  mret (List.filter alive pend).

Definition add_all (now : Z) (overwrite : bool) (infos : list PeerInfo) : M PeerRegistry unit :=
  mfor infos (fun info =>
    r ← mtry (AddPeer now info overwrite);
    match r with
    | inl _ => mret tt
    | inr e => merr (ErrNew "failed to add peer")
    end).

(** [PeerInfoEventType(x)] keeps the low 8 bits of the field; ranging over
    the map while deleting from it visits each remaining key once. *)
Definition HandlePeerInfoList (now : Z) (pil : PeerInfoList) (reset overwrite : bool)
  : M PeerRegistry unit :=
  let ev := u8 (pil_EventType pil) in
  if ev =? TypeList then
    (if reset then modify (set_index ∅ ∅) else mret tt);;
    (if pil_HasOrigin pil then
       o ← mderef (pil_Origin pil);
       modify (set_me (Some (mkPeer o P2PUnknown false [] 0 now)))
     else mret tt);;
    add_all now overwrite (pil_PeerInfos pil);;
    (if negb reset then
       let newPeers := mac_key <$> pil_PeerInfos pil in
       r ← gets id;
       mfor (map_range (Peers r)) (fun kl =>
         if bool_decide (kl.1 ∈ newPeers) then mret tt else mignore (RemovePeer kl.1))
     else mret tt)
  else if ev =? TypeRegister then add_all now overwrite (pil_PeerInfos pil)
  else if ev =? TypeUnregister then
    mfor (pil_PeerInfos pil) (fun info => RemovePeer (mac_key info))
  else merr errEventType.
End Registry.

(** ** Well-formedness and the represented map *)
Section RegistryProofs.
Context {US : UDPServices} {MR : MapRange (list Z)}.

(** Each index entry points to a live peer filed under its own MAC, and the
    socket index only points at peers of the MAC index. *)
Record reg_wf (r : PeerRegistry) : Prop := {
  wf_mac : forall mac l, Peers r !! mac = Some l ->
    exists p, pheap r !! l = Some p /\ mac_key (Infos p) = mac;
  wf_sock : forall sk l, peerBySocket r !! sk = Some l ->
    exists p, pheap r !! l = Some p /\ sock_key (Infos p) = sk /\
      Peers r !! mac_key (Infos p) = Some l;
  wf_fresh : forall l, is_Some (pheap r !! l) -> (l < pnext r)%nat }.

Definition reg_view (r : PeerRegistry) : gmap (list Z) PeerInfo :=
  omap (fun l => Infos <$> pheap r !! l) (Peers r).

Lemma reg_view_lookup r mac :
  reg_view r !! mac = l ← Peers r !! mac; Infos <$> pheap r !! l.
Proof. unfold reg_view. apply lookup_omap. Qed.

Lemma NewPeerRegistry_wf c : reg_wf (NewPeerRegistry c).
Proof. split; simpl; [done|done|]. intros l [? H]. by rewrite lookup_empty in H. Qed.

(** Two peers filed under different MACs are different objects. *)
Lemma wf_inj r m1 m2 l : reg_wf r -> Peers r !! m1 = Some l -> Peers r !! m2 = Some l -> m1 = m2.
Proof.
  intros Hwf H1 H2. destruct (wf_mac _ Hwf _ _ H1) as (p1 & E1 & <-).
  destruct (wf_mac _ Hwf _ _ H2) as (p2 & E2 & <-). congruence.
Qed.

(** An object not in the MAC index has no entry in the socket index. *)
Lemma wf_sock_key r sk l p : reg_wf r -> peerBySocket r !! sk = Some l ->
  pheap r !! l = Some p -> sk = sock_key (Infos p) /\ Peers r !! mac_key (Infos p) = Some l.
Proof. intros Hwf H Hp. destruct (wf_sock _ Hwf _ _ H) as (q & E & <- & HP). naive_solver. Qed.

Definition added_peer (now : Z) (infos : PeerInfo) (orig : option Peer) : Peer :=
  match orig with
  | None => mkPeer infos P2PUnknown false [] 0 now
  | Some o =>
      let reset := negb (bool_decide (pi_VirtualIp (Infos o) = pi_VirtualIp infos))
                   || negb (bool_decide (pi_PubSocket (Infos o) = pi_PubSocket infos)) in
      mkPeer infos (if reset then P2PUnknown else P2PStatus o) (IsFullDuplex o)
        (if reset then [] else P2PCheckID o) (pendingTTL o) now
  end.

(** The update of an existing peer keeps the registry well formed. *)
Lemma update_wf r l p q sks :
  reg_wf r -> pheap r !! l = Some p -> Peers r !! mac_key (Infos p) = Some l ->
  mac_key (Infos q) = mac_key (Infos p) ->
  sks = <[sock_key (Infos q) := l]> (delete (sock_key (Infos p)) (peerBySocket r)) ->
  reg_wf (set_pending true (set_index (Peers r) sks (set_pheap (<[l := q]> (pheap r)) (pnext r) r))).
Proof.
  intros Hwf Hp HP Hmac ->. split; simpl.
  - intros mac l' H. destruct (decide (l = l')) as [<-|Hne].
    + rewrite lookup_insert_eq. exists q. split; [done|].
      rewrite Hmac. by eapply wf_inj.
    + rewrite lookup_insert_ne by done. by apply (wf_mac _ Hwf).
  - intros sk l' H. apply lookup_insert_Some in H as [[<- <-]|[Hne H]].
    + exists q. rewrite lookup_insert_eq, Hmac. done.
    + apply lookup_delete_Some in H as [Hne' H].
      destruct (decide (l = l')) as [<-|].
      * destruct (wf_sock_key _ _ _ _ Hwf H Hp). congruence.
      * rewrite lookup_insert_ne by done. by apply (wf_sock _ Hwf).
  - intros l' [x H]. apply (wf_fresh _ Hwf). apply lookup_insert_Some in H as [[<- _]|[_ H]]; eauto.
Qed.

Lemma create_wf r q :
  reg_wf r -> Peers r !! mac_key (Infos q) = None ->
  reg_wf (set_pending true (set_index (<[mac_key (Infos q) := pnext r]> (Peers r))
    (<[sock_key (Infos q) := pnext r]> (peerBySocket r))
    (set_pheap (<[pnext r := q]> (pheap r)) (S (pnext r)) r))).
Proof.
  intros Hwf HP.
  assert (pheap r !! pnext r = None) as Hfr.
  { destruct (pheap r !! pnext r) eqn:E; [|done].
    pose proof (wf_fresh _ Hwf (pnext r) ltac:(eauto)). lia. }
  split; simpl.
  - intros mac l H. apply lookup_insert_Some in H as [[<- <-]|[Hne H]].
    + exists q. by rewrite lookup_insert_eq.
    + destruct (wf_mac _ Hwf _ _ H) as (p & E & Hk). exists p.
      rewrite lookup_insert_ne by congruence. done.
  - intros sk l H. apply lookup_insert_Some in H as [[<- <-]|[Hne H]].
    + exists q. by rewrite !lookup_insert_eq.
    + destruct (wf_sock _ Hwf _ _ H) as (p & E & Hk & Hm). exists p.
      rewrite !lookup_insert_ne by congruence. done.
  - intros l [x H]. apply lookup_insert_Some in H as [[<- _]|[_ H]]; [lia|].
    pose proof (wf_fresh _ Hwf l ltac:(eauto)). lia.
Qed.

(** What [AddPeer] does with [overwrite]: it succeeds, keeps the invariant
    and inserts the info into the represented map. *)
Lemma AddPeer_spec r now infos : reg_wf r -> exists l r',
  AddPeer now infos true r = (Ok l, r') /\ reg_wf r' /\
  reg_view r' = <[mac_key infos := infos]> (reg_view r) /\
  Peers r' !! mac_key infos = Some l /\ hasPendingChanges r' = true.
Proof.
  intros Hwf. unfold AddPeer, SetPendingChanges. munfold. simpl.
  destruct (Peers r !! mac_key infos) as [l|] eqn:HP.
  - destruct (wf_mac _ Hwf _ _ HP) as (p & Hp & Hk). rewrite Hp. simpl.
    eexists l, _. split; [reflexivity|].
    split; [eapply update_wf; [done|done|by rewrite Hk|done|done]|].
    split; [|done]. apply map_eq. intros m. rewrite reg_view_lookup. simpl.
    destruct (decide (m = mac_key infos)) as [->|Hne].
    + by rewrite HP, lookup_insert_eq; simpl; rewrite lookup_insert_eq.
    + rewrite lookup_insert_ne, reg_view_lookup by done.
      destruct (Peers r !! m) as [l'|] eqn:E; [simpl|done].
      rewrite lookup_insert_ne; [done|]. intros ->. apply Hne. by eapply wf_inj.
  - eexists _, _. split; [reflexivity|].
    split; [apply (create_wf r (mkPeer infos P2PUnknown false [] 0 now)); done|].
    split; [|by simpl; rewrite lookup_insert_eq]. apply map_eq. intros m. rewrite reg_view_lookup. simpl.
    destruct (decide (m = mac_key infos)) as [->|Hne].
    + by rewrite !lookup_insert_eq; simpl; rewrite lookup_insert_eq.
    + rewrite !lookup_insert_ne, reg_view_lookup by done.
      destruct (Peers r !! m) as [l'|] eqn:E; [simpl|done].
      destruct (wf_mac _ Hwf _ _ E) as (p & Hp & _).
      pose proof (wf_fresh _ Hwf l' ltac:(eauto)).
      by rewrite lookup_insert_ne by lia.
Qed.

Lemma RemovePeer_spec r mac : reg_wf r -> exists r',
  RemovePeer mac r = (Ok tt, r') /\ reg_wf r' /\
  reg_view r' = delete mac (reg_view r) /\ Peers r' = delete mac (Peers r).
Proof.
  intros Hwf. unfold RemovePeer, SetPendingChanges. munfold. simpl.
  destruct (Peers r !! mac) as [l|] eqn:HP.
  - destruct (wf_mac _ Hwf _ _ HP) as (p & Hp & <-). rewrite Hp.
    eexists. split; [reflexivity|]. split; [split; simpl|split; [|done]].
    + intros m l' [_ H]%lookup_delete_Some. by apply (wf_mac _ Hwf).
    + intros sk l' [Hne H]%lookup_delete_Some.
      destruct (wf_sock _ Hwf _ _ H) as (q & Hq & Hs & Hm). exists q.
      split; [done|]. split; [done|]. rewrite lookup_delete_ne; [done|].
      intros He. rewrite <-He in Hm. assert (l' = l) as -> by congruence. naive_solver.
    + apply (wf_fresh _ Hwf).
    + apply map_eq. intros m. rewrite reg_view_lookup. simpl.
      destruct (decide (m = mac_key (Infos p))) as [->|Hne].
      * by rewrite !lookup_delete_eq.
      * by rewrite !lookup_delete_ne, reg_view_lookup by done.
  - eexists. split; [reflexivity|]. split; [done|].
    rewrite !delete_id; [done|done|]. by rewrite reg_view_lookup, HP.
Qed.
End RegistryProofs.

(** ** The events refine map operations *)
Section Events.
Context {US : UDPServices} {MR : MapRange (list Z)}.

Definition add_infos (infos : list PeerInfo) (v : gmap (list Z) PeerInfo) : gmap (list Z) PeerInfo :=
  foldl (fun v i => <[mac_key i := i]> v) v infos.

Definition remove_infos (infos : list PeerInfo) (v : gmap (list Z) PeerInfo) : gmap (list Z) PeerInfo :=
  foldl (fun v i => delete (mac_key i) v) v infos.

(** What a peer list message means: a full list replaces the known peers,
    a registration adds its peers, an unregistration removes them. *)
Definition spec_event (ev : Z) (infos : list PeerInfo) (v : gmap (list Z) PeerInfo)
  : option (gmap (list Z) PeerInfo) :=
  if ev =? TypeList then Some (add_infos infos ∅)
  else if ev =? TypeRegister then Some (add_infos infos v)
  else if ev =? TypeUnregister then Some (remove_infos infos v)
  else None.

Lemma add_infos_lookup infos v m :
  add_infos infos v !! m =
  if bool_decide (m ∈ mac_key <$> infos) then add_infos infos ∅ !! m else v !! m.
Proof.
  unfold add_infos. induction infos as [|i infos IH] using rev_ind.
  { rewrite bool_decide_eq_false_2 by set_solver. done. }
  rewrite !foldl_app, fmap_app. simpl.
  destruct (decide (m = mac_key i)) as [->|Hne].
  - rewrite !lookup_insert_eq. by rewrite bool_decide_eq_true_2 by set_solver.
  - rewrite !lookup_insert_ne, IH by done.
    rewrite (bool_decide_ext (m ∈ (mac_key <$> infos) ++ [mac_key i]) (m ∈ mac_key <$> infos)) by set_solver.
    done.
Qed.

Lemma add_all_spec now infos r : reg_wf r -> exists r',
  add_all now true infos r = (Ok tt, r') /\ reg_wf r' /\ reg_view r' = add_infos infos (reg_view r).
Proof.
  unfold add_all, add_infos. revert r. induction infos as [|i infos IH]; intros r Hwf.
  - eexists. split; [reflexivity|]. done.
  - destruct (AddPeer_spec r now i Hwf) as (l & r1 & H1 & Hwf1 & Hv1 & _).
    simpl. munfold. rewrite H1. simpl. destruct (IH r1 Hwf1) as (r2 & H2 & Hwf2 & Hv2).
    eexists. split; [exact H2|]. split; [done|]. rewrite Hv2. simpl. by rewrite Hv1.
Qed.

Lemma remove_all_spec infos r : reg_wf r -> exists r',
  mfor infos (fun info => RemovePeer (mac_key info)) r = (Ok tt, r') /\ reg_wf r' /\
  reg_view r' = remove_infos infos (reg_view r).
Proof.
  unfold remove_infos. revert r. induction infos as [|i infos IH]; intros r Hwf.
  - eexists. split; [reflexivity|]. done.
  - destruct (RemovePeer_spec r (mac_key i) Hwf) as (r1 & H1 & Hwf1 & Hv1 & _).
    simpl. munfold. rewrite H1. destruct (IH r1 Hwf1) as (r2 & H2 & Hwf2 & Hv2).
    eexists. split; [exact H2|]. split; [done|]. rewrite Hv2. simpl. by rewrite Hv1.
Qed.

(** The pruning loop removes the visited keys that are not in [keep]. *)
Lemma prune_spec (keep : list (list Z)) ks r : reg_wf r -> exists r',
  mfor ks (fun kl : list Z * nat => if bool_decide (kl.1 ∈ keep) then mret tt
                                    else mignore (RemovePeer kl.1)) r = (Ok tt, r') /\
  reg_wf r' /\
  forall m, reg_view r' !! m =
    if bool_decide (m ∈ ks.*1 /\ m ∉ keep) then None else reg_view r !! m.
Proof.
  revert r. induction ks as [|[k l] ks IH]; intros r Hwf.
  - eexists. split; [reflexivity|]. split; [done|]. intros m.
    rewrite bool_decide_eq_false_2; [done|]. intros [H _]. by apply elem_of_nil in H.
  - simpl. case_bool_decide as Hk; munfold.
    + destruct (IH r Hwf) as (r2 & H2 & Hwf2 & Hv2). eexists. split; [exact H2|].
      split; [done|]. intros m. rewrite Hv2.
      apply if_decide_ext. rewrite elem_of_cons.
      split; [intros [? ?]; split; [by right|done]|]. intros [[->|?] Hn]; [by destruct (Hn Hk)|by split].
    + destruct (RemovePeer_spec r k Hwf) as (r1 & H1 & Hwf1 & Hv1 & _). rewrite H1. simpl.
      destruct (IH r1 Hwf1) as (r2 & H2 & Hwf2 & Hv2). eexists. split; [exact H2|].
      split; [done|]. intros m. rewrite Hv2, Hv1.
      destruct (decide (m = k)) as [->|Hne].
      * rewrite lookup_delete_eq, (bool_decide_eq_true_2 (k ∈ k :: _ /\ _)) by (split; [left|done]).
        by destruct (bool_decide _).
      * rewrite lookup_delete_ne by done.
        apply if_decide_ext. rewrite elem_of_cons.
        split; [intros [? ?]; split; [by right|done]|]. intros [[?|?] ?]; [by destruct Hne|by split].
Qed.

Lemma view_in_range r m : reg_wf r -> is_Some (reg_view r !! m) -> m ∈ (map_range (Peers r)).*1.
Proof.
  intros Hwf [i Hi]. rewrite reg_view_lookup in Hi.
  destruct (Peers r !! m) as [l|] eqn:E; [|done].
  apply list_elem_of_fmap. exists (m, l). split; [done|]. by apply elem_of_map_range.
Qed.

Lemma set_index_empty_wf r : reg_wf r -> reg_wf (set_index ∅ ∅ r).
Proof. intros Hwf. split; simpl; [done|done|apply (wf_fresh _ Hwf)]. Qed.

Lemma set_me_wf r m : reg_wf r -> reg_wf (set_me m r).
Proof. intros [H1 H2 H3]. by split. Qed.

Lemma list_event now pil reset r : reg_wf r -> u8 (pil_EventType pil) = TypeList ->
  (pil_HasOrigin pil = true -> pil_Origin pil <> None) -> exists r',
  HandlePeerInfoList now pil reset true r = (Ok tt, r') /\ reg_wf r' /\
  reg_view r' = add_infos (pil_PeerInfos pil) ∅.
Proof.
  intros Hwf Hev Ho. unfold HandlePeerInfoList. rewrite Hev. simpl.
  set (r0 := if reset then set_index ∅ ∅ r else r).
  set (r1 := match pil_HasOrigin pil, pil_Origin pil with
             | true, Some o => set_me (Some (mkPeer o P2PUnknown false [] 0 now)) r0
             | _, _ => r0 end).
  assert (reg_wf r1 /\ reg_view r1 = reg_view r0) as [Hwf1 Hv1].
  { assert (reg_wf r0) by (unfold r0; destruct reset; [by apply set_index_empty_wf|done]).
    unfold r1. destruct (pil_HasOrigin pil), (pil_Origin pil); split; try done.
    by apply set_me_wf. }
  destruct (add_all_spec now (pil_PeerInfos pil) r1 Hwf1) as (r2 & H2 & Hwf2 & Hv2).
  assert (exists r3, (if negb reset then
      r ← gets id;
      mfor (map_range (Peers r)) (fun kl =>
         if bool_decide (kl.1 ∈ mac_key <$> pil_PeerInfos pil) then mret tt
         else mignore (RemovePeer kl.1))
     else mret tt) r2 = (Ok tt, r3) /\ reg_wf r3 /\ reg_view r3 = add_infos (pil_PeerInfos pil) ∅)
    as (r3 & H3 & Hwf3 & Hv3).
  { destruct reset; simpl.
    - eexists. split; [reflexivity|]. split; [done|]. rewrite Hv2, Hv1. f_equal.
    - destruct (prune_spec (mac_key <$> pil_PeerInfos pil) (map_range (Peers r2)) r2 Hwf2)
        as (r3 & H3 & Hwf3 & Hv3). exists r3. split; [exact H3|]. split; [done|].
      apply map_eq. intros m. rewrite Hv3.
      rewrite (add_infos_lookup _ ∅).
      case_bool_decide as Hd.
      + rewrite bool_decide_eq_false_2 by tauto. by rewrite lookup_empty.
      + case_bool_decide as Hin.
        * rewrite Hv2, add_infos_lookup. by rewrite bool_decide_eq_true_2.
        * rewrite lookup_empty. apply eq_None_not_Some. intros Hs. apply Hd. split; [|done].
          by apply view_in_range. }
  exists r3. split; [|done].
  assert ((if reset then modify (set_index ∅ ∅) else mret tt) r = (Ok tt, r0)) as E0
    by (unfold r0; by destruct reset).
  assert ((if pil_HasOrigin pil then o ← mderef (pil_Origin pil);
       modify (set_me (Some (mkPeer o P2PUnknown false [] 0 now))) else mret tt) r0 = (Ok tt, r1)) as E1.
  { unfold r1. destruct (pil_HasOrigin pil); [|done]. destruct (pil_Origin pil); [done|].
    by destruct Ho. }
  unfold mbind at 1, M_bind at 1. rewrite E0.
  unfold mbind at 1, M_bind at 1. rewrite E1.
  unfold mbind at 1, M_bind at 1. rewrite H2. exact H3.
Qed.
End Events.

(** ** Status updates *)
Section Status.
(** A sequence of calls of [UpdateP2PStatus], each with its status and check id. *)
Definition updates (now : Z) (l : list (P2PCapacity * list Z)) (p : Peer) : Peer :=
  foldl (fun p su => (UpdateP2PStatus now su.1 su.2 p).1) p l.

Lemma updates_app now l1 l2 p : updates now (l1 ++ l2) p = updates now l2 (updates now l1 p).
Proof. apply foldl_app. Qed.

Lemma update_unavailable now st id p :
  pendingTTL p < 1 -> ~ (P2PStatus p = P2PUnknown /\ st = P2PPending) ->
  P2PStatus (UpdateP2PStatus now st id p).1 = P2PUnavailable /\
  pendingTTL (UpdateP2PStatus now st id p).1 < 1.
Proof.
  intros Ht Hn. unfold UpdateP2PStatus.
  destruct (P2PStatus p) eqn:E, st; simpl; bdestruct; try (destruct Hn; by split);
    repeat (case_match; simpl in *; try lia); done || (split; [done|lia]).
Qed.

Lemma updates_stuck now l p :
  pendingTTL p < 1 -> P2PStatus p = P2PUnavailable -> P2PStatus (updates now l p) = P2PUnavailable.
Proof.
  revert p. induction l as [|[st id] l IH]; intros p Ht Hs; [done|]. simpl.
  destruct (update_unavailable now st id p Ht) as [H1 H2]; [by rewrite Hs; intros []|].
  by apply IH.
Qed.

(** A run of pings after the first: one unit of time to live each. *)
Lemma updates_pending now ids p :
  P2PStatus p = P2PPending -> Z.of_nat (length ids) < pendingTTL p ->
  P2PStatus (updates now ((fun id => (P2PPending, id)) <$> ids) p) = P2PPending /\
  pendingTTL (updates now ((fun id => (P2PPending, id)) <$> ids) p) = pendingTTL p - Z.of_nat (length ids).
Proof.
  revert p. induction ids as [|id ids IH]; intros p Hs Ht; simpl in *; [split; [done|lia]|].
  set (p' := (UpdateP2PStatus now P2PPending id p).1).
  assert (P2PStatus p' = P2PPending /\ pendingTTL p' = pendingTTL p - 1) as [H1 H2].
  { unfold p', UpdateP2PStatus. rewrite Hs. simpl. case_match; [lia|done]. }
  destruct (IH p' H1 ltac:(lia)) as [H3 H4]. split; [exact H3|]. etransitivity; [exact H4|]. lia.
Qed.
End Status.

(** ** Properties *)

(** C17. The peer registry refines a map from MAC address to peer info: a full
    peer list leaves exactly the listed peers (the last entry of a repeated
    MAC wins), a registration inserts its peers, an unregistration deletes
    them, any other event type is refused without effect; and the two indices
    stay consistent. *)
Theorem peer_events_refine {US : UDPServices} {MR : MapRange (list Z)} now pil reset r :
  reg_wf r -> (pil_HasOrigin pil = true -> pil_Origin pil <> None) ->
  match spec_event (u8 (pil_EventType pil)) (pil_PeerInfos pil) (reg_view r) with
  | Some v => exists r', HandlePeerInfoList now pil reset true r = (Ok tt, r') /\
                reg_wf r' /\ reg_view r' = v
  | None => HandlePeerInfoList now pil reset true r = (Err errEventType, r)
  end.
Proof.
  intros Hwf Ho. unfold spec_event.
  destruct (Z.eqb_spec (u8 (pil_EventType pil)) TypeList) as [E|N]; [by apply list_event|].
  unfold HandlePeerInfoList. rewrite (proj2 (Z.eqb_neq _ _) N).
  destruct (u8 (pil_EventType pil) =? TypeRegister); [by apply add_all_spec|].
  destruct (u8 (pil_EventType pil) =? TypeUnregister); [by apply remove_all_spec|done].
Qed.

#[local] Instance no_services : UDPServices := fun _ => None.
#[local] Instance sample_range : MapRange (list Z) := default_range (list Z).

Definition sample_info (b : Z) : PeerInfo :=
  mkPeerInfo (str "10.128.0.7") [2;0;0;0;0;b] (str "192.0.2.9:4000") (str "acme") (str "alice").

Lemma peer_events_refine_witness :
  exists r', HandlePeerInfoList 7 (mkPeerInfoList false None [sample_info 1; sample_info 2] 257) false true
      (NewPeerRegistry (str "acme")) = (Ok tt, r') /\
    reg_wf r' /\ reg_view r' = add_infos [sample_info 1; sample_info 2] ∅.
Proof.
  apply (peer_events_refine 7 (mkPeerInfoList false None [sample_info 1; sample_info 2] 257) false
    (NewPeerRegistry (str "acme"))); [apply NewPeerRegistry_wf|done].
Defined.

(** Hole punching gives up after a bounded number of attempts: pinging a
    peer of unknown reachability keeps it pending for 30 updates with no
    answer, and from the 31st on it is unavailable. *)
Theorem hole_punch_bounded now ids p :
  P2PStatus p = P2PUnknown -> ids <> [] ->
  P2PStatus (updates now ((fun id => (P2PPending, id)) <$> ids) p) =
    if bool_decide (length ids <= 30)%nat then P2PPending else P2PUnavailable.
Proof.
  intros Hs Hne. destruct ids as [|id ids]; [done|]. rewrite fmap_cons.
  set (p1 := (UpdateP2PStatus now P2PPending id p).1).
  assert (P2PStatus p1 = P2PPending /\ pendingTTL p1 = 30) as [H1 H2]
    by (unfold p1, UpdateP2PStatus; rewrite Hs; done).
  change (updates now (_ :: ?l) p) with (updates now l p1).
  case_bool_decide as Hl; simpl in Hl.
  { apply updates_pending; [done|]. lia. }
  rewrite <-(take_drop 29 ids), fmap_app, updates_app.
  destruct (updates_pending now (take 29 ids) p1) as [H3 H4]; [done|rewrite length_take; lia|].
  rewrite length_take_le in H4 by lia.
  destruct (drop 29 ids) as [|id' rest] eqn:E; [apply (f_equal length) in E; rewrite length_drop in E; simpl in E; lia|].
  set (p2 := updates now _ p1) in *. rewrite fmap_cons. simpl.
  apply updates_stuck; unfold UpdateP2PStatus; rewrite H3, H2 in *; simpl; rewrite H4; simpl; done || lia.
Qed.

Lemma hole_punch_bounded_witness :
  P2PStatus (updates 5 ((fun id => (P2PPending, id)) <$> replicate 31 (str "id"))
    (mkPeer (sample_info 1) P2PUnknown false [] 0 0)) = P2PUnavailable.
Proof.
  apply (hole_punch_bounded 5 (replicate 31 (str "id")) (mkPeer (sample_info 1) P2PUnknown false [] 0 0));
    done.
Defined.

(** A peer just added to the registry whose first status update is not a
    ping (a direct message from it marks it available at once) becomes
    unavailable and no later update brings it back: its time to live was
    never armed. *)
Theorem first_update_not_pending {US : UDPServices} {MR : MapRange (list Z)} now infos r st id l r' p rest :
  Peers r !! mac_key infos = None -> AddPeer now infos true r = (Ok l, r') ->
  pheap r' !! l = Some p -> st <> P2PPending ->
  P2PStatus (updates now ((st, id) :: rest) p) = P2PUnavailable.
Proof.
  intros HP HA Hp Hst.
  assert (p = mkPeer infos P2PUnknown false [] 0 now) as ->.
  { unfold AddPeer in HA. munfold. simpl in HA. rewrite HP in HA. injection HA as <- <-.
    simpl in Hp. rewrite lookup_insert_eq in Hp. congruence. }
  destruct (update_unavailable now st id (mkPeer infos P2PUnknown false [] 0 now)) as [H1 H2];
    [simpl; lia|by intros []|]. simpl. by apply updates_stuck.
Qed.

Lemma first_update_not_pending_witness :
  exists r', AddPeer 7 (sample_info 1) true (NewPeerRegistry (str "acme")) = (Ok 0%nat, r') /\
  exists p, pheap r' !! 0%nat = Some p /\
    P2PStatus (updates 7 [(P2PAvailable, []); (P2PPending, str "x"); (P2PAvailable, [])] p) = P2PUnavailable.
Proof.
  pose proof (first_update_not_pending 7 (sample_info 1) (NewPeerRegistry (str "acme")) P2PAvailable [] 0%nat
    _ _ [(P2PPending, str "x"); (P2PAvailable, [])] eq_refl eq_refl eq_refl ltac:(discriminate)) as H.
  exists (AddPeer 7 (sample_info 1) true (NewPeerRegistry (str "acme"))).2.
  split; [reflexivity|]. eexists. split; [reflexivity|]. exact H.
Defined.
