(* ===== verification/Crypto.v ===== *)
(** * Supernode secrets: [pkg/crypto]

    The key pair of the supernode, its PEM form and the OAEP encryption of
    machine ids.  RSA, X.509 and PEM are the interface [RSALib], of which the
    theorems use the documented round trips ([RSALaws]). *)
From S2P Require Import Prelude.
From stdpp Require Import list strings.
From Stdlib Require Import ZArith Lia.
Open Scope Z_scope.

Class RSALib := {
  PrivateKey : Type;
  PublicKey : Type;
  (** [rsa.GenerateKey] on the bytes the random reader delivers. *)
  GenerateKey : list Z -> option PrivateKey;
  key_Public : PrivateKey -> PublicKey;
  EncryptOAEP : PublicKey -> list Z -> list Z -> option (list Z);
  DecryptOAEP : PrivateKey -> list Z -> option (list Z);
  MarshalPKIXPublicKey : PublicKey -> option (list Z);
  (** [inr] is a public key of another algorithm. *)
  ParsePKIXPublicKey : list Z -> option (PublicKey + list Z);
  pem_Encode : string -> list Z -> list Z;
  (** The bytes of the first block. *)
  pem_Decode : list Z -> option (list Z) }.

Class RSALaws `{RSALib} : Prop := {
  oaep_decrypts : forall k rnd m c, EncryptOAEP (key_Public k) rnd m = Some c -> DecryptOAEP k c = Some m;
  pkix_parses : forall p b, MarshalPKIXPublicKey p = Some b -> ParsePKIXPublicKey b = Some (inl p);
  pem_decodes : forall ty b, pem_Decode (pem_Encode ty b) = Some b }.

Section Secrets.
Context `{RSALib}.

Record SNSecrets := mkSecrets { Priv : PrivateKey; Pub : PublicKey; Pem : list Z }.

Definition errGenKey : goerr := ErrWrap "Failed to generate key" (ErrNew "rsa").
Definition errDecrypt : goerr := ErrNew "Failed to decrypt".
Definition errEncrypt : goerr := ErrNew "Failed to encrypt".
Definition errPEM : goerr := ErrNew "failed to parse PEM block containing the public key".
Definition errPKIX : goerr := ErrNew "x509: failed to parse public key".
Definition errNotRSA : goerr := ErrNew "not an RSA public key".

(** The fatal exit on a key that cannot be encoded is a panic. *)
Definition marshalPublicKey (publicKey : PublicKey) : outcome (list Z) :=
  match MarshalPKIXPublicKey publicKey with
  | None => Panic
  | Some b => Ok (pem_Encode "RSA PUBLIC KEY" b)
  end.

Definition parsePublicKey (pemData : list Z) : outcome PublicKey :=
  match pem_Decode pemData with
  | None => Err errPEM
  | Some b =>
      match ParsePKIXPublicKey b with
      | None => Err errPKIX
      | Some (inr _) => Err errNotRSA
      | Some (inl p) => Ok p
      end
  end.

Definition GenSNSecrets (rnd : list Z) : outcome SNSecrets :=
  match GenerateKey rnd with
  | None => Err errGenKey
  | Some k => p ← marshalPublicKey (key_Public k); Ok (mkSecrets k (key_Public k) p)
  end.

Definition PublicKeyFromPEMData (pemdata : list Z) : outcome PublicKey := parsePublicKey pemdata.

Definition DecryptSequence (sequence : list Z) (privKey : PrivateKey) : outcome (list Z) :=
  match DecryptOAEP privKey sequence with Some d => Ok d | None => Err errDecrypt end.

Definition EncryptSequence (rnd sequence : list Z) (pubKey : PublicKey) : outcome (list Z) :=
  match EncryptOAEP pubKey rnd sequence with Some e => Ok e | None => Err errEncrypt end.
End Secrets.

(** A transparent instance for evaluation: the key is a byte, the cipher text
    the key followed by the message. *)
#[export] Instance toy_rsa : RSALib := {|
  PrivateKey := Z; PublicKey := Z;
  GenerateKey rnd := head rnd;
  key_Public k := k;
  EncryptOAEP p _ m := Some (p :: m);
  DecryptOAEP k c := match c with p :: m => if p =? k then Some m else None | [] => None end;
  MarshalPKIXPublicKey p := Some [p];
  ParsePKIXPublicKey b := match b with [p] => Some (inl p) | _ => None end;
  pem_Encode ty b := Z.of_nat (length (str ty)) :: str ty ++ b;
  pem_Decode d := match d with
    | n :: r => Some (drop (Z.to_nat n) r)
    | [] => None end |}.

Lemma toy_rsa_laws : @RSALaws toy_rsa.
Proof.
  constructor; simpl.
  - intros k rnd m c [= <-]. by rewrite Z.eqb_refl.
  - by intros p b [= <-].
  - intros ty b. by rewrite Nat2Z.id, drop_app_length.
Qed.

Lemma secrets_pem `{RSALaws} rnd secrets : GenSNSecrets rnd = Ok secrets ->
  PublicKeyFromPEMData (Pem secrets) = Ok (Pub secrets).
Proof.
  unfold GenSNSecrets, PublicKeyFromPEMData, parsePublicKey, marshalPublicKey.
  destruct (GenerateKey rnd) as [k|]; [|done].
  destruct (MarshalPKIXPublicKey (key_Public k)) as [b|] eqn:Em; [|done]. intros [= <-]. simpl.
  by rewrite pem_decodes, (pkix_parses _ _ Em).
Qed.

Lemma secrets_decrypt `{RSALaws} rnd secrets rnd' m c : GenSNSecrets rnd = Ok secrets ->
  EncryptSequence rnd' m (Pub secrets) = Ok c -> DecryptSequence c (Priv secrets) = Ok m.
Proof.
  unfold GenSNSecrets, EncryptSequence, DecryptSequence. destruct (GenerateKey rnd) as [k|]; [|done].
  cbn [mbind outcome_bind]. destruct (marshalPublicKey _); [|done..]. intros [= <-]. simpl.
  destruct (EncryptOAEP _ _ _) as [c'|] eqn:Ee; [|done]. intros [= <-]. by rewrite (oaep_decrypts _ _ _ _ Ee).
Qed.

(** The key exchange of registration: the PEM block the supernode
    publishes parses to its public key, and a machine id an edge encrypts with
    that key decrypts to itself. *)
Theorem secret_exchange `{RSALaws} rnd secrets :
  GenSNSecrets rnd = Ok secrets ->
  PublicKeyFromPEMData (Pem secrets) = Ok (Pub secrets) /\
  forall rnd' machineID sequence, EncryptSequence rnd' machineID (Pub secrets) = Ok sequence ->
    DecryptSequence sequence (Priv secrets) = Ok machineID.
Proof.
  intros Hg. split; [by eapply secrets_pem|]. intros rnd' m c. by eapply secrets_decrypt.
Qed.

Lemma secret_exchange_witness :
  EncryptSequence [] [1; 2; 3] (7 : @PublicKey toy_rsa) = Ok [7; 1; 2; 3] /\
  DecryptSequence [7; 1; 2; 3] (7 : @PrivateKey toy_rsa) = Ok [1; 2; 3].
Proof.
  split; [reflexivity|].
  apply (proj2 (@secret_exchange toy_rsa toy_rsa_laws [7] (mkSecrets (H := toy_rsa) 7 7 (14 :: str "RSA PUBLIC KEY" ++ [7]))
    eq_refl) []). reflexivity.
Defined.
