(* ===== verification/SNState.v ===== *)
(** * The supernode's state

    The structs of [pkg/supernode]: edges and communities are heap objects
    (an [*Edge] is shared by its community and the two global indices), the
    clock, the IP pools and the network are part of the state.  Also
    [config.go], [stats.go], [edge.go] and [network.go]. *)
From S2P Require Import Prelude GoBytes GoNet Netstruct Protocol Crypto.
From stdpp Require Import gmap list strings fin_maps.
From Stdlib Require Import ZArith Lia.
Open Scope Z_scope.

(** ** The environment *)

(** The IP pool library: pools registered per CIDR, leases keyed by MAC. *)
Record Lease := mkLease {
  lease_IP : list Z; lease_MAC : list Z; lease_Expiry : Z; lease_Sticky : bool; lease_LastRenew : Z }.

Class IPPool := {
  pool_world : Type;
  pool : Type;
  GetRegisteredPool : list Z -> pool_world -> option pool;
  NewIPPool : list Z -> Z -> pool_world -> (pool + goerr) * pool_world;
  RequestIP : pool -> list Z -> bool -> pool_world -> (list Z + goerr) * pool_world;
  pool_GetLease : pool -> list Z -> pool_world -> option Lease;
  GetAllLeases : pool -> pool_world -> gmap (list Z) Lease }.

(** A datagram or a websocket frame handed to the network. *)
Inductive Sent :=
  | SentUDP (packet : list Z) (addr : netAddr)
  | SentWSS (conn : nat) (packet : list Z).

#[export] Instance Sent_eq_dec : EqDecision Sent.
Proof. solve_decision. Defined.

(** Whether a write succeeds is up to the network, given all earlier writes. *)
Class Net := net_write : list (Sent * option goerr) -> Sent -> option goerr.

(** ** [netip] values

    An address is its 4 or 16 bytes, the zero address is []; the zero prefix
    has length -1. *)
Definition netip_String (a : list Z) : list Z :=
  match a with
  | [] => str "invalid IP"
  | _ => if bool_decide (length a = 4)%nat then IPv4_String a
         else if bool_decide (take 12 a = v4InV6Prefix) then str "::ffff:" ++ IPv4_String (drop 12 a)
         else IPv6_String a
  end.

Record Prefix := mkPrefix { prefix_Addr : list Z; prefix_Bits : Z }.

(** The network mask of [n] leading ones among [8 * length a] bits. *)
Definition addr_mask (a : list Z) (n : Z) : list Z :=
  let w := 8 * len a in
  be_put (length a) (Z.land (be_get a) (2 ^ w - 2 ^ (w - n))).

Definition errPrefix : goerr := ErrNew "prefix length out of range".

Definition Addr_Prefix (a : list Z) (b : Z) : outcome Prefix :=
  if b <? 0 then Err errPrefix
  else if bool_decide (a = []) then Ok (mkPrefix [] (-1))
  else if 8 * len a <? b then Err errPrefix
  else Ok (mkPrefix (addr_mask a b) b).

(** [Masked]: the zero prefix if the prefix is not valid. *)
Definition Prefix_Masked (p : Prefix) : Prefix :=
  match Addr_Prefix (prefix_Addr p) (prefix_Bits p) with Ok q => q | _ => mkPrefix [] (-1) end.

(** [net.CIDRMask(ones, 32)]: nil out of range. *)
Definition CIDRMask32 (ones : Z) : list Z :=
  if (ones <? 0) || (32 <? ones) then [] else be_put 4 (2 ^ 32 - 2 ^ (32 - ones)).

(** [IPMask.Size]: the leading ones of a canonical mask, else 0. *)
Fixpoint simpleMaskLength (m : list Z) (n : Z) : option Z :=
  match m with
  | [] => Some n
  | v :: m' =>
      if v =? 255 then simpleMaskLength m' (n + 8)
      else match List.find (fun k => v =? 256 - 2 ^ (8 - k)) [0; 1; 2; 3; 4; 5; 6; 7] with
           | Some k => if forallb (fun b => b =? 0) m' then Some (n + k) else None
           | None => None
           end
  end.

Definition IPMask_Size (m : list Z) : Z := default 0 (simpleMaskLength m 0).

(** ** [network.go] *)
Record NetworkAllocator := mkAllocator { baseNetwork : list Z; na_mask : list Z }.

Definition NewNetworkAllocator (base mask : list Z) : NetworkAllocator :=
  mkAllocator (To4 base) mask.

(** [binary.BigEndian.Uint32]: panics on fewer than 4 bytes. *)
Definition Uint32 (b : list Z) : outcome Z := b4 ← slice b 0 4; Ok (be_get b4).

Definition ProposeVirtualNetwork (m : NetworkAllocator) (community : list Z) : outcome Prefix :=
  h ← Uint32 (Sha256.Sum256 community);
  let offset := Z.land h 0x00FFFFFF in
  base ← Uint32 (baseNetwork m);
  maskUint ← Uint32 (na_mask m);
  let hostPart := Z.ldiff offset maskUint in
  let vipUint := Z.lor (Z.land base maskUint) hostPart in
  let vip := be_put 4 vipUint in
  Addr_Prefix vip (IPMask_Size (na_mask m)).

(** ** [config.go] *)
Record Config := mkConfig {
  Debug : bool; CommunitySubnet : list Z; CommunitySubnetCIDR : Z;
  ExpiryDuration : Z; CleanupInterval : Z; UDPBufferSize : Z;
  StrictHashChecking : bool; EnableVFuze : bool; ListenAddr : list Z; ConfigFile : list Z;
  WSEnabled : bool; WSListenAddr : list Z;
  WSSEnabled : bool; WSSCert : list Z; WSSKey : list Z; WSSListenAddr : list Z }.

Definition DefaultConfig : Config :=
  mkConfig true (str "10.128.0.0") 24 (10 * 60 * 10 ^ 9) (5 * 60 * 10 ^ 9) (2048 * 2048)
    true true (str ":7777") (str "supernode.yaml")
    false (str ":8080") false [] [] (str ":443").

(** ** [stats.go] *)
Record SupernodeStats := mkStats {
  PacketsProcessed : Z; PacketsForwarded : Z; PacketsDropped : Z;
  EdgesRegistered : Z; EdgesUnregistered : Z; HeartbeatsReceived : Z;
  CompactPacketsRecv : Z; LegacyPacketsRecv : Z; HashCollisionsDetected : Z;
  LastCleanupTime : Z; LastCleanupEdges : Z }.

(** ** [edge.go] *)
Record EdgeCachedInfos := mkCached {
  ci_MACAddr : list Z; ci_Desc : list Z; ci_Community : list Z;
  ci_IsRegistered : bool; ci_UpdatedAt : Z; ci_VirtualIP : list Z }.

Record Edge := mkEdge {
  Desc : list Z; PublicIP : list Z; PublicPort : Z; LocalIP : list Z; LocalPort : Z;
  e_Community : list Z; VirtualIP : list Z; VNetMaskLen : Z; LastHeartbeat : Z;
  LastSequence : Z; MACAddr : list Z; MachineID : list Z; WSSConnID : list Z }.

Definition Edge_UDPAddr (e : Edge) : netAddr := UDPAddr (PublicIP e) (PublicPort e).

Definition Edge_PeerInfo (e : Edge) : PeerInfo :=
  mkPeerInfo (netip_String (VirtualIP e)) (default [] (ParseMAC (MACAddr e)))
    (IP_String (PublicIP e) ++ [58] ++ itoa (PublicPort e)) (e_Community e) (Desc e).

(** What a heartbeat or a registration refreshes. *)
Definition edge_refresh (ip : list Z) (port now seq : Z) (e : Edge) : Edge :=
  mkEdge (Desc e) ip port (LocalIP e) (LocalPort e) (e_Community e) (VirtualIP e)
    (VNetMaskLen e) now seq (MACAddr e) (MachineID e) (WSSConnID e).
Definition edge_set_conn (c : list Z) (e : Edge) : Edge :=
  mkEdge (Desc e) (PublicIP e) (PublicPort e) (LocalIP e) (LocalPort e) (e_Community e) (VirtualIP e)
    (VNetMaskLen e) (LastHeartbeat e) (LastSequence e) (MACAddr e) (MachineID e) c.

Definition addrToIP (a : netAddr) : option (list Z) :=
  match a with UDPAddr ip _ | TCPAddr ip _ => Some ip | _ => None end.

Definition addrToPort (a : netAddr) : option Z :=
  match a with UDPAddr _ p | TCPAddr _ p => Some p | _ => None end.

(** ** The state *)
Section State.
Context `{IPP : IPPool, RSA : RSALib}.

(** The community's configuration pointer only drives logging; its back
    pointer is the supernode itself. *)
Record Community := mkCommunity {
  cm_name : list Z; cm_subnet : Prefix; cm_ips : pool; cm_maskLen : Z;
  communityPeerP2PInfos : gmap (list Z) PeerP2PInfos;
  cm_edges : gmap (list Z) nat }.

Record Supernode := mkSupernode {
  netAllocator : NetworkAllocator;
  communities : gmap Z nat;
  edgesByMAC : gmap (list Z) nat;
  edgesBySocket : gmap (list Z) nat;
  edgeCachedInfos : gmap (list Z) EdgeCachedInfos;
  config : Config;
  stats : SupernodeStats;
  SecretsOf : SNSecrets;
  wssConnections : gmap (list Z) nat;
  (** the heaps *)
  cheap : gmap nat Community; cnext : nat;
  eheap : gmap nat Edge; enext : nat;
  (** the environment *)
  clock : Z; pools : pool_world; wire : list (Sent * option goerr) }.

Definition set_cm_edges (es : gmap (list Z) nat) (c : Community) : Community :=
  mkCommunity (cm_name c) (cm_subnet c) (cm_ips c) (cm_maskLen c) (communityPeerP2PInfos c) es.
Definition set_cm_p2p (p : gmap (list Z) PeerP2PInfos) (c : Community) : Community :=
  mkCommunity (cm_name c) (cm_subnet c) (cm_ips c) (cm_maskLen c) p (cm_edges c).

Definition set_communities x (s : Supernode) : Supernode :=
  mkSupernode (netAllocator s) x (edgesByMAC s) (edgesBySocket s) (edgeCachedInfos s) (config s)
    (stats s) (SecretsOf s) (wssConnections s) (cheap s) (cnext s) (eheap s) (enext s) (clock s) (pools s) (wire s).
Definition set_indices m k (s : Supernode) : Supernode :=
  mkSupernode (netAllocator s) (communities s) m k (edgeCachedInfos s) (config s)
    (stats s) (SecretsOf s) (wssConnections s) (cheap s) (cnext s) (eheap s) (enext s) (clock s) (pools s) (wire s).
Definition set_cache x (s : Supernode) : Supernode :=
  mkSupernode (netAllocator s) (communities s) (edgesByMAC s) (edgesBySocket s) x (config s)
    (stats s) (SecretsOf s) (wssConnections s) (cheap s) (cnext s) (eheap s) (enext s) (clock s) (pools s) (wire s).
Definition set_stats (f : SupernodeStats -> SupernodeStats) (s : Supernode) : Supernode :=
  mkSupernode (netAllocator s) (communities s) (edgesByMAC s) (edgesBySocket s) (edgeCachedInfos s) (config s)
    (f (stats s)) (SecretsOf s) (wssConnections s) (cheap s) (cnext s) (eheap s) (enext s) (clock s) (pools s) (wire s).
Definition set_conns x (s : Supernode) : Supernode :=
  mkSupernode (netAllocator s) (communities s) (edgesByMAC s) (edgesBySocket s) (edgeCachedInfos s) (config s)
    (stats s) (SecretsOf s) x (cheap s) (cnext s) (eheap s) (enext s) (clock s) (pools s) (wire s).
Definition set_cheap h n (s : Supernode) : Supernode :=
  mkSupernode (netAllocator s) (communities s) (edgesByMAC s) (edgesBySocket s) (edgeCachedInfos s) (config s)
    (stats s) (SecretsOf s) (wssConnections s) h n (eheap s) (enext s) (clock s) (pools s) (wire s).
Definition set_eheap h n (s : Supernode) : Supernode :=
  mkSupernode (netAllocator s) (communities s) (edgesByMAC s) (edgesBySocket s) (edgeCachedInfos s) (config s)
    (stats s) (SecretsOf s) (wssConnections s) (cheap s) (cnext s) h n (clock s) (pools s) (wire s).
Definition set_pools x (s : Supernode) : Supernode :=
  mkSupernode (netAllocator s) (communities s) (edgesByMAC s) (edgesBySocket s) (edgeCachedInfos s) (config s)
    (stats s) (SecretsOf s) (wssConnections s) (cheap s) (cnext s) (eheap s) (enext s) (clock s) x (wire s).
Definition set_wire x (s : Supernode) : Supernode :=
  mkSupernode (netAllocator s) (communities s) (edgesByMAC s) (edgesBySocket s) (edgeCachedInfos s) (config s)
    (stats s) (SecretsOf s) (wssConnections s) (cheap s) (cnext s) (eheap s) (enext s) (clock s) (pools s) x.
Definition set_clock x (s : Supernode) : Supernode :=
  mkSupernode (netAllocator s) (communities s) (edgesByMAC s) (edgesBySocket s) (edgeCachedInfos s) (config s)
    (stats s) (SecretsOf s) (wssConnections s) (cheap s) (cnext s) (eheap s) (enext s) x (pools s) (wire s).

(** Pointer reads, writes and allocations. *)
Definition get_cm (c : nat) : M Supernode Community := s ← gets id; mderef (cheap s !! c).
Definition get_edge (l : nat) : M Supernode Edge := s ← gets id; mderef (eheap s !! l).
Definition upd_cm (c : nat) (f : Community -> Community) : M Supernode unit :=
  modify (fun s => set_cheap (alter f c (cheap s)) (cnext s) s).
Definition upd_edge (l : nat) (f : Edge -> Edge) : M Supernode unit :=
  modify (fun s => set_eheap (alter f l (eheap s)) (enext s) s).
Definition new_cm (x : Community) : M Supernode nat := fun s =>
  (Ok (cnext s), set_cheap (<[cnext s := x]> (cheap s)) (S (cnext s)) s).
Definition new_edge (x : Edge) : M Supernode nat := fun s =>
  (Ok (enext s), set_eheap (<[enext s := x]> (eheap s)) (S (enext s)) s).

(** [s.stats.X.Add(n)]: the counters are uint64. *)
Definition stat (f : SupernodeStats -> SupernodeStats) : M Supernode unit := modify (set_stats f).
Definition add_processed (n : Z) (t : SupernodeStats) : SupernodeStats :=
  mkStats (u64 (PacketsProcessed t + n)) (PacketsForwarded t) (PacketsDropped t) (EdgesRegistered t)
    (EdgesUnregistered t) (HeartbeatsReceived t) (CompactPacketsRecv t) (LegacyPacketsRecv t)
    (HashCollisionsDetected t) (LastCleanupTime t) (LastCleanupEdges t).
Definition add_forwarded (n : Z) (t : SupernodeStats) : SupernodeStats :=
  mkStats (PacketsProcessed t) (u64 (PacketsForwarded t + n)) (PacketsDropped t) (EdgesRegistered t)
    (EdgesUnregistered t) (HeartbeatsReceived t) (CompactPacketsRecv t) (LegacyPacketsRecv t)
    (HashCollisionsDetected t) (LastCleanupTime t) (LastCleanupEdges t).
Definition add_dropped (n : Z) (t : SupernodeStats) : SupernodeStats :=
  mkStats (PacketsProcessed t) (PacketsForwarded t) (u64 (PacketsDropped t + n)) (EdgesRegistered t)
    (EdgesUnregistered t) (HeartbeatsReceived t) (CompactPacketsRecv t) (LegacyPacketsRecv t)
    (HashCollisionsDetected t) (LastCleanupTime t) (LastCleanupEdges t).
Definition add_registered (n : Z) (t : SupernodeStats) : SupernodeStats :=
  mkStats (PacketsProcessed t) (PacketsForwarded t) (PacketsDropped t) (u64 (EdgesRegistered t + n))
    (EdgesUnregistered t) (HeartbeatsReceived t) (CompactPacketsRecv t) (LegacyPacketsRecv t)
    (HashCollisionsDetected t) (LastCleanupTime t) (LastCleanupEdges t).
Definition add_unregistered (n : Z) (t : SupernodeStats) : SupernodeStats :=
  mkStats (PacketsProcessed t) (PacketsForwarded t) (PacketsDropped t) (EdgesRegistered t)
    (u64 (EdgesUnregistered t + n)) (HeartbeatsReceived t) (CompactPacketsRecv t) (LegacyPacketsRecv t)
    (HashCollisionsDetected t) (LastCleanupTime t) (LastCleanupEdges t).
Definition add_heartbeats (n : Z) (t : SupernodeStats) : SupernodeStats :=
  mkStats (PacketsProcessed t) (PacketsForwarded t) (PacketsDropped t) (EdgesRegistered t)
    (EdgesUnregistered t) (u64 (HeartbeatsReceived t + n)) (CompactPacketsRecv t) (LegacyPacketsRecv t)
    (HashCollisionsDetected t) (LastCleanupTime t) (LastCleanupEdges t).
Definition set_cleanup (time edges : Z) (t : SupernodeStats) : SupernodeStats :=
  mkStats (PacketsProcessed t) (PacketsForwarded t) (PacketsDropped t) (EdgesRegistered t)
    (EdgesUnregistered t) (HeartbeatsReceived t) (CompactPacketsRecv t) (LegacyPacketsRecv t)
    (HashCollisionsDetected t) time edges.

(** The literal builds fresh counters; only the cleanup fields are copied. *)
Definition GetStats (s : Supernode) : SupernodeStats :=
  mkStats 0 0 0 0 0 0 0 0 0 (LastCleanupTime (stats s)) (LastCleanupEdges (stats s)).
End State.

#[export] Instance SupernodeStats_eq_dec : EqDecision SupernodeStats.
Proof. solve_decision. Defined.
#[export] Instance Edge_eq_dec : EqDecision Edge.
Proof. solve_decision. Defined.
