(* ===== verification/Community.v ===== *)
(** * Communities: [pkg/supernode/community.go]

    A community files its edges by MAC address, leases them virtual
    addresses and keeps what they report about each other. *)
From S2P Require Import Prelude GoBytes GoNet Netstruct Protocol Crypto SNState.
From stdpp Require Import gmap list strings fin_maps.
From Stdlib Require Import ZArith Lia.
Open Scope Z_scope.

Definition errUnknownEdge : goerr := ErrNew "unknown edge cannot set P2PInfosFor".
Definition errUnknownMac : goerr := ErrNew "unknown edgeMacAddr".
Definition errNotRefreshed : goerr := ErrNew "unknown edge cannot be refreshed".
Definition errWrongMachineID : goerr := ErrNew "wrong decrypted machineID for edge cannot be refreshed".
Definition errParseAddr : goerr := ErrNew "ParseAddr".
Definition errMismatch : goerr := ErrNew "community mismatch for edge".
Definition errNilCommunity : goerr := ErrNew "nil community error".

Section Community.
Context `{IPP : IPPool, RSA : RSALib} {MR : MapRange (list Z)}.

(** ** The edge cache ([registration.go]) *)
Definition SetEdgeCachedInfo (macAddr desc community : list Z) (isRegistered : bool) (vip : list Z)
  : M Supernode unit :=
  modify (fun s => set_cache (<[macAddr := mkCached macAddr desc community isRegistered (clock s) vip]>
    (edgeCachedInfos s)) s).

Definition GetEdgeCachedInfo (macAddr : list Z) (s : Supernode) : option EdgeCachedInfos :=
  edgeCachedInfos s !! macAddr.

(** Built in range order, keyed by the cached MAC. *)
Definition GetOfflineCachedEdges (cm : option Community) (s : Supernode)
  : outcome (gmap (list Z) PeerCachedInfo) :=
  match cm with
  | None => Err errNilCommunity
  | Some c =>
      Ok (foldl (fun m kv =>
            let v := kv.2 in
            if negb (bool_decide (ci_Community v = cm_name c)) || ci_IsRegistered v then m
            else <[ci_MACAddr v := mkPeerCachedInfo (ci_Desc v) (ci_MACAddr v)
                     (netip_String (ci_VirtualIP v)) (cm_name c) (time_Sub (clock s) (ci_UpdatedAt v))]> m)
          ∅ (map_range (edgeCachedInfos s)))
  end.

(** ** Creation *)
Definition NewCommunity (name : list Z) (subnet : Prefix) : M Supernode nat :=
  let d := prefix_Bits (Prefix_Masked subnet) in
  let cidr := netip_String (prefix_Addr (Prefix_Masked subnet)) ++ [47] ++ itoa d in
  s ← gets id;
  ips ← (match GetRegisteredPool cidr (pools s) with
         | Some ips => mret ips
         | None =>
             let '(r, w) := NewIPPool cidr (24 * 3600 * 10 ^ 9) (pools s) in
             modify (set_pools w);;
             match r with inl ips => mret ips | inr e => merr e end
         end);
  new_cm (mkCommunity name subnet ips d ∅ ∅).

(** The configuration only drives logging. *)
Definition NewCommunityWithConfig (name : list Z) (subnet : Prefix) : M Supernode nat :=
  NewCommunity name subnet.

(** ** Operations of a community, given by its location *)
Definition ResetP2PInfos (c : nat) : M Supernode unit := upd_cm c (set_cm_p2p ∅).

Definition SetP2PInfosFor (c : nat) (edgeMac : list Z) (infos : PeerP2PInfos) : M Supernode unit :=
  cm ← get_cm c;
  match cm_edges cm !! edgeMac with
  | None => merr errUnknownEdge
  | Some _ => upd_cm c (fun cm => set_cm_p2p (<[edgeMac := infos]> (communityPeerP2PInfos cm)) cm)
  end.

Definition GetCommunityPeerP2PInfosDatas (c : nat) (edgeMac : list Z) : M Supernode P2PFullState :=
  cm ← get_cm c;
  match cm_edges cm !! edgeMac with
  | None => merr errUnknownEdge
  | Some _ =>
      s ← gets id;
      unreachables ← mlift (GetOfflineCachedEdges (Some cm) s);
      mret (mkP2PFullState (cm_name cm) false (communityPeerP2PInfos cm) unreachables)
  end.

(** The copies of the edges, in range order (locations never dangle). *)
Definition edges_of (s : Supernode) (cm : Community) : list Edge :=
  omap (fun kl => eheap s !! kl.2) (map_range (cm_edges cm)).

Definition GetAllEdges (c : nat) : M Supernode (list Edge) :=
  cm ← get_cm c; s ← gets id; mret (edges_of s cm).

Definition GetPeerInfoList (c : nat) (reqMACAddr : list Z) (full : bool) : M Supernode PeerInfoList :=
  edges ← GetAllEdges c;
  let mine := List.filter (fun e => bool_decide (MACAddr e = reqMACAddr)) edges in
  let others := List.filter (fun e => negb (bool_decide (MACAddr e = reqMACAddr))) edges in
  let origin := if full then Edge_PeerInfo <$> last mine else None in
  mret (mkPeerInfoList (bool_decide (is_Some origin)) origin (Edge_PeerInfo <$> others) TypeList).

Definition GetEdgeUDPAddr (c : nat) (mac : list Z) : M Supernode netAddr :=
  cm ← get_cm c;
  match cm_edges cm !! mac with
  | None => merr errUnknownMac
  | Some l => e ← get_edge l; mret (Edge_UDPAddr e)
  end.

Definition Unregister (c : nat) (edgeMac : list Z) : M Supernode bool :=
  cm ← get_cm c;
  match cm_edges cm !! edgeMac with
  | None => mret false
  | Some l =>
      edge ← get_edge l;
      SetEdgeCachedInfo edgeMac (Desc edge) (cm_name cm) false (VirtualIP edge);;
      upd_cm c (fun cm => set_cm_edges (delete edgeMac (cm_edges cm)) cm);;
      upd_cm c (fun cm => set_cm_p2p (delete edgeMac (communityPeerP2PInfos cm)) cm);;
      mret true
  end.

(** [net.ParseIP]: nil is []. *)
Definition ip_of (a : netAddr) : list Z :=
  match addrToIP a with Some ip => ip | None => default [] (ParseIP (Addr_String a)) end.

Definition RefreshEdge (c : nat) (r : RawMessage) (clearMachineId : list Z) : M Supernode bool :=
  cm ← get_cm c;
  match cm_edges cm !! EdgeMACAddr r with
  | None => merr errNotRefreshed
  | Some l =>
      edge ← get_edge l;
      if negb (bool_decide (clearMachineId = MachineID edge)) then merr errWrongMachineID else
      s ← gets id;
      upd_edge l (edge_refresh (ip_of (FromAddr r)) (default 0 (addrToPort (FromAddr r)))
                    (clock s) (Sequence (Header r)));;
      let newPort := default 0 (addrToPort (FromAddr r)) in
      let newIP := match default [] (addrToIP (FromAddr r)) with
                   | [] => default [] (ParseIP (Addr_String (FromAddr r)))
                   | ip => ip
                   end in
      mret (negb (PublicPort edge =? newPort) || negb (IP_Equal (PublicIP edge) newIP))
  end.

(** [clearMachineId] is the field the caller stored in the message. *)
Definition EdgeUpdate (c : nat) (r : RawMessage) (m : RegisterRequest) (clearMachineId : list Z)
  : M Supernode nat :=
  cm ← get_cm c;
  match cm_edges cm !! EdgeMACAddr r with
  | None =>
      s ← gets id;
      let '(res, w) := RequestIP (cm_ips cm) (EdgeMACAddr r) true (pools s) in
      modify (set_pools w);;
      nvip ← (match res with
              | inl ip => mret ip
              | inr e => merr (ErrWrap "IP allocation failed" e)
              end);
      match ParseAddr (IP_String nvip) with
      | None => merr errParseAddr
      | Some vip =>
          let edge := mkEdge (rreq_EdgeDesc m) (default [] (addrToIP (FromAddr r)))
                        (default 0 (addrToPort (FromAddr r))) [] 0 (cm_name cm) vip (cm_maskLen cm)
                        (clock s) (Sequence (Header r)) (EdgeMACAddr r) clearMachineId [] in
          l ← new_edge edge;
          upd_cm c (fun cm => set_cm_edges (<[EdgeMACAddr r := l]> (cm_edges cm)) cm);;
          SetEdgeCachedInfo (EdgeMACAddr r) (Desc edge) (cm_name cm) true (VirtualIP edge);;
          mret l
      end
  | Some l =>
      edge ← get_edge l;
      if negb (bool_decide (cm_name cm = e_Community edge)) then merr errMismatch else
      s ← gets id;
      upd_edge l (fun e => edge_refresh (default (PublicIP e) (addrToIP (FromAddr r)))
                    (default (PublicPort e) (addrToPort (FromAddr r))) (clock s) (Sequence (Header r)) e);;
      mret l
  end.

Definition GetEdge (c : nat) (mac : list Z) : M Supernode (option Edge) :=
  cm ← get_cm c;
  match cm_edges cm !! mac with
  | None => mret None
  | Some l => e ← get_edge l; mret (Some e)
  end.

Definition GetLease (c : nat) (mac : list Z) : M Supernode (option Lease) :=
  cm ← get_cm c; s ← gets id; mret (pool_GetLease (cm_ips cm) mac (pools s)).

Definition IsRegistered (c : nat) (mac : list Z) : M Supernode bool :=
  cm ← get_cm c; mret (bool_decide (is_Some (cm_edges cm !! mac))).

(** One entry of the lease report. *)
Definition lease_entry (s : Supernode) (mac : list Z) (v : Lease) : LeaseWithEdgeInfos :=
  let ext := match GetEdgeCachedInfo mac s with
             | Some ci => mkLeaseEdgeInfos (ci_Desc ci) (ci_IsRegistered ci)
                            (time_Sub (clock s) (ci_UpdatedAt ci)) (ci_VirtualIP ci)
             | None => mkLeaseEdgeInfos (str "unknown") false (- 10 ^ 9) []
             end in
  mkLeaseWithEdgeInfos
    (Some (mkIppoolLease (lease_IP v) (lease_MAC v) (lease_Expiry v) (lease_Sticky v) (lease_LastRenew v)))
    (Some ext).

Definition GetLeasesWithEdgesInfos (c : nat) : M Supernode (gmap (list Z) LeaseWithEdgeInfos) :=
  cm ← get_cm c; s ← gets id;
  mret (map_imap (fun k v => Some (lease_entry s k v)) (GetAllLeases (cm_ips cm) (pools s))).

Definition GetAllLease (c : nat) : M Supernode (gmap (list Z) Lease) :=
  cm ← get_cm c; s ← gets id;
  mret (map_imap (fun k _ => pool_GetLease (cm_ips cm) k (pools s)) (cm_edges cm)).

(** [now.Sub(edge.LastHeartbeat) > expiry] *)
Definition stale (now expiry : Z) (e : Edge) : bool := expiry <? time_Sub now (LastHeartbeat e).

Definition GetStaleEdgeIDs (c : nat) (expiry : Z) : M Supernode (list (list Z)) :=
  cm ← get_cm c; s ← gets id;
  mret (MACAddr <$> List.filter (stale (clock s) expiry) (edges_of s cm)).

Definition Size (c : nat) : M Supernode Z :=
  cm ← get_cm c; mret (Z.of_nat (size (cm_edges cm))).

Definition Community_Hash (c : nat) : M Supernode Z :=
  cm ← get_cm c; mret (HashCommunity (cm_name cm)).
End Community.
