(* ===== verification/Supernode.v ===== *)
(** * The supernode: [registration.go], [wire.go], [handlers.go],
    [cleanup.go], [crypto.go] and [supernode.go] of [pkg/supernode]

    Every handler is a method of the state monad; [supernode_step] is one atomic
    step of the running supernode. *)
From S2P Require Import Prelude GoBytes GoNet Netstruct Protocol Machine Crypto SNState Community.
From stdpp Require Import gmap list strings fin_maps.
From Stdlib Require Import ZArith Lia.
Open Scope Z_scope.

(** ** [errors.go] and error texts *)
Definition ErrCommunityUnknownEdge : goerr := ErrNew "found no registered edge".
Definition ErrCommunityNotFound : goerr := ErrNew "no community found with this hash".
Definition ErrUnicastForwardFail : goerr := ErrNew "cannot find edge for unicast forwarding".

Definition errWrongHash : goerr := ErrNew "wrong hash for community name".
Definition errOtherName : goerr := ErrNew "a different communityName already exists for hash".
Definition errClaim : goerr := ErrNew "computedMac from shared secret doesn't match claimed mac".
Definition errForward : goerr := ErrNew "Supernode: Failed to forward packet to edge".
Definition errNoConn : goerr := ErrNew "WSS connection not found".
Definition errNonUDP : goerr := ErrNew "cannot send UDP packet to non-UDP address".
Definition errNilAddr : goerr := ErrNew "cannot send UDP packet to nil address".
Definition errNotRequest : goerr := ErrNew "supernode handles only requests".
Definition errNotPing : goerr := ErrNew "not a Ping packet".
Definition errNotDataType : goerr := ErrNew "not a Data packet type".

(** The message types the supernode decodes or encodes. *)
Class SNCodec := {
  codec_rreq :: Proto RegisterRequest;
  codec_rresp :: Proto RegisterResponse;
  codec_unreg :: Proto UnregisterRequest;
  codec_hb :: Proto HeartbeatPulse;
  codec_plr :: Proto PeerListRequest;
  codec_pil :: Proto PeerInfoList;
  codec_ppi :: Proto PeerP2PInfos;
  codec_pfs :: Proto P2PFullState;
  codec_li :: Proto LeasesInfos;
  codec_sps :: Proto SnPublicSecret }.

Section Supernode.
Context `{IPP : IPPool, RSA : RSALib, NET : Net, CDC : SNCodec} {MR : MapRange (list Z)}
  {MRZ : MapRange Z} {MRN : MapRange nat}.

(** ** [wire.go] *)
Definition net_send (ev : Sent) : M Supernode unit :=
  s ← gets id;
  let r := net_write (wire s) ev in
  modify (set_wire (wire s ++ [(ev, r)]));;
  match r with None => mret tt | Some e => merr e end.

Definition forwardPacket (packet : list Z) (target : Edge) : M Supernode unit :=
  v ← mlift (index packet 0);
  packet ← (if v =? VersionV then mlift (FlagPacketFromSupernode packet) else mret packet);
  if negb (bool_decide (WSSConnID target = [])) then
    s ← gets id;
    match wssConnections s !! WSSConnID target with
    | None => merr errNoConn
    | Some t => net_send (SentWSS t packet)
    end
  else net_send (SentUDP packet (Edge_UDPAddr target)).

(** The loop of [broadcast], with [sentCount]. *)
Fixpoint broadcast_loop (packet senderID : list Z) (targets : list Edge) (sentCount : Z) : M Supernode Z :=
  match targets with
  | [] => mret sentCount
  | target :: rest =>
      if bool_decide (MACAddr target = senderID) then broadcast_loop packet senderID rest sentCount
      else
        r ← mtry (forwardPacket packet target);
        match r with
        | inr _ => stat (add_dropped 1);; broadcast_loop packet senderID rest sentCount
        | inl _ => broadcast_loop packet senderID rest (sentCount + 1)
        end
  end.

Definition broadcast (packet : list Z) (c : nat) (senderID : list Z) : M Supernode unit :=
  targets ← GetAllEdges c;
  sentCount ← broadcast_loop packet senderID targets 0;
  if 0 <? sentCount then stat (add_forwarded sentCount) else mret tt.

(** [copy(h.DestID[:], dst[:6])]: a short non-nil address panics. *)
Definition SNHeader (pt : Z) (community : list Z) (dst : option (list Z)) : M Supernode ProtoVHeader :=
  s ← gets id;
  d ← (match dst with None => mret (replicate 6 0) | Some d => mlift (slice d 0 6) end);
  mret (mkHeader VersionV 64 pt FlagFromSuperNode 0 (HashCommunity community)
          (take 6 SupernodeMACAddr) d (u32 (clock s / 10 ^ 9)) 0).

(** The edge whose websocket connection has the text of [addr] as its id. *)
Definition wss_target (addr : netAddr) (s : Supernode) : option Edge :=
  List.find (fun e => negb (bool_decide (WSSConnID e = []))
                && bool_decide (is_Some (wssConnections s !! WSSConnID e))
                && bool_decide (WSSConnID e = Addr_String addr))
    (omap (fun kl => eheap s !! kl.2) (map_range (edgesByMAC s))).

Definition write_udp (packet : list Z) (addr : netAddr) : M Supernode unit :=
  r ← mtry (net_send (SentUDP packet addr));
  match r with inl _ => mret tt | inr e => merr (ErrWrap " failed to send packet" e) end.

Definition WritePacket (pt : Z) (community : list Z) (dst : option (list Z)) (payload : list Z)
    (addr : option netAddr) : M Supernode unit :=
  header ← SNHeader pt community dst;
  let packet := PackProtoVDatagram header payload in
  match addr with
  | None => mret tt
  | Some a =>
      s ← gets id;
      match wss_target a s with
      | Some e => forwardPacket packet e
      | None =>
          match a with
          | UDPAddr _ _ => write_udp packet a
          | _ => merr errNonUDP
          end
      end
  end.

Definition SNStructHeader (T : Type) `{PacketTyped T} (community : list Z) (dst : option (list Z))
  : M Supernode ProtoVHeader := SNHeader (PacketType T) community dst.

Definition SendStruct {T : Type} `{PacketTyped T, Proto T} (p : T) (community : list Z)
    (dst : option (list Z)) (addr : option netAddr) : M Supernode unit :=
  header ← SNStructHeader T community dst;
  payload ← mlift (codec_Encode p);
  let packet := PackProtoVDatagram header payload in
  match addr with
  | None => merr errNilAddr
  | Some a =>
      s ← gets id;
      match wss_target a s with
      | Some e => forwardPacket packet e
      | None =>
          match a with
          | WSSAddr connID =>
              match wssConnections s !! connID with
              | Some t =>
                  r ← mtry (net_send (SentWSS t packet));
                  match r with inl _ => mret tt | inr e => merr (ErrWrap "failed to send WSS packet" e) end
              | None => merr errNonUDP
              end
          | UDPAddr _ _ => write_udp packet a
          | _ => merr errNonUDP
          end
      end
  end.

Definition BroadcastStruct {T : Type} `{PacketTyped T, Proto T} (p : T) (c : nat)
    (dst : option (list Z)) (senderMac : list Z) : M Supernode unit :=
  cm ← get_cm c;
  header ← SNStructHeader T (cm_name cm) dst;
  payload ← mlift (codec_Encode p);
  broadcast (PackProtoVDatagram header payload) c senderMac.

(** ** [crypto.go] *)
Definition DecryptMachineID (enc : list Z) : M Supernode (list Z) :=
  s ← gets id; mlift (DecryptSequence enc (Priv (SecretsOf s))).

(** ** [registration.go] *)

(** [found] is what the read under the shared lock returned: the check under
    the exclusive lock looks at it again instead of at the map. *)
Definition register_locked (communityName : list Z) (communityHash : Z) (found : option nat)
  : M Supernode nat :=
  match found with
  | Some c =>
      cm ← get_cm c;
      if bool_decide (cm_name cm = communityName) then mret c else merr errOtherName
  | None =>
      s ← gets id;
      prefix ← (match ProposeVirtualNetwork (netAllocator s) communityName with
                | Ok p => mret p
                | Err e => merr (ErrWrap "failed to allocate network for community" e)
                | Panic => mpanic
                end);
      c ← NewCommunityWithConfig communityName prefix;
      modify (fun s => set_communities (<[communityHash := c]> (communities s)) s);;
      mret c
  end.

Definition RegisterCommunity (communityName : list Z) (communityHash : Z) : M Supernode nat :=
  if negb (communityHash =? HashCommunity communityName) then merr errWrongHash else
  s ← gets id;
  match communities s !! communityHash with
  | Some c =>
      cm ← get_cm c;
      if bool_decide (cm_name cm = communityName) then mret c else merr errOtherName
  | None => register_locked communityName communityHash None
  end.

Definition GetCommunityForEdge (edgeMac : list Z) (communityHash : Z) : M Supernode nat :=
  s ← gets id;
  match communities s !! communityHash with
  | None => merr ErrCommunityNotFound
  | Some c =>
      e ← GetEdge c edgeMac;
      match e with
      | None => merr (ErrWrap "Community addr" ErrCommunityUnknownEdge)
      | Some _ => mret c
      end
  end.

Definition GetCommunity (i : RawMessage) : M Supernode nat :=
  GetCommunityForEdge (EdgeMACAddr i) (CommunityHash i).

Definition ValidateEdgeClaimedMACAddr (claimedMAC encryptedID communityName : list Z)
  : M Supernode (list Z) :=
  machineID ← DecryptMachineID encryptedID;
  if negb (bool_decide (HardwareAddr_String (ExtGenerateMac communityName machineID) = claimedMAC))
  then merr errClaim else mret machineID.

Definition RegisterEdge (r : RawMessage) (m : RegisterRequest) : M Supernode (nat * nat) :=
  machineID ← ValidateEdgeClaimedMACAddr (EdgeMACAddr r) (rreq_EncryptedMachineId m) (rreq_CommunityName m);
  c ← RegisterCommunity (rreq_CommunityName m) (CommunityHash r);
  edge ← EdgeUpdate c r m machineID;
  stat (add_registered 1);;
  mret (edge, c).

Definition newPeerInfoEvent (eventType : Z) (edge : Edge) : PeerInfoList :=
  mkPeerInfoList false None [Edge_PeerInfo edge] eventType.

(** A missing entry of [edgesByMAC] is a nil edge, dereferenced at once. *)
Definition onEdgeUnregistered (c : nat) (edgeMac : list Z) : M Supernode unit :=
  s ← gets id;
  l ← mderef (edgesByMAC s !! edgeMac);
  edge ← get_edge l;
  let pil := newPeerInfoEvent TypeUnregister edge in
  modify (fun s => set_indices (delete edgeMac (edgesByMAC s))
    (delete (Addr_String (Edge_UDPAddr edge)) (edgesBySocket s)) s);;
  stat (add_unregistered 1);;
  mignore (BroadcastStruct pil c None edgeMac).

Definition UnregisterEdge (ea : RawMessage) : M Supernode unit :=
  c ← GetCommunity ea;
  ok ← Unregister c (EdgeMACAddr ea);
  if (ok : bool) then onEdgeUnregistered c (EdgeMACAddr ea) else mret tt.

(** ** [wire.go]: forwarding *)
Definition ForwardUnicast (r : RawMessage) : M Supernode unit :=
  c ← GetCommunity r;
  target ← GetEdge c (DestMACAddr r);
  match target with
  | None => merr (ErrWrap "" ErrUnicastForwardFail)
  | Some e =>
      x ← mtry (forwardPacket (rawPacket r) e);
      match x with
      | inr _ => stat (add_dropped 1);; merr errForward
      | inl _ => stat (add_forwarded 1)
      end
  end.

Definition ForwardWithFallBack (r : RawMessage) : M Supernode unit :=
  c ← GetCommunity r;
  target ← GetEdge c (DestMACAddr r);
  sent ← (match target with
          | Some e =>
              x ← mtry (forwardPacket (rawPacket r) e);
              match x with
              | inr _ => stat (add_dropped 1);; mret false
              | inl _ => stat (add_forwarded 1);; mret true
              end
          | None => mret false
          end);
  if (sent : bool) then mret tt else broadcast (rawPacket r) c (EdgeMACAddr r).

(** ** [handlers.go] *)

(** The common tail of the three request handlers: answer the requesting
    edge over its websocket connection if it has one, else over UDP. *)
Definition reply_to {T : Type} `{PacketTyped T, Proto T} (c : nat) (mac : list Z) (p : T)
    (community : list Z) : M Supernode unit :=
  cm ← get_cm c;
  s ← gets id;
  match cm_edges cm !! mac ≫= fun l => eheap s !! l with
  | Some e =>
      if negb (bool_decide (WSSConnID e = []))
      then SendStruct p community None (Some (WSSAddr (WSSConnID e)))
      else target ← GetEdgeUDPAddr c mac; SendStruct p community None (Some target)
  | None => target ← GetEdgeUDPAddr c mac; SendStruct p community None (Some target)
  end.

Definition handleP2PStateInfoMessage (r : RawMessage) : M Supernode unit :=
  m ← mlift (ToMessage PeerP2PInfos r);
  c ← GetCommunity r;
  SetP2PInfosFor c (EdgeMACAddr r) m.

Definition handlePeerRequestMessage (r : RawMessage) : M Supernode unit :=
  m ← mlift (ToMessage PeerListRequest r);
  c ← GetCommunity r;
  pil ← GetPeerInfoList c (EdgeMACAddr r) true;
  reply_to c (EdgeMACAddr r) pil (plr_CommunityName m).

Definition handleLeasesInfosMessage (r : RawMessage) : M Supernode unit :=
  m ← mlift (ToMessage LeasesInfos r);
  if negb (li_IsRequest m) then merr errNotRequest else
  c ← GetCommunity r;
  leases ← GetLeasesWithEdgesInfos c;
  cm ← get_cm c;
  reply_to c (EdgeMACAddr r) (mkLeasesInfos false (cm_name cm) leases) (cm_name cm).

Definition handleUnregisterMessage (r : RawMessage) : M Supernode unit :=
  m ← mlift (ToMessage UnregisterRequest r);
  _ ← ValidateEdgeClaimedMACAddr (EdgeMACAddr r) (unreg_EncryptedMachineId m) (unreg_CommunityName m);
  UnregisterEdge r.

Definition handleRegisterMessage (r : RawMessage) : M Supernode unit :=
  m ← mlift (ToMessage RegisterRequest r);
  res ← mtry (RegisterEdge r m);
  match res with
  | inr e =>
      mignore (SendStruct (mkRegisterResponse false [] 0) (rreq_CommunityName m) None (Some (FromAddr r)));;
      stat (add_dropped 1);;
      merr e
  | inl (l, c) =>
      (match FromAddr r with
       | WSSAddr connID => upd_edge l (edge_set_conn connID)
       | _ => mret tt
       end);;
      edge ← get_edge l;
      modify (fun s => set_indices (<[MACAddr edge := l]> (edgesByMAC s))
        (let k := <[Addr_String (Edge_UDPAddr edge) := l]> (edgesBySocket s) in
         if bool_decide (WSSConnID edge = []) then k else <[WSSConnID edge := l]> k) s);;
      mignore (SendStruct (mkRegisterResponse true (netip_String (VirtualIP edge)) (VNetMaskLen edge))
        (rreq_CommunityName m) None (Some (FromAddr r)));;
      BroadcastStruct (newPeerInfoEvent TypeRegister edge) c None (EdgeMACAddr r)
  end.

Definition handleHeartbeatMessage (r : RawMessage) : M Supernode unit :=
  m ← mlift (ToMessage HeartbeatPulse r);
  c ← GetCommunity r;
  stat (add_heartbeats 1);;
  decmacid ← DecryptMachineID (hb_EncryptedMachineId m);
  changed ← RefreshEdge c r decmacid;
  e ← GetEdge c (EdgeMACAddr r);
  match e with
  | Some edge =>
      if (changed : bool) then mignore (BroadcastStruct (newPeerInfoEvent TypeRegister edge) c None (EdgeMACAddr r))
      else mret tt
  | None => mret tt
  end.

Definition handleP2PFullStateMessage (r : RawMessage) : M Supernode unit :=
  m ← mlift (ToMessage P2PFullState r);
  if negb (pfs_IsRequest m) then merr errNotRequest else
  c ← GetCommunityForEdge (EdgeMACAddr r) (CommunityHash r);
  st ← GetCommunityPeerP2PInfosDatas c (EdgeMACAddr r);
  cm ← get_cm c;
  reply_to c (EdgeMACAddr r) st (cm_name cm).

Definition handlePingMessage (r : RawMessage) : M Supernode unit :=
  if negb (hPacketType (Header r) =? TypePing) then merr errNotPing else ForwardUnicast r.

Definition handleSNPublicSecretMessage (r : RawMessage) : M Supernode unit :=
  m ← mlift (ToMessage SnPublicSecret r);
  if negb (sps_IsRequest m) then merr errNotRequest else
  s ← gets id;
  SendStruct (mkSnPublicSecret false (Pem (SecretsOf s))) [] None (Some (FromAddr r)).

Definition handleDataMessage (r : RawMessage) : M Supernode unit :=
  if negb (hPacketType (Header r) =? TypeData) then merr errNotDataType else ForwardWithFallBack r.

Definition handleVFuze (packet : list Z) (addr : netAddr) : M Supernode unit :=
  match VFuzePacketDestMACAddr packet with
  | Err _ => mret tt
  | Panic => mpanic
  | Ok dst =>
      s ← gets id;
      if negb (EnableVFuze (config s)) then mret tt else
      match edgesByMAC s !! HardwareAddr_String dst, edgesBySocket s !! Addr_String addr with
      | Some dl, Some sl =>
          dstedge ← get_edge dl;
          srcedge ← get_edge sl;
          if negb (bool_decide (e_Community dstedge = e_Community srcedge)) then mret tt
          else mignore (forwardPacket packet dstedge)
      | _, _ => mret tt
      end
  end.

(** ** [supernode.go] *)
Definition SnMessageHandlers : gmap Z (RawMessage -> M Supernode unit) :=
  list_to_map
    [(TypeRegisterRequest, handleRegisterMessage);
     (TypeUnregisterRequest, handleUnregisterMessage);
     (TypeHeartbeat, handleHeartbeatMessage);
     (TypeData, handleDataMessage);
     (TypePeerListRequest, handlePeerRequestMessage);
     (TypePing, handlePingMessage);
     (TypeP2PStateInfo, handleP2PStateInfoMessage);
     (TypeP2PFullState, handleP2PFullStateMessage);
     (TypeLeasesInfos, handleLeasesInfosMessage);
     (TypeSNPublicSecret, handleSNPublicSecretMessage)].

Definition NewSupernodeWithConfig (rnd : list Z) (cfg : Config) (now : Z) (w : pool_world)
  : outcome Supernode :=
  let alloc := NewNetworkAllocator (default [] (ParseIP (CommunitySubnet cfg)))
                 (CIDRMask32 (CommunitySubnetCIDR cfg)) in
  match GenSNSecrets rnd with
  | Ok secrets =>
      Ok (mkSupernode alloc ∅ ∅ ∅ ∅ cfg (mkStats 0 0 0 0 0 0 0 0 0 0 0) secrets ∅ ∅ 0 ∅ 0 now w [])
  | _ => Panic
  end.

Definition NewSupernode (rnd : list Z) (expiry cleanupInterval now : Z) (w : pool_world) : outcome Supernode :=
  let d := DefaultConfig in
  NewSupernodeWithConfig rnd
    (mkConfig (Debug d) (CommunitySubnet d) (CommunitySubnetCIDR d) expiry cleanupInterval
      (UDPBufferSize d) (StrictHashChecking d) (EnableVFuze d) (ListenAddr d) (ConfigFile d)
      (WSEnabled d) (WSListenAddr d) (WSSEnabled d) (WSSCert d) (WSSKey d) (WSSListenAddr d)) now w.

Definition ProcessPacket (packet : list Z) (addr : netAddr) : M Supernode unit :=
  stat (add_processed 1);;
  v ← mlift (index packet 0);
  if v =? VersionVFuze then handleVFuze packet addr else
  match NewRawMessage packet addr with
  | Panic => mpanic
  | Err _ => mret tt
  | Ok rawMsg =>
      res ← mtry (Handle SnMessageHandlers rawMsg);
      match res with
      | inl _ => mret tt
      | inr err =>
          if errors_is err ErrCommunityUnknownEdge || errors_is err ErrCommunityNotFound then
            match addr with
            | UDPAddr _ _ => mignore (WritePacket TypeRetryRegisterRequest [] None [] (Some addr))
            | _ => mret tt
            end
          else mret tt
      end
  end.

(** The connection ids of [handleWSUpgrade] and [handleWSSUpgrade]; [t] is
    the new transport. *)
Definition handleWSUpgrade (remote : list Z) (t : nat) : M Supernode unit :=
  modify (fun s => set_conns (<[str "ws-" ++ remote := t]> (wssConnections s)) s).
Definition handleWSSUpgrade (remote : list Z) (t : nat) : M Supernode unit :=
  modify (fun s => set_conns (<[str "wss-" ++ remote := t]> (wssConnections s)) s).

(** One frame of the receive loop, and its end. *)
Definition handleWSSConnection_recv (connID packet : list Z) : M Supernode unit :=
  ProcessPacket packet (WSSAddr connID).
Definition handleWSSConnection_close (connID : list Z) : M Supernode unit :=
  modify (fun s => set_conns (delete connID (wssConnections s)) s).

(** ** [cleanup.go] *)
Fixpoint collect_stales (expiry : Z) (cms : list nat) : M Supernode (list (nat * list (list Z))) :=
  match cms with
  | [] => mret []
  | c :: rest =>
      ids ← GetStaleEdgeIDs c expiry;
      l ← collect_stales expiry rest;
      mret ((c, ids) :: l)
  end.

(** [stales] is a map keyed by the community, ranged over in some order. *)
Definition CleanupStaleEdges (expiry : Z) : M Supernode unit :=
  s ← gets id;
  let now := clock s in
  let cms := (map_range (communities s)).*2 in
  stales ← collect_stales expiry cms;
  let totalCleanUp := Z.of_nat (length (concat stales.*2)) in
  mfor (map_range (list_to_map stales : gmap nat (list (list Z)))) (fun kvv =>
    mfor kvv.2 (fun id =>
      ok ← Unregister kvv.1 id;
      if (ok : bool) then stat (add_unregistered 1);; onEdgeUnregistered kvv.1 id else mret tt));;
  stat (set_cleanup now totalCleanUp).

(** ** One step of the running supernode

    A datagram or frame processed by a worker, a websocket connection
    opened or closed, a cleanup tick, or time passing. *)
Inductive supernode_step (s : Supernode) : Supernode -> Prop :=
  | step_udp packet ip port r s' :
      bytes_ok packet -> ProcessPacket packet (UDPAddr ip port) s = (r, s') -> supernode_step s s'
  | step_wss connID packet r s' :
      bytes_ok packet ->
      handleWSSConnection_recv connID packet s = (r, s') -> supernode_step s s'
  | step_ws_open remote t s' : handleWSUpgrade remote t s = (Ok tt, s') -> supernode_step s s'
  | step_wss_open remote t s' : handleWSSUpgrade remote t s = (Ok tt, s') -> supernode_step s s'
  | step_close connID s' : handleWSSConnection_close connID s = (Ok tt, s') -> supernode_step s s'
  | step_cleanup r s' : CleanupStaleEdges (ExpiryDuration (config s)) s = (r, s') -> supernode_step s s'
  | step_time t : clock s <= t -> supernode_step s (set_clock t s).
End Supernode.
