(* ===== verification/SNWire.v ===== *)
(** * What the supernode sends

    Sending only touches the wire and the counters ([core] is the rest of the
    state).  [emits s0 P m] says that a method run in a state whose core is
    that of [s0] does not panic, keeps the core and only sends events in [P];
    forwarding and broadcasting are then characterised exactly. *)
From S2P Require Import Prelude GoBytes GoNet Netstruct Protocol Machine Crypto SNState Community Supernode.
From stdpp Require Import gmap list strings fin_maps.
From Stdlib Require Import ZArith Lia.
Open Scope Z_scope.

Section Wire.
Context `{IPP : IPPool, RSA : RSALib, NET : Net, CDC : SNCodec} {MR : MapRange (list Z)}
  {MRZ : MapRange Z} {MRN : MapRange nat}.

Definition stats0 : SupernodeStats := mkStats 0 0 0 0 0 0 0 0 0 0 0.

(** The state without the wire and the counters. *)
Definition core_of (s : Supernode) : Supernode := set_wire [] (set_stats (fun _ => stats0) s).
Definition core (s s' : Supernode) : Prop := core_of s = core_of s'.

#[global] Instance core_equiv : Equivalence core.
Proof.
  split; unfold core; [by intros a|by intros a b|]. intros a b c H1 H2. by rewrite H1.
Qed.

(** The fields of the core agree. *)
Lemma core_field {A} (f : Supernode -> A) s s' :
  core s s' -> (forall x, f x = f (core_of x)) -> f s = f s'.
Proof. intros Hc Hf. by rewrite Hf, (Hf s'), Hc. Qed.

Definition emits (s0 : Supernode) (P : Sent -> Prop) {A} (m : M Supernode A) : Prop :=
  forall s, core s0 s -> exists evs,
    core s0 (m s).2 /\ wire (m s).2 = wire s ++ evs /\ Forall P evs.*1 /\ (m s).1 <> Panic.

Lemma emits_weaken s0 (P Q : Sent -> Prop) {A} (m : M Supernode A) :
  (forall ev, P ev -> Q ev) -> emits s0 P m -> emits s0 Q m.
Proof.
  intros HPQ Hm s Hs. destruct (Hm s Hs) as (evs & H1 & H2 & H3 & H4).
  exists evs. split_and!; try done. by eapply Forall_impl.
Qed.

Lemma emits_pure s0 P {A} (m : M Supernode A) :
  (forall s, (m s).2 = s /\ (m s).1 <> Panic) -> emits s0 P m.
Proof.
  intros Hm s Hs. exists []. destruct (Hm s) as [-> ?]. rewrite app_nil_r. done.
Qed.

Lemma emits_ret s0 P {A} (a : A) : emits s0 P (mret a).
Proof. apply emits_pure. done. Qed.
Lemma emits_err s0 P {A} e : emits s0 P (merr e : M Supernode A).
Proof. apply emits_pure. done. Qed.
Lemma emits_gets s0 P {A} (f : Supernode -> A) : emits s0 P (gets f).
Proof. apply emits_pure. done. Qed.
Lemma emits_lift s0 P {A} (o : outcome A) : o <> Panic -> emits s0 P (mlift o).
Proof. intros. apply emits_pure. done. Qed.
Lemma emits_stat s0 P f : emits s0 P (stat f).
Proof. intros s Hs. exists []. rewrite app_nil_r. done. Qed.

Lemma emits_bind s0 P {A B} (m : M Supernode A) (k : A -> M Supernode B) :
  emits s0 P m -> (forall a, emits s0 P (k a)) -> emits s0 P (m ≫= k).
Proof.
  intros Hm Hk s Hs. destruct (Hm s Hs) as (evs & H1 & H2 & H3 & H4).
  unfold mbind, M_bind. destruct (m s) as [[a|e|] s'] eqn:E; simpl in *; [|by exists evs|done].
  destruct (Hk a s' H1) as (evs' & H1' & H2' & H3' & H4').
  exists (evs ++ evs'). split_and!; try done.
  - by rewrite H2', H2, app_assoc.
  - rewrite fmap_app. by apply Forall_app.
Qed.

(** The read of the state: only its core is known. *)
Lemma emits_get s0 P {B} (k : Supernode -> M Supernode B) :
  (forall s, core s0 s -> emits s0 P (k s)) -> emits s0 P (gets id ≫= k).
Proof. intros Hk s Hs. by apply (Hk s). Qed.

Lemma emits_try s0 P {A} (m : M Supernode A) : emits s0 P m -> emits s0 P (mtry m).
Proof.
  intros Hm s Hs. destruct (Hm s Hs) as (evs & H1 & H2 & H3 & H4). exists evs. unfold mtry.
  destruct (m s) as [[a|e|] s']; done.
Qed.

Lemma emits_ignore s0 P {A} (m : M Supernode A) : emits s0 P m -> emits s0 P (mignore m).
Proof. intros Hm. apply emits_bind; [by apply emits_try|]. intros. apply emits_ret. Qed.

Lemma emits_send s0 (P : Sent -> Prop) ev : P ev -> emits s0 P (net_send ev).
Proof.
  intros HP s Hs. exists [(ev, net_write (wire s) ev)]. unfold net_send. munfold. simpl.
  destruct (net_write (wire s) ev); simpl; (split_and!; [done|done|by constructor|done]).
Qed.

(** ** Forwarding to one edge *)

(** The event that carries [packet] to [e]: none if its websocket is gone. *)
Definition delivery (s : Supernode) (packet : list Z) (e : Edge) : option Sent :=
  if bool_decide (WSSConnID e = []) then Some (SentUDP packet (Edge_UDPAddr e))
  else (fun t => SentWSS t packet) <$> wssConnections s !! WSSConnID e.

(** The packet as relayed: a ProtoV packet is flagged, a VFuze packet is
    sent as it is. *)
Definition relayed (packet : list Z) : outcome (list Z) :=
  match packet with
  | [] => Panic
  | v :: _ => if v =? VersionV then FlagPacketFromSupernode packet else Ok packet
  end.

Lemma Flag_no_panic packet : FlagPacketFromSupernode packet <> Panic.
Proof.
  unfold FlagPacketFromSupernode. rewrite Unpack_spec. case_bool_decide; [done|].
  destruct (negb _); [done|]. by destruct (header_read _).
Qed.

Lemma relayed_no_panic packet : packet <> [] -> relayed packet <> Panic.
Proof. destruct packet; [done|]. intros _. simpl. destruct (_ =? _); [apply Flag_no_panic|done]. Qed.

(** [forwardPacket] in closed form. *)
Lemma forwardPacket_eq packet e s :
  forwardPacket packet e s =
  match relayed packet with
  | Panic => (Panic, s)
  | Err x => (Err x, s)
  | Ok p => match delivery s p e with
            | None => (Err errNoConn, s)
            | Some ev => net_send ev s
            end
  end.
Proof.
  unfold forwardPacket, relayed, delivery. destruct packet as [|v packet]; [done|].
  cbn [index lookup list_lookup]. munfold. simpl.
  destruct (v =? VersionV).
  - destruct (FlagPacketFromSupernode _) as [p|x|]; [|done|done].
    case_bool_decide; simpl; [done|]. by destruct (wssConnections s !! _).
  - case_bool_decide; simpl; [done|]. by destruct (wssConnections s !! _).
Qed.

Lemma delivery_core s s' packet e : core s s' -> delivery s packet e = delivery s' packet e.
Proof. intros Hc. by apply (core_field (fun s => delivery s packet e)). Qed.

Lemma forwardPacket_emits s0 packet e :
  packet <> [] ->
  emits s0 (fun ev => exists p, relayed packet = Ok p /\ delivery s0 p e = Some ev) (forwardPacket packet e).
Proof.
  intros Hne s Hs. rewrite forwardPacket_eq.
  destruct (relayed packet) as [p|x|] eqn:E; [|by exists []; rewrite app_nil_r|by apply relayed_no_panic in Hne].
  rewrite <-(delivery_core _ _ p e Hs).
  destruct (delivery s0 p e) as [ev|] eqn:Ed; [|by exists []; rewrite app_nil_r].
  destruct (emits_send s0 (fun ev' => ev' = ev) ev eq_refl s Hs) as (evs & H1 & H2 & H3 & H4).
  exists evs. split_and!; try done. eapply Forall_impl; [exact H3|].
  intros ev' ->. by exists p.
Qed.

(** ** Broadcasting *)
Definition others (sender : list Z) (edges : list Edge) : list Edge :=
  List.filter (fun e => negb (bool_decide (MACAddr e = sender))) edges.

(** Writes the network accepted. *)
Definition accepted (evs : list (Sent * option goerr)) : Z :=
  len ((fun _ => 0) <$> List.filter (fun x => bool_decide (x.2 = None)) evs).

Lemma accepted_app a b : accepted (a ++ b) = accepted a + accepted b.
Proof.
  unfold accepted, len. rewrite List.filter_app, fmap_app, length_app. lia.
Qed.

Lemma u64_idem_add a b : u64 (u64 a + b) = u64 (a + b).
Proof. unfold u64. by rewrite Zplus_mod_idemp_l. Qed.

(** A single forward: the event, if any, and its fate. *)
Lemma forward_one packet p e s : relayed packet = Ok p ->
  exists evs, evs.*1 = option_list (delivery s p e) /\
    (mtry (forwardPacket packet e) s).2 = set_wire (wire s ++ evs) s /\
    (if bool_decide (accepted evs = 1) then (mtry (forwardPacket packet e) s).1 = Ok (inl tt) /\ accepted evs = 1
     else exists x, (mtry (forwardPacket packet e) s).1 = Ok (inr x) /\ accepted evs = 0).
Proof.
  intros Hr. unfold mtry. rewrite forwardPacket_eq, Hr.
  destruct (delivery s p e) as [ev|].
  - exists [(ev, net_write (wire s) ev)]. split; [done|]. unfold net_send. munfold. simpl.
    destruct (net_write (wire s) ev) as [x|]; simpl; [split; [done|by exists x]|done].
  - exists []. split; [done|]. simpl. rewrite app_nil_r. split; [by destruct s|by exists errNoConn].
Qed.

Lemma broadcast_loop_exact packet p sender targets : relayed packet = Ok p -> forall n s,
  exists evs s', broadcast_loop packet sender targets n s = (Ok (n + accepted evs), s') /\
    core s s' /\ wire s' = wire s ++ evs /\
    evs.*1 = omap (delivery s p) (others sender targets) /\
    PacketsForwarded (stats s') = PacketsForwarded (stats s) /\
    u64 (PacketsDropped (stats s')) =
      u64 (PacketsDropped (stats s) + (Z.of_nat (length (others sender targets)) - accepted evs)).
Proof.
  intros Hr. induction targets as [|e targets IH]; intros n s.
  { exists [], s. simpl. rewrite app_nil_r, !Z.add_0_r. done. }
  cbn [broadcast_loop]. unfold others. simpl List.filter. fold (others sender targets).
  case_bool_decide as Hs; simpl; [apply IH|].
  destruct (forward_one packet p e s Hr) as (evs1 & Hd & Hw & Hres).
  unfold mbind at 1, M_bind at 1.
  destruct (mtry (forwardPacket packet e) s) as [o s1]. simpl in Hw, Hres. subst s1.
  set (s1 := set_wire (wire s ++ evs1) s).
  assert (forall s2, core s s2 -> omap (delivery s p) (others sender targets)
    = omap (delivery s2 p) (others sender targets)) as Hom.
  { intros s2 Hc. apply list_omap_ext. apply Forall_Forall2_diag, Forall_forall.
    intros x _. by apply delivery_core. }
  case_bool_decide as Ha.
  - destruct Hres as [-> _].
    destruct (IH (n + 1) s1) as (evs2 & s' & H1 & H2 & H3 & H4 & H5 & H6).
    exists (evs1 ++ evs2), s'. rewrite H1, accepted_app, Ha. split_and!; try done.
    + do 2 f_equal. lia.
    + rewrite H3. unfold s1. simpl. by rewrite app_assoc.
    + rewrite fmap_app, Hd, H4, <-(Hom s1) by done. by destruct (delivery s p e).
    + rewrite H6. simpl. f_equal. lia.
  - destruct Hres as (x & -> & Ha0). unfold stat, modify, mbind, M_bind.
    destruct (IH n (set_stats (add_dropped 1) s1)) as (evs2 & s' & H1 & H2 & H3 & H4 & H5 & H6).
    exists (evs1 ++ evs2), s'. rewrite H1, accepted_app, Ha0. split_and!; try done.
    + rewrite H3. simpl. by rewrite app_assoc.
    + rewrite fmap_app, Hd, H4, <-(Hom (set_stats (add_dropped 1) s1)) by done. by destruct (delivery s p e).
    + rewrite H6. simpl. rewrite u64_idem_add. f_equal. lia.
Qed.

(** [broadcast]: one event per other edge of the community that can be
    reached, and the counters. *)
Lemma broadcast_exact packet p c cm sender s :
  relayed packet = Ok p -> cheap s !! c = Some cm ->
  exists evs s', broadcast packet c sender s = (Ok tt, s') /\
    core s s' /\ wire s' = wire s ++ evs /\
    evs.*1 = omap (delivery s p) (others sender (edges_of s cm)) /\
    u64 (PacketsForwarded (stats s')) = u64 (PacketsForwarded (stats s) + accepted evs) /\
    u64 (PacketsDropped (stats s')) =
      u64 (PacketsDropped (stats s) + (Z.of_nat (length (others sender (edges_of s cm))) - accepted evs)).
Proof.
  intros Hr Hc. unfold broadcast, GetAllEdges, get_cm. munfold. simpl. rewrite Hc. simpl.
  destruct (broadcast_loop_exact packet p sender (edges_of s cm) Hr 0 s)
    as (evs & s' & H1 & H2 & H3 & H4 & H5 & H6).
  exists evs. rewrite H1. destruct (Z.ltb_spec 0 (0 + accepted evs)) as [Hp|Hp].
  - eexists. split; [reflexivity|]. simpl. split_and!; try done.
    rewrite H5. unfold u64. by rewrite Zmod_mod.
  - exists s'. split_and!; try done. rewrite H5. f_equal.
    assert (0 <= accepted evs) by (unfold accepted, len; lia). lia.
Qed.

(** *** Reads of the core *)
Lemma emits_get_cm s0 P {B} c cm (k : Community -> M Supernode B) :
  cheap s0 !! c = Some cm -> emits s0 P (k cm) -> emits s0 P (get_cm c ≫= k).
Proof.
  intros Hc Hk s Hs. unfold get_cm. munfold. simpl.
  rewrite <-(core_field cheap s0 s Hs) by done. rewrite Hc. by apply (Hk s).
Qed.

Lemma emits_get_edge s0 P {B} l e (k : Edge -> M Supernode B) :
  eheap s0 !! l = Some e -> emits s0 P (k e) -> emits s0 P (get_edge l ≫= k).
Proof.
  intros Hc Hk s Hs. unfold get_edge. munfold. simpl.
  rewrite <-(core_field eheap s0 s Hs) by done. rewrite Hc. by apply (Hk s).
Qed.

Lemma emits_GetAllEdges s0 P {B} c cm (k : list Edge -> M Supernode B) :
  cheap s0 !! c = Some cm -> emits s0 P (k (edges_of s0 cm)) -> emits s0 P (GetAllEdges c ≫= k).
Proof.
  intros Hc Hk s Hs. unfold GetAllEdges, get_cm. munfold. simpl.
  rewrite <-(core_field cheap s0 s Hs) by done. rewrite Hc. simpl.
  rewrite <-(core_field (fun s => edges_of s cm) s0 s Hs) by done. by apply (Hk s).
Qed.

Lemma broadcast_loop_emits s0 P packet sender targets n :
  (forall e, e ∈ others sender targets -> emits s0 P (forwardPacket packet e)) ->
  emits s0 P (broadcast_loop packet sender targets n).
Proof.
  revert n. induction targets as [|e targets IH]; intros n He; [apply emits_ret|].
  cbn [broadcast_loop]. unfold others in He. simpl in He. fold (others sender targets) in He.
  destruct (bool_decide (MACAddr e = sender)); [by apply IH|]. simpl in He.
  apply emits_bind; [apply emits_try, He; left|]. intros [u|x].
  - apply IH. intros. apply He. by right.
  - apply emits_bind; [apply emits_stat|]. intros _. apply IH. intros. apply He. by right.
Qed.

Lemma broadcast_emits s0 packet c cm sender :
  packet <> [] -> cheap s0 !! c = Some cm ->
  emits s0 (fun ev => exists e p, e ∈ others sender (edges_of s0 cm) /\ relayed packet = Ok p /\
                        delivery s0 p e = Some ev) (broadcast packet c sender).
Proof.
  intros Hne Hc. unfold broadcast. eapply emits_GetAllEdges; [done|].
  apply emits_bind.
  - apply broadcast_loop_emits. intros e He. eapply emits_weaken; [|by apply forwardPacket_emits].
    intros ev (p & Hp & Hd). by exists e, p.
  - intros n. destruct (0 <? n); [apply emits_stat|apply emits_ret].
Qed.

Lemma SNHeader_emits s0 P {B} pt name (k : ProtoVHeader -> M Supernode B) :
  (forall h, Version h = VersionV -> emits s0 P (k h)) -> emits s0 P (SNHeader pt name None ≫= k).
Proof.
  intros Hk. unfold SNHeader. intros s Hs. munfold. simpl.
  match goal with |- context [k ?h] => exact (Hk h eq_refl s Hs) end.
Qed.

Lemma Pack_nonempty h p : PackProtoVDatagram h p <> [].
Proof. done. Qed.

Lemma BroadcastStruct_emits {T} `{PacketTyped T, Proto T} s0 (x : T) c cm sender :
  cheap s0 !! c = Some cm ->
  emits s0 (fun ev => exists e p, e ∈ others sender (edges_of s0 cm) /\ delivery s0 p e = Some ev)
    (BroadcastStruct x c None sender).
Proof.
  intros Hc. unfold BroadcastStruct. eapply emits_get_cm; [done|].
  unfold SNStructHeader. apply SNHeader_emits. intros h _.
  apply emits_bind; [apply emits_lift; unfold codec_Encode; by destruct (Marshal x)|]. intros b.
  eapply emits_weaken; [|by eapply broadcast_emits].
  intros ev (e & p & He & _ & Hd). by exists e, p.
Qed.

Lemma write_udp_emits s0 (P : Sent -> Prop) packet a : P (SentUDP packet a) -> emits s0 P (write_udp packet a).
Proof.
  intros HP. unfold write_udp. apply emits_bind; [by apply emits_try, emits_send|].
  intros [u|e]; [apply emits_ret|apply emits_err].
Qed.

(** Where an answer to [a] may go: to [a] itself, or over the websocket
    connection whose id is the text of [a]. *)
Definition to_addr (s : Supernode) (a : netAddr) (ev : Sent) : Prop :=
  match ev with
  | SentUDP _ b => a = b
  | SentWSS t _ => wssConnections s !! Addr_String a = Some t
  end.

Lemma wss_target_emits s0 packet a e :
  packet <> [] -> wss_target a s0 = Some e -> emits s0 (to_addr s0 a) (forwardPacket packet e).
Proof.
  intros Hne Ht. unfold wss_target in Ht. apply find_some in Ht as [_ Hb].
  apply andb_prop in Hb as [Hb Ha]. apply andb_prop in Hb as [Hb _].
  apply bool_decide_eq_true_1 in Ha. apply negb_true_iff, bool_decide_eq_false_1 in Hb.
  eapply emits_weaken; [|by apply forwardPacket_emits].
  intros ev (p & _ & Hd). unfold delivery in Hd. rewrite bool_decide_eq_false_2 in Hd by done.
  apply fmap_Some in Hd as (t & Ht & ->). simpl. by rewrite <-Ha.
Qed.

Lemma WritePacket_emits s0 pt name payload a :
  emits s0 (to_addr s0 a) (WritePacket pt name None payload (Some a)).
Proof.
  unfold WritePacket. apply SNHeader_emits. intros h _. apply emits_get. intros s Hs.
  rewrite <-(core_field (wss_target a) s0 s Hs) by done.
  destruct (wss_target a s0) eqn:E; [by apply wss_target_emits|].
  destruct a; try apply emits_err. by apply write_udp_emits.
Qed.

Lemma SendStruct_emits {T} `{PacketTyped T, Proto T} s0 (x : T) name a :
  emits s0 (to_addr s0 a) (SendStruct x name None (Some a)).
Proof.
  unfold SendStruct, SNStructHeader. apply SNHeader_emits. intros h _.
  apply emits_bind; [apply emits_lift; unfold codec_Encode; by destruct (Marshal x)|]. intros b.
  apply emits_get. intros s Hs.
  rewrite <-(core_field (wss_target a) s0 s Hs) by done.
  destruct (wss_target a s0) eqn:E; [by apply wss_target_emits|].
  destruct a as [| |connID|]; try apply emits_err; [by apply write_udp_emits|].
  destruct (wssConnections s !! connID) as [t|] eqn:Et; [|apply emits_err].
  apply emits_bind; [apply emits_try, emits_send|].
  - simpl. rewrite <-Et. by apply (core_field (fun s => wssConnections s !! connID)).
  - intros [u|e]; [apply emits_ret|apply emits_err].
Qed.
End Wire.
