(* ===== verification/SNInvariant.v ===== *)
(** * The supernode's invariant

    [sn_inv]: communities are filed under the hash of their name, every edge
    of a community under its own MAC, which is derived from its machine id
    and the community's name, and the global indices point to live edges.
    [indexed]: the MAC index knows every registered edge.  The first is kept
    by every step; the second needs that no MAC is registered in two
    communities, and then nothing panics.  Both are proved together: [J
    strict] is the invariant, with [strict] choosing whether the second part
    is tracked. *)
From S2P Require Import Prelude GoBytes GoNet Netstruct Protocol Machine Crypto SNState Community Supernode SNWire.
From stdpp Require Import gmap list strings fin_maps.
From Stdlib Require Import ZArith Lia.
Open Scope Z_scope.

Section Invariant.
Context `{IPP : IPPool, RSA : RSALib, NET : Net, CDC : SNCodec} {MR : MapRange (list Z)}
  {MRZ : MapRange Z} {MRN : MapRange nat}.

Definition edge_ok (name mac : list Z) (e : Edge) : Prop :=
  MACAddr e = mac /\ e_Community e = name /\
  HardwareAddr_String (ExtGenerateMac name (MachineID e)) = mac.

(** On the fields it is about, so that it carries over to states that
    agree on them. *)
Record wf (cms : gmap Z nat) (ch : gmap nat Community) (eh : gmap nat Edge)
    (bymac bysock : gmap (list Z) nat) (cn en : nat) : Prop := {
  inv_comm : forall h c, cms !! h = Some c ->
    exists cm, ch !! c = Some cm /\ HashCommunity (cm_name cm) = h;
  inv_filed : forall c cm, ch !! c = Some cm -> cms !! HashCommunity (cm_name cm) = Some c;
  inv_edge : forall c cm mac l, ch !! c = Some cm -> cm_edges cm !! mac = Some l ->
    exists e, eh !! l = Some e /\ edge_ok (cm_name cm) mac e;
  inv_mac : forall mac l, bymac !! mac = Some l -> exists e, eh !! l = Some e /\ edge_ok (e_Community e) mac e;
  inv_sock : forall k l, bysock !! k = Some l -> is_Some (eh !! l);
  inv_cfresh : forall c, is_Some (ch !! c) -> (c < cn)%nat;
  inv_efresh : forall l, is_Some (eh !! l) -> (l < en)%nat }.

#[global] Arguments inv_comm {_ _ _ _ _ _ _}.
#[global] Arguments inv_filed {_ _ _ _ _ _ _}.
#[global] Arguments inv_edge {_ _ _ _ _ _ _}.
#[global] Arguments inv_mac {_ _ _ _ _ _ _}.
#[global] Arguments inv_sock {_ _ _ _ _ _ _}.
#[global] Arguments inv_cfresh {_ _ _ _ _ _ _}.
#[global] Arguments inv_efresh {_ _ _ _ _ _ _}.

Definition sn_inv (s : Supernode) : Prop :=
  wf (communities s) (cheap s) (eheap s) (edgesByMAC s) (edgesBySocket s) (cnext s) (enext s).

(** [x] is a MAC about to be indexed. *)
Definition indexed (x : option (list Z)) (s : Supernode) : Prop :=
  forall c cm mac l, cheap s !! c = Some cm -> cm_edges cm !! mac = Some l -> x <> Some mac ->
    edgesByMAC s !! mac = Some l.

Definition alloc_ok (a : NetworkAllocator) : Prop :=
  length (baseNetwork a) = 4%nat /\ length (na_mask a) = 4%nat.

Definition J (strict : bool) (x : option (list Z)) (s : Supernode) : Prop :=
  sn_inv s /\ (strict = true -> indexed x s /\ alloc_ok (netAllocator s)).

(** The MAC of a registration is not in use in another community. *)
Definition no_cross (name mac : list Z) (s : Supernode) : Prop :=
  forall c cm, cheap s !! c = Some cm -> is_Some (cm_edges cm !! mac) -> cm_name cm = name.

(** ** State updates *)
Lemma J_core strict x s s' : core s s' -> J strict x s -> J strict x s'.
Proof. intros Hc HJ. change (J strict x (core_of s')). by rewrite <-Hc. Qed.

(** A write to an edge that leaves its identity alone. *)
Lemma J_upd_edge strict x s l f :
  (forall e, MACAddr (f e) = MACAddr e /\ e_Community (f e) = e_Community e /\ MachineID (f e) = MachineID e) ->
  J strict x s -> J strict x (set_eheap (alter f l (eheap s)) (enext s) s).
Proof.
  intros Hf [HI Hs]. split; [|exact Hs].
  assert (forall l' e, eheap s !! l' = Some e -> exists e', alter f l (eheap s) !! l' = Some e' /\
    MACAddr e' = MACAddr e /\ e_Community e' = e_Community e /\ MachineID e' = MachineID e) as Hal.
  { intros l' e He. destruct (decide (l = l')) as [<-|Hne].
    - rewrite lookup_alter_eq, He. exists (f e). split; [done|apply Hf].
    - rewrite lookup_alter_ne by done. by exists e. }
  split; simpl; try apply HI.
  - intros c cm mac l' Hc Hl. destruct (inv_edge HI _ _ _ _ Hc Hl) as (e & He & H1 & H2 & H3).
    destruct (Hal _ _ He) as (e' & He' & E1 & E2 & E3). exists e'. split; [done|].
    unfold edge_ok. by rewrite E1, E2, E3.
  - intros mac l' Hl. destruct (inv_mac HI _ _ Hl) as (e & He & H1 & _ & H3).
    destruct (Hal _ _ He) as (e' & He' & E1 & E2 & E3). exists e'. unfold edge_ok. by rewrite E1, E2, E3.
  - intros k l' Hl. destruct (inv_sock HI _ _ Hl) as [e He].
    destruct (Hal _ _ He) as (e' & He' & _). eauto.
  - intros l' H. apply (inv_efresh HI). by rewrite lookup_alter_is_Some in H.
Qed.

(** A write to a community that keeps its name and loses edges at most. *)
Lemma J_upd_cm strict x s c f :
  (forall cm, cm_name (f cm) = cm_name cm /\ cm_edges (f cm) ⊆ cm_edges cm) ->
  J strict x s -> J strict x (set_cheap (alter f c (cheap s)) (cnext s) s).
Proof.
  intros Hf [HI Hs].
  assert (forall c' cm', alter f c (cheap s) !! c' = Some cm' -> exists cm, cheap s !! c' = Some cm /\
    cm_name cm' = cm_name cm /\ cm_edges cm' ⊆ cm_edges cm) as Hback.
  { intros c' cm' H. apply lookup_alter_Some in H as [(<- & cm & Hc & ->)|[Hne H]].
    - exists cm. split; [done|apply Hf].
    - by exists cm'. }
  split.
  - split; simpl; try apply HI.
    + intros h c' Hc'. destruct (inv_comm HI _ _ Hc') as (cm & Hcm & Hh).
      destruct (decide (c = c')) as [<-|Hne].
      * rewrite lookup_alter_eq, Hcm. exists (f cm). split; [done|]. destruct (Hf cm) as [-> _]. done.
      * rewrite lookup_alter_ne by done. by exists cm.
    + intros c' cm' H. destruct (Hback _ _ H) as (cm & Hcm & -> & _). by apply (inv_filed HI).
    + intros c' cm' mac l H Hl. destruct (Hback _ _ H) as (cm & Hcm & -> & Hsub).
      eapply (inv_edge HI); [done|]. by eapply lookup_weaken.
    + intros c' H. apply (inv_cfresh HI). by rewrite lookup_alter_is_Some in H.
  - intros Ht. destruct (Hs Ht) as [Hi Ha]. split; [|done].
    intros c' cm' mac l H Hl Hx. destruct (Hback _ _ H) as (cm & Hcm & _ & Hsub).
    eapply Hi; [done| |done]. by eapply lookup_weaken.
Qed.

Lemma fresh_edge s : sn_inv s -> eheap s !! enext s = None.
Proof.
  intros HI. destruct (eheap s !! enext s) eqn:E; [|done].
  pose proof (inv_efresh HI (enext s) ltac:(eauto)). lia.
Qed.

Lemma fresh_cm s : sn_inv s -> cheap s !! cnext s = None.
Proof.
  intros HI. destruct (cheap s !! cnext s) eqn:E; [|done].
  pose proof (inv_cfresh HI (cnext s) ltac:(eauto)). lia.
Qed.

(** A new edge of a community, not indexed yet. *)
Lemma J_new_edge strict s c cm mac e :
  J strict None s -> cheap s !! c = Some cm -> edge_ok (cm_name cm) mac e ->
  J strict (Some mac)
    (set_cheap (alter (fun cm => set_cm_edges (<[mac := enext s]> (cm_edges cm)) cm) c (cheap s)) (cnext s)
      (set_eheap (<[enext s := e]> (eheap s)) (S (enext s)) s)).
Proof.
  intros [HI Hs] Hc Hok. pose proof (fresh_edge s HI) as Hfr.
  set (f := fun cm => set_cm_edges (<[mac := enext s]> (cm_edges cm)) cm).
  assert (forall c' cm', alter f c (cheap s) !! c' = Some cm' ->
    exists cm0, cheap s !! c' = Some cm0 /\ cm_name cm' = cm_name cm0 /\
      forall m l, cm_edges cm' !! m = Some l ->
        cm_edges cm0 !! m = Some l \/ (m = mac /\ l = enext s /\ cm0 = cm)) as Hback.
  { intros c' cm' H. apply lookup_alter_Some in H as [(<- & cm0 & H0 & ->)|[Hne H]].
    - exists cm0. split_and!; [done..|]. simpl. intros m l Hm.
      apply lookup_insert_Some in Hm as [[<- <-]|[_ Hm]]; [right|by left]. split_and!; try done. congruence.
    - exists cm'. eauto. }
  assert (forall l e', eheap s !! l = Some e' -> <[enext s := e]> (eheap s) !! l = Some e') as Hold.
  { intros l e' He. rewrite lookup_insert_ne; [done|]. congruence. }
  split.
  - split; simpl.
    + intros h c' H. destruct (inv_comm HI _ _ H) as (cm0 & Hcm & Hh).
      destruct (decide (c = c')) as [<-|Hne].
      * rewrite lookup_alter_eq, Hcm. by exists (f cm0).
      * rewrite lookup_alter_ne by done. by exists cm0.
    + intros c' cm' H. destruct (Hback _ _ H) as (cm0 & Hcm & -> & _). by apply (inv_filed HI).
    + intros c' cm' m l H Hl. destruct (Hback _ _ H) as (cm0 & Hcm & -> & Hm).
      destruct (Hm _ _ Hl) as [Ho|(-> & -> & ->)].
      * destruct (inv_edge HI _ _ _ _ Hcm Ho) as (e0 & He & Hk). eauto.
      * exists e. by rewrite lookup_insert_eq.
    + intros m l H. destruct (inv_mac HI _ _ H) as (e0 & He & Hk). eauto.
    + intros k l H. destruct (inv_sock HI _ _ H) as [e0 He]. eauto.
    + intros c' H. apply (inv_cfresh HI). by rewrite lookup_alter_is_Some in H.
    + intros l [e0 H]. apply lookup_insert_Some in H as [[<- _]|[_ H]]; [lia|].
      pose proof (inv_efresh HI l ltac:(eauto)). lia.
  - intros Ht. destruct (Hs Ht) as [Hi Ha]. split; [|done].
    intros c' cm' m l H Hl Hx. destruct (Hback _ _ H) as (cm0 & Hcm & _ & Hm).
    destruct (Hm _ _ Hl) as [Ho|(-> & _)]; [by eapply Hi|done].
Qed.

(** Indexing an edge of MAC [mac]. *)
Lemma J_index strict x s l e bys :
  J strict x s -> (x = None \/ x = Some (MACAddr e)) -> eheap s !! l = Some e ->
  edge_ok (e_Community e) (MACAddr e) e ->
  (strict = true -> forall c cm l', cheap s !! c = Some cm -> cm_edges cm !! MACAddr e = Some l' -> l' = l) ->
  (forall k l', bys !! k = Some l' -> edgesBySocket s !! k = Some l' \/ l' = l) ->
  J strict None (set_indices (<[MACAddr e := l]> (edgesByMAC s)) bys s).
Proof.
  intros [HI Hs] Hx He Hok Hu Hbys. split.
  - split; simpl; try apply HI.
    + intros m l' H. apply lookup_insert_Some in H as [[<- <-]|[_ H]]; [by exists e|by apply (inv_mac HI)].
    + intros k l' H. destruct (Hbys _ _ H) as [Ho| ->]; [by apply (inv_sock HI k)|by exists e].
  - intros Ht. destruct (Hs Ht) as [Hi Ha]. split; [|done]. intros c cm m l' Hc Hl _. simpl.
    destruct (decide (m = MACAddr e)) as [->|Hne].
    + rewrite lookup_insert_eq. f_equal. symmetry. by eapply Hu.
    + rewrite lookup_insert_ne by done. eapply Hi; [done..|]. destruct Hx as [->| ->]; congruence.
Qed.

(** Dropping a MAC no community uses any more. *)
Lemma J_unindex strict s mac k :
  J strict None s ->
  (strict = true -> forall c cm, cheap s !! c = Some cm -> cm_edges cm !! mac = None) ->
  J strict None (set_indices (delete mac (edgesByMAC s)) (delete k (edgesBySocket s)) s).
Proof.
  intros [HI Hs] Hu. split.
  - split; simpl; try apply HI.
    + intros m l H. apply lookup_delete_Some in H as [_ H]. by apply (inv_mac HI).
    + intros k' l H. apply lookup_delete_Some in H as [_ H]. by apply (inv_sock HI k').
  - intros Ht. destruct (Hs Ht) as [Hi Ha]. split; [|done]. intros c cm m l Hc Hl _. simpl.
    rewrite lookup_delete_ne; [by eapply Hi|]. intros ->. specialize (Hu Ht c cm Hc). congruence.
Qed.

Lemma J_new_cm strict s cm :
  J strict None s -> communities s !! HashCommunity (cm_name cm) = None -> cm_edges cm = ∅ ->
  J strict None (set_communities (<[HashCommunity (cm_name cm) := cnext s]> (communities s))
    (set_cheap (<[cnext s := cm]> (cheap s)) (S (cnext s)) s)).
Proof.
  intros [HI Hs] Hn He. pose proof (fresh_cm s HI) as Hfr. split.
  - split; simpl; try apply HI.
    + intros h c H. apply lookup_insert_Some in H as [[<- <-]|[_ H]].
      * exists cm. by rewrite lookup_insert_eq.
      * destruct (inv_comm HI _ _ H) as (cm0 & Hc & Hh). exists cm0.
        rewrite lookup_insert_ne by congruence. done.
    + intros c cm0 H. apply lookup_insert_Some in H as [[<- <-]|[_ H]]; [by rewrite lookup_insert_eq|].
      rewrite lookup_insert_ne; [by apply (inv_filed HI)|].
      intros E. rewrite E in Hn. by rewrite (inv_filed HI _ _ H) in Hn.
    + intros c cm0 mac l H Hl. apply lookup_insert_Some in H as [[<- <-]|[_ H]].
      * by rewrite He in Hl.
      * by eapply (inv_edge HI).
    + intros c [x H]. apply lookup_insert_Some in H as [[<- _]|[_ H]]; [lia|].
      pose proof (inv_cfresh HI c ltac:(eauto)). lia.
  - intros Ht. destruct (Hs Ht) as [Hi Ha]. split; [|done]. intros c cm0 m l H Hl Hx. simpl in *.
    apply lookup_insert_Some in H as [[<- <-]|[_ H]]; [by rewrite He in Hl|by eapply Hi].
Qed.

(** ** Methods that keep the invariant *)
Definition keeps (strict : bool) {A} (m : M Supernode A) (s : Supernode) : Prop :=
  J strict None (m s).2 /\ ((m s).1 = Panic -> strict = false).

Lemma keeps_bind strict {A B} (m : M Supernode A) (k : A -> M Supernode B) s :
  keeps strict m s -> (forall a s1, m s = (Ok a, s1) -> J strict None s1 -> keeps strict (k a) s1) ->
  keeps strict (m ≫= k) s.
Proof.
  intros [H1 H2] Hk. unfold keeps, mbind, M_bind. destruct (m s) as [[a|e|] s1] eqn:E; simpl in *.
  - by apply Hk.
  - split; [exact H1|discriminate].
  - split; [exact H1|intros _; by apply H2].
Qed.

Lemma keeps_step strict {A B} (m : M Supernode A) (k : A -> M Supernode B) s a s1 :
  m s = (Ok a, s1) -> keeps strict (k a) s1 -> keeps strict (m ≫= k) s.
Proof. intros E Hk. unfold keeps. by rewrite (bind_ok _ _ _ _ _ E). Qed.

Lemma keeps_pure strict {A} (m : M Supernode A) s :
  J strict None s -> (m s).2 = s -> (m s).1 <> Panic -> keeps strict m s.
Proof. intros HJ E Hn. split; [by rewrite E|done]. Qed.

Lemma keeps_emits strict {A} (m : M Supernode A) P s :
  J strict None s -> emits s P m -> keeps strict m s.
Proof.
  intros HJ Hm. destruct (Hm s (reflexivity _)) as (evs & Hc & _ & _ & Hp).
  split; [by eapply J_core|done].
Qed.

Lemma keeps_try strict {A} (m : M Supernode A) s : keeps strict m s -> keeps strict (mtry m) s.
Proof. intros [H1 H2]. unfold keeps, mtry.
  destruct (m s) as [[a|e|] s1]; (split; [exact H1|try discriminate]). intros _. by apply H2.
Qed.

Lemma keeps_lift strict {A} (o : outcome A) s : J strict None s -> o <> Panic -> keeps strict (mlift o) s.
Proof. intros. by apply keeps_pure. Qed.

Lemma keeps_stat strict f s : J strict None s -> keeps strict (stat f) s.
Proof. intros HJ. split; [exact HJ|done]. Qed.

(** A message that does not decode leaves the state alone. *)
Lemma ToMessage_no_panic T `{PacketTyped T, Proto T} r : ToMessage T r <> Panic.
Proof. unfold ToMessage, codec_Decode. destruct (negb _); [done|]. by destruct (Unmarshal _). Qed.

Lemma keeps_message strict T `{PacketTyped T, Proto T} r {B} (k : T -> M Supernode B) s :
  J strict None s -> (forall m, ToMessage T r = Ok m -> keeps strict (k m) s) ->
  keeps strict (mlift (ToMessage T r) ≫= k) s.
Proof.
  intros HJ Hk. apply keeps_bind; [by apply keeps_lift, ToMessage_no_panic|].
  intros m s1 E _. injection E as E1 <-. by apply Hk.
Qed.

(** ** Looking an edge up *)
Record registered_at (s : Supernode) (mac : list Z) (h : Z) (c : nat) (cm : Community) (l : nat) (e : Edge) : Prop := {
  ra_comm : communities s !! h = Some c;
  ra_cm : cheap s !! c = Some cm;
  ra_edge : cm_edges cm !! mac = Some l;
  ra_heap : eheap s !! l = Some e;
  ra_ok : edge_ok (cm_name cm) mac e }.

Definition unknown_err (e : goerr) : bool :=
  errors_is e ErrCommunityUnknownEdge || errors_is e ErrCommunityNotFound.

Lemma GetEdge_eval s c cm mac : sn_inv s -> cheap s !! c = Some cm ->
  GetEdge c mac s = (Ok (cm_edges cm !! mac ≫= fun l => eheap s !! l), s).
Proof.
  intros HI Hc. unfold GetEdge, get_cm, get_edge. munfold. simpl. rewrite Hc. simpl.
  destruct (cm_edges cm !! mac) as [l|] eqn:E; [|done]. simpl.
  by destruct (inv_edge HI _ _ _ _ Hc E) as (e & -> & _).
Qed.

Lemma GetCommunityForEdge_cases s mac h : sn_inv s ->
  (exists e, GetCommunityForEdge mac h s = (Err e, s) /\ unknown_err e = true /\
     forall c cm, communities s !! h = Some c -> cheap s !! c = Some cm -> cm_edges cm !! mac = None) \/
  (exists c cm l e, GetCommunityForEdge mac h s = (Ok c, s) /\ registered_at s mac h c cm l e).
Proof.
  intros HI. unfold GetCommunityForEdge. rewrite !gets_bind. unfold id.
  destruct (communities s !! h) as [c|] eqn:Ec; [|left; by eexists].
  destruct (inv_comm HI _ _ Ec) as (cm & Hc & _).
  rewrite !(bind_ok _ _ _ _ _ (GetEdge_eval s c cm mac HI Hc)).
  destruct (cm_edges cm !! mac) as [l|] eqn:El.
  - right. destruct (inv_edge HI _ _ _ _ Hc El) as (e & He & Hok). exists c, cm, l, e. split; [|by split].
    change (Some l ≫= fun l => eheap s !! l) with (eheap s !! l). by rewrite He.
  - left. eexists. split; [reflexivity|]. split; [done|]. intros c' cm' [= <-] Hc'. congruence.
Qed.

Lemma GetCommunityForEdge_ok s s0 mac h c cm l e : sn_inv s -> registered_at s0 mac h c cm l e ->
  communities s = communities s0 -> cheap s = cheap s0 -> GetCommunityForEdge mac h s = (Ok c, s).
Proof.
  intros HI [H1 H2 H3 _ _] E1 E2. rewrite <-E1 in H1. rewrite <-E2 in H2.
  destruct (GetCommunityForEdge_cases s mac h HI) as [(x & _ & _ & Hno)|(c' & cm' & l' & e' & E & [H1' _ _ _ _])].
  - specialize (Hno c cm H1 H2). congruence.
  - congruence.
Qed.

(** A handler that first looks its sender up. *)
Lemma keeps_lookup strict mac h {B} (k : nat -> M Supernode B) s :
  J strict None s ->
  (forall c cm l e, registered_at s mac h c cm l e -> keeps strict (k c) s) ->
  keeps strict (GetCommunityForEdge mac h ≫= k) s.
Proof.
  intros HJ Hk. destruct (GetCommunityForEdge_cases s mac h (proj1 HJ)) as [(e & E & _)|(c & cm & l & e & E & Hr)];
    unfold keeps, mbind, M_bind; rewrite E; [done|]. by eapply Hk.
Qed.

(** ** Handlers that only read and send *)
Lemma emits_lookup s0 P mac h {B} (k : nat -> M Supernode B) :
  sn_inv s0 -> (forall c cm l e, registered_at s0 mac h c cm l e -> emits s0 P (k c)) ->
  emits s0 P (GetCommunityForEdge mac h ≫= k).
Proof.
  intros HI Hk s Hs.
  assert (sn_inv s) as HI' by (apply (J_core false None s0 s Hs); split; [done|discriminate]).
  destruct (GetCommunityForEdge_cases s mac h HI') as [(e & E & _)|(c & cm & l & e & E & Hr)].
  - rewrite (bind_err _ _ _ _ _ E). exists []. by rewrite app_nil_r.
  - rewrite (bind_ok _ _ _ _ _ E). refine (Hk c cm l e _ s Hs).
    destruct Hr as [H1 H2 H3 H4 H5].
    rewrite <-(core_field communities s0 s Hs) in H1 by done.
    rewrite <-(core_field cheap s0 s Hs) in H2 by done.
    rewrite <-(core_field eheap s0 s Hs) in H4 by done. by split.
Qed.

Lemma emits_GetEdge s0 P c cm mac {B} (k : option Edge -> M Supernode B) :
  sn_inv s0 -> cheap s0 !! c = Some cm ->
  emits s0 P (k (cm_edges cm !! mac ≫= fun l => eheap s0 !! l)) -> emits s0 P (GetEdge c mac ≫= k).
Proof.
  intros HI Hc Hk s Hs.
  assert (sn_inv s) as HI' by (apply (J_core false None s0 s Hs); split; [done|discriminate]).
  rewrite (core_field cheap s0 s Hs) in Hc by done.
  rewrite (bind_ok _ _ _ _ _ (GetEdge_eval s c cm mac HI' Hc)).
  rewrite <-(core_field eheap s0 s Hs) by done. by apply (Hk s).
Qed.

Lemma emits_GetEdgeUDPAddr s0 P c cm l e mac {B} (k : netAddr -> M Supernode B) :
  cheap s0 !! c = Some cm -> cm_edges cm !! mac = Some l -> eheap s0 !! l = Some e ->
  emits s0 P (k (Edge_UDPAddr e)) -> emits s0 P (GetEdgeUDPAddr c mac ≫= k).
Proof.
  intros Hc Hl He Hk s Hs. unfold GetEdgeUDPAddr, get_cm, get_edge. munfold. simpl.
  rewrite <-(core_field cheap s0 s Hs) by done. rewrite Hc. simpl. rewrite Hl. simpl.
  rewrite <-(core_field eheap s0 s Hs) by done. rewrite He. simpl. by apply (Hk s).
Qed.

(** An answer to edge [e]. *)
Definition to_edge (s : Supernode) (e : Edge) (ev : Sent) : Prop :=
  to_addr s (if bool_decide (WSSConnID e = []) then Edge_UDPAddr e else WSSAddr (WSSConnID e)) ev.

Lemma reply_to_emits {T} `{PacketTyped T, Proto T} s0 mac h c cm l e (x : T) name :
  registered_at s0 mac h c cm l e -> emits s0 (to_edge s0 e) (reply_to c mac x name).
Proof.
  intros [_ Hc Hl He _]. unfold reply_to. eapply emits_get_cm; [done|]. apply emits_get. intros s Hs.
  rewrite <-(core_field eheap s0 s Hs) by done. rewrite Hl.
  change (Some l ≫= fun l => eheap s0 !! l) with (eheap s0 !! l). rewrite He. unfold to_edge.
  destruct (bool_decide (WSSConnID e = [])); simpl; [|apply SendStruct_emits].
  eapply emits_GetEdgeUDPAddr; [done..|]. apply SendStruct_emits.
Qed.

(** The edges of a community. *)
Lemma elem_of_edges_of s cm e : e ∈ edges_of s cm <-> exists mac l, cm_edges cm !! mac = Some l /\ eheap s !! l = Some e.
Proof.
  unfold edges_of. rewrite list_elem_of_omap. split.
  - intros ([mac l] & Hin & He). apply elem_of_map_range in Hin. eauto.
  - intros (mac & l & Hl & He). exists (mac, l). split; [by apply elem_of_map_range|done].
Qed.

Lemma elem_of_others sender es e : e ∈ others sender es <-> e ∈ es /\ MACAddr e <> sender.
Proof.
  unfold others. rewrite !list_elem_of_In, filter_In. rewrite negb_true_iff, bool_decide_eq_false. done.
Qed.

(** The packet relayed to an edge of the sender's community. *)
Definition relays (s : Supernode) (r : RawMessage) (ev : Sent) : Prop :=
  exists c cm l e0 e p, registered_at s (EdgeMACAddr r) (CommunityHash r) c cm l e0 /\
    e ∈ edges_of s cm /\ relayed (rawPacket r) = Ok p /\ delivery s p e = Some ev.

Lemma forward_target s0 r c cm l0 e0 e :
  rawPacket r <> [] -> registered_at s0 (EdgeMACAddr r) (CommunityHash r) c cm l0 e0 ->
  (cm_edges cm !! DestMACAddr r ≫= fun l => eheap s0 !! l) = Some e ->
  emits s0 (relays s0 r) (forwardPacket (rawPacket r) e).
Proof.
  intros Hne Hr He. apply bind_Some in He as (l & Hl & He).
  eapply emits_weaken; [|by apply forwardPacket_emits]. intros ev (p & Hp & Hd).
  exists c, cm, l0, e0, e, p. split_and!; try done. apply elem_of_edges_of. eauto.
Qed.

Lemma ForwardUnicast_emits s0 r : sn_inv s0 -> rawPacket r <> [] -> emits s0 (relays s0 r) (ForwardUnicast r).
Proof.
  intros HI Hne. unfold ForwardUnicast, GetCommunity. apply emits_lookup; [done|]. intros c cm l e Hr.
  eapply emits_GetEdge; [done|apply Hr|].
  destruct (cm_edges cm !! DestMACAddr r ≫= _) as [t|] eqn:Et; [|apply emits_err].
  apply emits_bind; [by eapply emits_try, forward_target|]. intros [u|x]; [apply emits_stat|].
  apply emits_bind; [apply emits_stat|]. intros _. apply emits_err.
Qed.

Lemma ForwardWithFallBack_emits s0 r : sn_inv s0 -> rawPacket r <> [] ->
  emits s0 (relays s0 r) (ForwardWithFallBack r).
Proof.
  intros HI Hne. unfold ForwardWithFallBack, GetCommunity. apply emits_lookup; [done|]. intros c cm l e Hr.
  eapply emits_GetEdge; [done|apply Hr|]. apply emits_bind.
  - destruct (cm_edges cm !! DestMACAddr r ≫= _) as [t|] eqn:Et; [|apply emits_ret].
    apply emits_bind; [by eapply emits_try, forward_target|].
    intros [u|x]; (apply emits_bind; [apply emits_stat|intros _; apply emits_ret]).
  - intros [|]; [apply emits_ret|]. eapply emits_weaken; [|by eapply broadcast_emits; [|apply Hr]].
    intros ev (e' & p & He' & Hp & Hd). apply elem_of_others in He' as [He' _].
    exists c, cm, l, e, e', p. done.
Qed.

(** ** Registration *)
Lemma Propose_no_panic a name : alloc_ok a -> ProposeVirtualNetwork a name <> Panic.
Proof.
  intros [Hb Hm]. unfold ProposeVirtualNetwork, Uint32, slice.
  rewrite length_Sum256, Hb, Hm. simpl. unfold Addr_Prefix.
  repeat case_match; done.
Qed.

(** What is known of a community a registration found or made. *)
Record community_for (name : list Z) (s s1 : Supernode) (c : nat) : Prop := {
  cf_cm : exists cm, cheap s1 !! c = Some cm /\ cm_name cm = name;
  cf_edges : forall c' cm' mac, cheap s1 !! c' = Some cm' -> is_Some (cm_edges cm' !! mac) ->
    cheap s !! c' = Some cm' }.

Lemma RegisterCommunity_keeps strict name h s : J strict None s ->
  keeps strict (RegisterCommunity name h) s /\
  forall c s1, RegisterCommunity name h s = (Ok c, s1) -> community_for name s s1 c.
Proof.
  intros HJ. pose proof HJ as [HI Hst]. unfold RegisterCommunity.
  destruct (Z.eqb_spec h (HashCommunity name)) as [->|Hh]; simpl; [|by split; [apply keeps_pure|]].
  unfold keeps. rewrite gets_bind. unfold id.
  destruct (communities s !! HashCommunity name) as [c|] eqn:Ec.
  { destruct (inv_comm HI _ _ Ec) as (cm & Hc & _). unfold get_cm. munfold. simpl. rewrite Hc. simpl.
    case_bool_decide as En; simpl; [|by split]. split; [done|]. intros c' s1 [= <- <-]. split; eauto. }
  unfold register_locked. rewrite gets_bind. unfold id.
  destruct (ProposeVirtualNetwork (netAllocator s) name) as [prefix|x|] eqn:Ep;
    [|munfold; simpl; by split|].
  2:{ munfold; simpl. split; [|done]. split; [done|]. intros _. destruct strict; [|done].
      by destruct (Propose_no_panic (netAllocator s) name (proj2 (Hst eq_refl))). }
  assert (forall w, J strict None (set_pools w s)) as HJw by (intros w; exact HJ).
  assert (forall w ips, let s' := set_pools w s in
    let cm := mkCommunity name prefix ips (prefix_Bits (Prefix_Masked prefix)) ∅ ∅ in
    J strict None (set_communities (<[HashCommunity name := cnext s]> (communities s))
      (set_cheap (<[cnext s := cm]> (cheap s)) (S (cnext s)) s')) /\
    community_for name s (set_communities (<[HashCommunity name := cnext s]> (communities s))
      (set_cheap (<[cnext s := cm]> (cheap s)) (S (cnext s)) s')) (cnext s)) as Hnew.
  { intros w ips s' cm. split; [by apply (J_new_cm strict s' cm (HJw w))|]. split; simpl.
    - exists cm. by rewrite lookup_insert_eq.
    - intros c' cm' mac H Hm. apply lookup_insert_Some in H as [[<- <-]|[_ H]]; [|done].
      simpl in Hm. by destruct Hm. }
  unfold NewCommunityWithConfig, NewCommunity, new_cm. munfold. simpl.
  destruct (GetRegisteredPool _ _) as [ips|].
  - specialize (Hnew (pools s) ips). destruct s. simpl in *.
    split; [split; [apply Hnew|done]|]. intros c s1 [= <- <-]. apply Hnew.
  - destruct (NewIPPool _ _ _) as [[ips|x] w]; simpl; [|by split].
    split; [split; [apply (Hnew w ips)|done]|]. intros c s1 [= <- <-]. apply (Hnew w ips).
Qed.

Lemma J_weaken strict x s : J strict None s -> J strict x s.
Proof.
  intros [HI Hs]. split; [done|]. intros Ht. destruct (Hs Ht) as [Hi Ha]. split; [|done].
  intros c cm mac l Hc Hl _. by eapply Hi.
Qed.

(** The edge a registration updated or created. *)
Record edge_for (mac : list Z) (c : nat) (cm : Community) (s s1 : Supernode) (l : nat) : Prop := {
  ef_edge : exists e, eheap s1 !! l = Some e /\ MACAddr e = mac;
  ef_cm : exists cm1, cheap s1 !! c = Some cm1 /\ cm_name cm1 = cm_name cm /\ cm_edges cm1 !! mac = Some l;
  ef_rest : forall c' cm', c' <> c -> cheap s1 !! c' = Some cm' -> cheap s !! c' = Some cm' }.

Lemma EdgeUpdate_keeps strict c cm r m mid s :
  J strict None s -> cheap s !! c = Some cm ->
  HardwareAddr_String (ExtGenerateMac (cm_name cm) mid) = EdgeMACAddr r ->
  match EdgeUpdate c r m mid s with
  | (Ok l, s1) => J strict (Some (EdgeMACAddr r)) s1 /\ edge_for (EdgeMACAddr r) c cm s s1 l
  | (Err _, s1) => J strict None s1
  | (Panic, _) => False
  end.
Proof.
  intros HJ Hc Hmac. pose proof HJ as [HI Hst]. unfold EdgeUpdate, get_cm, get_edge.
  munfold. simpl. rewrite Hc. simpl. destruct (cm_edges cm !! EdgeMACAddr r) as [l|] eqn:El.
  - destruct (inv_edge HI _ _ _ _ Hc El) as (e & He & Hok). simpl. rewrite He. simpl.
    rewrite bool_decide_eq_true_2 by (symmetry; apply Hok). simpl.
    set (f := fun e : Edge => _). split; [by apply J_weaken, (J_upd_edge strict None s l f)|].
    split; simpl; [|by exists cm|done].
    exists (f e). rewrite lookup_alter_eq, He. split; [done|apply Hok].
  - destruct (RequestIP _ _ _ _) as [[nvip|x] w]; simpl; [|exact HJ].
    destruct (ParseAddr (IP_String nvip)) as [vip|]; simpl; [|exact HJ].
    set (e := mkEdge _ _ _ _ _ _ _ _ _ _ _ _ _).
    split; [apply (J_new_edge strict s c cm (EdgeMACAddr r) e HJ Hc); split_and!; done|].
    split; simpl.
    + exists e. by rewrite lookup_insert_eq.
    + eexists. rewrite lookup_alter_eq, Hc. split; [reflexivity|]. simpl. by rewrite lookup_insert_eq.
    + intros c' cm' Hne H. by rewrite lookup_alter_ne in H.
Qed.

Lemma Validate_cases mac enc name s :
  (exists e, ValidateEdgeClaimedMACAddr mac enc name s = (Err e, s)) \/
  (exists mid, ValidateEdgeClaimedMACAddr mac enc name s = (Ok mid, s) /\
     DecryptSequence enc (Priv (SecretsOf s)) = Ok mid /\
     HardwareAddr_String (ExtGenerateMac name mid) = mac).
Proof.
  unfold ValidateEdgeClaimedMACAddr, DecryptMachineID, DecryptSequence. munfold. simpl.
  destruct (DecryptOAEP _ _) as [mid|]; simpl; [|left; by eexists].
  case_bool_decide as E; simpl; [right|left; by eexists]. by exists mid.
Qed.

(** [RegisterEdge]: the edge is filed in the community of the name it
    gave, under a MAC derived from its machine id. *)
Lemma RegisterEdge_keeps strict r m s : J strict None s ->
  match RegisterEdge r m s with
  | (Ok (l, c), s1) => J strict (Some (EdgeMACAddr r)) s1 /\
      exists s0 cm, cheap s0 !! c = Some cm /\ cm_name cm = rreq_CommunityName m /\
        community_for (rreq_CommunityName m) s s0 c /\ edge_for (EdgeMACAddr r) c cm s0 s1 l
  | (Err _, s1) => J strict None s1
  | (Panic, s1) => strict = false /\ J strict None s1
  end.
Proof.
  intros HJ. unfold RegisterEdge.
  destruct (Validate_cases (EdgeMACAddr r) (rreq_EncryptedMachineId m) (rreq_CommunityName m) s)
    as [(e & E)|(mid & E & _ & Hmac)]; [by rewrite (bind_err _ _ _ _ _ E)|].
  rewrite (bind_ok _ _ _ _ _ E).
  destruct (RegisterCommunity_keeps strict (rreq_CommunityName m) (CommunityHash r) s HJ) as [[HJ1 Hp] Hcf].
  unfold mbind at 1, M_bind at 1.
  destruct (RegisterCommunity _ _ s) as [[c|e|] s0] eqn:ER; simpl in *; [|done|by split; [apply Hp|]].
  specialize (Hcf c s0 eq_refl). destruct (cf_cm _ _ _ _ Hcf) as (cm & Hc & Hn).
  rewrite <-Hn in Hmac. pose proof (EdgeUpdate_keeps strict c cm r m mid s0 HJ1 Hc Hmac) as HE.
  unfold mbind, M_bind. destruct (EdgeUpdate c r m mid s0) as [[l|e|] s1]; [|done|done].
  unfold stat, modify, mret, M_ret. destruct HE as [HJ2 Hef]. split; [exact HJ2|].
  exists s0, cm. split_and!; try done.
  destruct Hef as [H1 H2 H3]. by split.
Qed.

Lemma registered_unique strict s s0 s1 name mac c cm l :
  J strict (Some mac) s1 -> no_cross name mac s -> community_for name s s0 c ->
  cheap s0 !! c = Some cm -> cm_name cm = name -> edge_for mac c cm s0 s1 l ->
  forall c' cm' l', cheap s1 !! c' = Some cm' -> cm_edges cm' !! mac = Some l' -> l' = l.
Proof.
  intros [HI _] Hno Hcf Hc Hn [_ (cm1 & Hc1 & Hn1 & Hl1) Hrest] c' cm' l' Hc' Hl'.
  destruct (decide (c' = c)) as [->|Hne]; [congruence|]. exfalso. apply Hne.
  assert (cheap s !! c' = Some cm') as Hold by (eapply (cf_edges _ _ _ _ Hcf); eauto).
  pose proof (Hno c' cm' Hold ltac:(eauto)) as Hname.
  pose proof (inv_filed HI _ _ Hc') as F1. pose proof (inv_filed HI _ _ Hc1) as F2. congruence.
Qed.

Lemma handleRegister_keeps strict r s : J strict None s ->
  (strict = true -> forall m, ToMessage RegisterRequest r = Ok m ->
     no_cross (rreq_CommunityName m) (EdgeMACAddr r) s) ->
  keeps strict (handleRegisterMessage r) s.
Proof.
  intros HJ Hno. unfold handleRegisterMessage. apply keeps_message; [done|]. intros m Hm.
  pose proof (RegisterEdge_keeps strict r m s HJ) as HR.
  destruct (RegisterEdge r m s) as [[[l c]|e|] s1] eqn:ER.
  - destruct HR as [HJ1 (s0 & cm & Hc & Hn & Hcf & Hef)].
    pose proof (fun Ht => registered_unique strict s s0 s1 _ _ c cm l HJ1 (Hno Ht m Hm) Hcf Hc Hn Hef) as Hu.
    destruct (ef_edge _ _ _ _ _ _ Hef) as (e & He & Hmac).
    destruct (ef_cm _ _ _ _ _ _ Hef) as (cm1 & Hc1 & _ & Hl1).
    (* the state after recording the websocket connection *)
    set (body := fun s2 : Supernode => J strict (Some (EdgeMACAddr r)) s2 /\ cheap s2 = cheap s1 /\
      exists e2, eheap s2 !! l = Some e2 /\ MACAddr e2 = EdgeMACAddr r).
    assert (exists s2, (match FromAddr r with
       | WSSAddr connID => upd_edge l (edge_set_conn connID)
       | _ => mret tt end) s1 = (Ok tt, s2) /\ body s2) as (s2 & E2 & HJ2 & Hch & e2 & He2 & Hm2).
    { destruct (FromAddr r) as [| |connID|]; try (exists s1; split; [done|]; split_and!; eauto; done).
      eexists. split; [reflexivity|]. split_and!; [by apply J_upd_edge|done|].
      exists (edge_set_conn connID e). simpl. by rewrite lookup_alter_eq, He. }
    assert (get_edge l s2 = (Ok e2, s2)) as Eg by (unfold get_edge; munfold; simpl; by rewrite He2).
    apply (keeps_step _ _ _ _ (inl (l, c)) s1); [unfold mtry; by rewrite ER|].
    apply (keeps_step _ _ _ _ tt s2); [exact E2|]. apply (keeps_step _ _ _ _ e2 s2 Eg).
    eapply keeps_step; [reflexivity|].
    match goal with |- context [set_indices ?a ?b s2] => set (bys := b); set (s3 := set_indices a b s2) end.
    assert (J strict None s3) as HJ3.
    { apply (J_index strict (Some (EdgeMACAddr r)) s2 l e2 bys); [done|right; congruence|done| | |].
      - rewrite <-Hch in Hc1. destruct (inv_edge (proj1 HJ2) _ _ _ _ Hc1 Hl1) as (e' & He' & Hok).
        assert (e' = e2) as -> by congruence. pose proof Hok as (_ & -> & _). by rewrite Hm2.
      - intros Ht c' cm' l'. rewrite Hch, Hm2. by apply Hu.
      - intros k l' H. unfold bys in H. case_bool_decide.
        + apply lookup_insert_Some in H as [[_ <-]|[_ H]]; auto.
        + apply lookup_insert_Some in H as [[_ <-]|[_ H]]; auto.
          apply lookup_insert_Some in H as [[_ <-]|[_ H]]; auto. }
    eapply keeps_emits; [done|]. apply (emits_bind s3 (fun _ => True)).
    + apply emits_ignore. eapply emits_weaken; [|apply SendStruct_emits]. done.
    + intros _. eapply emits_weaken; [|apply (BroadcastStruct_emits s3 _ c cm1)]; [done|].
      simpl. by rewrite Hch.
  - apply (keeps_step _ _ _ _ (inr e) s1); [unfold mtry; by rewrite ER|].
    eapply keeps_emits; [done|]. apply (emits_bind s1 (fun _ => True)).
    + apply emits_ignore. eapply emits_weaken; [|apply SendStruct_emits]. done.
    + intros _. apply emits_bind; [apply emits_stat|]. intros _. apply emits_err.
  - destruct HR as [-> HJ1]. unfold keeps, mtry, mbind, M_bind. by rewrite ER.
Qed.

(** ** Unregistration *)

(** The state [Unregister] leaves. *)
Definition unregistered (c : nat) (cm : Community) (mac : list Z) (e : Edge) (s : Supernode) : Supernode :=
  set_cheap (<[c := mkCommunity (cm_name cm) (cm_subnet cm) (cm_ips cm) (cm_maskLen cm)
                      (delete mac (communityPeerP2PInfos cm)) (delete mac (cm_edges cm))]> (cheap s)) (cnext s)
    (set_cache (<[mac := mkCached mac (Desc e) (cm_name cm) false (clock s) (VirtualIP e)]> (edgeCachedInfos s)) s).

Lemma Unregister_eval s c cm mac : sn_inv s -> cheap s !! c = Some cm ->
  match cm_edges cm !! mac with
  | None => Unregister c mac s = (Ok false, s)
  | Some l => exists e, eheap s !! l = Some e /\ edge_ok (cm_name cm) mac e /\
                Unregister c mac s = (Ok true, unregistered c cm mac e s)
  end.
Proof.
  intros HI Hc. unfold Unregister, get_cm, get_edge, SetEdgeCachedInfo, upd_cm. munfold. simpl.
  rewrite Hc. simpl. destruct (cm_edges cm !! mac) as [l|] eqn:El; [|done].
  destruct (inv_edge HI _ _ _ _ Hc El) as (e & He & Hok). exists e. split; [done|]. split; [done|].
  simpl. rewrite He. simpl. do 2 f_equal. unfold unregistered, set_cheap. simpl. f_equal.
  apply map_eq. intros c'. destruct (decide (c = c')) as [<-|Hne].
  - rewrite !lookup_alter_eq, lookup_insert_eq, Hc. done.
  - by rewrite !lookup_alter_ne, lookup_insert_ne by done.
Qed.

Lemma unregistered_J strict s c cm mac l e :
  J strict None s -> cheap s !! c = Some cm -> cm_edges cm !! mac = Some l ->
  J strict None (unregistered c cm mac e s) /\
  (strict = true -> edgesByMAC s !! mac = Some l /\
     forall c' cm', cheap (unregistered c cm mac e s) !! c' = Some cm' -> cm_edges cm' !! mac = None).
Proof.
  intros HJ Hc Hl. pose proof HJ as [HI Hst]. split.
  - set (f := fun x => mkCommunity (cm_name x) (cm_subnet x) (cm_ips x) (cm_maskLen x)
                (delete mac (communityPeerP2PInfos x)) (delete mac (cm_edges x))).
    assert (cheap (unregistered c cm mac e s) = alter f c (cheap s)) as E.
    { apply map_eq. intros c'. simpl. destruct (decide (c = c')) as [<-|Hne].
      - by rewrite lookup_insert_eq, lookup_alter_eq, Hc.
      - by rewrite lookup_insert_ne, lookup_alter_ne. }
    pose proof (J_upd_cm strict None s c f) as HU.
    assert (J strict None (set_cheap (cheap (unregistered c cm mac e s)) (cnext s) s)) as HJ'; [|exact HJ'].
    rewrite E. apply HU; [|done]. intros x. split; [done|]. simpl. apply delete_subseteq.
  - intros Ht. destruct (Hst Ht) as [Hi _]. pose proof (Hi _ _ _ _ Hc Hl ltac:(done)) as Hb.
    split; [done|]. simpl. intros c' cm' H. apply lookup_insert_Some in H as [[<- <-]|[Hne H]];
      [apply lookup_delete_eq|].
    destruct (cm_edges cm' !! mac) as [l'|] eqn:El'; [|done]. exfalso. apply Hne.
    pose proof (Hi _ _ _ _ H El' ltac:(done)) as Hb'. assert (l' = l) as -> by congruence.
    destruct (inv_edge HI _ _ _ _ Hc Hl) as (e1 & He1 & _ & Hn1 & _).
    destruct (inv_edge HI _ _ _ _ H El') as (e2 & He2 & _ & Hn2 & _).
    pose proof (inv_filed HI _ _ Hc). pose proof (inv_filed HI _ _ H). congruence.
Qed.

Lemma onEdgeUnregistered_keeps strict c mac s : J strict None s -> is_Some (cheap s !! c) ->
  (strict = true -> is_Some (edgesByMAC s !! mac) /\
     forall c' cm', cheap s !! c' = Some cm' -> cm_edges cm' !! mac = None) ->
  keeps strict (onEdgeUnregistered c mac) s.
Proof.
  intros HJ [cm Hc] Hst. unfold onEdgeUnregistered. eapply keeps_step; [reflexivity|]. unfold id.
  destruct (edgesByMAC s !! mac) as [l|] eqn:El.
  2:{ split; [exact HJ|]. intros _. destruct strict; [|done]. by destruct (Hst eq_refl) as [[? ?] _]. }
  destruct (inv_mac (proj1 HJ) _ _ El) as (e & He & _).
  apply (keeps_step _ _ _ _ l s); [done|].
  apply (keeps_step _ _ _ _ e s); [unfold get_edge; munfold; simpl; by rewrite He|].
  eapply keeps_step; [reflexivity|]. eapply keeps_step; [reflexivity|].
  match goal with |- keeps _ _ ?t => set (s1 := t) end.
  assert (J strict None s1) as HJ1.
  { apply (J_unindex strict s mac (Addr_String (Edge_UDPAddr e)) HJ). intros Ht. by apply Hst. }
  eapply keeps_emits; [done|]. apply emits_ignore.
  eapply emits_weaken; [|apply (BroadcastStruct_emits s1 _ c cm)]; done.
Qed.

Lemma onEdgeUnregistered_cheap c mac s : sn_inv s -> is_Some (cheap s !! c) ->
  cheap (onEdgeUnregistered c mac s).2 = cheap s.
Proof.
  intros HI [cm Hc]. unfold onEdgeUnregistered. rewrite gets_bind. unfold id.
  destruct (edgesByMAC s !! mac) as [l|] eqn:El; [|done].
  destruct (inv_mac HI _ _ El) as (e & He & _).
  rewrite (bind_ok _ _ _ l s) by done.
  rewrite (bind_ok _ _ _ e s) by (unfold get_edge; munfold; simpl; by rewrite He).
  erewrite bind_ok by reflexivity. erewrite bind_ok by reflexivity.
  match goal with |- context [mignore ?m ?t] => set (s1 := t); set (bm := m) end.
  assert (emits s1 (fun _ => True) (mignore bm)) as Hm.
  { apply emits_ignore. eapply emits_weaken; [|apply (BroadcastStruct_emits s1 _ c cm)]; done. }
  destruct (Hm s1 (reflexivity _)) as (evs & Hcore & _).
  by rewrite <-(core_field cheap _ _ Hcore) by done.
Qed.

(** Unregistering an edge of an existing community and telling the others,
    as both callers do it. *)
Lemma unregister_keeps strict c mac s (k : M Supernode unit) :
  J strict None s -> is_Some (cheap s !! c) ->
  (k = onEdgeUnregistered c mac \/ exists f, k = (stat f;; onEdgeUnregistered c mac)) ->
  let m := (ok ← Unregister c mac; if (ok : bool) then k else mret tt) in
  keeps strict m s /\ dom (cheap (m s).2) = dom (cheap s).
Proof.
  intros HJ [cm Hc] Hk m. unfold m. pose proof (Unregister_eval s c cm mac (proj1 HJ) Hc) as HU.
  destruct (cm_edges cm !! mac) as [l|] eqn:El.
  - destruct HU as (e & He & _ & EU).
    destruct (unregistered_J strict s c cm mac l e HJ Hc El) as [HJ1 Hst].
    set (s1 := unregistered c cm mac e s) in *.
    assert (is_Some (cheap s1 !! c)) as Hsome by (simpl; rewrite lookup_insert_eq; eauto).
    assert (dom (cheap s1) = dom (cheap s)) as Hdom.
    { simpl. rewrite dom_insert_L. assert (c ∈ dom (cheap s)) by (apply elem_of_dom; eauto). set_solver. }
    assert (forall s2, J strict None s2 -> cheap s2 = cheap s1 -> edgesByMAC s2 = edgesByMAC s1 ->
      keeps strict (onEdgeUnregistered c mac) s2 /\ dom (cheap (onEdgeUnregistered c mac s2).2) = dom (cheap s)) as Hon.
    { intros s2 HJ2 E1 E2. rewrite <-E1 in Hsome. split.
      - apply onEdgeUnregistered_keeps; [done..|]. intros Ht. destruct (Hst Ht) as [Hb Hno].
        rewrite E1, E2. split; [|exact Hno]. simpl. eauto.
      - rewrite onEdgeUnregistered_cheap by (done || apply HJ2). by rewrite E1. }
    unfold keeps. rewrite (bind_ok _ _ _ _ _ EU).
    destruct Hk as [->|[f ->]]; [by apply Hon|].
    erewrite (bind_ok (stat f)) by reflexivity. by apply Hon.
  - unfold keeps. rewrite (bind_ok _ _ _ _ _ HU). done.
Qed.

Definition has_cms (D : gset nat) (s : Supernode) : Prop := D ⊆ dom (cheap s).

Lemma keeps_for strict D {A} (l : list A) body s :
  (forall x s, x ∈ l -> J strict None s -> has_cms D s ->
     keeps strict (body x) s /\ has_cms D (body x s).2) ->
  J strict None s -> has_cms D s ->
  keeps strict (mfor l body) s /\ has_cms D (mfor l body s).2.
Proof.
  revert s. induction l as [|x l IH]; intros s Hb HJ HD; simpl; [by split; [apply keeps_pure|]|].
  destruct (Hb x s ltac:(left) HJ HD) as [[H1 H2] H3].
  unfold keeps, mbind, M_bind. destruct (body x s) as [[[]|e|] s1]; simpl in *; [|done|done].
  apply IH; [|done|done]. intros y s' Hy. apply Hb. by right.
Qed.

Lemma collect_stales_eval s expiry cms : Forall (fun c => is_Some (cheap s !! c)) cms ->
  exists stales, collect_stales expiry cms s = (Ok stales, s) /\ stales.*1 = cms.
Proof.
  induction cms as [|c cms IH]; intros Hf; [by exists []|].
  apply Forall_cons in Hf as [[cm Hc] Hf]. destruct (IH Hf) as (l & El & Hl).
  cbn [collect_stales].
  rewrite (bind_ok _ _ s (MACAddr <$> List.filter (stale (clock s) expiry) (edges_of s cm)) s)
    by (unfold GetStaleEdgeIDs, get_cm; munfold; simpl; by rewrite Hc).
  rewrite (bind_ok _ _ _ _ _ El). eexists. split; [reflexivity|]. by rewrite fmap_cons, Hl.
Qed.

Lemma Cleanup_keeps strict expiry s : J strict None s -> keeps strict (CleanupStaleEdges expiry) s.
Proof.
  intros HJ. unfold CleanupStaleEdges. eapply keeps_step; [reflexivity|]. unfold id. cbv zeta.
  assert (Forall (fun c => is_Some (cheap s !! c)) (map_range (communities s)).*2) as Hall.
  { apply Forall_forall. intros c Hc. apply list_elem_of_fmap in Hc as ([h c'] & -> & Hin).
    apply elem_of_map_range in Hin. destruct (inv_comm (proj1 HJ) _ _ Hin) as (cm & ? & _). simpl. eauto. }
  destruct (collect_stales_eval s expiry _ Hall) as (stales & Es & Hs).
  eapply keeps_step; [exact Es|].
  apply keeps_bind; [|intros; by apply keeps_stat].
  assert (has_cms (dom (cheap s)) s) as HD by (by unfold has_cms).
  refine (proj1 (keeps_for strict (dom (cheap s)) _ _ s _ HJ HD)).
  intros [c ids] s1 Hin HJ1 HD1. apply (keeps_for strict); [|done|done].
  intros id s2 _ HJ2 HD2. apply elem_of_map_range in Hin. apply elem_of_list_to_map_2 in Hin.
  assert (is_Some (cheap s2 !! c)) as Hc.
  { apply elem_of_dom, HD2, elem_of_dom. rewrite Forall_forall in Hall. apply Hall. rewrite <-Hs.
    apply list_elem_of_fmap. by exists (c, ids). }
  destruct (unregister_keeps strict c id s2 _ HJ2 Hc (or_intror (ex_intro _ (add_unregistered 1) eq_refl)))
    as [Hk Hd].
  split; [exact Hk|]. unfold has_cms. simpl. rewrite Hd. exact HD2.
Qed.
End Invariant.
