(* ===== verification/SNSafety.v ===== *)
(** * Every packet keeps the supernode's invariant

    The remaining handlers, [ProcessPacket] and the step relation. *)
From S2P Require Import Prelude GoBytes GoNet Netstruct Protocol Machine Crypto SNState Community Supernode.
From S2P Require Import SNWire SNInvariant.
From stdpp Require Import gmap list strings fin_maps.
From Stdlib Require Import ZArith Lia.
Open Scope Z_scope.

Section Safety.
Context `{IPP : IPPool, RSA : RSALib, NET : Net, CDC : SNCodec} {MR : MapRange (list Z)}
  {MRZ : MapRange Z} {MRN : MapRange nat}.

Lemma handleP2PStateInfo_keeps strict r s : J strict None s -> keeps strict (handleP2PStateInfoMessage r) s.
Proof.
  intros HJ. unfold handleP2PStateInfoMessage. apply keeps_message; [done|]. intros m _.
  unfold GetCommunity. apply keeps_lookup; [done|]. intros c cm l e [_ Hc Hl _ _].
  unfold SetP2PInfosFor. eapply keeps_step; [unfold get_cm; munfold; simpl; by rewrite Hc|].
  rewrite Hl. split; [|done]. apply J_upd_cm; [|done]. intros x. by split.
Qed.

Lemma handlePeerRequest_keeps strict r s : J strict None s -> keeps strict (handlePeerRequestMessage r) s.
Proof.
  intros HJ. unfold handlePeerRequestMessage. apply keeps_message; [done|]. intros m _.
  unfold GetCommunity. apply keeps_lookup; [done|]. intros c cm l e Hr.
  eapply keeps_step.
  { unfold GetPeerInfoList, GetAllEdges, get_cm. munfold. simpl. rewrite (ra_cm _ _ _ _ _ _ _ Hr). reflexivity. }
  eapply keeps_emits; [done|]. by eapply reply_to_emits.
Qed.

Lemma handleLeases_keeps strict r s : J strict None s -> keeps strict (handleLeasesInfosMessage r) s.
Proof.
  intros HJ. unfold handleLeasesInfosMessage. apply keeps_message; [done|]. intros m _.
  destruct (negb _); [by apply keeps_pure|].
  unfold GetCommunity. apply keeps_lookup; [done|]. intros c cm l e Hr.
  pose proof (ra_cm _ _ _ _ _ _ _ Hr) as Hc.
  eapply keeps_step; [unfold GetLeasesWithEdgesInfos, get_cm; munfold; simpl; rewrite Hc; reflexivity|].
  eapply keeps_step; [unfold get_cm; munfold; simpl; rewrite Hc; reflexivity|].
  eapply keeps_emits; [done|]. by eapply reply_to_emits.
Qed.

Lemma handleP2PFullState_keeps strict r s : J strict None s -> keeps strict (handleP2PFullStateMessage r) s.
Proof.
  intros HJ. unfold handleP2PFullStateMessage. apply keeps_message; [done|]. intros m _.
  destruct (negb _); [by apply keeps_pure|].
  apply keeps_lookup; [done|]. intros c cm l e Hr. pose proof Hr as [_ Hc Hl _ _].
  eapply keeps_step; [unfold GetCommunityPeerP2PInfosDatas, get_cm; munfold; simpl; rewrite Hc; simpl;
    rewrite Hl; reflexivity|].
  eapply keeps_step; [unfold get_cm; munfold; simpl; rewrite Hc; reflexivity|].
  eapply keeps_emits; [done|]. by eapply reply_to_emits.
Qed.

Lemma handleUnregister_keeps strict r s : J strict None s -> keeps strict (handleUnregisterMessage r) s.
Proof.
  intros HJ. unfold handleUnregisterMessage. apply keeps_message; [done|]. intros m _.
  destruct (Validate_cases (EdgeMACAddr r) (unreg_EncryptedMachineId m) (unreg_CommunityName m) s)
    as [(e & E)|(mid & E & _)]; [unfold keeps; by rewrite (bind_err _ _ _ _ _ E)|].
  eapply keeps_step; [exact E|]. unfold UnregisterEdge, GetCommunity.
  apply keeps_lookup; [done|]. intros c cm l e Hr.
  apply (unregister_keeps strict c (EdgeMACAddr r) s _ HJ); [|by left].
  exists cm. apply Hr.
Qed.

Lemma handleHeartbeat_keeps strict r s : J strict None s -> keeps strict (handleHeartbeatMessage r) s.
Proof.
  intros HJ. unfold handleHeartbeatMessage. apply keeps_message; [done|]. intros m _.
  unfold GetCommunity. apply keeps_lookup; [done|]. intros c cm l e [_ Hc Hl He Hok].
  eapply keeps_step; [reflexivity|]. set (s1 := set_stats _ s).
  assert (J strict None s1) as HJ1 by exact HJ.
  apply keeps_bind.
  { apply keeps_pure; [done|done|]. unfold DecryptMachineID, DecryptSequence. munfold. simpl.
    by destruct (DecryptOAEP _ _). }
  intros mid s2 E2 HJ2. assert (s2 = s1) as ->.
  { revert E2. unfold DecryptMachineID, DecryptSequence. munfold. simpl.
    destruct (DecryptOAEP _ _); by intros [= _ ->]. }
  unfold RefreshEdge, get_cm, get_edge.
  destruct (negb (bool_decide (mid = MachineID e))) eqn:Eid.
  { unfold keeps. munfold. simpl. rewrite Hc. simpl. rewrite Hl. simpl. rewrite He. simpl. rewrite Eid. by split. }
  eapply keeps_step; [munfold; simpl; rewrite Hc; simpl; rewrite Hl; simpl; rewrite He; simpl;
    rewrite Eid; reflexivity|].
  match goal with |- keeps _ _ ?t => set (s3 := t) end.
  assert (J strict None s3) as HJ3 by (apply J_upd_edge; done).
  assert (cheap s3 !! c = Some cm) as Hc3 by done.
  eapply keeps_step; [apply (GetEdge_eval s3 c cm); [apply HJ3|done]|].
  destruct (cm_edges cm !! EdgeMACAddr r ≫= _); [|by apply keeps_pure].
  destruct (_ || _); [|by apply keeps_pure].
  eapply keeps_emits; [done|]. apply emits_ignore. by eapply BroadcastStruct_emits.
Qed.

Lemma handleSecret_keeps strict r s : J strict None s -> keeps strict (handleSNPublicSecretMessage r) s.
Proof.
  intros HJ. unfold handleSNPublicSecretMessage. apply keeps_message; [done|]. intros m _.
  destruct (negb _); [by apply keeps_pure|]. eapply keeps_step; [reflexivity|].
  eapply keeps_emits; [done|]. apply SendStruct_emits.
Qed.

Lemma handlePing_keeps strict r s : J strict None s -> rawPacket r <> [] -> keeps strict (handlePingMessage r) s.
Proof.
  intros HJ Hne. unfold handlePingMessage. destruct (negb _); [by apply keeps_pure|].
  eapply keeps_emits; [done|]. apply ForwardUnicast_emits; [apply HJ|done].
Qed.

Lemma handleData_keeps strict r s : J strict None s -> rawPacket r <> [] -> keeps strict (handleDataMessage r) s.
Proof.
  intros HJ Hne. unfold handleDataMessage. destruct (negb _); [by apply keeps_pure|].
  eapply keeps_emits; [done|]. apply ForwardWithFallBack_emits; [apply HJ|done].
Qed.

(** Where a VFuze packet may go: to an edge indexed under the destination
    MAC whose community is that of the edge at the source socket. *)
Definition fuze_to (s : Supernode) (packet : list Z) (addr : netAddr) (ev : Sent) : Prop :=
  exists dst dl sl de se, VFuzePacketDestMACAddr packet = Ok dst /\
    edgesByMAC s !! HardwareAddr_String dst = Some dl /\ eheap s !! dl = Some de /\
    edgesBySocket s !! Addr_String addr = Some sl /\ eheap s !! sl = Some se /\
    e_Community de = e_Community se /\ delivery s packet de = Some ev.

Lemma VFuze_ok packet dst : VFuzePacketDestMACAddr packet = Ok dst -> relayed packet = Ok packet.
Proof.
  unfold VFuzePacketDestMACAddr. case_bool_decide; [done|]. destruct packet as [|v packet]; [done|].
  simpl. destruct (Z.eqb_spec v VersionVFuze) as [->|]; [done|]. done.
Qed.

Lemma VFuze_no_panic packet : VFuzePacketDestMACAddr packet <> Panic.
Proof.
  unfold VFuzePacketDestMACAddr, slice. case_bool_decide as Hl; [done|].
  destruct packet as [|v packet]; [destruct Hl; unfold ProtoVFuzeSize; simpl; lia|].
  simpl. destruct (negb _); [done|]. rewrite bool_decide_eq_true_2; [done|].
  unfold ProtoVFuzeSize in Hl. simpl in Hl. lia.
Qed.

Lemma handleVFuze_emits s0 packet addr : sn_inv s0 -> emits s0 (fuze_to s0 packet addr) (handleVFuze packet addr).
Proof.
  intros HI. unfold handleVFuze.
  destruct (VFuzePacketDestMACAddr packet) as [dst|e|] eqn:Ed;
    [|apply emits_ret|by destruct (VFuze_no_panic packet)].
  apply emits_get. intros s Hs. destruct (negb _); [apply emits_ret|].
  rewrite <-(core_field edgesByMAC s0 s Hs), <-(core_field edgesBySocket s0 s Hs) by done.
  destruct (edgesByMAC s0 !! _) as [dl|] eqn:Edl; [|apply emits_ret].
  destruct (edgesBySocket s0 !! _) as [sl|] eqn:Esl; [|apply emits_ret].
  destruct (inv_mac HI _ _ Edl) as (de & Hde & _). destruct (inv_sock HI _ _ Esl) as [se Hse].
  eapply emits_get_edge; [done|]. eapply emits_get_edge; [done|].
  case_bool_decide as Hcm; simpl; [|apply emits_ret]. apply emits_ignore.
  eapply emits_weaken; [|apply forwardPacket_emits].
  - intros ev (p & Hp & Hd). rewrite (VFuze_ok _ _ Ed) in Hp. injection Hp as <-.
    exists dst, dl, sl, de, se. done.
  - intros ->. done.
Qed.

(** ** The dispatcher *)
Lemma NewRawMessage_raw packet addr r : NewRawMessage packet addr = Ok r ->
  rawPacket r = packet /\ FromAddr r = addr /\ packet <> [].
Proof.
  unfold NewRawMessage. rewrite Unpack_spec. case_bool_decide as Hl; [done|]. destruct (negb _); [done|].
  destruct (header_read _); [|done]. intros [= <-]. split_and!; try done.
  intros ->. destruct Hl. unfold ProtoVHeaderSize. simpl. lia.
Qed.

Lemma NewRawMessage_no_panic packet addr : NewRawMessage packet addr <> Panic.
Proof.
  unfold NewRawMessage. rewrite Unpack_spec. case_bool_decide; [done|]. destruct (negb _); [done|].
  by destruct (header_read _).
Qed.

(** No registration in the packet uses a MAC registered in another
    community. *)
Definition fresh_claim (packet : list Z) (addr : netAddr) (s : Supernode) : Prop :=
  forall r m, NewRawMessage packet addr = Ok r -> ToMessage RegisterRequest r = Ok m ->
    no_cross (rreq_CommunityName m) (EdgeMACAddr r) s.

Lemma Handle_keeps strict packet addr r s : J strict None s -> NewRawMessage packet addr = Ok r ->
  (strict = true -> fresh_claim packet addr s) -> keeps strict (Handle SnMessageHandlers r) s.
Proof.
  intros HJ Hr Hno. destruct (NewRawMessage_raw _ _ _ Hr) as (Hraw & _ & Hne). rewrite <-Hraw in Hne.
  unfold Handle. destruct (SnMessageHandlers !! hPacketType (Header r)) as [h|] eqn:E; [|by apply keeps_pure].
  apply elem_of_list_to_map_2 in E. rewrite !elem_of_cons, elem_of_nil in E.
  destruct E as [E|[E|[E|[E|[E|[E|[E|[E|[E|[E|[]]]]]]]]]]]; injection E as _ ->.
  - apply handleRegister_keeps; [done|]. intros Ht m Hm. by eapply Hno.
  - by apply handleUnregister_keeps.
  - by apply handleHeartbeat_keeps.
  - by apply handleData_keeps.
  - by apply handlePeerRequest_keeps.
  - by apply handlePing_keeps.
  - by apply handleP2PStateInfo_keeps.
  - by apply handleP2PFullState_keeps.
  - by apply handleLeases_keeps.
  - by apply handleSecret_keeps.
Qed.

Lemma ProcessPacket_keeps strict packet addr s : J strict None s ->
  (strict = true -> packet <> [] /\ fresh_claim packet addr s) ->
  keeps strict (ProcessPacket packet addr) s.
Proof.
  intros HJ Hno. unfold ProcessPacket. eapply keeps_step; [reflexivity|]. set (s1 := set_stats _ s).
  assert (J strict None s1) as HJ1 by exact HJ.
  destruct packet as [|v packet].
  { split; [exact HJ1|]. intros _. destruct strict; [|done]. by destruct (Hno eq_refl). }
  eapply keeps_step; [reflexivity|].
  destruct (v =? VersionVFuze).
  { eapply keeps_emits; [done|]. apply handleVFuze_emits. apply HJ1. }
  destruct (NewRawMessage (v :: packet) addr) as [r|e|] eqn:Er; [|by apply keeps_pure|].
  2:{ by destruct (NewRawMessage_no_panic (v :: packet) addr). }
  apply keeps_bind.
  { apply keeps_try. eapply Handle_keeps; [done|done|]. intros Ht. by apply Hno. }
  intros [u|err] s2 _ HJ2; [by apply keeps_pure|].
  destruct (_ || _); [|by apply keeps_pure].
  destruct addr; try by apply keeps_pure. eapply keeps_emits; [done|].
  apply emits_ignore, WritePacket_emits.
Qed.

Lemma step_keeps s s' : sn_inv s -> supernode_step s s' -> sn_inv s'.
Proof.
  intros HI Hst.
  assert (J false None s) as HJ by (split; [done|discriminate]).
  assert (forall A (m : M Supernode A) r s', keeps false m s -> m s = (r, s') -> sn_inv s') as Hk.
  { intros A m r s2 [Hk _] E. rewrite E in Hk. apply Hk. }
  destruct Hst as [packet ip port r s' _ E|connID packet r s' _ E|remote t s' E|remote t s' E|connID s' E|r s' E|t _].
  - eapply Hk; [|exact E]. by apply ProcessPacket_keeps.
  - eapply Hk; [|exact E]. by apply ProcessPacket_keeps.
  - by injection E as <-.
  - by injection E as <-.
  - by injection E as <-.
  - eapply Hk; [|exact E]. by apply Cleanup_keeps.
  - exact HI.
Qed.

Lemma NewSupernode_inv rnd cfg now w s : NewSupernodeWithConfig rnd cfg now w = Ok s ->
  sn_inv s /\ indexed None s.
Proof.
  unfold NewSupernodeWithConfig. destruct (GenSNSecrets rnd); [|done|done]. intros [= <-].
  split; [split; simpl; try done|done].
  - intros c [x H]. by rewrite lookup_empty in H.
  - intros c [x H]. by rewrite lookup_empty in H.
Qed.

(** ** Forwarded packets *)
Definition flagged (r : RawMessage) : list Z :=
  PackProtoVDatagram (SetFromSupernode (Header r) true) (Payload r).

Lemma NewRawMessage_head packet addr r : NewRawMessage packet addr = Ok r ->
  exists tl, packet = VersionV :: tl /\ relayed packet = Ok (flagged r).
Proof.
  intros H. destruct (NewRawMessage_raw _ _ _ H) as (_ & _ & Hne). unfold NewRawMessage in H.
  destruct packet as [|v packet]; [done|]. exists packet.
  assert (v = VersionV) as ->.
  { revert H. rewrite Unpack_spec. case_bool_decide; [done|]. simpl.
    by destruct (Z.eqb_spec v VersionV). }
  split; [done|]. unfold relayed. rewrite Z.eqb_refl. unfold FlagPacketFromSupernode.
  destruct (UnpackProtoVDatagram _) as [[h q]|e|]; [|done|done]. injection H as <-. done.
Qed.

(** A ProtoV packet goes to the handler of its type; an unknown sender is
    told to register again. *)
Lemma ProcessPacket_raw packet addr r s (h : RawMessage -> M Supernode unit) : NewRawMessage packet addr = Ok r ->
  SnMessageHandlers !! hPacketType (Header r) = Some h ->
  ProcessPacket packet addr s =
  let s1 := set_stats (add_processed 1) s in
  match h r s1 with
  | (Ok _, s2) => (Ok tt, s2)
  | (Panic, s2) => (Panic, s2)
  | (Err e, s2) =>
      if unknown_err e then
        match addr with
        | UDPAddr _ _ => mignore (WritePacket TypeRetryRegisterRequest [] None [] (Some addr)) s2
        | _ => (Ok tt, s2)
        end
      else (Ok tt, s2)
  end.
Proof.
  intros Hr Hh. destruct (NewRawMessage_head _ _ _ Hr) as (tl & -> & _). unfold ProcessPacket.
  rewrite (bind_ok _ _ s tt (set_stats (add_processed 1) s)) by done. rewrite (bind_ok _ _ _ VersionV _) by done.
  change (VersionV =? VersionVFuze) with false. cbv iota. rewrite Hr. cbv zeta.
  unfold Handle. rewrite Hh. unfold unknown_err, mtry, mbind, M_bind.
  destruct (h r _) as [[u|e|] s2]; [done| |done]. destruct (_ || _); [|done]. by destruct addr.
Qed.

Lemma handler_data : SnMessageHandlers !! TypeData = Some handleDataMessage.
Proof. done. Qed.
Lemma handler_ping : SnMessageHandlers !! TypePing = Some handlePingMessage.
Proof. done. Qed.
Lemma handler_heartbeat : SnMessageHandlers !! TypeHeartbeat = Some handleHeartbeatMessage.
Proof. done. Qed.
Lemma handler_unregister : SnMessageHandlers !! TypeUnregisterRequest = Some handleUnregisterMessage.
Proof. done. Qed.
Lemma handler_register : SnMessageHandlers !! TypeRegisterRequest = Some handleRegisterMessage.
Proof. done. Qed.

(** The events of a relayed packet. *)
Lemma relay_emits packet addr r s0 : sn_inv s0 -> NewRawMessage packet addr = Ok r ->
  hPacketType (Header r) = TypeData \/ hPacketType (Header r) = TypePing ->
  emits s0 (fun ev => relays s0 r ev \/ to_addr s0 addr ev) (ProcessPacket packet addr).
Proof.
  intros HI Hr Ht s Hs. destruct (NewRawMessage_raw _ _ _ Hr) as (Hraw & _ & Hne).
  assert (exists h : RawMessage -> M Supernode unit, SnMessageHandlers !! hPacketType (Header r) = Some h /\ emits s0 (relays s0 r) (h r)) as (h & Hh & Hem).
  { destruct Ht as [Ht|Ht]; rewrite Ht.
    - exists handleDataMessage. split; [apply handler_data|]. unfold handleDataMessage. rewrite Ht.
      apply ForwardWithFallBack_emits; congruence.
    - exists handlePingMessage. split; [apply handler_ping|]. unfold handlePingMessage. rewrite Ht.
      apply ForwardUnicast_emits; congruence. }
  rewrite (ProcessPacket_raw _ _ _ _ _ Hr Hh). cbv zeta. set (s1 := set_stats _ s).
  assert (core s0 s1) as Hs1 by exact Hs. destruct (Hem s1 Hs1) as (evs & Hc & Hw & Hf & Hp).
  assert (Forall (fun ev => relays s0 r ev \/ to_addr s0 addr ev) evs.*1) as Hf'
    by (eapply Forall_impl; [exact Hf|by left]).
  destruct (h r s1) as [[u|e|] s2]; simpl in *; [by exists evs| |done].
  destruct (unknown_err e); [|by exists evs]. destruct addr as [ip port| | |]; try by exists evs.
  destruct (emits_ignore s0 (to_addr s0 (UDPAddr ip port)) _
    (WritePacket_emits s0 TypeRetryRegisterRequest [] [] (UDPAddr ip port)) s2 Hc) as (evs2 & Hc2 & Hw2 & Hf2 & Hp2).
  exists (evs ++ evs2). split_and!; [done|by rewrite Hw2, Hw, app_assoc| |done].
  rewrite fmap_app. apply Forall_app. split; [done|]. eapply Forall_impl; [exact Hf2|by right].
Qed.

(** The edges of a community are listed once each, by their MAC. *)
Lemma edges_of_macs s c cm : sn_inv s -> cheap s !! c = Some cm ->
  MACAddr <$> edges_of s cm = (map_range (cm_edges cm)).*1.
Proof.
  intros HI Hc. unfold edges_of.
  assert (forall l, (forall kl, kl ∈ l -> cm_edges cm !! kl.1 = Some kl.2) ->
    MACAddr <$> omap (fun kl : list Z * nat => eheap s !! kl.2) l = l.*1) as H.
  { induction l as [|[k v] l IH]; intros Hl; [done|]. simpl.
    destruct (inv_edge HI _ _ _ _ Hc (Hl (k, v) ltac:(left))) as (e & He & Hk & _). simpl in *. rewrite He.
    simpl. f_equal; [done|]. apply IH. intros kl Hkl. apply Hl. by right. }
  apply H. intros [k v] Hkv. by apply elem_of_map_range in Hkv.
Qed.

Lemma others_macs s c cm sender : sn_inv s -> cheap s !! c = Some cm ->
  MACAddr <$> others sender (edges_of s cm) ≡ₚ elements (dom (cm_edges cm) ∖ {[sender]}).
Proof.
  intros HI Hc. pose proof (edges_of_macs s c cm HI Hc) as Hm.
  assert (NoDup (MACAddr <$> edges_of s cm)) as Hnd by (rewrite Hm; apply NoDup_map_range).
  assert (MACAddr <$> others sender (edges_of s cm)
    = base.filter (fun m => m <> sender) (MACAddr <$> edges_of s cm)) as Hf.
  { unfold others. generalize (edges_of s cm). intros l. induction l as [|e l IH]; [done|]. simpl.
    rewrite filter_cons. case_bool_decide as E; simpl.
    - rewrite decide_False by naive_solver. exact IH.
    - rewrite decide_True by done. f_equal. exact IH. }
  rewrite Hf. apply NoDup_Permutation; [by apply NoDup_filter|apply NoDup_elements|].
  intros m. rewrite list_elem_of_filter, elem_of_elements, Hm, elem_of_difference, elem_of_dom, elem_of_singleton.
  split.
  - intros [Hne Hin]. split; [|done]. apply list_elem_of_fmap in Hin as ([k v] & -> & Hin).
    apply elem_of_map_range in Hin. simpl. eauto.
  - intros [[v Hv] Hne]. split; [done|]. apply list_elem_of_fmap. exists (m, v). split; [done|].
    by apply elem_of_map_range.
Qed.
End Safety.
