(* ===== verification/SNSample.v ===== *)
(** * A concrete supernode to evaluate

    Instances of the supernode's environment (a counting address pool, a
    network that accepts everything, the transparent RSA of [Crypto], the
    countable codec of [Netstruct]) and the packets of sample edges, shared by
    the examples. *)
From S2P Require Import Prelude GoBytes GoNet Netstruct Protocol Machine Crypto SNState Community Supernode.
From S2P Require Import SNWire SNInvariant SNSafety.
From stdpp Require Import gmap list strings fin_maps.
From Stdlib Require Import ZArith Lia.
Open Scope Z_scope.

Definition sample_pool : IPPool := {|
  pool_world := Z;
  pool := unit;
  GetRegisteredPool _ _ := Some tt;
  NewIPPool _ _ w := (inl tt, w);
  RequestIP _ _ _ w := (inl [10; 128; 0; w], w + 1);
  pool_GetLease _ _ _ := None;
  GetAllLeases _ _ := ∅ |}.

Definition open_net : Net := fun _ _ => None.

Definition sample_codec : SNCodec := {|
  codec_rreq := countable_proto _; codec_rresp := countable_proto _;
  codec_unreg := countable_proto _; codec_hb := countable_proto _;
  codec_plr := countable_proto _; codec_pil := countable_proto _;
  codec_ppi := countable_proto _; codec_pfs := countable_proto _;
  codec_li := countable_proto _; codec_sps := countable_proto _ |}.

Module Sample.
#[export] Existing Instance sample_pool.
#[export] Existing Instance open_net.
#[export] Existing Instance sample_codec.
#[export] Instance range_bytes : MapRange (list Z) := default_range (list Z).
#[export] Instance range_Z : MapRange Z := default_range Z.
#[export] Instance range_nat : MapRange nat := default_range nat.

(** A freshly started supernode with secret 7, at 1000 s. *)
Definition start : Supernode :=
  match NewSupernodeWithConfig [7] DefaultConfig (1000 * 10 ^ 9) 2 with
  | Ok s => s
  | _ => mkSupernode (mkAllocator [] []) ∅ ∅ ∅ ∅ DefaultConfig (mkStats 0 0 0 0 0 0 0 0 0 0 0)
           (mkSecrets 0 0 []) ∅ ∅ 0 ∅ 0 0 0 []
  end.

(** A packet of the edge with machine id [mid] in community [name]. *)
Definition packet {T} `{PacketTyped T, Proto T} (name mid dst : list Z) (x : T) : list Z :=
  PackProtoVDatagram
    (mkHeader VersionV 64 (PacketType T) 0 1 (HashCommunity name) (ExtGenerateMac name mid) dst 1000 0)
    (default [] (Marshal x)).

Definition no_dst : list Z := replicate 6 0.
Definition reg (name mid : list Z) : list Z :=
  packet name mid no_dst (mkRegisterRequest [] (str "e") name (7 :: mid) []).
Definition unreg (name mid : list Z) : list Z :=
  packet name mid no_dst (mkUnregisterRequest [] name (7 :: mid)).
Definition heartbeat (name mid : list Z) : list Z :=
  packet name mid no_dst (mkHeartbeatPulse [] name (7 :: mid) []).
Definition data (name mid dst payload : list Z) : list Z :=
  PackProtoVDatagram
    (mkHeader VersionV 64 TypeData 0 1 (HashCommunity name) (ExtGenerateMac name mid) dst 1000 0) payload.
Definition addr (n : Z) : netAddr := UDPAddr [192; 0; 2; n] 4000.

(** A run of the dispatcher over a list of packets, stopping at a panic. *)
Definition run (l : list (list Z * netAddr)) : M Supernode unit :=
  mfor l (fun pa => ProcessPacket pa.1 pa.2).

(** The supernode after the first registrations. *)
Definition mac (name mid : list Z) : list Z := HardwareAddr_String (ExtGenerateMac name mid).
Definition one : Supernode := (ProcessPacket (reg (str "ab") [1; 2]) (addr 1) start).2.
Definition two : Supernode := (ProcessPacket (reg (str "ab") [3; 4]) (addr 2) one).2.

(** The registered edge of a community by name and MAC. *)
Definition lookup_edge (s : Supernode) (name m : list Z) : option (nat * Community * nat * Edge) :=
  c ← communities s !! HashCommunity name;
  cm ← cheap s !! c;
  l ← cm_edges cm !! m;
  e ← eheap s !! l;
  Some (c, cm, l, e).

Definition raw_of (p : list Z) (a : netAddr) : RawMessage :=
  match NewRawMessage p a with Ok r => r | _ => mkRaw (mkHeader 0 0 0 0 0 0 [] [] 0 0) [] a [] end.

Lemma start_inv : sn_inv start.
Proof. by apply (NewSupernode_inv (IPP := sample_pool) [7] DefaultConfig (1000 * 10 ^ 9) 2 start). Qed.
Lemma one_inv : sn_inv one.
Proof.
  apply (ProcessPacket_keeps false (reg (str "ab") [1; 2]) (addr 1) start); [split; [apply start_inv|done]|done].
Qed.
Lemma two_inv : sn_inv two.
Proof.
  apply (ProcessPacket_keeps false (reg (str "ab") [3; 4]) (addr 2) one); [split; [apply one_inv|done]|done].
Qed.

Lemma one_indexed : indexed None one.
Proof.
  assert (alloc_ok (netAllocator start)) as Ha by (by vm_compute).
  assert (J true None start) as HJ.
  { split; [apply start_inv|]. intros _. split; [|exact Ha].
    by apply (NewSupernode_inv (IPP := sample_pool) [7] DefaultConfig (1000 * 10 ^ 9) 2 start). }
  apply (ProcessPacket_keeps true (reg (str "ab") [1; 2]) (addr 1) start); [exact HJ| |done].
  intros _. split; [vm_compute; discriminate|]. intros r m _ _ c cm Hc.
  change (cheap start) with (∅ : gmap nat Community) in Hc. by rewrite lookup_empty in Hc.
Qed.

Lemma lookup_edge_at s name m c cm l e : sn_inv s ->
  lookup_edge s name m = Some (c, cm, l, e) -> registered_at s m (HashCommunity name) c cm l e.
Proof.
  intros HI Hl. unfold lookup_edge in Hl.
  apply bind_Some in Hl as (c' & Hc & Hl). apply bind_Some in Hl as (cm' & Hcm & Hl).
  apply bind_Some in Hl as (l' & Hll & Hl). apply bind_Some in Hl as (e' & He & Hl). injection Hl as -> -> -> ->.
  destruct (inv_edge HI _ _ _ _ Hcm Hll) as (e2 & He2 & Hok). split; try done. congruence.
Qed.
End Sample.
