(* ===== verification/SNProps.v ===== *)
(** * Properties of the supernode

    Theorems about whole packets and whole runs, from the lemmas of [SNWire],
    [SNInvariant] and [SNSafety]. *)
From S2P Require Import Prelude GoBytes GoNet Netstruct Protocol Machine Crypto SNState Community Supernode.
From S2P Require Import SNWire SNInvariant SNSafety SNSample.
From stdpp Require Import gmap list strings fin_maps relations.
From Stdlib Require Import ZArith Lia.
Open Scope Z_scope.

Section Runs.
Context `{IPP : IPPool, RSA : RSALib, NET : Net, CDC : SNCodec} {MR : MapRange (list Z)}
  {MRZ : MapRange Z} {MRN : MapRange nat}.

Lemma steps_inv s0 s : sn_inv s0 -> rtc supernode_step s0 s -> sn_inv s.
Proof. intros HI Hr. induction Hr as [|x y z Hxy _ IH]; [done|]. apply IH. by eapply step_keeps. Qed.

(** The packets of a run that cannot crash the supernode: none is empty and
    none registers a MAC that another community already uses. *)
Fixpoint clean_run (l : list (list Z * netAddr)) (s : Supernode) : Prop :=
  match l with
  | [] => True
  | (p, a) :: l' => p <> [] /\ fresh_claim p a s /\ clean_run l' (ProcessPacket p a s).2
  end.

(** [ProcessPacket] never returns an error: it logs them. *)
Lemma ProcessPacket_no_err p a s e : (ProcessPacket p a s).1 <> Err e.
Proof.
  unfold ProcessPacket. destruct p as [|v p]; [done|].
  rewrite (bind_ok _ _ s tt (set_stats (add_processed 1) s)) by done. rewrite (bind_ok _ _ _ v _) by done.
  set (s1 := set_stats _ s).
  assert (forall {A} (m : M Supernode A) t, (mignore m t).1 <> Err e) as Hig.
  { intros A m t. unfold mignore. munfold. by destruct (m t) as [[]]. }
  destruct (v =? VersionVFuze).
  { unfold handleVFuze. destruct (VFuzePacketDestMACAddr _); [|done|done]. rewrite gets_bind.
    destruct (negb _); [done|]. destruct (edgesByMAC _ !! _) as [dl|]; [|done].
    destruct (edgesBySocket _ !! _) as [sl|]; [|done]. unfold get_edge.
    unfold mbind at 1, M_bind at 1. rewrite gets_bind. unfold id. destruct (eheap s1 !! dl); [|done]. simpl.
    unfold mbind at 1, M_bind at 1. rewrite gets_bind. unfold id. destruct (eheap s1 !! sl); [|done]. simpl.
    destruct (negb _); [done|]. apply Hig. }
  destruct (NewRawMessage _ a); [|done|done].
  unfold mbind at 1, M_bind at 1, mtry. destruct (Handle _ _ s1) as [[u|err|] s2]; [done| |done].
  destruct (_ || _); [|done]. by destruct a.
Qed.

Lemma run_strict l s : J true None s -> clean_run l s ->
  exists s', mfor l (fun pa => ProcessPacket pa.1 pa.2) s = (Ok tt, s') /\ J true None s'.
Proof.
  revert s. induction l as [|[p a] l IH]; intros s HJ Hl; [by exists s|].
  destruct Hl as (Hne & Hfr & Hl).
  destruct (ProcessPacket_keeps true p a s HJ ltac:(done)) as [HJ1 Hp].
  pose proof (ProcessPacket_no_err p a s) as He. cbn [mfor fst snd].
  unfold mbind, M_bind. destruct (ProcessPacket p a s) as [[[]|e|] s1]; simpl in *.
  - by apply IH.
  - by destruct (He e).
  - by specialize (Hp eq_refl).
Qed.
End Runs.

(** C2. In every reachable state of a supernode, whatever packets arrived over
    UDP or websockets and whenever the cleanup ran: a community is filed under
    the hash of its name, and each of its edges is filed under its own MAC
    address, belongs to that community, and has the MAC derived from the
    community's name and the machine id it proved at registration. *)
Theorem registered_edges_sound `{IPP : IPPool, RSA : RSALib, NET : Net, CDC : SNCodec}
    {MR : MapRange (list Z)} {MRZ : MapRange Z} {MRN : MapRange nat}
    rnd cfg now w s0 s h c cm mac l :
  NewSupernodeWithConfig rnd cfg now w = Ok s0 -> rtc supernode_step s0 s ->
  communities s !! h = Some c -> cheap s !! c = Some cm -> cm_edges cm !! mac = Some l ->
  HashCommunity (cm_name cm) = h /\
  exists e, eheap s !! l = Some e /\ MACAddr e = mac /\ e_Community e = cm_name cm /\
    HardwareAddr_String (ExtGenerateMac (cm_name cm) (MachineID e)) = mac.
Proof.
  intros Hnew Hr Hh Hc Hl. apply NewSupernode_inv in Hnew as [HI _].
  pose proof (steps_inv s0 s HI Hr) as HI'. split.
  - destruct (inv_comm HI' _ _ Hh) as (cm' & Hc' & <-). congruence.
  - apply (inv_edge HI' _ _ _ _ Hc Hl).
Qed.

Import Sample.

Lemma registered_edges_sound_witness :
  exists c cm l e, lookup_edge one (str "ab") (mac (str "ab") [1; 2]) = Some (c, cm, l, e) /\
    mac (cm_name cm) (MachineID e) = mac (str "ab") [1; 2].
Proof.
  assert (supernode_step start one) as Hstep.
  { eapply (step_udp _ (reg (str "ab") [1; 2]) [192; 0; 2; 1] 4000).
    - apply (bool_decide_unpack _). vm_compute. exact I.
    - unfold one. apply surjective_pairing. }
  assert (bool_decide (is_Some (lookup_edge one (str "ab") (mac (str "ab") [1; 2]))) = true) as Hl
    by (vm_compute; reflexivity).
  apply bool_decide_eq_true_1 in Hl as [[[[c cm] l] e] Hl].
  exists c, cm, l, e. split; [exact Hl|]. unfold lookup_edge in Hl.
  apply bind_Some in Hl as (c' & Hc & Hl). apply bind_Some in Hl as (cm' & Hcm & Hl).
  apply bind_Some in Hl as (l' & Hll & Hl). apply bind_Some in Hl as (e' & He & Hl). injection Hl as <- <- <- <-.
  destruct (registered_edges_sound (IPP := sample_pool) [7] DefaultConfig (1000 * 10 ^ 9) 2 start one
    _ _ _ _ _ eq_refl (rtc_once _ _ Hstep) Hc Hcm Hll) as [_ (e2 & He2 & _ & _ & Hmac)].
  rewrite He in He2. injection He2 as <-. exact Hmac.
Defined.

(** C1. A supernode whose index of edges is complete and whose base network is
    valid processes any run of non-empty packets without panicking, as long as
    no registration claims a MAC that is registered in another community; the
    index stays complete. *)
Theorem supernode_never_panics `{IPP : IPPool, RSA : RSALib, NET : Net, CDC : SNCodec}
    {MR : MapRange (list Z)} {MRZ : MapRange Z} {MRN : MapRange nat} l s :
  sn_inv s -> indexed None s -> alloc_ok (netAllocator s) -> clean_run l s ->
  exists s', mfor l (fun pa => ProcessPacket pa.1 pa.2) s = (Ok tt, s') /\ sn_inv s' /\ indexed None s'.
Proof.
  intros HI Hi Ha Hl. destruct (run_strict l s) as (s' & E & HI' & Hs'); [by split|done|].
  exists s'. split; [done|]. split; [done|]. by apply Hs'.
Qed.

Lemma supernode_never_panics_witness :
  exists s', mfor [(reg (str "ab") [1; 2], addr 1)] (fun pa => ProcessPacket pa.1 pa.2) start = (Ok tt, s') /\
    sn_inv s' /\ indexed None s'.
Proof.
  destruct (NewSupernode_inv (IPP := sample_pool) [7] DefaultConfig (1000 * 10 ^ 9) 2 start eq_refl) as [HI Hi].
  apply (supernode_never_panics [(reg (str "ab") [1; 2], addr 1)] start HI Hi).
  - by vm_compute.
  - split; [vm_compute; discriminate|]. split; [|exact I].
    intros r m _ _ c cm Hc _. change (cheap start) with (∅ : gmap nat Community) in Hc.
    by rewrite lookup_empty in Hc.
Defined.

(** The MAC of an edge is a hash of its machine id followed by the
    community's name with nothing between them, so machine id [1,2] in
    community [ab] and machine id [1,2,'a'] in community [b] get the same MAC;
    registering both and unregistering both makes the supernode dereference a
    missing edge: four well-formed packets crash it. *)
Theorem cross_community_crash :
  mac (str "ab") [1; 2] = mac (str "b") [1; 2; 97] /\
  Forall bytes_ok [reg (str "ab") [1; 2]; reg (str "b") [1; 2; 97]; unreg (str "ab") [1; 2]; unreg (str "b") [1; 2; 97]] /\
  (run [(reg (str "ab") [1; 2], addr 1); (reg (str "b") [1; 2; 97], addr 2);
        (unreg (str "ab") [1; 2], addr 1); (unreg (str "b") [1; 2; 97], addr 2)] start).1 = Panic.
Proof.
  split; [vm_compute; reflexivity|]. split; [|vm_compute; reflexivity].
  apply (bool_decide_unpack _). vm_compute. exact I.
Qed.

(** ** Forwarding *)

(** C3. Community isolation of relayed traffic: whatever a data or ping packet
    holds, the supernode's state does not change and everything it sends is
    either an answer to the packet's own source address or the flagged packet,
    delivered to an edge registered in the community where the sender is
    registered. *)
Theorem relay_isolation `{IPP : IPPool, RSA : RSALib, NET : Net, CDC : SNCodec}
    {MR : MapRange (list Z)} packet addr r s :
  sn_inv s -> NewRawMessage packet addr = Ok r ->
  hPacketType (Header r) = TypeData \/ hPacketType (Header r) = TypePing ->
  core s (ProcessPacket packet addr s).2 /\
  exists evs, wire (ProcessPacket packet addr s).2 = wire s ++ evs /\
    Forall (fun ev => to_addr s addr ev \/
      exists c cm sender e, communities s !! CommunityHash r = Some c /\ cheap s !! c = Some cm /\
        sender ∈ edges_of s cm /\ MACAddr sender = EdgeMACAddr r /\
        e ∈ edges_of s cm /\ e_Community e = e_Community sender /\
        delivery s (flagged r) e = Some ev) evs.*1.
Proof.
  intros HI Hr Ht. destruct (relay_emits packet addr r s HI Hr Ht s (reflexivity _)) as (evs & Hc & Hw & Hf & _).
  split; [done|]. exists evs. split; [done|]. eapply Forall_impl; [exact Hf|]. simpl.
  intros ev [(c & cm & l & e0 & e & p & [H1 H2 H3 H4 H5] & He & Hp & Hd)|Ha]; [right|by left].
  destruct (NewRawMessage_head _ _ _ Hr) as (tl & _ & Hrel).
  destruct (NewRawMessage_raw _ _ _ Hr) as (Hraw & _). rewrite Hraw, Hrel in Hp. injection Hp as <-.
  pose proof He as He'. apply elem_of_edges_of in He' as (mac & l' & Hl' & Hel).
  destruct (inv_edge HI _ _ _ _ H2 Hl') as (e' & Hee & _ & Hn' & _).
  exists c, cm, e0, e. split_and!; try done; [apply elem_of_edges_of; eauto|apply H5|].
  destruct H5 as (_ & Hn & _). congruence.
Qed.

Definition sample_data : list Z := data (str "ab") [1; 2] (ExtGenerateMac (str "ab") [3; 4]) [9; 9; 9].

Lemma relay_isolation_witness : core two (ProcessPacket sample_data (addr 1) two).2.
Proof.
  pose proof two_inv as HI.
  apply (relay_isolation sample_data (addr 1) (raw_of sample_data (addr 1)) two HI).
  - vm_compute. reflexivity.
  - left. vm_compute. reflexivity.
Defined.

(** C13. Community isolation of the fast path: a VFuze packet changes nothing
    but the wire and the counters, and is sent unchanged and only to the edge
    indexed under its destination MAC, when the edge indexed under the source
    socket belongs to the same community. *)
Theorem vfuze_isolation `{IPP : IPPool, RSA : RSALib, NET : Net, CDC : SNCodec}
    {MR : MapRange (list Z)} packet addr s :
  sn_inv s ->
  core s (ProcessPacket (VersionVFuze :: packet) addr s).2 /\
  exists evs, wire (ProcessPacket (VersionVFuze :: packet) addr s).2 = wire s ++ evs /\
    Forall (fuze_to s (VersionVFuze :: packet) addr) evs.*1 /\
    (ProcessPacket (VersionVFuze :: packet) addr s).1 <> Panic.
Proof.
  intros HI. unfold ProcessPacket.
  rewrite (bind_ok _ _ s tt (set_stats (add_processed 1) s)) by done.
  rewrite (bind_ok _ _ _ VersionVFuze _) by done. rewrite Z.eqb_refl.
  destruct (handleVFuze_emits s (VersionVFuze :: packet) addr HI (set_stats (add_processed 1) s))
    as (evs & Hc & Hw & Hf & Hp); [done|].
  split; [done|]. by exists evs.
Qed.

Lemma vfuze_isolation_witness :
  core two (ProcessPacket (VersionVFuze :: ExtGenerateMac (str "ab") [3; 4] ++ [1; 2; 3]) (addr 1) two).2.
Proof. apply (vfuze_isolation (ExtGenerateMac (str "ab") [3; 4] ++ [1; 2; 3]) (addr 1) two two_inv). Defined.

(** A delivered unicast. *)
Lemma unicast_run `{IPP : IPPool, RSA : RSALib, NET : Net, CDC : SNCodec}
    {MR : MapRange (list Z)} packet addr r s c cm l e ld ed ev :
  sn_inv s -> NewRawMessage packet addr = Ok r -> hPacketType (Header r) = TypeData ->
  registered_at s (EdgeMACAddr r) (CommunityHash r) c cm l e ->
  cm_edges cm !! DestMACAddr r = Some ld -> eheap s !! ld = Some ed ->
  delivery s (flagged r) ed = Some ev -> net_write (wire s) ev = None ->
  exists s', ProcessPacket packet addr s = (Ok tt, s') /\ core s s' /\
    wire s' = wire s ++ [(ev, None)] /\
    PacketsForwarded (stats s') = u64 (PacketsForwarded (stats s) + 1) /\
    PacketsDropped (stats s') = PacketsDropped (stats s).
Proof.
  intros HI Hr Ht Hreg Hd He Hev Hnet.
  destruct (NewRawMessage_head _ _ _ Hr) as (tl & _ & Hrel). destruct (NewRawMessage_raw _ _ _ Hr) as (Hraw & _).
  rewrite (ProcessPacket_raw packet addr r s handleDataMessage Hr) by (rewrite Ht; apply handler_data).
  cbv zeta. set (s1 := set_stats (add_processed 1) s).
  unfold handleDataMessage. rewrite Ht. simpl. unfold ForwardWithFallBack, GetCommunity.
  rewrite (bind_ok _ _ _ _ _ (GetCommunityForEdge_ok s1 s _ _ c cm l e HI Hreg eq_refl eq_refl)).
  rewrite (bind_ok _ _ _ _ _ (GetEdge_eval s1 c cm (DestMACAddr r) HI (ra_cm _ _ _ _ _ _ _ Hreg))).
  rewrite Hd. change (Some ld ≫= fun l => eheap s1 !! l) with (eheap s !! ld). rewrite He, Hraw.
  assert (forwardPacket packet ed s1 = (Ok tt, set_wire (wire s ++ [(ev, None)]) s1)) as Ef.
  { rewrite forwardPacket_eq, Hrel. change (delivery s1) with (delivery s). rewrite Hev.
    unfold net_send. munfold. simpl. by rewrite Hnet. }
  unfold mtry. unfold mbind, M_bind. rewrite Ef. simpl.
  eexists. split; [reflexivity|]. done.
Qed.

(** The attempt to deliver a packet to one edge, as it appears on the wire. *)
Definition attempted `{IPP : IPPool, RSA : RSALib, NET : Net} (s : Supernode) (p : list Z) (e : Edge) : list (Sent * option goerr) :=
  match delivery s p e with Some ev => [(ev, net_write (wire s) ev)] | None => [] end.

(** A unicast that cannot be delivered is counted and broadcast. *)
Lemma unicast_fallback `{IPP : IPPool, RSA : RSALib, NET : Net, CDC : SNCodec}
    {MR : MapRange (list Z)} packet addr r s c cm l e ld ed :
  sn_inv s -> NewRawMessage packet addr = Ok r -> hPacketType (Header r) = TypeData ->
  registered_at s (EdgeMACAddr r) (CommunityHash r) c cm l e ->
  cm_edges cm !! DestMACAddr r = Some ld -> eheap s !! ld = Some ed ->
  accepted (attempted s (flagged r) ed) = 0 ->
  exists targets evs s', ProcessPacket packet addr s = (Ok tt, s') /\ core s s' /\
    MACAddr <$> targets ≡ₚ elements (dom (cm_edges cm) ∖ {[EdgeMACAddr r]}) /\ Forall (fun t => t ∈ edges_of s cm) targets /\
    wire s' = wire s ++ attempted s (flagged r) ed ++ evs /\ evs.*1 = omap (delivery s (flagged r)) targets /\
    u64 (PacketsForwarded (stats s')) = u64 (PacketsForwarded (stats s) + accepted evs) /\
    u64 (PacketsDropped (stats s')) = u64 (PacketsDropped (stats s) + 1 + (Z.of_nat (length targets) - accepted evs)).
Proof.
  intros HI Hr Ht Hreg Hd He Hno.
  destruct (NewRawMessage_head _ _ _ Hr) as (tl & _ & Hrel). destruct (NewRawMessage_raw _ _ _ Hr) as (Hraw & _).
  rewrite (ProcessPacket_raw packet addr r s handleDataMessage Hr) by (rewrite Ht; apply handler_data).
  cbv zeta. set (s1 := set_stats (add_processed 1) s).
  unfold handleDataMessage. rewrite Ht. simpl. unfold ForwardWithFallBack, GetCommunity.
  rewrite (bind_ok _ _ _ _ _ (GetCommunityForEdge_ok s1 s _ _ c cm l e HI Hreg eq_refl eq_refl)).
  rewrite (bind_ok _ _ _ _ _ (GetEdge_eval s1 c cm (DestMACAddr r) HI (ra_cm _ _ _ _ _ _ _ Hreg))).
  rewrite Hd. change (Some ld ≫= fun l => eheap s1 !! l) with (eheap s !! ld). rewrite He, Hraw.
  set (s2 := set_stats (add_dropped 1) (set_wire (wire s ++ attempted s (flagged r) ed) s1)).
  assert (exists x, forwardPacket packet ed s1 = (Err x, set_wire (wire s ++ attempted s (flagged r) ed) s1)) as [x Ef].
  { rewrite forwardPacket_eq, Hrel. change (delivery s1) with (delivery s). unfold attempted in *.
    destruct (delivery s (flagged r) ed) as [ev|]; [|eexists; rewrite app_nil_r; by destruct s].
    unfold net_send. munfold. simpl. destruct (net_write (wire s) ev) as [x|]; [by exists x|discriminate Hno]. }
  destruct (broadcast_exact packet (flagged r) c cm (EdgeMACAddr r) s2 Hrel (ra_cm _ _ _ _ _ _ _ Hreg))
    as (evs & s' & E & Hc & Hw & Hev & Hf & Hdr).
  exists (others (EdgeMACAddr r) (edges_of s cm)), evs, s'.
  unfold mtry. unfold mbind, M_bind. rewrite Ef. simpl. fold s2. rewrite E. split_and!; try done.
  - by apply (others_macs s c cm (EdgeMACAddr r) HI), (ra_cm _ _ _ _ _ _ _ Hreg).
  - apply Forall_forall. intros t. by intros [? _]%elem_of_others.
  - rewrite Hw. cbn. by rewrite <-app_assoc.
  - rewrite Hdr. cbn. unfold u64. by rewrite Zplus_mod_idemp_l.
Qed.

(** C4. Unicast: a data packet from a registered edge to another edge of its
    community is sent, flagged as coming from the supernode, to that edge alone
    and counted as forwarded when the network takes it; when the write fails or
    the edge's websocket is gone, the attempt counts as dropped and the packet
    goes to every other edge of the community, each once, with accepted and
    failed writes counted. *)
Theorem data_unicast `{IPP : IPPool, RSA : RSALib, NET : Net, CDC : SNCodec}
    {MR : MapRange (list Z)} packet addr r s c cm l e ld ed :
  sn_inv s -> NewRawMessage packet addr = Ok r -> hPacketType (Header r) = TypeData ->
  registered_at s (EdgeMACAddr r) (CommunityHash r) c cm l e ->
  cm_edges cm !! DestMACAddr r = Some ld -> eheap s !! ld = Some ed ->
  exists s', ProcessPacket packet addr s = (Ok tt, s') /\ core s s' /\
    ((exists ev, delivery s (flagged r) ed = Some ev /\ net_write (wire s) ev = None /\ wire s' = wire s ++ [(ev, None)] /\
       PacketsForwarded (stats s') = u64 (PacketsForwarded (stats s) + 1) /\
       PacketsDropped (stats s') = PacketsDropped (stats s)) \/
     accepted (attempted s (flagged r) ed) = 0 /\ exists targets evs,
       MACAddr <$> targets ≡ₚ elements (dom (cm_edges cm) ∖ {[EdgeMACAddr r]}) /\ Forall (fun t => t ∈ edges_of s cm) targets /\
       wire s' = wire s ++ attempted s (flagged r) ed ++ evs /\ evs.*1 = omap (delivery s (flagged r)) targets /\
       u64 (PacketsForwarded (stats s')) = u64 (PacketsForwarded (stats s) + accepted evs) /\
       u64 (PacketsDropped (stats s')) = u64 (PacketsDropped (stats s) + 1 + (Z.of_nat (length targets) - accepted evs))).
Proof.
  intros HI Hr Ht Hreg Hd He.
  assert ((exists ev, delivery s (flagged r) ed = Some ev /\ net_write (wire s) ev = None) \/ accepted (attempted s (flagged r) ed) = 0)
    as [(ev & Hev & Hnet)|Hno].
  { unfold attempted. destruct (delivery s (flagged r) ed) as [ev|]; [|by right].
    destruct (net_write (wire s) ev) eqn:E; [by right|]. left. by exists ev. }
  - destruct (unicast_run packet addr r s c cm l e ld ed ev) as (s' & E & Hc & H); [done..|].
    exists s'. split; [done|]. split; [done|]. left. by exists ev.
  - destruct (unicast_fallback packet addr r s c cm l e ld ed) as (targets & evs & s' & E & Hc & H); [done..|].
    exists s'. split; [done|]. split; [done|]. right. split; [done|]. by exists targets, evs.
Qed.

Lemma data_unicast_witness : exists s', ProcessPacket sample_data (addr 1) two = (Ok tt, s') /\
  wire s' = wire two ++ [(SentUDP (flagged (raw_of sample_data (addr 1))) (addr 2), None)].
Proof.
  pose proof two_inv as HI.
  assert (bool_decide (is_Some (lookup_edge two (str "ab") (mac (str "ab") [1; 2]))) = true) as Hl
    by (vm_compute; reflexivity).
  apply bool_decide_eq_true_1 in Hl as [[[[c cm] l] e] Hl]. apply (lookup_edge_at two _ _ _ _ _ _ HI) in Hl.
  set (r := raw_of sample_data (addr 1)).
  assert (EdgeMACAddr r = mac (str "ab") [1; 2] /\ CommunityHash r = HashCommunity (str "ab") /\
          DestMACAddr r = mac (str "ab") [3; 4]) as (E1 & E2 & E3) by (vm_compute; by split_and!).
  assert (option_map (fun x => x.1.2) (lookup_edge two (str "ab") (mac (str "ab") [3; 4])) = Some 1%nat) as Hd
    by (vm_compute; reflexivity).
  destruct (lookup_edge two (str "ab") (mac (str "ab") [3; 4])) as [[[[c2 cm2] l2] e2]|] eqn:Hl2; [|discriminate].
  injection Hd as ->. apply (lookup_edge_at two _ _ _ _ _ _ HI) in Hl2.
  destruct Hl2 as [H1 H2 H3 H4 _]. rewrite (ra_comm _ _ _ _ _ _ _ Hl) in H1. injection H1 as <-.
  rewrite (ra_cm _ _ _ _ _ _ _ Hl) in H2. injection H2 as <-.
  assert (delivery two (flagged r) <$> eheap two !! 1%nat = Some (Some (SentUDP (flagged r) (addr 2)))) as Hev
    by (vm_compute; reflexivity).
  rewrite H4 in Hev. injection Hev as Hev.
  destruct (data_unicast sample_data (addr 1) r two c cm l e 1%nat e2)
    as (s' & E & _ & [(ev & Ev & _ & Hw & _)|[Hno _]]).
  - exact HI.
  - vm_compute. reflexivity.
  - vm_compute. reflexivity.
  - rewrite E1, E2. exact Hl.
  - rewrite E3. exact H3.
  - exact H4.
  - exists s'. split; [exact E|]. rewrite Hev in Ev. injection Ev as <-. exact Hw.
  - unfold attempted in Hno. rewrite Hev in Hno. discriminate Hno.
Defined.

(** C5. Broadcast: a data packet whose destination is not a registered edge of
    the sender's community (a broadcast or multicast frame) is sent, flagged,
    to every other edge of the community exactly once and never back to the
    sender; accepted writes are counted as forwarded, the rest as dropped. *)
Theorem data_broadcast `{IPP : IPPool, RSA : RSALib, NET : Net, CDC : SNCodec}
    {MR : MapRange (list Z)} packet addr r s c cm l e :
  sn_inv s -> NewRawMessage packet addr = Ok r -> hPacketType (Header r) = TypeData ->
  registered_at s (EdgeMACAddr r) (CommunityHash r) c cm l e ->
  cm_edges cm !! DestMACAddr r = None ->
  exists targets evs s', ProcessPacket packet addr s = (Ok tt, s') /\ core s s' /\
    MACAddr <$> targets ≡ₚ elements (dom (cm_edges cm) ∖ {[EdgeMACAddr r]}) /\
    Forall (fun t => t ∈ edges_of s cm) targets /\
    wire s' = wire s ++ evs /\ evs.*1 = omap (delivery s (flagged r)) targets /\
    u64 (PacketsForwarded (stats s')) = u64 (PacketsForwarded (stats s) + accepted evs) /\
    u64 (PacketsDropped (stats s')) =
      u64 (PacketsDropped (stats s) + (Z.of_nat (length targets) - accepted evs)).
Proof.
  intros HI Hr Ht Hreg Hd.
  destruct (NewRawMessage_head _ _ _ Hr) as (tl & _ & Hrel). destruct (NewRawMessage_raw _ _ _ Hr) as (Hraw & _).
  rewrite (ProcessPacket_raw packet addr r s handleDataMessage Hr) by (rewrite Ht; apply handler_data).
  cbv zeta. set (s1 := set_stats (add_processed 1) s).
  unfold handleDataMessage. rewrite Ht. simpl. unfold ForwardWithFallBack, GetCommunity.
  rewrite (bind_ok _ _ _ _ _ (GetCommunityForEdge_ok s1 s _ _ c cm l e HI Hreg eq_refl eq_refl)).
  rewrite (bind_ok _ _ _ _ _ (GetEdge_eval s1 c cm (DestMACAddr r) HI (ra_cm _ _ _ _ _ _ _ Hreg))).
  rewrite Hd. change (None ≫= fun l : nat => eheap s1 !! l) with (None : option Edge).
  rewrite (bind_ok _ _ _ false s1) by done. rewrite Hraw.
  destruct (broadcast_exact packet (flagged r) c cm (EdgeMACAddr r) s1 Hrel (ra_cm _ _ _ _ _ _ _ Hreg))
    as (evs & s' & E & Hc & Hw & Hev & Hf & Hdr).
  exists (others (EdgeMACAddr r) (edges_of s cm)), evs, s'. rewrite E. split_and!; try done.
  - by apply (others_macs s c cm (EdgeMACAddr r) HI), (ra_cm _ _ _ _ _ _ _ Hreg).
  - apply Forall_forall. intros t. by intros [? _]%elem_of_others.
Qed.

Definition sample_bcast : list Z := data (str "ab") [1; 2] (replicate 6 255) [9; 9].

Lemma data_broadcast_witness : exists s', ProcessPacket sample_bcast (addr 1) two = (Ok tt, s') /\ core two s'.
Proof.
  pose proof two_inv as HI. set (r := raw_of sample_bcast (addr 1)).
  assert (match lookup_edge two (str "ab") (mac (str "ab") [1; 2]) with
          | Some (c, cm, l, e) => bool_decide (cm_edges cm !! DestMACAddr r = None)
          | None => false end = true) as Hl by (vm_compute; reflexivity).
  destruct (lookup_edge two (str "ab") (mac (str "ab") [1; 2])) as [[[[c cm] l] e]|] eqn:El; [|discriminate].
  apply bool_decide_eq_true_1 in Hl. apply (lookup_edge_at two _ _ _ _ _ _ HI) in El.
  assert (EdgeMACAddr r = mac (str "ab") [1; 2] /\ CommunityHash r = HashCommunity (str "ab")) as (E1 & E2)
    by (vm_compute; by split).
  destruct (data_broadcast sample_bcast (addr 1) r two c cm l e) as (_ & _ & s' & E & Hc & _).
  - exact HI.
  - vm_compute. reflexivity.
  - vm_compute. reflexivity.
  - rewrite E1, E2. exact El.
  - exact Hl.
  - exists s'. split; [exact E|exact Hc].
Defined.


