(* ===== verification/SNLife.v ===== *)
(** * The life of a community and of an edge

    Network allocation, creation of communities, registration, heartbeats,
    unregistration and cleanup: what each does to the supernode's state. *)
From S2P Require Import Prelude GoBytes GoNet Netstruct Protocol Machine Crypto SNState Community Supernode.
From S2P Require Import SNWire SNInvariant SNSafety SNSample.
From stdpp Require Import gmap list strings fin_maps relations.
From Stdlib Require Import ZArith Lia.
Open Scope Z_scope.

(** ** Network allocation *)
Lemma mask_size n : 0 <= n <= 32 -> IPMask_Size (CIDRMask32 n) = n.
Proof.
  intros Hn. assert (n ∈ seqZ 0 33) as Hin by (apply elem_of_seqZ; lia).
  assert (Forall (fun n => IPMask_Size (CIDRMask32 n) = n) (seqZ 0 33)) as Hall
    by (apply (bool_decide_unpack _); vm_compute; exact I).
  rewrite Forall_forall in Hall. by apply Hall.
Qed.

Lemma land_mod32 v m : 0 <= m < 2 ^ 32 -> Z.land (v mod 2 ^ 32) m = Z.land v m.
Proof.
  intros Hm. rewrite <-Z.land_ones by lia. rewrite <-Z.land_assoc. f_equal.
  rewrite Z.land_comm, Z.land_ones by lia. by apply Z.mod_small.
Qed.

(** Masking the combined address gives the masked base. *)
Lemma masked_base base off m : Z.land (Z.lor (Z.land base m) (Z.ldiff off m)) m = Z.land base m.
Proof.
  apply Z.bits_inj'. intros i _. rewrite !Z.land_spec, Z.lor_spec, Z.land_spec, Z.ldiff_spec.
  by destruct (Z.testbit base i), (Z.testbit off i), (Z.testbit m i).
Qed.

Lemma be_get_put4 v : be_get (be_put 4 v) = v mod 2 ^ 32.
Proof. rewrite be_get_put. done. Qed.

Lemma cidr_bounds n : 0 <= n <= 32 -> 0 <= 2 ^ 32 - 2 ^ (32 - n) < 2 ^ 32.
Proof.
  intros Hn. pose proof (Z.pow_pos_nonneg 2 (32 - n)). pose proof (Z.pow_le_mono_r 2 (32 - n) 32). lia.
Qed.

Lemma To4_length base : length (To4 base) <> 4%nat -> To4 base = [].
Proof.
  unfold To4. case_bool_decide; [done|]. case_bool_decide as H16; [|done]. simpl.
  case_bool_decide; [|done]. rewrite length_drop, H16. done.
Qed.

(** The proposal in closed form: the hash of the name is masked away. *)
Lemma Propose_eq base n name : length (To4 base) = 4%nat -> 0 <= n <= 32 ->
  ProposeVirtualNetwork (NewNetworkAllocator base (CIDRMask32 n)) name =
  Ok (mkPrefix (be_put 4 (Z.land (be_get (To4 base)) (2 ^ 32 - 2 ^ (32 - n)))) n).
Proof.
  intros Hb Hn. unfold ProposeVirtualNetwork, Uint32. cbn [baseNetwork na_mask NewNetworkAllocator].
  assert (forall (l : list Z), (4 <= length l)%nat -> slice l 0 4 = Ok (take 4 l)) as Hsl.
  { intros l Hl. unfold slice. rewrite !bool_decide_eq_true_2 by lia. by rewrite drop_0. }
  assert (CIDRMask32 n = be_put 4 (2 ^ 32 - 2 ^ (32 - n))) as Hm.
  { unfold CIDRMask32. by rewrite (proj2 (Z.ltb_ge n 0)), (proj2 (Z.ltb_ge 32 n)) by lia. }
  rewrite (Hsl (Sha256.Sum256 name)) by (rewrite length_Sum256; lia). cbn [mbind outcome_bind].
  rewrite (Hsl (To4 base)) by lia. cbn [mbind outcome_bind]. rewrite (firstn_all2 (n := 4) (To4 base)) by lia.
  rewrite Hm. rewrite (Hsl (be_put 4 _)) by (rewrite length_be_put; lia). cbn [mbind outcome_bind].
  rewrite <-Hm, mask_size by done. unfold Addr_Prefix.
  rewrite (proj2 (Z.ltb_ge n 0)) by lia.
  rewrite bool_decide_eq_false_2 by (intros E; apply (f_equal length) in E; rewrite length_be_put in E; done).
  unfold addr_mask, len. rewrite length_be_put.
  rewrite (proj2 (Z.ltb_ge _ n)) by (simpl; lia). do 2 f_equal.
  rewrite Hm, !firstn_all2 by (rewrite length_be_put; lia).
  rewrite !be_get_put4. change (8 * Z.of_nat 4) with 32.
  rewrite (Z.mod_small (2 ^ 32 - 2 ^ (32 - n))) by (by apply cidr_bounds).
  rewrite land_mod32 by (by apply cidr_bounds). by rewrite masked_base.
Qed.

(** The allocator proposes the same network to every community: the
    host bits derived from the hash of the community's name are masked off
    again by the prefix, so the result is the configured base network. *)
Theorem same_network_for_all base n name1 name2 :
  ProposeVirtualNetwork (NewNetworkAllocator base (CIDRMask32 n)) name1 =
  ProposeVirtualNetwork (NewNetworkAllocator base (CIDRMask32 n)) name2.
Proof.
  destruct (decide (length (To4 base) = 4%nat)) as [Hb|Hb]; [destruct (decide (0 <= n <= 32)) as [Hn|Hn]|].
  - by rewrite !Propose_eq.
  - assert (CIDRMask32 n = []) as Hm.
    { unfold CIDRMask32. destruct (Z.ltb_spec n 0), (Z.ltb_spec 32 n); try done. lia. }
    unfold ProposeVirtualNetwork, Uint32, slice. cbn [baseNetwork na_mask NewNetworkAllocator].
    rewrite !length_Sum256, Hm, Hb. done.
  - assert (To4 base = []) as Hm by (by apply To4_length).
    unfold ProposeVirtualNetwork, Uint32, slice. cbn [baseNetwork na_mask NewNetworkAllocator].
    rewrite !length_Sum256, Hm. done.
Qed.

(** ** Creation of communities *)
Section Communities.
Context `{IPP : IPPool, RSA : RSALib, NET : Net, CDC : SNCodec} {MR : MapRange (list Z)}.

Lemma register_locked_new name h s c s' :
  register_locked name h None s = (Ok c, s') ->
  c = cnext s /\ cnext s' = S (cnext s) /\ communities s' = <[h := c]> (communities s) /\
  eheap s' = eheap s /\ netAllocator s' = netAllocator s /\
  exists cm, cheap s' = <[c := cm]> (cheap s) /\ cm_name cm = name /\ cm_edges cm = ∅.
Proof.
  unfold register_locked. rewrite gets_bind. unfold id.
  destruct (ProposeVirtualNetwork _ _); [|done|done].
  unfold NewCommunityWithConfig, NewCommunity, new_cm. munfold. simpl.
  destruct (GetRegisteredPool _ _) as [ips|].
  - intros [= <- <-]. simpl. split_and!; try done. eexists. done.
  - destruct (NewIPPool _ _ _) as [[ips|x] w]; simpl; [|done].
    intros [= <- <-]. simpl. split_and!; try done. eexists. done.
Qed.
End Communities.

(** [RegisterCommunity] is keyed by the hash of the name: a wrong hash is
    refused, a known hash returns the community of that name and refuses any
    other name, and a new hash creates an empty community filed under it. *)
Theorem register_community_spec `{IPP : IPPool, RSA : RSALib, NET : Net, CDC : SNCodec}
    {MR : MapRange (list Z)} name h s :
  sn_inv s ->
  (h <> HashCommunity name -> RegisterCommunity name h s = (Err errWrongHash, s)) /\
  (forall c cm, h = HashCommunity name -> communities s !! h = Some c -> cheap s !! c = Some cm ->
     RegisterCommunity name h s = ((if bool_decide (cm_name cm = name) then Ok c else Err errOtherName), s)) /\
  (forall c s', h = HashCommunity name -> communities s !! h = None -> RegisterCommunity name h s = (Ok c, s') ->
     communities s' = <[h := c]> (communities s) /\
     (exists cm, cheap s' !! c = Some cm /\ cm_name cm = name /\ cm_edges cm = ∅) /\
     RegisterCommunity name h s' = (Ok c, s')).
Proof.
  intros HI.
  assert (forall s c cm, communities s !! HashCommunity name = Some c -> cheap s !! c = Some cm ->
     RegisterCommunity name (HashCommunity name) s =
       ((if bool_decide (cm_name cm = name) then Ok c else Err errOtherName), s)) as Hknown.
  { clear. intros s c cm Hc Hcm. unfold RegisterCommunity. rewrite Z.eqb_refl. simpl. rewrite gets_bind. unfold id.
    rewrite Hc. rewrite (bind_ok _ _ s cm s) by (unfold get_cm; munfold; simpl; by rewrite Hcm).
    by destruct (bool_decide _). }
  split_and!.
  - intros Hh. unfold RegisterCommunity. by rewrite (proj2 (Z.eqb_neq _ _) Hh).
  - intros c cm -> Hc Hcm. by apply Hknown.
  - intros c s' -> Hc E. unfold RegisterCommunity in E. rewrite Z.eqb_refl in E. simpl in E.
    rewrite gets_bind in E. unfold id in E. rewrite Hc in E.
    destruct (register_locked_new _ _ _ _ _ E) as (-> & _ & Hcs & _ & _ & cm & Hch & Hn & He).
    assert (cheap s' !! cnext s = Some cm) as Hcm by (by rewrite Hch, lookup_insert_eq).
    split; [done|]. split; [by exists cm|].
    rewrite (Hknown s' (cnext s) cm); [by rewrite bool_decide_eq_true_2|by rewrite Hcs, lookup_insert_eq|done].
Qed.

Import Sample.

Lemma register_community_spec_witness : exists s', RegisterCommunity (str "ab") (HashCommunity (str "ab")) start = (Ok 0%nat, s') /\
  RegisterCommunity (str "ab") (HashCommunity (str "ab")) s' = (Ok 0%nat, s').
Proof.
  exists (RegisterCommunity (str "ab") (HashCommunity (str "ab")) start).2.
  assert (RegisterCommunity (str "ab") (HashCommunity (str "ab")) start =
    (Ok 0%nat, (RegisterCommunity (str "ab") (HashCommunity (str "ab")) start).2)) as E by (vm_compute; reflexivity).
  split; [exact E|].
  apply (proj2 (proj2 (register_community_spec (str "ab") (HashCommunity (str "ab")) start start_inv)) _ _
    eq_refl); [vm_compute; reflexivity|exact E].
Defined.

(** The check of [RegisterCommunity] under the exclusive lock re-examines
    what was read under the shared one: when two registrations of a new
    community both miss it before either holds the lock, the second creates
    the community again and replaces the first, whose edges are lost. *)
Theorem register_community_race `{IPP : IPPool, RSA : RSALib, NET : Net, CDC : SNCodec}
    {MR : MapRange (list Z)} name s c1 s1 c2 s2 :
  sn_inv s -> communities s !! HashCommunity name = None ->
  register_locked name (HashCommunity name) (communities s !! HashCommunity name) s = (Ok c1, s1) ->
  register_locked name (HashCommunity name) (communities s !! HashCommunity name) s1 = (Ok c2, s2) ->
  c1 <> c2 /\ communities s2 !! HashCommunity name = Some c2 /\
  exists cm, cheap s2 !! c2 = Some cm /\ cm_edges cm = ∅.
Proof.
  intros HI -> H1 H2.
  destruct (register_locked_new _ _ _ _ _ H1) as (-> & Hn1 & Hc1 & _ & _ & cm1 & Hh1 & _).
  destruct (register_locked_new _ _ _ _ _ H2) as (-> & Hn2 & Hc2 & _ & _ & cm2 & Hh2 & Hm2 & He2).
  rewrite Hn1. split; [lia|]. rewrite Hc2, lookup_insert_eq, Hn1. split; [done|].
  exists cm2. by rewrite Hh2, Hn1, lookup_insert_eq.
Qed.

Definition race1 : Supernode := (register_locked (str "ab") (HashCommunity (str "ab")) None start).2.
Definition race2 : Supernode := (register_locked (str "ab") (HashCommunity (str "ab")) None race1).2.

Lemma register_community_race_witness :
  communities race1 !! HashCommunity (str "ab") = Some 0%nat /\
  communities race2 !! HashCommunity (str "ab") = Some 1%nat.
Proof.
  split; [vm_compute; reflexivity|].
  assert (communities start !! HashCommunity (str "ab") = None) as E0 by (vm_compute; reflexivity).
  assert (register_locked (str "ab") (HashCommunity (str "ab")) (communities start !! HashCommunity (str "ab")) start
    = (Ok 0%nat, race1)) as E1 by (vm_compute; reflexivity).
  assert (register_locked (str "ab") (HashCommunity (str "ab")) (communities start !! HashCommunity (str "ab")) race1
    = (Ok 1%nat, race2)) as E2 by (vm_compute; reflexivity).
  exact (proj1 (proj2 (register_community_race (str "ab") start 0%nat race1 1%nat race2 start_inv E0 E1 E2))).
Defined.

(** ** Heartbeats *)
Section Heartbeat.
Context `{IPP : IPPool, RSA : RSALib, NET : Net, CDC : SNCodec} {MR : MapRange (list Z)}.

Lemma ToMessage_type (T : Type) `{PacketTyped T, Proto T} r m :
  ToMessage T r = Ok m -> hPacketType (Header r) = PacketType T.
Proof. unfold ToMessage. by destruct (Z.eqb_spec (hPacketType (Header r)) (PacketType T)). Qed.

(** [RefreshEdge] on a registered edge. *)
Lemma RefreshEdge_eval s r mid c cm l e :
  cheap s !! c = Some cm -> cm_edges cm !! EdgeMACAddr r = Some l -> eheap s !! l = Some e ->
  exists changed, RefreshEdge c r mid s =
    if bool_decide (mid = MachineID e)
    then (Ok changed, set_eheap (alter (edge_refresh (ip_of (FromAddr r)) (default 0 (addrToPort (FromAddr r)))
            (clock s) (Sequence (Header r))) l (eheap s)) (enext s) s)
    else (Err errWrongMachineID, s).
Proof.
  intros Hc Hl He. eexists. unfold RefreshEdge, get_cm, get_edge. munfold. simpl. rewrite Hc. simpl.
  rewrite Hl. simpl. rewrite He. simpl. destruct (bool_decide (mid = MachineID e)); reflexivity.
Qed.

Lemma handleHeartbeat_core s r m c cm l e :
  sn_inv s -> ToMessage HeartbeatPulse r = Ok m ->
  registered_at s (EdgeMACAddr r) (CommunityHash r) c cm l e ->
  core (if bool_decide (DecryptSequence (hb_EncryptedMachineId m) (Priv (SecretsOf s)) = Ok (MachineID e))
        then set_eheap (alter (edge_refresh (ip_of (FromAddr r)) (default 0 (addrToPort (FromAddr r)))
               (clock s) (Sequence (Header r))) l (eheap s)) (enext s) s
        else s) (handleHeartbeatMessage r s).2 /\
  match (handleHeartbeatMessage r s).1 with Err x => unknown_err x = false | _ => True end.
Proof.
  intros HI Hm Hr. pose proof Hr as [_ Hc Hl He Hok]. unfold handleHeartbeatMessage.
  rewrite (bind_ok _ _ s m s) by (unfold mlift; by rewrite Hm).
  unfold GetCommunity. rewrite (bind_ok _ _ _ _ _ (GetCommunityForEdge_ok s s _ _ c cm l e HI Hr eq_refl eq_refl)).
  rewrite (bind_ok _ _ s tt (set_stats (add_heartbeats 1) s)) by done. set (s1 := set_stats _ s).
  assert (sn_inv s1) as HI1 by exact HI.
  assert (DecryptMachineID (hb_EncryptedMachineId m) s1 =
    (DecryptSequence (hb_EncryptedMachineId m) (Priv (SecretsOf s)), s1)) as Edec by done.
  destruct (DecryptSequence (hb_EncryptedMachineId m) (Priv (SecretsOf s))) as [mid|x|] eqn:Ed.
  2:{ rewrite (bind_err _ _ _ _ _ Edec), bool_decide_eq_false_2 by done. split; [done|].
      unfold DecryptSequence in Ed. destruct (DecryptOAEP _ _); [done|]. by injection Ed as <-. }
  2:{ unfold DecryptSequence in Ed. by destruct (DecryptOAEP _ _). }
  rewrite (bind_ok _ _ _ _ _ Edec).
  destruct (RefreshEdge_eval s1 r mid c cm l e Hc Hl He) as [changed Er].
  destruct (decide (mid = MachineID e)) as [->|Hne].
  2:{ rewrite bool_decide_eq_false_2 in Er by done. rewrite (bind_err _ _ _ _ _ Er).
      rewrite bool_decide_eq_false_2 by congruence. done. }
  rewrite bool_decide_eq_true_2 in Er by done. rewrite (bind_ok _ _ _ _ _ Er).
  rewrite bool_decide_eq_true_2 by done.
  match type of Er with _ = (_, ?t) => set (s3 := t) in * end.
  assert (sn_inv s3) as HI3.
  { apply (J_upd_edge false None s1 l); [done|]. by split. }
  rewrite (bind_ok _ _ _ _ _ (GetEdge_eval s3 c cm (EdgeMACAddr r) HI3 Hc)).
  destruct (cm_edges cm !! EdgeMACAddr r ≫= _) as [e3|]; [|done]. destruct changed; [|done].
  assert (emits s3 (fun _ => True) (mignore (BroadcastStruct (newPeerInfoEvent TypeRegister e3) c None (EdgeMACAddr r)))) as Hem.
  { apply emits_ignore. eapply emits_weaken; [|by eapply BroadcastStruct_emits]. done. }
  destruct (Hem s3 (reflexivity _)) as (evs & Hcore & _). split; [exact Hcore|].
  unfold mignore. munfold. by destruct (BroadcastStruct _ _ _ _ s3) as [[]].
Qed.
End Heartbeat.

(** C14. A heartbeat refreshes the sender's address, sequence number and time
    stamp exactly when the machine id it carries decrypts to the one the edge
    registered with; otherwise it changes nothing, and in no case does it
    touch another edge, the communities or the indices. *)
Theorem heartbeat_refreshes `{IPP : IPPool, RSA : RSALib, NET : Net, CDC : SNCodec}
    {MR : MapRange (list Z)} packet addr r m s c cm l e :
  sn_inv s -> NewRawMessage packet addr = Ok r -> ToMessage HeartbeatPulse r = Ok m ->
  registered_at s (EdgeMACAddr r) (CommunityHash r) c cm l e ->
  core (if bool_decide (DecryptSequence (hb_EncryptedMachineId m) (Priv (SecretsOf s)) = Ok (MachineID e))
        then set_eheap (alter (edge_refresh (ip_of addr) (default 0 (addrToPort addr))
               (clock s) (Sequence (Header r))) l (eheap s)) (enext s) s
        else s) (ProcessPacket packet addr s).2.
Proof.
  intros HI Hr Hm Hreg. destruct (NewRawMessage_raw _ _ _ Hr) as (_ & <- & _).
  rewrite (ProcessPacket_raw packet _ r s handleHeartbeatMessage Hr)
    by (rewrite (ToMessage_type _ _ _ Hm); apply handler_heartbeat).
  cbv zeta. set (s1 := set_stats (add_processed 1) s).
  destruct (handleHeartbeat_core s1 r m c cm l e HI Hm) as [Hcore Herr].
  { destruct Hreg as [H1 H2 H3 H4 H5]. by split. }
  assert (core (if bool_decide (DecryptSequence (hb_EncryptedMachineId m) (Priv (SecretsOf s)) = Ok (MachineID e))
        then set_eheap (alter (edge_refresh (ip_of (FromAddr r)) (default 0 (addrToPort (FromAddr r)))
               (clock s) (Sequence (Header r))) l (eheap s)) (enext s) s
        else s) (handleHeartbeatMessage r s1).2) as Hgoal.
  { etransitivity; [|exact Hcore]. simpl. by destruct (bool_decide _). }
  destruct (handleHeartbeatMessage r s1) as [[u|x|] s2]; simpl in *; try done. by rewrite Herr.
Qed.

Definition sample_hb : list Z := heartbeat (str "ab") [1; 2].

Lemma heartbeat_refreshes_witness :
  (PublicIP <$> eheap (ProcessPacket sample_hb (addr 9) one).2 !! 0%nat) = Some [192; 0; 2; 9].
Proof.
  set (r := raw_of sample_hb (addr 9)).
  assert (match lookup_edge one (str "ab") (mac (str "ab") [1; 2]) with
          | Some (c, cm, l, e) => bool_decide (l = 0%nat /\ MachineID e = [1; 2])
          | None => false end = true) as Hl by (vm_compute; reflexivity).
  destruct (lookup_edge one (str "ab") (mac (str "ab") [1; 2])) as [[[[c cm] l] e]|] eqn:El; [|discriminate].
  apply bool_decide_eq_true_1 in Hl as [-> Hmid]. apply (lookup_edge_at one _ _ _ _ _ _ one_inv) in El.
  assert (NewRawMessage sample_hb (addr 9) = Ok r) as Hr by (vm_compute; reflexivity).
  assert (ToMessage HeartbeatPulse r = Ok (mkHeartbeatPulse [] (str "ab") [7; 1; 2] [])) as Hm
    by (vm_compute; reflexivity).
  assert (EdgeMACAddr r = mac (str "ab") [1; 2] /\ CommunityHash r = HashCommunity (str "ab")) as (E1 & E2)
    by (vm_compute; by split).
  rewrite <-E1, <-E2 in El.
  pose proof (heartbeat_refreshes sample_hb (addr 9) r _ one c cm 0%nat e one_inv Hr Hm El) as H.
  rewrite Hmid in H. rewrite bool_decide_eq_true_2 in H by (vm_compute; reflexivity).
  rewrite <-(core_field eheap _ _ H) by done. cbn [eheap set_eheap]. rewrite lookup_alter_eq, (ra_heap _ _ _ _ _ _ _ El). reflexivity.
Defined.

(** ** Unregistration *)
Section Unregistration.
Context `{IPP : IPPool, RSA : RSALib, NET : Net, CDC : SNCodec} {MR : MapRange (list Z)}.

(** The claim of a packet checks out: the machine id decrypts and derives
    the MAC in the header. *)
Definition auth_ok (s : Supernode) (enc name mac : list Z) : bool :=
  match DecryptSequence enc (Priv (SecretsOf s)) with
  | Ok mid => bool_decide (HardwareAddr_String (ExtGenerateMac name mid) = mac)
  | _ => false
  end.

Lemma Validate_eval s mac enc name :
  ValidateEdgeClaimedMACAddr mac enc name s =
  match DecryptSequence enc (Priv (SecretsOf s)) with
  | Ok mid => if bool_decide (HardwareAddr_String (ExtGenerateMac name mid) = mac) then (Ok mid, s) else (Err errClaim, s)
  | Err x => (Err x, s)
  | Panic => (Panic, s)
  end.
Proof.
  unfold ValidateEdgeClaimedMACAddr, DecryptMachineID. munfold. simpl.
  destruct (DecryptSequence _ _); [|done|done]. by destruct (bool_decide _).
Qed.

Lemma Validate_refused s mac enc name : auth_ok s enc name mac = false ->
  exists x, ValidateEdgeClaimedMACAddr mac enc name s = (Err x, s) /\ unknown_err x = false.
Proof.
  unfold auth_ok. rewrite Validate_eval. unfold DecryptSequence.
  destruct (DecryptOAEP _ _); [|by eexists]. intros ->. by eexists.
Qed.

Lemma Validate_accepted s mac enc name : auth_ok s enc name mac = true ->
  exists mid, ValidateEdgeClaimedMACAddr mac enc name s = (Ok mid, s) /\
    HardwareAddr_String (ExtGenerateMac name mid) = mac.
Proof.
  unfold auth_ok. rewrite Validate_eval. destruct (DecryptSequence _ _) as [mid| |]; [|done|done].
  intros H. exists mid. rewrite H. by apply bool_decide_eq_true_1 in H.
Qed.

(** The state after an edge has left. *)
Definition left_state (s : Supernode) (c : nat) (cm : Community) (mac : list Z) (e : Edge) : Supernode :=
  set_indices (delete mac (edgesByMAC s)) (delete (Addr_String (Edge_UDPAddr e)) (edgesBySocket s))
    (unregistered c cm mac e s).

(** Sending leaves the registration counters alone. *)
Lemma forwardPacket_stats k packet e :
  preserves (fun t : Supernode => EdgesUnregistered (stats t) = k) (forwardPacket packet e).
Proof. unfold forwardPacket, net_send. preserve; apply preserves_modify; intros; done. Qed.

Lemma broadcast_loop_stats k packet sender ts n :
  preserves (fun t : Supernode => EdgesUnregistered (stats t) = k) (broadcast_loop packet sender ts n).
Proof.
  revert n. induction ts as [|t ts IH]; intros n; cbn [broadcast_loop]; preserve; try apply IH;
    try apply forwardPacket_stats.
  all: apply preserves_modify; intros; done.
Qed.

Lemma broadcast_stats k packet c sender :
  preserves (fun t : Supernode => EdgesUnregistered (stats t) = k) (broadcast packet c sender).
Proof.
  unfold broadcast, GetAllEdges, get_cm. preserve; [apply broadcast_loop_stats|].
  apply preserves_modify; intros; done.
Qed.

Lemma BroadcastStruct_stats {T} `{PacketTyped T, Proto T} k (x : T) c sender :
  preserves (fun t : Supernode => EdgesUnregistered (stats t) = k) (BroadcastStruct x c None sender).
Proof.
  unfold BroadcastStruct, SNStructHeader, SNHeader, get_cm. preserve. apply broadcast_stats.
Qed.

Lemma onEdgeUnregistered_core s c mac l e :
  sn_inv s -> is_Some (cheap s !! c) -> edgesByMAC s !! mac = Some l -> eheap s !! l = Some e ->
  core (set_indices (delete mac (edgesByMAC s)) (delete (Addr_String (Edge_UDPAddr e)) (edgesBySocket s)) s)
    (onEdgeUnregistered c mac s).2 /\ (onEdgeUnregistered c mac s).1 = Ok tt /\
  EdgesUnregistered (stats (onEdgeUnregistered c mac s).2) = u64 (EdgesUnregistered (stats s) + 1).
Proof.
  intros HI [cm Hc] Hl He. unfold onEdgeUnregistered. rewrite gets_bind. unfold id.
  rewrite Hl. rewrite (bind_ok _ _ s l s) by done.
  rewrite (bind_ok _ _ s e s) by (unfold get_edge; munfold; simpl; by rewrite He).
  erewrite bind_ok by reflexivity. erewrite bind_ok by reflexivity.
  match goal with |- context [mignore ?m ?t] => set (s1 := t); set (bm := m) end.
  assert (emits s1 (fun _ => True) (mignore bm)) as Hm.
  { apply emits_ignore. eapply emits_weaken; [|apply (BroadcastStruct_emits s1 _ c cm)]; done. }
  destruct (Hm s1 (reflexivity _)) as (evs & Hcore & _ & _ & Hp). split; [exact Hcore|]. split.
  - revert Hp. unfold mignore. munfold. by destruct (bm s1) as [[]].
  - refine (preserves_ignore (fun t => EdgesUnregistered (stats t) = u64 (EdgesUnregistered (stats s) + 1)) bm _ s1 _);
      [|done].
    apply BroadcastStruct_stats.
Qed.

Lemma handleUnregister_core s r m c cm l e :
  sn_inv s -> ToMessage UnregisterRequest r = Ok m ->
  registered_at s (EdgeMACAddr r) (CommunityHash r) c cm l e ->
  edgesByMAC s !! EdgeMACAddr r = Some l ->
  core (if auth_ok s (unreg_EncryptedMachineId m) (unreg_CommunityName m) (EdgeMACAddr r)
        then left_state s c cm (EdgeMACAddr r) e else s) (handleUnregisterMessage r s).2 /\
  match (handleUnregisterMessage r s).1 with Err x => unknown_err x = false | _ => True end.
Proof.
  intros HI Hm Hr Hi. unfold handleUnregisterMessage.
  rewrite (bind_ok _ _ s m s) by (unfold mlift; by rewrite Hm).
  destruct (auth_ok s _ _ _) eqn:Ea.
  2:{ destruct (Validate_refused _ _ _ _ Ea) as (x & Ex & Hx). by rewrite (bind_err _ _ _ _ _ Ex). }
  destruct (Validate_accepted _ _ _ _ Ea) as (mid & Em & _). rewrite (bind_ok _ _ _ _ _ Em).
  unfold UnregisterEdge, GetCommunity.
  rewrite (bind_ok _ _ _ _ _ (GetCommunityForEdge_ok s s _ _ c cm l e HI Hr eq_refl eq_refl)).
  pose proof Hr as [_ Hc Hl He _].
  pose proof (Unregister_eval s c cm (EdgeMACAddr r) HI Hc) as HU. rewrite Hl in HU.
  destruct HU as (e' & He' & _ & EU). assert (e' = e) as -> by congruence.
  rewrite (bind_ok _ _ _ _ _ EU). set (s1 := unregistered c cm (EdgeMACAddr r) e s) in *.
  assert (sn_inv s1) as HI1.
  { apply (unregistered_J false s c cm (EdgeMACAddr r) l e); [by split|done|done]. }
  destruct (onEdgeUnregistered_core s1 c (EdgeMACAddr r) l e HI1) as (Hcore & Hok & _); try done.
  { unfold s1. simpl. rewrite lookup_insert_eq. eauto. }
  rewrite Hok. split; [exact Hcore|done].
Qed.

(** An edge that is not registered has nothing to take away. *)
Lemma handleUnregister_unknown s r m : sn_inv s -> ToMessage UnregisterRequest r = Ok m ->
  (forall c cm, communities s !! CommunityHash r = Some c -> cheap s !! c = Some cm -> cm_edges cm !! EdgeMACAddr r = None) ->
  exists x, handleUnregisterMessage r s = (Err x, s).
Proof.
  intros HI Hm Hno. unfold handleUnregisterMessage. rewrite (bind_ok _ _ s m s) by (unfold mlift; by rewrite Hm).
  destruct (auth_ok s (unreg_EncryptedMachineId m) (unreg_CommunityName m) (EdgeMACAddr r)) eqn:Ea.
  2:{ destruct (Validate_refused _ _ _ _ Ea) as (x & Ex & _). rewrite (bind_err _ _ _ _ _ Ex). by exists x. }
  destruct (Validate_accepted _ _ _ _ Ea) as (mid & Em & _). rewrite (bind_ok _ _ _ _ _ Em). unfold UnregisterEdge, GetCommunity.
  destruct (GetCommunityForEdge_cases s (EdgeMACAddr r) (CommunityHash r) HI) as [(x & Ex & _)|(c & cm & l & e & _ & [H1 H2 H3 _ _])].
  - rewrite (bind_err _ _ _ _ _ Ex). by exists x.
  - specialize (Hno c cm H1 H2). congruence.
Qed.
End Unregistration.



(** ** Registration *)
Section Registration.
Context `{IPP : IPPool, RSA : RSALib, NET : Net, CDC : SNCodec} {MR : MapRange (list Z)}.

(** What a successful [EdgeUpdate] knows of its edge. *)
Lemma EdgeUpdate_edge c r m mid s l s1 : EdgeUpdate c r m mid s = (Ok l, s1) ->
  exists e, eheap s1 !! l = Some e /\ LastHeartbeat e = clock s /\ LastSequence e = Sequence (Header r) /\
    (forall ip port, FromAddr r = UDPAddr ip port -> PublicIP e = ip /\ PublicPort e = port).
Proof.
  unfold EdgeUpdate, get_cm, get_edge. munfold. simpl.
  destruct (cheap s !! c) as [cm|]; [|done]. simpl.
  destruct (cm_edges cm !! EdgeMACAddr r) as [l0|]; simpl.
  - destruct (eheap s !! l0) as [e|] eqn:He; [|done]. simpl. destruct (negb _); [done|].
    intros [= <- <-]. simpl. eexists. rewrite lookup_alter_eq, He. split; [reflexivity|]. simpl.
    split_and!; [done|done|]. by intros ip port ->.
  - destruct (RequestIP _ _ _ _) as [[nvip|x] w]; simpl; [|done].
    destruct (ParseAddr _) as [vip|]; [|done]. intros [= <- <-]. simpl. eexists.
    rewrite lookup_insert_eq. split; [reflexivity|]. simpl. split_and!; [done|done|]. by intros ip port ->.
Qed.

(** A successful [RegisterEdge]: who was let in, and where. *)
Lemma RegisterEdge_ok r m s l c s1 : sn_inv s -> RegisterEdge r m s = (Ok (l, c), s1) ->
  auth_ok s (rreq_EncryptedMachineId m) (rreq_CommunityName m) (EdgeMACAddr r) = true /\
  CommunityHash r = HashCommunity (rreq_CommunityName m) /\
  exists cm e, cheap s1 !! c = Some cm /\ cm_name cm = rreq_CommunityName m /\
    cm_edges cm !! EdgeMACAddr r = Some l /\ eheap s1 !! l = Some e /\
    LastHeartbeat e = clock s /\ LastSequence e = Sequence (Header r) /\
    (forall ip port, FromAddr r = UDPAddr ip port -> PublicIP e = ip /\ PublicPort e = port).
Proof.
  intros HI E.
  pose proof (RegisterEdge_keeps false r m s ltac:(by split)) as HR. rewrite E in HR.
  destruct HR as [_ (s0 & cm0 & Hc0 & Hn0 & _ & [_ (cm & Hc & Hn & Hl) _])].
  unfold RegisterEdge in E. destruct (auth_ok s _ _ _) eqn:Ea.
  2:{ destruct (Validate_refused _ _ _ _ Ea) as (x & Ex & _). by rewrite (bind_err _ _ _ _ _ Ex) in E. }
  destruct (Validate_accepted _ _ _ _ Ea) as (mid & Em & _). rewrite (bind_ok _ _ _ _ _ Em) in E.
  split; [done|].
  unfold mbind at 1, M_bind at 1 in E.
  destruct (RegisterCommunity (rreq_CommunityName m) (CommunityHash r) s) as [[c'|x|] s'] eqn:ER; [|done|done].
  assert (CommunityHash r = HashCommunity (rreq_CommunityName m) /\ clock s' = clock s) as [Hh Hclk].
  { clear E. unfold RegisterCommunity in ER. destruct (Z.eqb_spec (CommunityHash r) (HashCommunity (rreq_CommunityName m)));
      [|done]. split; [done|]. simpl in ER. rewrite gets_bind in ER. unfold id in ER.
    destruct (communities s !! _) as [c2|].
    - unfold get_cm in ER. munfold. simpl in ER. destruct (cheap s !! c2); [|done]. simpl in ER.
      by destruct (bool_decide _); injection ER as _ <-.
    - unfold register_locked in ER. rewrite gets_bind in ER. unfold id in ER.
      destruct (ProposeVirtualNetwork _ _); [|done|done].
      unfold NewCommunityWithConfig, NewCommunity, new_cm in ER. munfold. simpl in ER.
      destruct (GetRegisteredPool _ _); [by injection ER as _ <-|].
      destruct (NewIPPool _ _ _) as [[ips|y] w]; simpl in ER; [by injection ER as _ <-|done]. }
  split; [done|].
  unfold mbind, M_bind in E. destruct (EdgeUpdate c' r m mid s') as [[l'|x|] s''] eqn:EE; [|done|done].
  simpl in E. injection E as <- <- <-.
  destruct (EdgeUpdate_edge _ _ _ _ _ _ _ EE) as (e & He & H1 & H2 & H3).
  exists cm, e. split_and!; try done; congruence.
Qed.

(** What follows the handler only sends. *)
Lemma ProcessPacket_core packet addr r s (h : RawMessage -> M Supernode unit) :
  NewRawMessage packet addr = Ok r -> SnMessageHandlers !! hPacketType (Header r) = Some h ->
  core (h r (set_stats (add_processed 1) s)).2 (ProcessPacket packet addr s).2.
Proof.
  intros Hr Hh. rewrite (ProcessPacket_raw _ _ _ _ _ Hr Hh). cbv zeta.
  destruct (h r _) as [[u|x|] s2]; [done| |done]. destruct (unknown_err x); [|done].
  destruct addr as [ip port| | |]; try done.
  by destruct (emits_ignore s2 _ _ (WritePacket_emits s2 TypeRetryRegisterRequest [] [] (UDPAddr ip port)) s2
    (reflexivity _)) as (evs & Hc & _).
Qed.

Definition with_conn (addr : netAddr) (e : Edge) : Edge :=
  match addr with WSSAddr connID => edge_set_conn connID e | _ => e end.

(** The state after the indices are written. *)
Definition indexed_state (s : Supernode) (addr : netAddr) (l : nat) (e : Edge) : Supernode :=
  let e' := with_conn addr e in
  set_indices (<[MACAddr e := l]> (edgesByMAC s))
    (let k := <[Addr_String (Edge_UDPAddr e) := l]> (edgesBySocket s) in
     if bool_decide (WSSConnID e' = []) then k else <[WSSConnID e' := l]> k)
    (set_eheap (<[l := e']> (eheap s)) (enext s) s).

Lemma handleRegister_ok r m s l c s1 e :
  ToMessage RegisterRequest r = Ok m -> RegisterEdge r m s = (Ok (l, c), s1) ->
  eheap s1 !! l = Some e -> is_Some (cheap s1 !! c) ->
  core (indexed_state s1 (FromAddr r) l e) (handleRegisterMessage r s).2.
Proof.
  intros Hm ER He [cm Hc]. unfold handleRegisterMessage.
  rewrite (bind_ok _ _ s m s) by (unfold mlift; by rewrite Hm).
  rewrite (bind_ok _ _ s (inl (l, c)) s1) by (unfold mtry; by rewrite ER).
  set (e' := with_conn (FromAddr r) e). set (s2 := set_eheap (<[l := e']> (eheap s1)) (enext s1) s1).
  assert ((match FromAddr r with
       | WSSAddr connID => upd_edge l (edge_set_conn connID)
       | _ => mret tt end) s1 = (Ok tt, s2)) as E2.
  { unfold s2, e', with_conn. destruct (FromAddr r) as [| |connID|];
      try (rewrite (insert_id (eheap s1)) by done; by destruct s1).
    unfold upd_edge, modify. do 3 f_equal. apply map_eq. intros l'.
    destruct (decide (l = l')) as [<-|]; [by rewrite lookup_alter_eq, lookup_insert_eq, He|].
    by rewrite lookup_alter_ne, lookup_insert_ne. }
  rewrite (bind_ok _ _ _ _ _ E2).
  assert (get_edge l s2 = (Ok e', s2)) as Eg
    by (unfold get_edge, s2; munfold; simpl; by rewrite lookup_insert_eq).
  rewrite (bind_ok _ _ _ _ _ Eg). erewrite bind_ok by reflexivity.
  assert (MACAddr e' = MACAddr e /\ Edge_UDPAddr e' = Edge_UDPAddr e) as [Em Eu]
    by (unfold e', with_conn; by destruct (FromAddr r)).
  rewrite Em, Eu.
  change (set_indices _ _ s2) with (indexed_state s1 (FromAddr r) l e). set (s3 := indexed_state _ _ _ _).
  match goal with |- core s3 (?tail s3).2 => assert (emits s3 (fun _ => True) tail) as Hem end.
  { apply emits_bind.
    - apply emits_ignore. eapply emits_weaken; [|apply SendStruct_emits]. done.
    - intros _. eapply emits_weaken; [|by apply (BroadcastStruct_emits s3 _ c cm)]. done. }
  by destruct (Hem s3 (reflexivity _)) as (evs & Hcore & _).
Qed.

(** A refused claim: only the refusal is sent. *)
Lemma handleRegister_refused r m s :
  ToMessage RegisterRequest r = Ok m ->
  auth_ok s (rreq_EncryptedMachineId m) (rreq_CommunityName m) (EdgeMACAddr r) = false ->
  core s (handleRegisterMessage r s).2.
Proof.
  intros Hm Ha. unfold handleRegisterMessage.
  rewrite (bind_ok _ _ s m s) by (unfold mlift; by rewrite Hm).
  destruct (Validate_refused _ _ _ _ Ha) as (x & Ex & _).
  assert (RegisterEdge r m s = (Err x, s)) as ER by (unfold RegisterEdge; by rewrite (bind_err _ _ _ _ _ Ex)).
  rewrite (bind_ok _ _ s (inr x) s) by (unfold mtry; by rewrite ER).
  match goal with |- core s (?tail s).2 => assert (emits s (fun _ => True) tail) as Hem end.
  { apply emits_bind.
    - apply emits_ignore. eapply emits_weaken; [|apply SendStruct_emits]. done.
    - intros _. apply emits_bind; [apply emits_stat|]. intros _. apply emits_err. }
  by destruct (Hem s (reflexivity _)) as (evs & Hcore & _).
Qed.
End Registration.

(** The whole handling of a registration request. *)
Lemma registration_run `{IPP : IPPool, RSA : RSALib, NET : Net, CDC : SNCodec}
    {MR : MapRange (list Z)} packet addr r m s :
  sn_inv s -> NewRawMessage packet addr = Ok r -> ToMessage RegisterRequest r = Ok m ->
  (auth_ok s (rreq_EncryptedMachineId m) (rreq_CommunityName m) (EdgeMACAddr r) = false ->
     core s (ProcessPacket packet addr s).2) /\
  (forall l c s1, RegisterEdge r m (set_stats (add_processed 1) s) = (Ok (l, c), s1) ->
     auth_ok s (rreq_EncryptedMachineId m) (rreq_CommunityName m) (EdgeMACAddr r) = true /\
     CommunityHash r = HashCommunity (rreq_CommunityName m) /\
     let s' := (ProcessPacket packet addr s).2 in
     exists cm e, registered_at s' (EdgeMACAddr r) (CommunityHash r) c cm l e /\
       cm_name cm = rreq_CommunityName m /\
       edgesByMAC s' !! EdgeMACAddr r = Some l /\ edgesBySocket s' !! Addr_String (Edge_UDPAddr e) = Some l /\
       LastHeartbeat e = clock s /\
       (forall ip port, addr = UDPAddr ip port -> Edge_UDPAddr e = addr)).
Proof.
  intros HI Hr Hm. destruct (NewRawMessage_raw _ _ _ Hr) as (_ & Hfrom & _).
  assert (SnMessageHandlers !! hPacketType (Header r) = Some handleRegisterMessage) as Hh
    by (rewrite (ToMessage_type _ _ _ Hm); apply handler_register).
  pose proof (ProcessPacket_core packet addr r s _ Hr Hh) as Hcore.
  set (s0 := set_stats (add_processed 1) s) in *. split.
  - intros Ha. etransitivity; [|exact Hcore]. change (core s0 (handleRegisterMessage r s0).2).
    by apply (handleRegister_refused r m s0).
  - intros l c s1 ER.
    destruct (RegisterEdge_ok r m s0 l c s1 HI ER) as (Ha & Hhash & cm & e & Hc & Hn & Hl & He & Hhb & _ & Hudp).
    split; [exact Ha|]. split; [done|]. cbv zeta. set (s' := (ProcessPacket packet addr s).2) in *.
    assert (core (indexed_state s1 (FromAddr r) l e) s') as Hc'.
    { etransitivity; [|exact Hcore]. eapply handleRegister_ok; eauto. }
    assert (sn_inv s') as HI' by (apply (ProcessPacket_keeps false packet addr s); [by split|done]).
    assert (cheap s' !! c = Some cm) as Hcm by (by rewrite <-(core_field cheap _ _ Hc') by done).
    set (e' := with_conn (FromAddr r) e).
    assert (eheap s' !! l = Some e') as He'.
    { rewrite <-(core_field eheap _ _ Hc') by done. simpl. apply lookup_insert_eq. }
    destruct (inv_edge HI' _ _ _ _ Hcm Hl) as (e2 & He2 & Hok). assert (e2 = e') as -> by congruence.
    assert (MACAddr e' = MACAddr e /\ Edge_UDPAddr e' = Edge_UDPAddr e /\ LastHeartbeat e' = LastHeartbeat e)
      as (Em & Eu & Eh) by (unfold e', with_conn; by destruct (FromAddr r)).
    assert (MACAddr e = EdgeMACAddr r) as Emac by (rewrite <-Em; apply Hok).
    exists cm, e'. split_and!; try done; try congruence.
    + split; try done. rewrite Hhash, <-Hn. by apply (inv_filed HI').
    + rewrite <-(core_field edgesByMAC _ _ Hc') by done. simpl. by rewrite Emac, lookup_insert_eq.
    + rewrite <-(core_field edgesBySocket _ _ Hc'), Eu by done. simpl.
      destruct (bool_decide _); [by rewrite lookup_insert_eq|].
      destruct (decide (WSSConnID (with_conn (FromAddr r) e) = Addr_String (Edge_UDPAddr e))) as [->|Hne];
        [by rewrite lookup_insert_eq|by rewrite lookup_insert_ne, lookup_insert_eq].
    + rewrite Eh. exact Hhb.
    + intros ip port ->. rewrite Eu. destruct (Hudp ip port Hfrom) as [H1 H2]. unfold Edge_UDPAddr. by rewrite H1, H2.
Qed.


