(* ===== verification/SNCleanup.v ===== *)
(** * The cleanup of stale edges: [cleanup.go]

    [CleanupStaleEdges] removes exactly the edges whose last heartbeat is
    older than the expiry, and counts each of them twice. *)
From S2P Require Import Prelude GoBytes GoNet Netstruct Protocol Machine Crypto SNState Community Supernode.
From S2P Require Import SNWire SNInvariant SNSafety SNSample SNLife.
From stdpp Require Import gmap list strings fin_maps relations.
From Stdlib Require Import ZArith Lia.
Open Scope Z_scope.

Section Cleanup.
Context `{IPP : IPPool, RSA : RSALib, NET : Net, CDC : SNCodec} {MR : MapRange (list Z)}
  {MRZ : MapRange Z} {MRN : MapRange nat}.

(** The edge filed under a MAC in a community. *)
Definition edge_at (s : Supernode) (c : nat) (mac : list Z) : option nat :=
  match cheap s !! c with Some cm => cm_edges cm !! mac | None => None end.

Definition remove_one (c : nat) (id : list Z) : M Supernode unit :=
  ok ← Unregister c id;
  if (ok : bool) then stat (add_unregistered 1);; onEdgeUnregistered c id else mret tt.

(** Removing a registered edge. *)
Lemma remove_one_spec c id l s : J true None s -> edge_at s c id = Some l ->
  exists s', remove_one c id s = (Ok tt, s') /\ J true None s' /\
    eheap s' = eheap s /\ clock s' = clock s /\
    (forall c' m, edge_at s' c' m = if bool_decide (c' = c /\ m = id) then None else edge_at s c' m) /\
    u64 (EdgesUnregistered (stats s')) = u64 (EdgesUnregistered (stats s) + 2).
Proof.
  intros HJ Hl. unfold edge_at in Hl. destruct (cheap s !! c) as [cm|] eqn:Hc; [|done].
  pose proof (Unregister_eval s c cm id (proj1 HJ) Hc) as HU. rewrite Hl in HU.
  destruct HU as (e & He & _ & EU).
  destruct (unregistered_J true s c cm id l e HJ Hc Hl) as [HJ1 Hst]. destruct (Hst eq_refl) as [Hby _].
  set (s1 := set_stats (add_unregistered 1) (unregistered c cm id e s)).
  assert (is_Some (cheap s1 !! c)) as Hsome by (simpl; rewrite lookup_insert_eq; eauto).
  destruct (onEdgeUnregistered_core s1 c id l e (proj1 HJ1) Hsome Hby He) as (Hcore & Hok & Hcnt).
  destruct (unregister_keeps true c id s _ HJ ltac:(eauto)
    (or_intror (ex_intro _ (add_unregistered 1) eq_refl))) as [[HJ2 _] _].
  assert (remove_one c id s = onEdgeUnregistered c id s1) as Erem
    by (unfold remove_one; by rewrite (bind_ok _ _ _ _ _ EU)).
  exists (remove_one c id s).2. split_and!.
  - rewrite Erem. rewrite <-Hok. apply surjective_pairing.
  - exact HJ2.
  - rewrite Erem. by rewrite <-(core_field eheap _ _ Hcore) by done.
  - rewrite Erem. by rewrite <-(core_field clock _ _ Hcore) by done.
  - intros c' m. unfold edge_at. rewrite Erem, <-(core_field cheap _ _ Hcore) by done. simpl.
    destruct (decide (c' = c)) as [->|Hne].
    + rewrite lookup_insert_eq, Hc. simpl. destruct (decide (m = id)) as [->|Hm].
      * by rewrite lookup_delete_eq, bool_decide_eq_true_2.
      * rewrite lookup_delete_ne by done. by rewrite bool_decide_eq_false_2 by naive_solver.
    + rewrite lookup_insert_ne by done. by rewrite bool_decide_eq_false_2 by naive_solver.
  - rewrite Erem, Hcnt. simpl. unfold u64. rewrite Zmod_mod, Zplus_mod_idemp_l. f_equal. lia.
Qed.

Lemma remove_list_spec D : forall s, J true None s -> NoDup D ->
  (forall c id, (c, id) ∈ D -> is_Some (edge_at s c id)) ->
  exists s', mfor D (fun p => remove_one p.1 p.2) s = (Ok tt, s') /\ J true None s' /\
    eheap s' = eheap s /\ clock s' = clock s /\
    (forall c m, edge_at s' c m = if bool_decide ((c, m) ∈ D) then None else edge_at s c m) /\
    u64 (EdgesUnregistered (stats s')) = u64 (EdgesUnregistered (stats s) + 2 * Z.of_nat (length D)).
Proof.
  induction D as [|[c id] D IH]; intros s HJ Hnd Hall.
  { exists s. split_and!; try done. by rewrite Z.add_0_r. }
  apply NoDup_cons in Hnd as [Hni Hnd].
  destruct (Hall c id ltac:(left)) as [l Hl].
  destruct (remove_one_spec c id l s HJ Hl) as (s1 & E1 & HJ1 & Hh1 & Hk1 & Hv1 & Hn1).
  destruct (IH s1 HJ1 Hnd) as (s2 & E2 & HJ2 & Hh2 & Hk2 & Hv2 & Hn2).
  { intros c' id' Hin. rewrite Hv1. rewrite bool_decide_eq_false_2; [apply Hall; by right|].
    intros [-> ->]. done. }
  exists s2. cbn [mfor]. rewrite (bind_ok _ _ _ _ _ E1). split_and!; try done; [congruence|congruence| |].
  - intros c' m. rewrite Hv2, Hv1.
    destruct (decide ((c', m) = (c, id))) as [[= -> ->]|Hne].
    + rewrite (bool_decide_eq_true_2 (c = c /\ id = id)) by done.
      rewrite (bool_decide_eq_true_2 ((c, id) ∈ (c, id) :: D)) by left. by destruct (bool_decide _).
    + rewrite (bool_decide_eq_false_2 (c' = c /\ m = id)) by naive_solver.
      apply if_decide_ext. rewrite elem_of_cons. naive_solver.
  - rewrite Hn2. cbn [length]. unfold u64 in *. rewrite <-Zplus_mod_idemp_l, Hn1, Zplus_mod_idemp_l.
    f_equal. lia.
Qed.

(** The nested loops visit the pairs in order. *)
Lemma mfor_app {S A} (b : A -> M S unit) l1 l2 s :
  mfor (l1 ++ l2) b s = (mfor l1 b;; mfor l2 b) s.
Proof.
  revert s. induction l1 as [|x l1 IH]; intros s; [done|]. cbn [mfor app]. unfold mbind, M_bind in *.
  destruct (b x s) as [[]]; [apply IH|done|done].
Qed.

Definition pairs (stales : list (nat * list (list Z))) : list (nat * list Z) :=
  stales ≫= fun kvv => (fun id => (kvv.1, id)) <$> kvv.2.

Lemma mfor_pairs stales s :
  mfor stales (fun kvv => mfor kvv.2 (fun id => remove_one kvv.1 id)) s =
  mfor (pairs stales) (fun p => remove_one p.1 p.2) s.
Proof.
  revert s. induction stales as [|[c ids] stales IH]; intros s; [done|].
  unfold pairs. cbn [mbind list_bind]. fold (pairs stales). rewrite mfor_app. cbn [mfor fst snd].
  assert (forall s, mfor ids (fun id => remove_one c id) s
    = mfor ((fun id => (c, id)) <$> ids) (fun p => remove_one p.1 p.2) s) as Hin.
  { clear. induction ids as [|i ids IH]; intros s; [done|]. rewrite fmap_cons. cbn [mfor fst snd].
    unfold mbind, M_bind. destruct (remove_one c i s) as [[]]; [apply IH|done|done]. }
  unfold mbind, M_bind. rewrite Hin. by destruct (mfor ((fun id => (c, id)) <$> ids) _ s) as [[]].
Qed.

Definition stale_ids (s : Supernode) (expiry : Z) (c : nat) : list (list Z) :=
  match cheap s !! c with
  | Some cm => MACAddr <$> List.filter (stale (clock s) expiry) (edges_of s cm)
  | None => []
  end.

Lemma collect_stales_exact s expiry cms : Forall (fun c => is_Some (cheap s !! c)) cms ->
  collect_stales expiry cms s = (Ok ((fun c => (c, stale_ids s expiry c)) <$> cms), s).
Proof.
  induction cms as [|c cms IH]; intros Hf; [done|].
  apply Forall_cons in Hf as [[cm Hc] Hf]. cbn [collect_stales].
  rewrite (bind_ok _ _ s (stale_ids s expiry c) s)
    by (unfold GetStaleEdgeIDs, get_cm, stale_ids; munfold; simpl; by rewrite Hc).
  by rewrite (bind_ok _ _ _ _ _ (IH Hf)).
Qed.

(** The registered edge of a MAC has gone quiet. *)
Definition is_stale (s : Supernode) (expiry : Z) (c : nat) (mac : list Z) : Prop :=
  exists l e, edge_at s c mac = Some l /\ eheap s !! l = Some e /\ stale (clock s) expiry e = true.

Lemma elem_of_stale_ids s expiry c mac : sn_inv s ->
  mac ∈ stale_ids s expiry c <-> is_stale s expiry c mac.
Proof.
  intros HI. unfold stale_ids, is_stale, edge_at. destruct (cheap s !! c) as [cm|] eqn:Hc.
  2:{ split; [by intros ?%elem_of_nil|naive_solver]. }
  rewrite list_elem_of_fmap. split.
  - intros (e & -> & Hin). apply list_elem_of_In, filter_In in Hin as [Hin Hs].
    apply list_elem_of_In, elem_of_edges_of in Hin as (m & l & Hl & He).
    destruct (inv_edge HI _ _ _ _ Hc Hl) as (e' & He' & Hk & _). assert (e' = e) as -> by congruence.
    subst m. eauto.
  - intros (l & e & Hl & He & Hs). exists e.
    destruct (inv_edge HI _ _ _ _ Hc Hl) as (e' & He' & Hk & _). assert (e' = e) as -> by congruence.
    split; [done|]. apply list_elem_of_In, filter_In. split; [|done].
    apply list_elem_of_In, elem_of_edges_of. eauto.
Qed.

Lemma NoDup_stale_ids s expiry c : sn_inv s -> NoDup (stale_ids s expiry c).
Proof.
  intros HI. unfold stale_ids. destruct (cheap s !! c) as [cm|] eqn:Hc; [|constructor].
  assert (NoDup (MACAddr <$> edges_of s cm)) as Hnd
    by (rewrite (edges_of_macs s c cm HI Hc); apply NoDup_map_range).
  revert Hnd. generalize (edges_of s cm). intros l. induction l as [|e l IH]; [done|].
  rewrite fmap_cons. intros [Hn Hnd]%NoDup_cons. simpl. destruct (stale _ _ e); [|by apply IH].
  rewrite fmap_cons. apply NoDup_cons. split; [|by apply IH]. intros Hin. apply Hn.
  apply list_elem_of_fmap in Hin as (e' & E & Hin). apply list_elem_of_In, filter_In in Hin as [Hin _].
  rewrite E. by apply list_elem_of_fmap_2, list_elem_of_In.
Qed.

Lemma elem_of_pairs stales c id : (c, id) ∈ pairs stales <-> exists ids, (c, ids) ∈ stales /\ id ∈ ids.
Proof.
  unfold pairs. rewrite list_elem_of_bind. split.
  - intros ([c' ids] & Hin & Hst). apply list_elem_of_fmap in Hin as (i & [= -> ->] & Hi). eauto.
  - intros (ids & Hst & Hi). exists (c, ids). split; [|done]. apply list_elem_of_fmap. eauto.
Qed.

Lemma NoDup_pairs stales : NoDup stales.*1 -> (forall c ids, (c, ids) ∈ stales -> NoDup ids) -> NoDup (pairs stales).
Proof.
  induction stales as [|[c ids] stales IH]; intros Hk Hi; [constructor|].
  rewrite fmap_cons in Hk. apply NoDup_cons in Hk as [Hn Hk].
  unfold pairs. cbn [mbind list_bind]. fold (pairs stales). apply NoDup_app. split_and!.
  - apply NoDup_fmap_2; [by intros i j [= ->]|]. apply (Hi c). left.
  - intros [c' i] Hin Hin'. apply list_elem_of_fmap in Hin as (j & [= -> ->] & _).
    apply elem_of_pairs in Hin' as (ids' & Hst & _). apply Hn. apply list_elem_of_fmap. by exists (c, ids').
  - apply IH; [done|]. intros c' ids' Hst. apply (Hi c'). by right.
Qed.

Lemma NoDup_communities s : sn_inv s -> NoDup (map_range (communities s)).*2.
Proof.
  intros HI. apply NoDup_fmap_2_strong.
  - intros [h1 c1] [h2 c2] H1%elem_of_map_range H2%elem_of_map_range E. simpl in *. subst c2.
    destruct (inv_comm HI _ _ H1) as (cm1 & Hc1 & <-). destruct (inv_comm HI _ _ H2) as (cm2 & Hc2 & <-).
    by assert (cm1 = cm2) as -> by congruence.
  - apply (NoDup_fmap_1 fst), NoDup_map_range.
Qed.

(** The pairs the cleanup removes. *)
Definition stale_pairs (s : Supernode) (expiry : Z) : list (nat * list Z) :=
  pairs (map_range (list_to_map ((fun c => (c, stale_ids s expiry c)) <$> (map_range (communities s)).*2)
    : gmap nat (list (list Z)))).

Lemma stales_map s expiry c ids : sn_inv s ->
  (list_to_map ((fun c => (c, stale_ids s expiry c)) <$> (map_range (communities s)).*2)
    : gmap nat (list (list Z))) !! c = Some ids <->
  is_Some (cheap s !! c) /\ ids = stale_ids s expiry c.
Proof.
  intros HI. rewrite <-elem_of_list_to_map.
  2:{ rewrite <-list_fmap_compose. rewrite (list_fmap_ext _ id) by done. rewrite list_fmap_id.
      by apply NoDup_communities. }
  rewrite list_elem_of_fmap. split.
  - intros (c' & [= -> ->] & Hin). split; [|done]. apply list_elem_of_fmap in Hin as ([h c2] & E2 & Hin).
    simpl in E2. subst c2. apply elem_of_map_range in Hin. destruct (inv_comm HI _ _ Hin) as (cm & Hc & _). eauto.
  - intros [[cm Hc] ->]. exists c. split; [done|]. apply list_elem_of_fmap.
    exists (HashCommunity (cm_name cm), c). split; [done|]. apply elem_of_map_range. by apply (inv_filed HI).
Qed.

Lemma elem_of_stale_pairs s expiry c mac : sn_inv s -> (c, mac) ∈ stale_pairs s expiry <-> is_stale s expiry c mac.
Proof.
  intros HI. unfold stale_pairs. rewrite elem_of_pairs. split.
  - intros (ids & Hin & Hm). apply elem_of_map_range, stales_map in Hin as [_ ->]; [|done].
    by apply elem_of_stale_ids.
  - intros Hs. exists (stale_ids s expiry c). split; [|by apply elem_of_stale_ids].
    apply elem_of_map_range, stales_map; [done|]. split; [|done].
    destruct Hs as (l & e & Hl & _). unfold edge_at in Hl. destruct (cheap s !! c); [eauto|done].
Qed.

Lemma NoDup_stale_pairs s expiry : sn_inv s -> NoDup (stale_pairs s expiry).
Proof.
  intros HI. apply NoDup_pairs; [apply NoDup_map_range|].
  intros c ids Hin%elem_of_map_range. apply stales_map in Hin as [_ ->]; [|done]. by apply NoDup_stale_ids.
Qed.

Lemma length_pairs stales : length (pairs stales) = length (concat stales.*2).
Proof.
  induction stales as [|[c ids] stales IH]; [done|]. unfold pairs in *. simpl.
  rewrite !length_app, length_fmap. f_equal. exact IH.
Qed.

Lemma length_pairs_perm l1 l2 : l1 ≡ₚ l2 -> length (pairs l1) = length (pairs l2).
Proof. intros Hp. apply Permutation_length. unfold pairs. by rewrite Hp. Qed.

Lemma NoDup_stale_keys s expiry : sn_inv s ->
  NoDup ((fun c => (c, stale_ids s expiry c)) <$> (map_range (communities s)).*2).*1.
Proof.
  intros HI. rewrite <-list_fmap_compose. rewrite (list_fmap_ext _ id) by done. rewrite list_fmap_id.
  by apply NoDup_communities.
Qed.

Lemma clock_inv s t : (sn_inv s -> sn_inv (set_clock t s)) /\ (indexed None s -> indexed None (set_clock t s)).
Proof. by split. Qed.
End Cleanup.

(** C12. A cleanup of a consistent supernode removes exactly the stale edges:
    an edge stays filed iff its last heartbeat is not older than the expiry,
    no edge changes otherwise; the statistics record the time and the number
    of removed edges, while the counter of unregistered edges grows by twice
    that number. *)
Theorem cleanup_exact `{IPP : IPPool, RSA : RSALib, NET : Net, CDC : SNCodec} {MR : MapRange (list Z)}
    {MRZ : MapRange Z} {MRN : MapRange nat} expiry s :
  sn_inv s -> indexed None s -> alloc_ok (netAllocator s) ->
  exists s' (removed : list (nat * list Z)), CleanupStaleEdges expiry s = (Ok tt, s') /\
    sn_inv s' /\ indexed None s' /\ eheap s' = eheap s /\
    NoDup removed /\ (forall c mac, (c, mac) ∈ removed <-> is_stale s expiry c mac) /\
    (forall c mac, edge_at s' c mac = if bool_decide ((c, mac) ∈ removed) then None else edge_at s c mac) /\
    LastCleanupTime (stats s') = clock s /\
    LastCleanupEdges (stats s') = Z.of_nat (length removed) /\
    u64 (EdgesUnregistered (stats s')) = u64 (EdgesUnregistered (stats s) + 2 * LastCleanupEdges (stats s')).
Proof.
  intros HI Hi Ha. unfold CleanupStaleEdges. rewrite gets_bind. unfold id. cbv zeta.
  assert (Forall (fun c => is_Some (cheap s !! c)) (map_range (communities s)).*2) as Hall.
  { apply Forall_forall. intros c Hc. apply list_elem_of_fmap in Hc as ([h c'] & -> & Hin).
    apply elem_of_map_range in Hin. destruct (inv_comm HI _ _ Hin) as (cm & ? & _). simpl. eauto. }
  rewrite (bind_ok _ _ _ _ _ (collect_stales_exact s expiry _ Hall)).
  set (stales := (fun c => (c, stale_ids s expiry c)) <$> (map_range (communities s)).*2).
  destruct (remove_list_spec (stale_pairs s expiry) s) as (s1 & E1 & [HI1 Hst1] & Hh & Hk & Hv & Hn).
  { by split. }
  { by apply NoDup_stale_pairs. }
  { intros c id Hin. apply elem_of_stale_pairs in Hin as (l & e & Hl & _); [eauto|done]. }
  assert (length (stale_pairs s expiry) = length (concat stales.*2)) as Hlen.
  { unfold stale_pairs. fold stales. rewrite (length_pairs_perm _ stales); [apply length_pairs|].
    rewrite map_range_perm. apply map_to_list_to_map. by apply NoDup_stale_keys. }
  exists (set_stats (set_cleanup (clock s) (Z.of_nat (length (concat stales.*2)))) s1), (stale_pairs s expiry).
  rewrite (bind_ok _ _ s tt s1) by (etransitivity; [exact (mfor_pairs _ s)|exact E1]).
  split; [done|]. split; [exact HI1|]. split; [by apply Hst1|]. split; [done|]. split; [by apply NoDup_stale_pairs|].
  split; [intros c mac; by apply elem_of_stale_pairs|]. split; [exact Hv|]. split; [done|].
  cbn [stats set_stats set_cleanup LastCleanupEdges EdgesUnregistered]. split; [by rewrite Hlen|].
  by rewrite Hn, Hlen.
Qed.

Import Sample.

Lemma cleanup_exact_witness :
  exists s', CleanupStaleEdges (600 * 10 ^ 9) (set_clock (2000 * 10 ^ 9) one) = (Ok tt, s') /\
    LastCleanupTime (stats s') = 2000 * 10 ^ 9.
Proof.
  destruct (cleanup_exact (600 * 10 ^ 9) (set_clock (2000 * 10 ^ 9) one)) as (s' & rm & E & _ & _ & _ & _ & _ & _ & Ht & _).
  - apply clock_inv, one_inv.
  - apply clock_inv, one_indexed.
  - split; vm_compute; reflexivity.
  - exists s'. split; [exact E|]. rewrite Ht. reflexivity.
Defined.
