(* ===== verification/SNSync.v ===== *)
(** * The peer list an edge gets from the supernode

    [GetPeerInfoList] on the supernode against [HandlePeerInfoList] on the
    edge: after the exchange the edge's registry is the supernode's view of
    the community. *)
From S2P Require Import Prelude GoBytes GoNet Netstruct Protocol Machine P2P Crypto SNState Community Supernode.
From S2P Require Import SNWire SNInvariant SNSafety SNSample.
From stdpp Require Import gmap list strings fin_maps relations.
From Stdlib Require Import ZArith Lia.
Open Scope Z_scope.

Lemma ExtGenerateMac_wf name mid :
  length (ExtGenerateMac name mid) = 6%nat /\ bytes_ok (ExtGenerateMac name mid).
Proof.
  unfold ExtGenerateMac. destruct (extGenerateMac_shape mid name HASH_KEY 12345) as (b & t & -> & Hb & Ht & Hl).
  split; [simpl; lia|]. pose proof (mac_bits b Hb) as (Hc & _). by constructor.
Qed.

Section Sync.
Context `{IPP : IPPool, RSA : RSALib, NET : Net, CDC : SNCodec} {MR : MapRange (list Z)} {US : UDPServices}.

Lemma PeerInfo_key name mac e : edge_ok name mac e -> mac_key (Edge_PeerInfo e) = mac.
Proof.
  intros (Hm & _ & Hg). unfold mac_key, Edge_PeerInfo. simpl. rewrite Hm, <-Hg.
  destruct (ExtGenerateMac_wf name (MachineID e)) as [Hl Hb]. by rewrite ParseMAC_String.
Qed.

Lemma add_infos_in infos i : NoDup (mac_key <$> infos) -> i ∈ infos ->
  add_infos infos ∅ !! mac_key i = Some i.
Proof.
  unfold add_infos. induction infos as [|j infos IH] using rev_ind; intros Hnd Hin; [by apply elem_of_nil in Hin|].
  rewrite fmap_app in Hnd. apply NoDup_app in Hnd as (Hnd & Hdis & _).
  rewrite foldl_app. simpl. apply elem_of_app in Hin as [Hin|Hin].
  - rewrite lookup_insert_ne; [by apply IH|]. intros E.
    apply (Hdis (mac_key i)); [by apply list_elem_of_fmap_2|]. rewrite <-E. apply list_elem_of_singleton. done.
  - apply list_elem_of_singleton in Hin as ->. apply lookup_insert_eq.
Qed.

Lemma add_infos_notin infos m : m ∉ mac_key <$> infos -> add_infos infos ∅ !! m = None.
Proof. intros Hn. rewrite add_infos_lookup, bool_decide_eq_false_2 by done. apply lookup_empty. Qed.

Lemma others_keys s c cm mac : sn_inv s -> cheap s !! c = Some cm ->
  mac_key <$> (Edge_PeerInfo <$> others mac (edges_of s cm)) = MACAddr <$> others mac (edges_of s cm).
Proof.
  intros HI Hc. rewrite <-list_fmap_compose. apply list_fmap_ext. intros i e He.
  apply list_elem_of_lookup_2 in He. apply elem_of_others in He as [He _].
  apply elem_of_edges_of in He as (m & l & Hl & Hel).
  destruct (inv_edge HI _ _ _ _ Hc Hl) as (e' & He' & Hok). assert (e' = e) as -> by congruence.
  simpl. rewrite (PeerInfo_key _ _ _ Hok). symmetry. apply Hok.
Qed.

Lemma GetPeerInfoList_eval s c cm mac : cheap s !! c = Some cm ->
  exists origin, GetPeerInfoList c mac true s =
    (Ok (mkPeerInfoList (bool_decide (is_Some origin)) origin
           (Edge_PeerInfo <$> others mac (edges_of s cm)) TypeList), s).
Proof.
  intros Hc. unfold GetPeerInfoList, GetAllEdges, get_cm. munfold. simpl. rewrite Hc. simpl.
  eexists. reflexivity.
Qed.
End Sync.

(** C11. Peer discovery end to end: the list the supernode answers a registered
    edge with, handled by that edge's peer registry, leaves there exactly the
    other edges of the community, each under its own MAC with the supernode's
    information about it, whatever the registry knew before. *)
Theorem peer_list_sync `{IPP : IPPool, RSA : RSALib, NET : Net, CDC : SNCodec} {MR : MapRange (list Z)}
    {US : UDPServices} s c cm mac now reset reg pil :
  sn_inv s -> cheap s !! c = Some cm -> reg_wf reg -> GetPeerInfoList c mac true s = (Ok pil, s) ->
  exists reg', HandlePeerInfoList now pil reset true reg = (Ok tt, reg') /\ reg_wf reg' /\
    forall m, reg_view reg' !! m =
      if bool_decide (m = mac) then None
      else match cm_edges cm !! m with
           | Some l => Edge_PeerInfo <$> eheap s !! l
           | None => None
           end.
Proof.
  intros HI Hc Hwf Hpil. destruct (GetPeerInfoList_eval s c cm mac Hc) as (origin & E).
  rewrite E in Hpil. injection Hpil as <-.
  destruct (list_event now (mkPeerInfoList (bool_decide (is_Some origin)) origin
    (Edge_PeerInfo <$> others mac (edges_of s cm)) TypeList) reset reg Hwf eq_refl) as (reg' & Ereg & Hwf' & Hv).
  { simpl. intros H. apply bool_decide_eq_true_1 in H as [o ->]. done. }
  exists reg'. split; [done|]. split; [done|]. intros m. rewrite Hv. simpl.
  pose proof (others_keys s c cm mac HI Hc) as Hk. pose proof (others_macs s c cm mac HI Hc) as Hp.
  assert (NoDup (mac_key <$> (Edge_PeerInfo <$> others mac (edges_of s cm)))) as Hnd
    by (rewrite Hk, Hp; apply NoDup_elements).
  destruct (decide (m ∈ MACAddr <$> others mac (edges_of s cm))) as [Hin|Hni].
  - pose proof Hin as Hin'. apply list_elem_of_fmap in Hin' as (e & -> & He).
    apply elem_of_others in He as [He Hne]. rewrite bool_decide_eq_false_2 by done.
    pose proof He as He'. apply elem_of_edges_of in He' as (m & l & Hl & Hel).
    destruct (inv_edge HI _ _ _ _ Hc Hl) as (e' & Hee & Hok). assert (e' = e) as -> by congruence.
    assert (MACAddr e = m) as Hm by apply Hok. rewrite Hm, Hl, Hel. simpl.
    rewrite <-(PeerInfo_key _ _ _ Hok). apply add_infos_in; [done|].
    apply list_elem_of_fmap_2, elem_of_others. done.
  - rewrite add_infos_notin by (by rewrite Hk). rewrite Hp, elem_of_elements, elem_of_difference in Hni.
    destruct (decide (m = mac)) as [Hm|Hm]; [by rewrite bool_decide_eq_true_2|rewrite bool_decide_eq_false_2 by done].
    destruct (cm_edges cm !! m) as [l|] eqn:El; [|done]. exfalso. apply Hni.
    split; [apply elem_of_dom; eauto|]. by rewrite elem_of_singleton.
Qed.

Import Sample.

Lemma peer_list_sync_witness : exists pil reg',
  GetPeerInfoList 0%nat (mac (str "ab") [1; 2]) true two = (Ok pil, two) /\
  HandlePeerInfoList (US := fun _ => None) 5 pil false true (NewPeerRegistry (str "ab")) = (Ok tt, reg') /\
  reg_view reg' !! mac (str "ab") [1; 2] = None.
Proof.
  assert (match cheap two !! 0%nat with Some _ => true | None => false end = true) as Hs by (vm_compute; reflexivity).
  destruct (cheap two !! 0%nat) as [cm|] eqn:Hc; [|discriminate].
  destruct (GetPeerInfoList_eval two 0%nat cm (mac (str "ab") [1; 2]) Hc) as (origin & E).
  destruct (peer_list_sync (US := fun _ => None) two 0%nat cm (mac (str "ab") [1; 2]) 5 false
    (NewPeerRegistry (str "ab")) _ two_inv Hc (NewPeerRegistry_wf _) E) as (reg' & Er & _ & Hv).
  eexists _, reg'. split; [exact E|]. split; [exact Er|]. rewrite Hv. by rewrite bool_decide_eq_true_2.
Defined.
