(* ===== verification/SNListen.v ===== *)
(** * The goroutines of the supernode: [Listen], [Shutdown] and [main]

    [Listen] ([supernode.go]) starts eight workers and a receive loop that hands
    datagrams to them through a channel; a websocket connection has a goroutine
    of its own, the cleanup routine another, and the signal handler of
    [cmd/supernode/main.go] calls [Shutdown].  All but the last two share the
    pool of packet buffers.  Here each of them is a program counter, and the
    running program a step relation over them, the memory of the buffers and
    the supernode of [Supernode].

    A call on the supernode ([ProcessPacket], [CleanupStaleEdges]) begins in one
    step and returns in another.  Its effect is that of the sequential
    definition as long as no two calls have been in progress at once; from the
    first overlap on the effect of every call is left open, a crash included,
    since the code's locks do not make the calls atomic (two registrations can
    make the same community, [register_community_race]). *)
From S2P Require Import Prelude GoBytes GoNet Netstruct Protocol Machine Crypto Transform SNState Community Supernode.
From S2P Require Import SNWire SNInvariant SNSafety SNSample.
From stdpp Require Import gmap list strings relations.
From Stdlib Require Import ZArith Lia.
Open Scope Z_scope.

Definition numWorkers : nat := 8.
Definition chanSize : nat := 100.

(** A packet in a buffer. *)
Record packetData := mkPacket { pkt_data : nat; pkt_size : nat; pkt_addr : netAddr }.

(** The receive loop: not started, at its [select], reading into a buffer, at
    the channel with a packet, returned. *)
Inductive RecvPC := RecvNew | RecvSelect | RecvRead (b : nat) | RecvSend (p : packetData) | RecvGone.

(** A worker: at the channel, with a packet, with the buffer of the packet it
    has processed, returned. *)
Inductive WorkPC := WorkTake | WorkRun (p : packetData) | WorkPut (b : nat) | WorkGone.

(** [handleWSSConnection]: before [Get], in [Read], with a packet, with its
    buffer, before the deferred function, returned. *)
Inductive ConnPC := ConnGet | ConnRead (b : nat) | ConnRun (p : packetData) | ConnPut (b : nat) | ConnLeave | ConnGone.

(** [main]: before [Listen], blocked in it, after it. *)
Inductive MainPC := MainSetup | MainListen | MainAfter.

#[export] Instance main_pc_eq_dec : EqDecision MainPC.
Proof. solve_decision. Defined.

(** The signal handler: waiting for the signal, in [shutdownWg.Wait], before
    [conn.Close], before [os.Exit]. *)
Inductive SigPC := SigIdle | SigWait | SigClose | SigExit.

(** How the process ended: [main] returned (with its deferred [CloseDB]), the
    signal handler called [os.Exit], a goroutine panicked. *)
Inductive Ending := Returned | Exited | Crashed.

Section Steps.
Context `{IPP : IPPool, RSA : RSALib, NET : Net, CDC : SNCodec} {MR : MapRange (list Z)}
  {MRZ : MapRange Z} {MRN : MapRange nat}.

Record ListenState := mkListen {
  sn : Supernode;
  mem : gmap nat (list Z);                      (** the buffers made so far *)
  free : list nat;                              (** [packetBufPool] *)
  queue : list packetData; queue_closed : bool; (** [packetChan] *)
  recv : RecvPC;
  workers : list WorkPC;
  handlers_ws : list (list Z * ConnPC);
  cleaning : bool;                              (** the cleanup routine runs *)
  main_pc : MainPC;
  sig : SigPC;
  ended : option Ending;
  received : list (list Z * netAddr);           (** what the reads returned *)
  processed : list (list Z * netAddr);          (** the packets of the calls of [ProcessPacket] that have returned *)
  tidying : bool;                               (** the cleanup routine is in [CleanupStaleEdges] *)
  overlapped : bool                             (** two calls have been in progress at once *)
}.

Definition set_sn x s := mkListen x (mem s) (free s) (queue s) (queue_closed s) (recv s) (workers s) (handlers_ws s)
  (cleaning s) (main_pc s) (sig s) (ended s) (received s) (processed s) (tidying s) (overlapped s).
Definition set_pool m f s := mkListen (sn s) m f (queue s) (queue_closed s) (recv s) (workers s) (handlers_ws s)
  (cleaning s) (main_pc s) (sig s) (ended s) (received s) (processed s) (tidying s) (overlapped s).
Definition set_queue q s := mkListen (sn s) (mem s) (free s) q (queue_closed s) (recv s) (workers s) (handlers_ws s)
  (cleaning s) (main_pc s) (sig s) (ended s) (received s) (processed s) (tidying s) (overlapped s).
Definition close_queue s := mkListen (sn s) (mem s) (free s) (queue s) true (recv s) (workers s) (handlers_ws s)
  (cleaning s) (main_pc s) (sig s) (ended s) (received s) (processed s) (tidying s) (overlapped s).
Definition set_recv r s := mkListen (sn s) (mem s) (free s) (queue s) (queue_closed s) r (workers s) (handlers_ws s)
  (cleaning s) (main_pc s) (sig s) (ended s) (received s) (processed s) (tidying s) (overlapped s).
Definition set_workers w s := mkListen (sn s) (mem s) (free s) (queue s) (queue_closed s) (recv s) w (handlers_ws s)
  (cleaning s) (main_pc s) (sig s) (ended s) (received s) (processed s) (tidying s) (overlapped s).
Definition set_handlers h s := mkListen (sn s) (mem s) (free s) (queue s) (queue_closed s) (recv s) (workers s) h
  (cleaning s) (main_pc s) (sig s) (ended s) (received s) (processed s) (tidying s) (overlapped s).
Definition stop_cleaning s := mkListen (sn s) (mem s) (free s) (queue s) (queue_closed s) (recv s) (workers s) (handlers_ws s)
  false (main_pc s) (sig s) (ended s) (received s) (processed s) (tidying s) (overlapped s).
Definition set_main p s := mkListen (sn s) (mem s) (free s) (queue s) (queue_closed s) (recv s) (workers s) (handlers_ws s)
  (cleaning s) p (sig s) (ended s) (received s) (processed s) (tidying s) (overlapped s).
Definition set_sig p s := mkListen (sn s) (mem s) (free s) (queue s) (queue_closed s) (recv s) (workers s) (handlers_ws s)
  (cleaning s) (main_pc s) p (ended s) (received s) (processed s) (tidying s) (overlapped s).
Definition set_ended e s := mkListen (sn s) (mem s) (free s) (queue s) (queue_closed s) (recv s) (workers s) (handlers_ws s)
  (cleaning s) (main_pc s) (sig s) (Some e) (received s) (processed s) (tidying s) (overlapped s).
Definition log_received x s := mkListen (sn s) (mem s) (free s) (queue s) (queue_closed s) (recv s) (workers s) (handlers_ws s)
  (cleaning s) (main_pc s) (sig s) (ended s) (received s ++ [x]) (processed s) (tidying s) (overlapped s).
Definition log_processed x s := mkListen (sn s) (mem s) (free s) (queue s) (queue_closed s) (recv s) (workers s) (handlers_ws s)
  (cleaning s) (main_pc s) (sig s) (ended s) (received s) (processed s ++ [x]) (tidying s) (overlapped s).
Definition set_tidying x s := mkListen (sn s) (mem s) (free s) (queue s) (queue_closed s) (recv s) (workers s) (handlers_ws s)
  (cleaning s) (main_pc s) (sig s) (ended s) (received s) (processed s) x (overlapped s).
Definition set_overlapped x s := mkListen (sn s) (mem s) (free s) (queue s) (queue_closed s) (recv s) (workers s) (handlers_ws s)
  (cleaning s) (main_pc s) (sig s) (ended s) (received s) (processed s) (tidying s) x.

(** The channel [shutdownCh] is closed, the UDP socket is closed. *)
Definition shutting_down (s : ListenState) : bool := match sig s with SigIdle => false | _ => true end.
Definition conn_closed (s : ListenState) : bool := match sig s with SigExit => true | _ => false end.

(** ** Buffers *)
Definition bufsize : nat := Buffers.DefaultBufferSize.

Definition contents (m : gmap nat (list Z)) (b : nat) : list Z := default [] (m !! b).

(** [pkt.data[:pkt.size]] and [pkt.addr] *)
Definition packet_of (m : gmap nat (list Z)) (p : packetData) : list Z * netAddr :=
  (take (pkt_size p) (contents m (pkt_data p)), pkt_addr p).

(** [packetBufPool.Get]: one of the pooled buffers, or a new one. *)
Inductive pool_Get (s : ListenState) : nat -> ListenState -> Prop :=
  | get_pooled pre b post : free s = pre ++ b :: post -> pool_Get s b (set_pool (mem s) (pre ++ post) s)
  | get_new b : mem s !! b = None -> pool_Get s b (set_pool (<[b := replicate bufsize 0]> (mem s)) (free s) s).

Definition pool_Put (b : nat) (s : ListenState) : ListenState := set_pool (mem s) (b :: free s) s.

(** A read of [d] from [a] into the buffer [b]: what does not fit is lost. *)
Definition read_into (b : nat) (d : list Z) (a : netAddr) (s : ListenState) : packetData * ListenState :=
  let p := mkPacket b (Nat.min bufsize (length d)) a in
  let m := <[b := copy_at (contents (mem s) b) 0 bufsize d]> (mem s) in
  (p, log_received (take bufsize d, a) (set_pool m (free s) s)).

(** ** Steps

    [Input] is what ends a read of the UDP socket, [Outside] the other events
    the goroutines wait for: a frame or a new websocket connection, a tick, the
    signal; time passing and the collection of pooled buffers by the garbage
    collector are outside too. *)
Inductive label := Inside | Input | Outside.

(** A call on the supernode: a panic of any goroutine ends the process. *)
Definition on_sn (r : outcome unit * Supernode) (s : ListenState) : ListenState :=
  match r.1 with
  | Panic => set_ended Crashed (set_sn r.2 s)
  | _ => set_sn r.2 s
  end.

(** The calls in progress. *)
Definition work_calls (w : WorkPC) : nat := match w with WorkRun _ => 1 | _ => 0 end.
Definition conn_calls (c : list Z * ConnPC) : nat := match c.2 with ConnRun _ => 1 | _ => 0 end.
Definition calls (s : ListenState) : nat :=
  sum_list (work_calls <$> workers s) + sum_list (conn_calls <$> handlers_ws s) + (if tidying s then 1 else 0).

(** A call begins. *)
Definition enter (s : ListenState) : ListenState := set_overlapped (overlapped s || negb (calls s =? 0)%nat) s.

(** What the call [f] returns and leaves.  Nothing writes the configuration. *)
Definition returns (f : M Supernode unit) (s : ListenState) (r : outcome unit * Supernode) : Prop :=
  if overlapped s then config r.2 = config (sn s) else r = f (sn s).

(** [ProcessPacket] returns. *)
Definition process (p : packetData) (s s' : ListenState) : Prop :=
  let '(d, a) := packet_of (mem s) p in
  exists r, returns (ProcessPacket d a) s r /\ s' = on_sn r (log_processed (d, a) s).

(** The receive loop of [Listen]. *)
Inductive recv_step : label -> ListenState -> ListenState -> Prop :=
  | recv_stop s : recv s = RecvSelect -> shutting_down s = true -> recv_step Inside s (close_queue (set_recv RecvGone s))
  | recv_get s b s' : recv s = RecvSelect -> shutting_down s = false -> pool_Get s b s' ->
      recv_step Inside s (set_recv (RecvRead b) s')
  | recv_packet s b d ip port : recv s = RecvRead b -> conn_closed s = false -> bytes_ok d ->
      let '(p, s') := read_into b d (UDPAddr ip port) s in recv_step Input s (set_recv (RecvSend p) s')
  | recv_error s b : recv s = RecvRead b -> conn_closed s = false ->
      recv_step Input s (set_recv RecvSelect (pool_Put b s))
  | recv_closed s b : recv s = RecvRead b -> conn_closed s = true ->
      recv_step Inside s (close_queue (set_recv RecvGone (pool_Put b s)))
  | recv_send s p : recv s = RecvSend p -> (length (queue s) < chanSize)%nat ->
      recv_step Inside s (set_recv RecvSelect (set_queue (queue s ++ [p]) s)).

(** A worker of [Listen]. *)
Inductive work_step : ListenState -> ListenState -> Prop :=
  | work_take s i p q : workers s !! i = Some WorkTake -> queue s = p :: q ->
      work_step s (set_queue q (set_workers (<[i := WorkRun p]> (workers s)) (enter s)))
  | work_run s i p s' : workers s !! i = Some (WorkRun p) ->
      process p (set_workers (<[i := WorkPut (pkt_data p)]> (workers s)) s) s' -> work_step s s'
  | work_put s i b : workers s !! i = Some (WorkPut b) ->
      work_step s (pool_Put b (set_workers (<[i := WorkTake]> (workers s)) s))
  | work_stop s i : workers s !! i = Some WorkTake -> queue s = [] -> queue_closed s = true ->
      work_step s (set_workers (<[i := WorkGone]> (workers s)) s).

(** [startWSListener], [startWSSListener], the upgrades and [handleWSSConnection].
    An upgrade and the end of a connection change one map under its lock. *)
Inductive conn_step : label -> ListenState -> ListenState -> Prop :=
  | ws_upgrade s remote t r : main_pc s <> MainSetup -> WSEnabled (config (sn s)) = true ->
      returns (handleWSUpgrade remote t) (enter s) r ->
      conn_step Outside s (set_handlers (handlers_ws s ++ [(str "ws-" ++ remote, ConnGet)]) (on_sn r (enter s)))
  | wss_upgrade s remote t r : main_pc s <> MainSetup -> WSSEnabled (config (sn s)) = true ->
      returns (handleWSSUpgrade remote t) (enter s) r ->
      conn_step Outside s (set_handlers (handlers_ws s ++ [(str "wss-" ++ remote, ConnGet)]) (on_sn r (enter s)))
  | conn_get s i c b s' : handlers_ws s !! i = Some (c, ConnGet) -> pool_Get s b s' ->
      conn_step Inside s (set_handlers (<[i := (c, ConnRead b)]> (handlers_ws s)) s')
  | conn_frame s i c b d : handlers_ws s !! i = Some (c, ConnRead b) -> bytes_ok d ->
      let '(p, s') := read_into b d (WSSAddr c) s in
      conn_step Outside s (set_handlers (<[i := (c, ConnRun p)]> (handlers_ws s)) (enter s'))
  | conn_error s i c b : handlers_ws s !! i = Some (c, ConnRead b) ->
      conn_step Outside s (pool_Put b (set_handlers (<[i := (c, ConnLeave)]> (handlers_ws s)) s))
  | conn_run s i c p s' : handlers_ws s !! i = Some (c, ConnRun p) ->
      process p (set_handlers (<[i := (c, ConnPut (pkt_data p))]> (handlers_ws s)) s) s' -> conn_step Inside s s'
  | conn_put s i c b : handlers_ws s !! i = Some (c, ConnPut b) ->
      conn_step Inside s (pool_Put b (set_handlers (<[i := (c, ConnGet)]> (handlers_ws s)) s))
  | conn_leave s i c r : handlers_ws s !! i = Some (c, ConnLeave) -> returns (handleWSSConnection_close c) (enter s) r ->
      conn_step Inside s (set_handlers (<[i := (c, ConnGone)]> (handlers_ws s)) (on_sn r (enter s))).

(** [cleanupRoutine] *)
Inductive clean_step : label -> ListenState -> ListenState -> Prop :=
  | clean_tick s : cleaning s = true -> tidying s = false -> clean_step Outside s (set_tidying true (enter s))
  | clean_run s r : cleaning s = true -> tidying s = true ->
      returns (CleanupStaleEdges (ExpiryDuration (config (sn s)))) s r -> clean_step Inside s (set_tidying false (on_sn r s))
  | clean_stop s : cleaning s = true -> tidying s = false -> shutting_down s = true -> clean_step Inside s (stop_cleaning s).

(** [shutdownWg]: the cleanup routine and the workers that have not returned. *)
Definition wg_done (s : ListenState) : Prop := cleaning s = false /\ Forall (eq WorkGone) (workers s).

(** [main] from the start of the signal handler, [Shutdown] and the handler. *)
Inductive main_step : label -> ListenState -> ListenState -> Prop :=
  | main_listen s : main_pc s = MainSetup ->
      main_step Inside s (set_main MainListen (set_recv RecvSelect (set_workers (replicate numWorkers WorkTake) s)))
  | main_unblock s : main_pc s = MainListen -> shutting_down s = true -> main_step Inside s (set_main MainAfter s)
  | main_return s : main_pc s = MainAfter -> main_step Inside s (set_ended Returned s)
  | sig_arrives s : sig s = SigIdle -> main_step Outside s (set_sig SigWait s)
  | sig_waited s : sig s = SigWait -> wg_done s -> main_step Inside s (set_sig SigClose s)
  | sig_closed s : sig s = SigClose -> main_step Inside s (set_sig SigExit s)
  | sig_exit s : sig s = SigExit -> main_step Inside s (set_ended Exited s).

Inductive world_step : ListenState -> ListenState -> Prop :=
  | world_time s t : clock (sn s) <= t -> world_step s (set_sn (set_clock t (sn s)) s)
  | world_collect s pre b post : free s = pre ++ b :: post -> world_step s (set_pool (mem s) (pre ++ post) s).

Inductive step : label -> ListenState -> ListenState -> Prop :=
  | by_recv l s s' : ended s = None -> recv_step l s s' -> step l s s'
  | by_worker s s' : ended s = None -> work_step s s' -> step Inside s s'
  | by_conn l s s' : ended s = None -> conn_step l s s' -> step l s s'
  | by_cleaner l s s' : ended s = None -> clean_step l s s' -> step l s s'
  | by_main l s s' : ended s = None -> main_step l s s' -> step l s s'
  | by_world s s' : ended s = None -> world_step s s' -> step Outside s s'.

(** The process once [NewSupernodeWithConfig] has returned. *)
Definition fresh_listen (s0 : Supernode) : ListenState :=
  mkListen s0 ∅ [] [] false RecvNew [] [] true MainSetup SigIdle None [] [] false false.

Inductive reachable (s0 : Supernode) : ListenState -> Prop :=
  | reach_start : reachable s0 (fresh_listen s0)
  | reach_step l s s' : reachable s0 s -> step l s s' -> reachable s0 s'.
End Steps.

(** ** Who holds which buffer *)
Inductive item := Loose (b : nat) | Full (p : packetData).
Definition item_buf (x : item) : nat := match x with Loose b => b | Full p => pkt_data p end.
Definition item_packet (m : gmap nat (list Z)) (x : item) : option (list Z * netAddr) :=
  match x with Loose _ => None | Full p => Some (packet_of m p) end.

Definition recv_items (r : RecvPC) : list item :=
  match r with RecvRead b => [Loose b] | RecvSend p => [Full p] | _ => [] end.
Definition work_items (w : WorkPC) : list item :=
  match w with WorkRun p => [Full p] | WorkPut b => [Loose b] | _ => [] end.
Definition conn_items (c : list Z * ConnPC) : list item :=
  match c.2 with ConnRead b | ConnPut b => [Loose b] | ConnRun p => [Full p] | _ => [] end.

(** Every occurrence of a packet, or of a buffer, of the running process. *)
Definition udp_items `{IPP : IPPool, RSA : RSALib} (s : ListenState) : list item :=
  recv_items (recv s) ++ (Full <$> queue s) ++ (workers s ≫= work_items).
Definition items `{IPP : IPPool, RSA : RSALib} (s : ListenState) : list item :=
  (Loose <$> free s) ++ udp_items s ++ (handlers_ws s ≫= conn_items).
#[local] Arguments udp_items : simpl never.
#[local] Arguments items : simpl never.

(** The packets that were received and are not processed yet. *)
Definition pending `{IPP : IPPool, RSA : RSALib} (s : ListenState) : list (list Z * netAddr) := omap (item_packet (mem s)) (items s).

(** What the buffers and packets of a process satisfy. *)
Record ledger (m : gmap nat (list Z)) (its : list item) (rec proc : list (list Z * netAddr)) : Prop := {
  held_once : NoDup (item_buf <$> its);
  held_made : Forall (fun x => exists c, m !! item_buf x = Some c /\ length c = bufsize /\ bytes_ok c) its;
  accounted : rec ≡ₚ proc ++ omap (item_packet m) its;
}.

Lemma ledger_perm m its its' rec proc : its ≡ₚ its' -> ledger m its rec proc -> ledger m its' rec proc.
Proof. intros E [H1 H2 H3]. constructor; by rewrite <-E. Qed.

Lemma ledger_drop m b its rec proc : ledger m (Loose b :: its) rec proc -> ledger m its rec proc.
Proof. intros [H1 H2 H3]. constructor; [by apply NoDup_cons in H1 as []|by apply Forall_cons in H2 as []|exact H3]. Qed.

(** Writing to a buffer nobody else holds. *)
Lemma packets_elsewhere (m : gmap nat (list Z)) b c (its : list item) : b ∉ (item_buf <$> its) -> omap (item_packet (<[b := c]> m)) its = omap (item_packet m) its.
Proof.
  induction its as [|x its IH]; [done|]. cbn. intros [Hx Hn]%not_elem_of_cons. rewrite IH by done.
  destruct x as [b'|p]; cbn in *; [done|]. unfold packet_of, contents. by rewrite lookup_insert_ne.
Qed.

Lemma made_elsewhere (m : gmap nat (list Z)) b c (its : list item) : b ∉ (item_buf <$> its) ->
  Forall (fun x => exists c, m !! item_buf x = Some c /\ length c = bufsize /\ bytes_ok c) its ->
  Forall (fun x => exists c', <[b := c]> m !! item_buf x = Some c' /\ length c' = bufsize /\ bytes_ok c') its.
Proof.
  intros Hn H. rewrite Forall_forall in *. intros x Hx. destruct (H x Hx) as (c' & E & Hc).
  exists c'. split; [|done]. rewrite lookup_insert_ne; [done|]. intros ->. by apply Hn, list_elem_of_fmap_2.
Qed.

Lemma zeros_ok n : bytes_ok (replicate n 0).
Proof. apply Forall_replicate. by unfold is_byte. Qed.

Lemma ledger_new m b its rec proc : m !! b = None -> ledger m its rec proc ->
  ledger (<[b := replicate bufsize 0]> m) (Loose b :: its) rec proc.
Proof.
  intros Hb [H1 H2 H3].
  assert (b ∉ (item_buf <$> its)) as Hn.
  { intros (x & -> & Hx)%list_elem_of_fmap. rewrite Forall_forall in H2. destruct (H2 x Hx) as (c & E & _). congruence. }
  constructor.
  - cbn. by apply NoDup_cons.
  - apply Forall_cons. split; [|by apply made_elsewhere].
    exists (replicate bufsize 0). cbn [item_buf]. rewrite lookup_insert_eq, length_replicate. split; [done|]. split; [done|]. apply zeros_ok.
  - change (omap (item_packet (<[b:=replicate bufsize 0]> m)) (Loose b :: its)) with (omap (item_packet (<[b:=replicate bufsize 0]> m)) its).
    by rewrite packets_elsewhere.
Qed.

(** A packet in a buffer is what was read into it. *)
Lemma packet_read m b d a c : m !! b = Some c -> length c = bufsize ->
  packet_of (<[b := copy_at (contents m b) 0 bufsize d]> m) (mkPacket b (Nat.min bufsize (length d)) a) = (take bufsize d, a).
Proof.
  intros E Hl. unfold packet_of, contents at 1. cbn [pkt_data pkt_size pkt_addr]. rewrite lookup_insert_eq. f_equal. cbn.
  unfold copy_at. rewrite take_0, Nat.sub_0_r. cbn [app].
  rewrite take_app_le by (rewrite length_take; lia). rewrite take_take, Nat.min_id.
  destruct (Nat.min_spec bufsize (length d)) as [[_ ->]|[H ->]]; [done|]. by rewrite firstn_all, take_ge.
Qed.

Lemma ledger_read m b d a its rec proc : bytes_ok d -> ledger m (Loose b :: its) rec proc ->
  let p := mkPacket b (Nat.min bufsize (length d)) a in
  let m' := <[b := copy_at (contents m b) 0 bufsize d]> m in
  ledger m' (Full p :: its) (rec ++ [(take bufsize d, a)]) proc.
Proof.
  intros Hd [H1 H2 H3] p m'. cbn in H1. apply NoDup_cons in H1 as [Hn H1]. apply Forall_cons in H2 as [(c & E & Hl & Hc) H2]. cbn in E.
  constructor.
  - cbn. by apply NoDup_cons.
  - apply Forall_cons. split; [|by apply made_elsewhere]. unfold m'. cbn [item_buf pkt_data p].
    eexists. split; [by rewrite lookup_insert_eq|]. unfold contents. rewrite E. change (default [] (Some c)) with c. split.
    + rewrite length_copy_at; [done|apply Nat.le_0_l|by rewrite Hl].
    + unfold copy_at. rewrite take_0. cbn [app]. apply Forall_app. split; [by apply Forall_take|by apply Forall_drop].
  - change (omap (item_packet m') (Full p :: its)) with (packet_of m' p :: omap (item_packet m') its).
    assert (packet_of m' p = (take bufsize d, a)) as -> by (by eapply packet_read).
    assert (omap (item_packet m') its = omap (item_packet m) its) as -> by (by apply packets_elsewhere).
    rewrite H3. change (omap (item_packet m) (Loose b :: its)) with (omap (item_packet m) its). solve_Permutation.
Qed.

Lemma ledger_done m p its rec proc : ledger m (Full p :: its) rec proc ->
  ledger m (Loose (pkt_data p) :: its) rec (proc ++ [packet_of m p]).
Proof.
  intros [H1 H2 H3]. constructor; [done| |].
  - apply Forall_cons in H2 as [H H2]. by apply Forall_cons.
  - rewrite H3. change (omap (item_packet m) (Full p :: its)) with (packet_of m p :: omap (item_packet m) its).
    change (omap (item_packet m) (Loose (pkt_data p) :: its)) with (omap (item_packet m) its). solve_Permutation.
Qed.

Lemma bind_insert {A B} (f : A -> list B) l i x y : l !! i = Some y ->
  exists rest, l ≫= f ≡ₚ f y ++ rest /\ <[i := x]> l ≫= f ≡ₚ f x ++ rest.
Proof.
  intros H. exists ((take i l ++ drop (S i) l) ≫= f). split.
  - rewrite <-(take_drop_middle l i y H) at 1. rewrite !bind_app, bind_cons. solve_Permutation.
  - rewrite insert_take_drop by (by eapply lookup_lt_Some). rewrite !bind_app, bind_cons. solve_Permutation.
Qed.

(** ** Invariant *)
Section Invariant.
Context `{IPP : IPPool, RSA : RSALib, NET : Net, CDC : SNCodec} {MR : MapRange (list Z)}
  {MRZ : MapRange Z} {MRN : MapRange nat}.

Definition from_udp (x : item) : Prop :=
  match x with Full p => exists ip port, pkt_addr p = UDPAddr ip port | Loose _ => True end.
Definition from_ws (x : item) : Prop :=
  match x with Full p => exists c, pkt_addr p = WSSAddr c | Loose _ => True end.

Record data_inv (s0 : Supernode) (s : ListenState) : Prop := {
  inv_ledger : ledger (mem s) (items s) (received s) (processed s);
  inv_udp : Forall from_udp (udp_items s);
  inv_ws : Forall from_ws (handlers_ws s ≫= conn_items);
  inv_run : overlapped s = false -> rtc supernode_step s0 (sn s);
}.

Lemma on_sn_fields r s : let s' := on_sn r s in
  mem s' = mem s /\ free s' = free s /\ queue s' = queue s /\ queue_closed s' = queue_closed s /\ recv s' = recv s /\
  workers s' = workers s /\ handlers_ws s' = handlers_ws s /\ cleaning s' = cleaning s /\ main_pc s' = main_pc s /\
  sig s' = sig s /\ received s' = received s /\ processed s' = processed s /\ sn s' = r.2 /\ tidying s' = tidying s /\ overlapped s' = overlapped s.
Proof. unfold on_sn. by destruct r as [[] ?]. Qed.

Lemma items_on_sn r s : items (on_sn r s) = items s.
Proof. unfold on_sn. by destruct r as [[] ?]. Qed.

(** A step of the supernode, with the same buffers and packets. *)
Lemma data_sn s0 s f r : data_inv s0 s -> returns f s r -> supernode_step (sn s) (f (sn s)).2 -> data_inv s0 (on_sn r s).
Proof.
  intros [H1 H2 H3 H4] Hr Hs. destruct (on_sn_fields r s) as (E1 & E2 & E3 & E4 & E5 & E6 & E7 & E8 & E9 & E10 & E11 & E12 & E13 & _ & E15).
  constructor; unfold items, udp_items in *; rewrite ?E1, ?E2, ?E3, ?E5, ?E6, ?E7, ?E11, ?E12, ?E13, ?E15; try done.
  unfold returns in Hr. intros Ho. rewrite Ho in Hr. subst r. eapply rtc_r; [by apply H4|done].
Qed.

Lemma data_enter s0 s : data_inv s0 s -> data_inv s0 (enter s).
Proof. intros [H1 H2 H3 H4]. constructor; [done..|]. cbn. intros [Ho _]%orb_false_iff. by apply H4. Qed.

Lemma handlers_on_sn h r s : set_handlers h (on_sn r s) = on_sn r (set_handlers h s).
Proof. unfold on_sn. by destruct r as [[] ?]. Qed.

Lemma tidying_on_sn x r s : set_tidying x (on_sn r s) = on_sn r (set_tidying x s).
Proof. unfold on_sn. by destruct r as [[] ?]. Qed.

Lemma packet_kind s0 s p m : data_inv s0 s -> Full p ∈ items s -> m = mem s ->
  bytes_ok (packet_of m p).1 /\ ((exists ip port, pkt_addr p = UDPAddr ip port) \/ exists c, pkt_addr p = WSSAddr c).
Proof.
  intros [[_ H1 _] H2 H3 _] Hp ->. rewrite Forall_forall in H1, H2, H3. split.
  - destruct (H1 _ Hp) as (c & E & _ & Hc). cbn in *. unfold packet_of, contents. rewrite E. by apply Forall_take.
  - unfold items in Hp. rewrite !elem_of_app in Hp. destruct Hp as [Hp|[Hp|Hp]].
    + by apply list_elem_of_fmap in Hp as (? & [=] & _).
    + left. by apply (H2 (Full p)).
    + right. by apply (H3 (Full p)).
Qed.

(** [process] is a step of the supernode on the packet as it was received. *)
Lemma process_step s0 s p : data_inv s0 s -> Full p ∈ items s ->
  let '(d, a) := packet_of (mem s) p in supernode_step (sn s) (ProcessPacket d a (sn s)).2.
Proof.
  intros HI Hp. destruct (packet_kind s0 s p (mem s) HI Hp eq_refl) as [Hb Ha]. unfold packet_of in *. cbn [fst] in Hb.
  set (d := take _ _) in *. destruct (ProcessPacket d (pkt_addr p) (sn s)) as [r s'] eqn:E. cbn [snd].
  destruct Ha as [(ip & port & Ea)|(c & Ea)]; rewrite Ea in E; [by eapply step_udp|by eapply step_wss].
Qed.

Lemma get_ledger s b s' : pool_Get s b s' -> ledger (mem s) (items s) (received s) (processed s) ->
  ledger (mem s') (Loose b :: items s') (received s') (processed s') /\ sn s' = sn s /\ udp_items s' = udp_items s /\ handlers_ws s' = handlers_ws s /\
  overlapped s' = overlapped s.
Proof.
  intros H L. destruct H as [pre b post E|b E]; cbn; (split; [|done]).
  - eapply ledger_perm; [|exact L]. unfold items, udp_items. cbn. rewrite E, !fmap_app. cbn. solve_Permutation.
  - by apply ledger_new.
Qed.

Lemma recv_data s0 l s s' : data_inv s0 s -> recv_step l s s' -> data_inv s0 s'.
Proof.
  intros HI H. pose proof HI as [L U W R].
  destruct H as [s E D|s b s' E D G|s b d ip port E D Hd|s b E D|s b E D|s p E Hq].
  - constructor; try done; unfold items, udp_items in *; cbn in *; by rewrite E in *.
  - destruct (get_ledger s b s' G L) as (L' & Esn & Eu & Ew & Eo).
    assert (recv s' = recv s) as Er by (by destruct G).
    assert (udp_items (set_recv (RecvRead b) s') = Loose b :: udp_items s') as Eu'.
    { unfold udp_items. cbn. by rewrite Er, E. }
    constructor; cbn; rewrite ?Eu', ?Esn, ?Ew, ?Eo; [|rewrite Eu; by apply Forall_cons|done|done].
    eapply ledger_perm; [|exact L']. unfold items. rewrite Eu'. cbn. solve_Permutation.
  - cbn. unfold udp_items in U. rewrite E in U. cbn in U. apply Forall_cons in U as [_ U]. constructor; cbn; [| |done|done].
    + set (its := (Loose <$> free s) ++ (Full <$> queue s) ++ (workers s ≫= work_items) ++ (handlers_ws s ≫= conn_items)).
      assert (ledger (mem s) (Loose b :: its) (received s) (processed s)) as L1.
      { eapply ledger_perm; [|exact L]. unfold items, udp_items. rewrite E. cbn. unfold its. solve_Permutation. }
      eapply ledger_perm; [|exact (ledger_read _ _ d (UDPAddr ip port) _ _ _ Hd L1)].
      unfold items, udp_items, its. cbn. solve_Permutation.
    + unfold udp_items. cbn. apply Forall_cons. split; [|done]. cbn. by eexists _, _.
  - unfold udp_items in U. rewrite E in U. cbn in U. apply Forall_cons in U as [_ U]. constructor; cbn; [|done|done|done].
    eapply ledger_perm; [|exact L]. unfold items, udp_items. cbn. rewrite E. cbn. solve_Permutation.
  - unfold udp_items in U. rewrite E in U. cbn in U. apply Forall_cons in U as [_ U]. constructor; cbn; [|done|done|done].
    eapply ledger_perm; [|exact L]. unfold items, udp_items. cbn. rewrite E. cbn. solve_Permutation.
  - assert (udp_items s ≡ₚ udp_items (set_recv RecvSelect (set_queue (queue s ++ [p]) s))) as Eu.
    { unfold udp_items. cbn. rewrite E, fmap_app. cbn. solve_Permutation. }
    constructor; cbn; [|by rewrite <-Eu|done|done]. eapply ledger_perm; [|exact L]. unfold items. rewrite <-Eu. done.
Qed.

Lemma process_data s0 s s1 p s' : data_inv s0 s -> Full p ∈ items s -> process p s1 s' ->
  mem s1 = mem s -> sn s1 = sn s -> overlapped s1 = overlapped s -> received s1 = received s -> processed s1 = processed s ->
  (exists its, items s ≡ₚ Full p :: its /\ items s1 ≡ₚ Loose (pkt_data p) :: its) ->
  Forall from_udp (udp_items s1) -> Forall from_ws (handlers_ws s1 ≫= conn_items) -> data_inv s0 s'.
Proof.
  intros HI Hp Hpr Em Es Eo Er Ep (its & P1 & P2) U1 W1. pose proof (process_step s0 s p HI Hp) as Hs. pose proof HI as [L U W R].
  unfold process in Hpr. rewrite Em in Hpr. destruct (packet_of (mem s) p) as [d a] eqn:Epk. destruct Hpr as (r & Hr & ->).
  apply (data_sn s0 _ (ProcessPacket d a)); [|exact Hr|cbn; by rewrite Es].
  constructor; cbn; [|done|done|by rewrite Es, Eo]. rewrite Em, Er, Ep, <-Epk.
  eapply ledger_perm; [symmetry; exact P2|]. apply ledger_done. by eapply ledger_perm.
Qed.

Lemma work_data s0 s s' : data_inv s0 s -> work_step s s' -> data_inv s0 s'.
Proof.
  intros HI H. pose proof HI as [L U W R].
  destruct H as [s i p q E Eq|s i p s' E Hpr|s i b E|s i E Eq Ec].
  - apply data_enter in HI. pose proof HI as [L' U' W' R'].
    destruct (bind_insert work_items _ i (WorkRun p) _ E) as (rest & E1 & E2). cbn in E1, E2.
    assert (udp_items s ≡ₚ udp_items (set_queue q (set_workers (<[i := WorkRun p]> (workers s)) (enter s)))) as Eu.
    { unfold udp_items. cbn. rewrite Eq, E2, E1. cbn. solve_Permutation. }
    constructor; cbn; [|by rewrite <-Eu|done|exact R']. eapply ledger_perm; [|exact L]. unfold items. rewrite <-Eu. done.
  - destruct (bind_insert work_items _ i (WorkPut (pkt_data p)) _ E) as (rest & E1 & E2). cbn in E1, E2.
    apply (process_data s0 s _ _ _ HI) in Hpr; try done.
    + unfold items, udp_items. rewrite E1. set_solver.
    + exists ((Loose <$> free s) ++ (recv_items (recv s) ++ (Full <$> queue s) ++ rest) ++ (handlers_ws s ≫= conn_items)).
      unfold items, udp_items. cbn. rewrite E1, E2. split; solve_Permutation.
    + unfold udp_items in *. cbn. rewrite E1, !Forall_app, Forall_cons in U. rewrite E2, !Forall_app, Forall_cons. cbn.
      destruct U as (? & ? & _ & ?). repeat split; done.
  - destruct (bind_insert work_items _ i WorkTake _ E) as (rest & E1 & E2). cbn in E1, E2.
    constructor; cbn; [| |done|done].
    + eapply ledger_perm; [|exact L]. unfold items, udp_items. cbn. rewrite E1, E2. solve_Permutation.
    + unfold udp_items in *. cbn. rewrite E1, !Forall_app, Forall_cons in U. rewrite E2, !Forall_app.
      destruct U as (? & ? & _ & ?). repeat split; done.
  - destruct (bind_insert work_items _ i WorkGone _ E) as (rest & E1 & E2). cbn in E1, E2.
    assert (udp_items s ≡ₚ udp_items (set_workers (<[i := WorkGone]> (workers s)) s)) as Eu.
    { unfold udp_items. cbn. by rewrite E1, E2. }
    constructor; cbn; [|by rewrite <-Eu|done|done]. eapply ledger_perm; [|exact L]. unfold items. rewrite <-Eu. done.
Qed.

Lemma conn_data s0 l s s' : data_inv s0 s -> conn_step l s s' -> data_inv s0 s'.
Proof.
  intros HI H. pose proof HI as [L U W R].
  destruct H as [s remote t r Hm Hc Hr|s remote t r Hm Hc Hr|s i c b s' E G|s i c b d E Hd|s i c b E|s i c p s' E Hpr|s i c b E|s i c r E Hr].
  - assert (data_inv s0 (set_handlers (handlers_ws s ++ [(str "ws-" ++ remote, ConnGet)]) (enter s))) as HI'.
    { apply data_enter in HI as [L' U' W' R']. constructor; [|done| |done]; unfold items; cbn [handlers_ws set_handlers]; rewrite bind_app; cbn; by rewrite app_nil_r. }
    rewrite handlers_on_sn. apply (data_sn s0 _ (handleWSUpgrade remote t) r HI' Hr). by eapply step_ws_open.
  - assert (data_inv s0 (set_handlers (handlers_ws s ++ [(str "wss-" ++ remote, ConnGet)]) (enter s))) as HI'.
    { apply data_enter in HI as [L' U' W' R']. constructor; [|done| |done]; unfold items; cbn [handlers_ws set_handlers]; rewrite bind_app; cbn; by rewrite app_nil_r. }
    rewrite handlers_on_sn. apply (data_sn s0 _ (handleWSSUpgrade remote t) r HI' Hr). by eapply step_wss_open.
  - destruct (get_ledger s b s' G L) as (L' & Esn & Eu & Ew & Eo).
    destruct (bind_insert conn_items _ i (c, ConnRead b) _ E) as (rest & E1 & E2). cbn in E1, E2. rewrite E1 in W.
    constructor; cbn; rewrite ?E2, ?Esn, ?Eo; [| |by apply Forall_cons|done].
    + eapply ledger_perm; [|exact L']. unfold items, udp_items. cbn. rewrite Ew, E1, E2. solve_Permutation.
    + change (Forall from_udp (udp_items s')). by rewrite Eu.
  - cbn. destruct (bind_insert conn_items _ i (c, ConnRun (mkPacket b (Nat.min bufsize (length d)) (WSSAddr c))) _ E) as (rest & E1 & E2).
    cbn in E1, E2. rewrite E1 in W. apply Forall_cons in W as [_ W].
    constructor; cbn; [|done| |by intros [Ho _]%orb_false_iff; apply R].
    + assert (ledger (mem s) (Loose b :: (Loose <$> free s) ++ udp_items s ++ rest) (received s) (processed s)) as L1.
      { eapply ledger_perm; [|exact L]. unfold items. rewrite E1. solve_Permutation. }
      eapply ledger_perm; [|exact (ledger_read _ _ d (WSSAddr c) _ _ _ Hd L1)].
      unfold items, udp_items. cbn. rewrite E2. solve_Permutation.
    + rewrite E2. apply Forall_cons. split; [|done]. by eexists.
  - destruct (bind_insert conn_items _ i (c, ConnLeave) _ E) as (rest & E1 & E2). cbn in E1, E2. rewrite E1 in W. apply Forall_cons in W as [_ W].
    constructor; cbn; [|done|by rewrite E2|done].
    eapply ledger_perm; [|exact L]. unfold items, udp_items. cbn. rewrite E1, E2. solve_Permutation.
  - destruct (bind_insert conn_items _ i (c, ConnPut (pkt_data p)) _ E) as (rest & E1 & E2). cbn in E1, E2.
    apply (process_data s0 s _ _ _ HI) in Hpr; try done.
    + unfold items, udp_items. rewrite E1. set_solver.
    + exists ((Loose <$> free s) ++ udp_items s ++ rest). unfold items, udp_items. cbn. rewrite E1, E2. split; solve_Permutation.
    + cbn. rewrite E2. rewrite E1 in W. apply Forall_cons in W as [_ W]. by apply Forall_cons.
  - destruct (bind_insert conn_items _ i (c, ConnGet) _ E) as (rest & E1 & E2). cbn in E1, E2. rewrite E1 in W. apply Forall_cons in W as [_ W].
    constructor; cbn; [|done|by rewrite E2|done].
    eapply ledger_perm; [|exact L]. unfold items, udp_items. cbn. rewrite E1, E2. solve_Permutation.
  - destruct (bind_insert conn_items _ i (c, ConnGone) _ E) as (rest & E1 & E2). cbn in E1, E2. rewrite E1 in W.
    assert (data_inv s0 (set_handlers (<[i := (c, ConnGone)]> (handlers_ws s)) (enter s))) as HI'.
    { apply data_enter in HI as [L' U' W' R']. constructor; cbn; [|done|by rewrite E2|exact R']. eapply ledger_perm; [|exact L]. unfold items. cbn. by rewrite E1, E2. }
    rewrite handlers_on_sn. apply (data_sn s0 _ (handleWSSConnection_close c) r HI' Hr). by eapply step_close.
Qed.

Lemma step_data s0 l s s' : data_inv s0 s -> main_pc s <> MainSetup \/ (recv s = RecvNew /\ workers s = []) -> step l s s' -> data_inv s0 s'.
Proof.
  intros HI Hm H. pose proof HI as [L U W R].
  destruct H as [l s s' _ H|s s' _ H|l s s' _ H|l s s' _ H|l s s' _ H|s s' _ H].
  - by eapply recv_data.
  - by eapply work_data.
  - by eapply conn_data.
  - destruct H as [s Hc Ht|s r Hc Ht Hr|s Hc Ht Hd]; [|rewrite tidying_on_sn|by constructor].
    + apply data_enter in HI as [L' U' W' R']. by constructor.
    + eapply (data_sn s0 _ _ r); [by constructor|exact Hr|]. cbn [sn set_tidying].
      destruct (CleanupStaleEdges _ _) eqn:E. by eapply step_cleanup.
  - destruct H as [s Hs|s Hs Hd|s Hs|s Hs|s Hs Hw|s Hs|s Hs]; try by constructor.
    destruct Hm as [Hm|[Hr Hw]]; [congruence|].
    assert (udp_items (set_main MainListen (set_recv RecvSelect (set_workers (replicate numWorkers WorkTake) s))) = udp_items s) as Eu.
    { unfold udp_items. cbn. by rewrite Hr, Hw. }
    constructor; [unfold items; by rewrite Eu|by rewrite Eu|done|done].
  - destruct H as [s t Ht|s pre b post E].
    + constructor; [done..|]. cbn. intros Ho. eapply rtc_r; [by apply R|]. by apply step_time.
    + constructor; [|done..]. cbn. apply (ledger_drop _ b). eapply ledger_perm; [|exact L].
      unfold items, udp_items. cbn. rewrite E, !fmap_app. cbn. solve_Permutation.
Qed.

(** ** Control *)
Record ctl_inv (s : ListenState) : Prop := {
  inv_cap : (length (queue s) <= chanSize)%nat;
  inv_closed : queue_closed s = true <-> recv s = RecvGone;
  inv_gone : forall i, workers s !! i = Some WorkGone -> queue s = [] /\ queue_closed s = true;
  inv_setup : main_pc s = MainSetup -> workers s = [] /\ recv s = RecvNew /\ queue s = [];
  inv_started : main_pc s <> MainSetup -> length (workers s) = numWorkers /\ recv s <> RecvNew;
}.

Lemma ctl_ext s s' : queue s' = queue s -> queue_closed s' = queue_closed s -> recv s' = recv s -> workers s' = workers s ->
  main_pc s' = main_pc s -> ctl_inv s -> ctl_inv s'.
Proof. intros E1 E2 E3 E4 E5 []. constructor; by rewrite ?E1, ?E2, ?E3, ?E4, ?E5. Qed.

Local Ltac same_ctl := match goal with H : ctl_inv ?s |- _ => apply (ctl_ext s); [first [done|congruence]..|exact H] end.

Lemma ctl_on_sn r s : ctl_inv s -> ctl_inv (on_sn r s).
Proof. apply ctl_ext; unfold on_sn; by destruct r as [[] ?]. Qed.

Lemma ctl_process p s s' : process p s s' -> ctl_inv s -> ctl_inv s'.
Proof. unfold process. destruct (packet_of _ _). intros (r & _ & ->) H. apply ctl_on_sn. same_ctl. Qed.

Lemma ctl_work i x y s q : ctl_inv s -> workers s !! i = Some y -> x <> WorkGone -> queue s = q \/ (exists p, queue s = p :: q) ->
  ctl_inv (set_queue q (set_workers (<[i := x]> (workers s)) s)).
Proof.
  intros [H1 H2 H3 H4 H5] Hi Hx Hq. constructor; cbn.
  - destruct Hq as [<-|[p Hq]]; [done|]. rewrite Hq in H1. cbn in H1. lia.
  - done.
  - intros j Hj. destruct (decide (i = j)) as [<-|Hne].
    + rewrite list_lookup_insert_eq in Hj by (by eapply lookup_lt_Some). congruence.
    + rewrite list_lookup_insert_ne in Hj by done. destruct (H3 j Hj) as [Hq' Hc]. split; [|done].
      destruct Hq as [<-|[p Hq]]; [done|congruence].
  - intros E. destruct (H4 E) as (Hw & _). by rewrite Hw in Hi.
  - intros E. rewrite length_insert. by apply H5.
Qed.

Lemma pool_fields s b s' : pool_Get s b s' -> queue s' = queue s /\ queue_closed s' = queue_closed s /\ recv s' = recv s /\
  workers s' = workers s /\ main_pc s' = main_pc s /\ sig s' = sig s.
Proof. by intros []. Qed.

Lemma ctl_recv r s : ctl_inv s -> recv s <> RecvGone -> recv s <> RecvNew -> r <> RecvGone -> r <> RecvNew -> ctl_inv (set_recv r s).
Proof.
  intros [H1 H2 H3 H4 H5] Hg Hn Hr1 Hr2. constructor; cbn; try done.
  - split; [|done]. intros E. by apply H2 in E.
  - intros E. by destruct (H4 E) as (_ & ? & _).
  - intros E. split; [by apply H5|done].
Qed.

Lemma ctl_stop s : ctl_inv s -> recv s <> RecvNew -> ctl_inv (close_queue (set_recv RecvGone s)).
Proof.
  intros [H1 H2 H3 H4 H5] Hn. constructor; cbn; try done.
  - intros i Hi. split; [|done]. by apply (H3 i).
  - intros E. by destruct (H4 E) as (_ & ? & _).
  - intros E. split; [by apply H5|done].
Qed.

Lemma step_ctl l s s' : ctl_inv s -> step l s s' -> ctl_inv s'.
Proof.
  intros HI H. destruct H as [l s s' _ H|s s' _ H|l s s' _ H|l s s' _ H|l s s' _ H|s s' _ H].
  - destruct H as [s E D|s b s' E D G|s b d ip port E D Hd|s b E D|s b E D|s p E Hq].
    + apply ctl_stop; congruence.
    + destruct (pool_fields _ _ _ G) as (E1 & E2 & E3 & E4 & E5 & _). apply ctl_recv; try congruence. same_ctl.
    + cbn. apply ctl_recv; cbn; try congruence. same_ctl.
    + apply ctl_recv; cbn; try congruence. same_ctl.
    + apply ctl_stop; cbn; try congruence. same_ctl.
    + apply ctl_recv; cbn; try congruence. destruct HI as [H1 H2 H3 H4 H5]. constructor; cbn; try done.
      * rewrite length_app. cbn. lia.
      * intros i Hi. destruct (H3 i Hi) as [_ Hc]. apply H2 in Hc. congruence.
      * intros E'. destruct (H4 E') as (_ & ? & _). congruence.
  - destruct H as [s i p q E Eq|s i p s' E Hpr|s i b E|s i E Eq Ec].
    + apply (ctl_ext (set_queue q (set_workers (<[i := WorkRun p]> (workers s)) s))); [done..|]. by eapply ctl_work; eauto.
    + apply (ctl_process _ _ _ Hpr). by apply (ctl_work i _ _ s (queue s) HI E); [|left].
    + eapply (ctl_ext (set_queue (queue s) (set_workers (<[i := WorkTake]> (workers s)) s))); [done..|].
      by apply (ctl_work i _ _ s (queue s) HI E); [|left].
    + destruct HI as [H1 H2 H3 H4 H5]. constructor; cbn; try done.
      * intros E'. destruct (H4 E') as (Hw & _). by rewrite Hw in E.
      * intros E'. rewrite length_insert. by apply H5.
  - destruct H as [s remote t r Hm Hc Hr|s remote t r Hm Hc Hr|s i c b s' E G|s i c b d E Hd|s i c b E|s i c p s' E Hpr|s i c b E|s i c r E Hr];
      try (rewrite handlers_on_sn; apply ctl_on_sn); try (same_ctl).
    + destruct (pool_fields _ _ _ G) as (E1 & E2 & E3 & E4 & E5 & _). same_ctl.
    + apply (ctl_process _ _ _ Hpr). same_ctl.
  - destruct H as [s Hc Ht|s r Hc Ht Hr|s Hc Ht Hd]; try (same_ctl). rewrite tidying_on_sn. apply ctl_on_sn. same_ctl.
  - destruct H as [s Hs|s Hs Hd|s Hs|s Hs|s Hs Hw|s Hs|s Hs]; try (same_ctl); destruct HI as [H1 H2 H3 H4 H5].
    + destruct (H4 Hs) as (Hw & Hr & Hq). constructor; cbn -[numWorkers replicate]; try done.
      * split; [|done]. intros E. apply H2 in E. congruence.
      * intros i Hi. by apply lookup_replicate in Hi as [? _].
    + constructor; cbn; try done. intros _. apply H5. congruence.
  - destruct H; same_ctl.
Qed.

Lemma listen_inv s0 s : reachable s0 s -> data_inv s0 s /\ ctl_inv s.
Proof.
  induction 1 as [|l s s' _ [HD HC] Hst].
  - split; constructor; cbn; try done; [|lia]. constructor; cbn; [apply NoDup_nil_2|done|done].
  - split; [|by eapply step_ctl]. eapply step_data; [done| |done].
    destruct (decide (main_pc s = MainSetup)) as [E|E]; [|by left]. right. by destruct (inv_setup s HC E) as (? & ? & _).
Qed.
End Invariant.

(** ** Theorems *)
Section Progress.
Context `{IPP : IPPool, RSA : RSALib, NET : Net, CDC : SNCodec} {MR : MapRange (list Z)}
  {MRZ : MapRange Z} {MRN : MapRange nat}.

(** A datagram that arrives first reaches [ProcessPacket]. *)
Lemma first_datagram s0 d ip port : bytes_ok d -> exists s, reachable s0 s /\
  received s = [(take bufsize d, UDPAddr ip port)] /\ processed s = received s /\ overlapped s = false /\
  let r := ProcessPacket (take bufsize d) (UDPAddr ip port) s0 in
  sn s = r.2 /\ ended s = match r.1 with Panic => Some Crashed | _ => None end.
Proof.
  intros Hd.
  set (s1 := set_main MainListen (set_recv RecvSelect (set_workers (replicate numWorkers WorkTake) (fresh_listen s0)))).
  assert (reachable s0 s1) as R1 by (eapply reach_step; [apply reach_start|apply by_main; [done|by apply main_listen]]).
  set (s2 := set_recv (RecvRead 0) (set_pool (<[0%nat := replicate bufsize 0]> (mem s1)) (free s1) s1)).
  assert (reachable s0 s2) as R2 by (eapply reach_step; [exact R1|apply by_recv; [done|apply recv_get; [done|done|by apply get_new]]]).
  pose proof (recv_packet s2 0%nat d ip port eq_refl eq_refl Hd) as H3. unfold read_into in H3. cbv beta iota zeta in H3.
  set (p := mkPacket _ _ _) in H3. set (s3 := log_received _ _) in H3.
  assert (reachable s0 (set_recv (RecvSend p) s3)) as R3 by (eapply reach_step; [exact R2|apply by_recv; [done|exact H3]]).
  assert (queue s3 = []) as F1 by done.
  set (s4 := set_recv RecvSelect (set_queue [p] (set_recv (RecvSend p) s3))).
  assert (reachable s0 s4) as R4.
  { eapply reach_step; [exact R3|]. apply by_recv; [done|]. unfold s4. change [p] with ([] ++ [p]).
    rewrite <-F1. apply (recv_send (set_recv (RecvSend p) s3)); [done|]. change (0 < chanSize)%nat. unfold chanSize. lia. }
  set (s5 := set_queue [] (set_workers (<[0%nat := WorkRun p]> (workers s4)) (enter s4))).
  assert (reachable s0 s5) as R5 by (eapply reach_step; [exact R4|apply by_worker; [done|by apply (work_take s4 0 p [])]]).
  set (s6 := set_workers (<[0%nat := WorkPut (pkt_data p)]> (workers s5)) s5).
  assert (packet_of (mem s3) p = (take bufsize d, UDPAddr ip port)) as Hp.
  { apply (packet_read _ 0%nat d (UDPAddr ip port) (replicate bufsize 0)); [apply lookup_insert_eq|apply length_replicate]. }
  set (r := ProcessPacket (take bufsize d) (UDPAddr ip port) s0).
  set (s7 := on_sn r (log_processed (take bufsize d, UDPAddr ip port) s6)).
  assert (process p s6 s7) as Hpr.
  { unfold process. change (mem s6) with (mem s3). rewrite Hp. by exists r. }
  assert (reachable s0 s7) as R7 by (eapply reach_step; [exact R5|apply by_worker; [done|by apply (work_run s5 0 p s7)]]).
  exists s7. split; [exact R7|]. unfold s7, on_sn, r. by destruct (ProcessPacket _ _ s0) as [[] s'].
Qed.

(** What the process can still do on its own once it shuts down. *)
Definition recv_weight (r : RecvPC) : nat := match r with RecvSelect => 1 | RecvRead _ => 2 | RecvSend _ => 5 | _ => 0 end.
Definition work_weight (w : WorkPC) : nat := match w with WorkTake => 1 | WorkRun _ => 3 | WorkPut _ => 2 | WorkGone => 0 end.
Definition conn_weight (c : list Z * ConnPC) : nat :=
  match c.2 with ConnGet | ConnLeave => 1 | ConnRun _ => 3 | ConnPut _ => 2 | _ => 0 end.
Definition remaining (s : ListenState) : nat :=
  recv_weight (recv s) + 3 * length (queue s) + sum_list (work_weight <$> workers s) + sum_list (conn_weight <$> handlers_ws s) +
  (if cleaning s then 1 else 0) + (if tidying s then 1 else 0) + match main_pc s with MainSetup => 12 | MainListen => 2 | MainAfter => 1 end +
  match sig s with SigIdle => 4 | SigWait => 3 | SigClose => 2 | SigExit => 1 end + match ended s with None => 1 | Some _ => 0 end.

Lemma remaining_on_sn r s : (remaining (on_sn r s) <= remaining s)%nat.
Proof. unfold on_sn, remaining. destruct r as [[] ?]; cbn; destruct (ended s); lia. Qed.

Lemma remaining_process p s s' : process p s s' -> (remaining s' <= remaining s)%nat.
Proof. unfold process. destruct (packet_of _ _). intros (r & _ & ->). etransitivity; [apply remaining_on_sn|]. done. Qed.

Local Ltac weigh := unfold remaining; cbn -[Nat.mul];
  repeat match goal with
  | H : ?l !! ?i = Some ?y |- context [sum_list (?f <$> <[?i := ?x]> ?l)] =>
      let E := fresh in pose proof (sum_insert f l i x y H) as E; cbn in E;
      generalize dependent (sum_list (f <$> <[i := x]> l)); intros
  end.

(** Two calls in progress have overlapped. *)
Lemma calls_on_sn r s : calls (on_sn r s) = calls s /\ overlapped (on_sn r s) = overlapped s.
Proof. unfold on_sn. by destruct r as [[] ?]. Qed.

Lemma calls_process p s s' : process p s s' -> calls s' = calls s /\ overlapped s' = overlapped s.
Proof. unfold process. destruct (packet_of _ _). intros (r & _ & ->). by destruct (calls_on_sn r (log_processed (l, n) s)). Qed.

Local Ltac count := unfold calls in *; cbn -[Nat.eqb] in *;
  repeat match goal with
  | H : ?l !! ?i = Some ?y |- context [sum_list (?f <$> <[?i := ?x]> ?l)] =>
      let E := fresh in pose proof (sum_insert f l i x y H) as E; cbn in E;
      generalize dependent (sum_list (f <$> <[i := x]> l)); intros
  end; rewrite ?fmap_app, ?sum_list_with_app; cbn;
  repeat match goal with
  | H : _ || _ = false |- _ => apply orb_false_iff in H as [? ?]
  | H : negb _ = false |- _ => apply negb_false_iff, Nat.eqb_eq in H; unfold calls in H
  end.

Lemma step_calls l s s' : (overlapped s = false -> (calls s <= 1)%nat) -> step l s s' -> overlapped s' = false -> (calls s' <= 1)%nat.
Proof.
  intros HI H. destruct H as [l s s' N H|s s' N H|l s s' N H|l s s' N H|l s s' N H|s s' N H].
  - destruct H as [s E _|s b s' E D' G|s b d ip port E _ Hd|s b E _|s b E _|s p E Hq]; try exact HI. by destruct G.
  - destruct H as [s i p q E Eq|s i p s' E Hpr|s i b E|s i E Eq Ec]; [intros Ho|destruct (calls_process _ _ _ Hpr) as [-> ->]; intros Ho|intros Ho..];
      count; try specialize (HI Ho); lia.
  - destruct H as [s remote t r Hm Hc Hr|s remote t r Hm Hc Hr|s i c b s' E G|s i c b d E Hd|s i c b E|s i c p s' E Hpr|s i c b E|s i c r E Hr];
      rewrite ?handlers_on_sn, ?(proj1 (calls_on_sn _ _)), ?(proj2 (calls_on_sn _ _)).
    1,2,4,5,7,8: intros Ho; count; try specialize (HI Ho); lia.
    + destruct G; intros Ho; count; specialize (HI Ho); lia.
    + destruct (calls_process _ _ _ Hpr) as [-> ->]. intros Ho. count. specialize (HI Ho). lia.
  - destruct H as [s Hc Ht|s r Hc Ht Hr|s Hc Ht _]; rewrite ?tidying_on_sn, ?(proj1 (calls_on_sn _ _)), ?(proj2 (calls_on_sn _ _)); intros Ho; count;
      try specialize (HI Ho); rewrite ?Ht in *; lia.
  - destruct H as [s Hs|s Hs Hd|s Hs|s Hs|s Hs Hw|s Hs|s Hs]; try exact HI. intros Ho. specialize (HI Ho). unfold calls in *. cbn in *. lia.
  - destruct H; exact HI.
Qed.

Lemma calls_solo s0 s : reachable s0 s -> overlapped s = false -> (calls s <= 1)%nat.
Proof. induction 1 as [|l s s' _ IH Hst]; [cbn; lia|]. by eapply step_calls. Qed.

Lemma listen_decreases l s s' : l = Inside -> shutting_down s = true -> step l s s' -> (remaining s' < remaining s)%nat.
Proof.
  intros Hl D H. destruct H as [l s s' N H|s s' N H|l s s' N H|l s s' N H|l s s' N H|s s' N H]; try discriminate Hl.
  - destruct H as [s E _|s b s' E D' G|s b d ip port E _ Hd|s b E _|s b E _|s p E Hq]; try discriminate Hl; [|congruence|..];
      unfold remaining; cbn -[Nat.mul]; rewrite E; cbn -[Nat.mul]; rewrite ?length_app; cbn -[Nat.mul]; lia.
  - destruct H as [s i p q E Eq|s i p s' E Hpr|s i b E|s i E Eq Ec]; [|eapply Nat.le_lt_trans; [exact (remaining_process _ _ _ Hpr)|]|..];
      weigh; rewrite ?Eq; cbn -[Nat.mul]; lia.
  - destruct H as [s remote t r Hm Hc Hr|s remote t r Hm Hc Hr|s i c b s' E G|s i c b d E Hd|s i c b E|s i c p s' E Hpr|s i c b E|s i c r E Hr]; try discriminate Hl.
    + destruct G; weigh; lia.
    + eapply Nat.le_lt_trans; [exact (remaining_process _ _ _ Hpr)|]. weigh. lia.
    + weigh. lia.
    + rewrite handlers_on_sn. eapply Nat.le_lt_trans; [apply remaining_on_sn|]. weigh. lia.
  - destruct H as [s Hc Ht|s r Hc Ht Hr|s Hc Ht _]; [discriminate Hl|rewrite tidying_on_sn; eapply Nat.le_lt_trans; [apply remaining_on_sn|]|];
      unfold remaining; cbn -[Nat.mul]; rewrite Hc, Ht; lia.
  - destruct H as [s Hs|s Hs Hd|s Hs|s Hs|s Hs Hw|s Hs|s Hs]; try discriminate Hl; unfold remaining; cbn -[Nat.mul]; rewrite ?Hs, ?N; lia.
Qed.

Lemma process_fields p s s' : process p s s' -> recv s' = recv s /\ sig s' = sig s /\ main_pc s' = main_pc s.
Proof. unfold process. destruct (packet_of _ _). intros (r & _ & ->). unfold on_sn. by destruct r as [[] ?]. Qed.

Lemma inside_shutting l s s' : step l s s' -> shutting_down s = true -> shutting_down s' = true.
Proof.
  assert (forall r s, shutting_down (on_sn r s) = shutting_down s) as Ho by (intros [[] ?] ?; done).
  assert (forall p s s', process p s s' -> shutting_down s' = shutting_down s) as Hp.
  { intros p t t' H. unfold shutting_down. by destruct (process_fields p t t' H) as (_ & -> & _). }
  intros H D. destruct H as [l s s' N H|s s' N H|l s s' N H|l s s' N H|l s s' N H|s s' N H]; destruct H; try done;
    try (rewrite ?handlers_on_sn, ?tidying_on_sn, Ho; done);
    match goal with H : pool_Get _ _ _ |- _ => by destruct H | H : process _ _ _ |- _ => by rewrite (Hp _ _ _ H) end.
Qed.

Lemma inside_bounded n s s' : shutting_down s = true -> nsteps (step Inside) n s s' -> (n + remaining s' <= remaining s)%nat.
Proof.
  intros D H. induction H as [|n x y z Hxy _ IH]; [lia|].
  pose proof (listen_decreases Inside x y eq_refl D Hxy). specialize (IH (inside_shutting _ _ _ Hxy D)). lia.
Qed.

Lemma rtc_shutting s s' : rtc (step Inside) s s' -> shutting_down s = true -> shutting_down s' = true.
Proof. induction 1; eauto using inside_shutting. Qed.

Lemma inside_enabled s : shutting_down s = true -> ended s = None -> exists s', step Inside s s'.
Proof.
  intros D N. destruct (main_pc s) eqn:E; eexists; apply by_main; try done; [by apply main_listen|by apply main_unblock|by apply main_return].
Qed.

(** The wait of [Shutdown] is over only when the receive loop has returned. *)
Lemma wait_over s : ctl_inv s -> main_pc s <> MainSetup -> wg_done s -> recv s = RecvGone /\ queue s = [] /\ (workers s ≫= work_items) = [].
Proof.
  intros [_ I2 I3 _ I5] Hm [_ Hw]. destruct (I5 Hm) as [Hl _].
  destruct (workers s) as [|w ws] eqn:E; [done|]. pose proof Hw as Hw'. apply Forall_cons in Hw as [<- _].
  destruct (I3 0%nat eq_refl) as [Hq Hc]. split; [by apply I2|]. split; [done|].
  clear -Hw'. induction Hw' as [|x l <- _ IH]; [done|]. exact IH.
Qed.

Lemma blocked_step l s s' b : l <> Input -> ctl_inv s -> main_pc s <> MainSetup -> sig s = SigWait -> recv s = RecvRead b -> step l s s' ->
  main_pc s' <> MainSetup /\ sig s' = SigWait /\ recv s' = RecvRead b.
Proof.
  intros Hl HI Hm Hs Hr H.
  assert (forall r s, recv (on_sn r s) = recv s /\ sig (on_sn r s) = sig s /\ main_pc (on_sn r s) = main_pc s) as Ho by (intros [[] ?] ?; done).
  destruct H as [l s s' N H|s s' N H|l s s' N H|l s s' N H|l s s' N H|s s' N H].
  - destruct H as [s E D|s b' s' E D G|s b' d ip port E D Hd|s b' E D|s b' E D|s p E Hq]; try congruence.
    unfold conn_closed in D. by rewrite Hs in D.
  - destruct H as [s i p q E Eq|s i p s' E Hpr|s i b' E|s i E Eq Ec]; try done.
    destruct (process_fields _ _ _ Hpr) as (-> & -> & ->). done.
  - destruct H as [s remote t r Hm' Hc Hr'|s remote t r Hm' Hc Hr'|s i c b' s' E G|s i c b' d E Hd|s i c b' E|s i c p s' E Hpr|s i c b' E|s i c r E Hr'];
      try done; rewrite ?handlers_on_sn.
    + destruct (Ho r (set_handlers (handlers_ws s ++ [(str "ws-" ++ remote, ConnGet)]) (enter s))) as (-> & -> & ->). done.
    + destruct (Ho r (set_handlers (handlers_ws s ++ [(str "wss-" ++ remote, ConnGet)]) (enter s))) as (-> & -> & ->). done.
    + by destruct G.
    + destruct (process_fields _ _ _ Hpr) as (-> & -> & ->). done.
    + destruct (Ho r (set_handlers (<[i:=(c, ConnGone)]> (handlers_ws s)) (enter s))) as (-> & -> & ->). done.
  - destruct H as [s Hc Ht|s r Hc Ht Hr'|s Hc Ht Hd]; [done| |done]. rewrite tidying_on_sn.
    destruct (Ho r (set_tidying false s)) as (-> & -> & ->). done.
  - destruct H as [s E|s E Hd|s E|s E|s E Hw|s E|s E]; try congruence; try done.
    destruct (wait_over s HI Hm Hw) as (E' & _). congruence.
  - by destruct H.
Qed.

(** Runs that show the theorems below are about states that occur. *)
Lemma reading_at_signal s0 : exists s, reachable s0 s /\ main_pc s = MainListen /\ sig s = SigWait /\ recv s = RecvRead 0 /\ ended s = None.
Proof.
  set (s1 := set_main MainListen (set_recv RecvSelect (set_workers (replicate numWorkers WorkTake) (fresh_listen s0)))).
  assert (reachable s0 s1) as R1 by (eapply reach_step; [apply reach_start|apply by_main; [done|by apply main_listen]]).
  set (s2 := set_recv (RecvRead 0) (set_pool (<[0%nat := replicate bufsize 0]> (mem s1)) (free s1) s1)).
  assert (reachable s0 s2) as R2 by (eapply reach_step; [exact R1|apply by_recv; [done|apply recv_get; [done|done|by apply get_new]]]).
  exists (set_sig SigWait s2). split; [|done]. eapply reach_step; [exact R2|]. apply by_main; [done|]. by apply sig_arrives.
Qed.

Lemma workers_stop s0 k : forall j s, reachable s0 s -> ended s = None -> queue s = [] -> queue_closed s = true ->
  workers s = replicate j WorkGone ++ replicate k WorkTake ->
  exists s', reachable s0 s' /\ workers s' = replicate (j + k) WorkGone /\ main_pc s' = main_pc s /\ cleaning s' = cleaning s.
Proof.
  induction k as [|k IH]; intros j s R N Hq Hc Hw.
  - exists s. rewrite Hw, app_nil_r, Nat.add_0_r. done.
  - set (s1 := set_workers (<[j := WorkGone]> (workers s)) s).
    assert (reachable s0 s1) as R1.
    { eapply reach_step; [exact R|]. apply by_worker; [done|]. apply work_stop; [|done|done].
      rewrite Hw, lookup_app_r; rewrite length_replicate; [|lia]. by rewrite Nat.sub_diag. }
    destruct (IH (S j) s1 R1 N Hq Hc) as (s' & R' & Hw' & Hm' & Hc').
    { cbn [workers s1 set_workers]. rewrite Hw, insert_app_r_alt; rewrite length_replicate; [|lia]. rewrite Nat.sub_diag.
      change (<[0%nat:=WorkGone]> (replicate (S k) WorkTake)) with ([WorkGone] ++ replicate k WorkTake).
      rewrite app_assoc. f_equal. change [WorkGone] with (replicate 1 WorkGone). rewrite <-replicate_add. f_equal. lia. }
    exists s'. split; [done|]. rewrite Hw'. split; [f_equal; lia|done].
Qed.

Lemma drained_state s0 : exists s, reachable s0 s /\ main_pc s = MainListen /\ wg_done s.
Proof.
  set (s1 := set_main MainListen (set_recv RecvSelect (set_workers (replicate numWorkers WorkTake) (fresh_listen s0)))).
  assert (reachable s0 s1) as R1 by (eapply reach_step; [apply reach_start|apply by_main; [done|by apply main_listen]]).
  assert (reachable s0 (set_sig SigWait s1)) as R2 by (eapply reach_step; [exact R1|apply by_main; [done|by apply sig_arrives]]).
  set (s3 := stop_cleaning (set_sig SigWait s1)).
  assert (reachable s0 s3) as R3 by (eapply reach_step; [exact R2|apply by_cleaner; [done|by apply clean_stop]]).
  assert (reachable s0 (close_queue (set_recv RecvGone s3))) as R4 by (eapply reach_step; [exact R3|apply by_recv; [done|by apply recv_stop]]).
  destruct (workers_stop s0 numWorkers 0 _ R4 eq_refl eq_refl eq_refl eq_refl) as (s & R & Hw & Hm & Hc).
  exists s. split; [done|]. split; [by rewrite Hm|]. split; [by rewrite Hc|]. rewrite Hw. by apply Forall_replicate.
Qed.
End Progress.

(** C29. No packet is lost or mixed up between the goroutines: in every state
    the process of [main] can reach, whatever interleaving of the receive loop,
    the eight workers, the websocket connections, the cleanup routine and the
    shutdown led to it, and whatever overlapping calls do to the supernode, the
    packets received are those whose call of [ProcessPacket] has returned and
    those still on their way or in the call, each once and with the bytes that
    were read, although buffers are reused; no buffer is held twice and the
    channel holds at most 100 packets.  As long as no two calls on the supernode
    have been in progress at once, its state is one that packets, connections and
    cleanups processed one after the other lead to. *)
Theorem listen_refines `{IPP : IPPool, RSA : RSALib, NET : Net, CDC : SNCodec} {MR : MapRange (list Z)}
    {MRZ : MapRange Z} {MRN : MapRange nat} s0 s : reachable s0 s ->
  received s ≡ₚ processed s ++ pending s /\ NoDup (item_buf <$> items s) /\ (length (queue s) <= chanSize)%nat /\
  (overlapped s = false -> (calls s <= 1)%nat /\ rtc supernode_step s0 (sn s)).
Proof.
  intros H. destruct (listen_inv s0 s H) as [[[L1 _ L3] _ _ R] C]. split; [exact L3|]. split; [exact L1|].
  split; [exact (inv_cap s C)|]. intros Ho. split; [by apply (calls_solo s0)|by apply R].
Qed.

(** C30. A graceful shutdown loses nothing: when the wait of [Shutdown] is over
    after [Listen] has started, the receive loop has returned, the channel is
    empty, and every datagram that was received has been processed; only frames
    of websockets, for which [Shutdown] does not wait, can be on their way. *)
Theorem shutdown_drains `{IPP : IPPool, RSA : RSALib, NET : Net, CDC : SNCodec} {MR : MapRange (list Z)}
    {MRZ : MapRange Z} {MRN : MapRange nat} s0 s : reachable s0 s -> main_pc s <> MainSetup -> wg_done s ->
  recv s = RecvGone /\ queue s = [] /\
  exists rest, received s ≡ₚ processed s ++ rest /\ Forall (fun x => exists c, x.2 = WSSAddr c) rest.
Proof.
  intros H Hm Hw. destruct (listen_inv s0 s H) as [[[_ _ L3] _ W _] C]. destruct (wait_over s C Hm Hw) as (E1 & E2 & E3).
  split; [done|]. split; [done|]. exists (pending s). split; [exact L3|]. unfold pending, items, udp_items. rewrite E1, E2, E3. cbn [recv_items app fmap].
  rewrite omap_app. replace (omap (item_packet (mem s)) (Loose <$> free s)) with (@nil (list Z * netAddr)).
  - cbn [app]. clear -W. induction W as [|x l Hx _ IH]; [constructor|]. destruct x as [b|p]; [exact IH|]. by constructor.
  - induction (free s); cbn; congruence.
Qed.

(** [Shutdown] waits for a datagram: while the receive loop is in
    [ReadFromUDP] and nothing arrives, [Shutdown] stays in its wait whatever
    the other goroutines do, since the socket is closed only after it. *)
Theorem shutdown_needs_datagram `{IPP : IPPool, RSA : RSALib, NET : Net, CDC : SNCodec} {MR : MapRange (list Z)}
    {MRZ : MapRange Z} {MRN : MapRange nat} s0 s s' b :
  reachable s0 s -> main_pc s <> MainSetup -> sig s = SigWait -> recv s = RecvRead b ->
  rtc (fun x y => exists l, l <> Input /\ step l x y) s s' -> sig s' = SigWait /\ recv s' = RecvRead b.
Proof.
  intros H Hm Hs Hr Hrt. induction Hrt as [|x y z (l & Hl & Hst) _ IH]; [done|].
  destruct (blocked_step l x y b Hl (proj2 (listen_inv s0 x H)) Hm Hs Hr Hst) as (Hm' & Hs' & Hr').
  apply IH; try done. by eapply reach_step.
Qed.

(** C31. The signal ends the process: once the channel of the shutdown is closed,
    the goroutines take a bounded number of steps on their own, and where they
    can take none the process has ended; [main] returns from [Listen] without
    the wait of [Shutdown]. *)
Theorem signal_ends `{IPP : IPPool, RSA : RSALib, NET : Net, CDC : SNCodec} {MR : MapRange (list Z)}
    {MRZ : MapRange Z} {MRN : MapRange nat} s : shutting_down s = true ->
  (forall n s', nsteps (step Inside) n s s' -> (n <= remaining s)%nat) /\
  (forall s', rtc (step Inside) s s' -> (forall s'', ~ step Inside s' s'') -> ended s' <> None).
Proof.
  intros D. split.
  - intros n s' Hn. pose proof (inside_bounded n s s' D Hn). lia.
  - intros s' Hr Hstuck Hn. destruct (inside_enabled s' (rtc_shutting s s' Hr D) Hn) as [s'' Hs]. by apply (Hstuck s'').
Qed.

(** One empty datagram from anybody ends the process. *)
Theorem empty_datagram_crash `{IPP : IPPool, RSA : RSALib, NET : Net, CDC : SNCodec} {MR : MapRange (list Z)}
    {MRZ : MapRange Z} {MRN : MapRange nat} s0 ip port :
  exists s, reachable s0 s /\ received s = [([], UDPAddr ip port)] /\ ended s = Some Crashed.
Proof.
  destruct (first_datagram s0 [] ip port (Forall_nil_2 _)) as (s & R & E1 & _ & _ & _ & E2). exists s. split; [exact R|].
  rewrite take_nil in *. split; [exact E1|]. by rewrite E2.
Qed.

(** ** Witnesses *)
Import Sample.

Lemma listen_refines_witness : exists s, reachable start s /\
  (received s ≡ₚ processed s ++ pending s /\ NoDup (item_buf <$> items s) /\ (length (queue s) <= chanSize)%nat) /\
  rtc supernode_step start (sn s) /\ processed s = [(take bufsize (reg (str "ab") [1; 2]), addr 1)].
Proof.
  assert (bytes_ok (reg (str "ab") [1; 2])) as Hb by (apply (bool_decide_unpack _); vm_compute; exact I).
  destruct (first_datagram start (reg (str "ab") [1; 2]) [192; 0; 2; 1] 4000 Hb) as (s & R & E1 & E2 & Eo & _). exists s. split; [exact R|].
  destruct (listen_refines start s R) as (H2 & H3 & H4 & H5). split; [split; [exact H2|]; split; [exact H3|exact H4]|].
  split; [exact (proj2 (H5 Eo))|]. rewrite E2. exact E1.
Defined.

Lemma shutdown_drains_witness : exists s, reachable start s /\ wg_done s /\ recv s = RecvGone /\ queue s = [].
Proof.
  destruct (drained_state start) as (s & R & Hm & Hw). exists s. split; [exact R|]. split; [exact Hw|].
  assert (main_pc s <> MainSetup) as Hn by (rewrite Hm; discriminate).
  destruct (shutdown_drains start s R Hn Hw) as (H1 & H2 & _). split; [exact H1|exact H2].
Defined.

Lemma shutdown_needs_datagram_witness : exists s s', reachable start s /\ main_pc s' = MainAfter /\ sig s' = SigWait /\ recv s' = RecvRead 0.
Proof.
  destruct (reading_at_signal start) as (s & R & Hm & Hs & Hr & Hn). exists s, (set_main MainAfter s). split; [exact R|]. split; [reflexivity|].
  apply (shutdown_needs_datagram start s (set_main MainAfter s) 0%nat R); [rewrite Hm; discriminate|exact Hs|exact Hr|].
  apply rtc_once. exists Inside. split; [discriminate|]. apply by_main; [exact Hn|]. apply main_unblock; [exact Hm|].
  unfold shutting_down. rewrite Hs. reflexivity.
Defined.

Lemma signal_ends_witness : exists s s', reachable start s /\ shutting_down s = true /\
  rtc (step Inside) s s' /\ ended s' = Some Returned /\ forall n s', nsteps (step Inside) n s s' -> (n <= remaining s)%nat.
Proof.
  destruct (reading_at_signal start) as (s & R & Hm & Hs & Hr & Hn).
  assert (shutting_down s = true) as D by (unfold shutting_down; rewrite Hs; reflexivity).
  exists s, (set_ended Returned (set_main MainAfter s)). split; [exact R|]. split; [exact D|]. split.
  - apply (rtc_l _ _ (set_main MainAfter s)); [apply by_main; [exact Hn|apply main_unblock; [exact Hm|exact D]]|].
    apply rtc_once. apply by_main; [exact Hn|apply main_return; reflexivity].
  - split; [reflexivity|]. destruct (signal_ends s D) as [H _]. exact H.
Defined.
