(* ===== verification/Hosts.v ===== *)
(** * The hosts file: [pkg/syshosts]

    The in-memory hosts file of an edge and its edits ([hostsfiles.go],
    [extents.go]).  A file is its bytes; an entry's host names are a list, each
    entry owning its slice.  The one operation that makes entries share a
    backing array, [WrapLinesAtMaxHostsPerLine], is modelled a second time
    with the arrays, together with the [append]s of [Add], in module
    [Sharing]. *)
From S2P Require Import Prelude GoBytes GoNet.
From stdpp Require Import gmap list strings sets sorting.
From Stdlib Require Import ZArith Lia.
Open Scope Z_scope.

Record hostEntry := mkEntry {
  he_IP : list Z; Hostnames : list (list Z); Raw : list Z; IsActive : bool }.

#[export] Instance hostEntry_eq_dec : EqDecision hostEntry.
Proof. solve_decision. Defined.

(** The file system is the content of the hosts file, if it can be read. *)
Record Hosts := mkHosts { entries : list hostEntry; file : option (list Z) }.

Definition ErrInvalidIP : goerr := ErrNew "invalid IP address format".
Definition ErrHostnameNotFound : goerr := ErrNew "hostname not found".
Definition ErrIPNotFound : goerr := ErrNew "ip address not found".
Definition ErrHostEntryNotFound : goerr := ErrNew "host entry (ip/hostname pair) not found".
Definition errNoHost : goerr := ErrNew "at least one hostname must be provided".
Definition errNoValidHost : goerr := ErrNew "no valid hostnames provided".
Definition errNoHostRemoval : goerr := ErrNew "at least one hostname must be provided for removal".
Definition errNoValidHostRemoval : goerr := ErrNew "no valid hostnames provided for removal".
Definition errEmptyHost : goerr := ErrNew "hostname cannot be empty".
Definition errRead : goerr := ErrWrap "failed to read hosts file" (ErrNew "os").
Definition errScan : goerr := ErrWrap "error scanning hosts file content" (ErrNew "bufio.Scanner: token too long").

(** ** [hostsfiles.go] *)
Definition parseLine (line : list Z) : hostEntry :=
  let trimmedLine := TrimSpace line in
  let entry := mkEntry [] [] line false in
  if bool_decide (trimmedLine = []) || HasPrefix trimmedLine (str "#") then entry
  else match Fields trimmedLine with
       | ipStr :: ((_ :: _) as hostnames) =>
           match ParseIP ipStr with
           | None => entry
           | Some _ => mkEntry ipStr hostnames line true
           end
       | _ => entry
       end.

Definition formatEntry (ip : list Z) (hostnames : list (list Z)) : list Z :=
  ip ++ [9] ++ strings_Join hostnames [32].

(** [bufio.ScanLines]: the lines without their end, a final carriage return
    dropped; a last line needs no newline. *)
Definition drop_cr (l : list Z) : list Z :=
  match last l with Some 13 => removelast l | _ => l end.

Fixpoint scan_lines (s cur : list Z) : list (list Z) :=
  match s with
  | [] => match cur with [] => [] | _ => [drop_cr cur] end
  | b :: s' => if b =? 10 then drop_cr cur :: scan_lines s' [] else scan_lines s' (cur ++ [b])
  end.

Definition MaxScanTokenSize : Z := 65536.

(** The lines with their end: one that does not fit the scanner's buffer (a
    last line needs a free byte to see the end of the file) is an error. *)
Fixpoint raw_lines (s cur : list Z) : list (list Z) :=
  match s with
  | [] => match cur with [] => [] | _ => [cur] end
  | b :: s' => if b =? 10 then (cur ++ [10]) :: raw_lines s' [] else raw_lines s' (cur ++ [b])
  end.

Definition loadAndParse (file : option (list Z)) : outcome (list hostEntry) :=
  match file with
  | None => Err errRead
  | Some content =>
      if forallb (fun l => if HasSuffix l [10] then len l <=? MaxScanTokenSize else len l <? MaxScanTokenSize)
           (raw_lines content [])
      then Ok (parseLine <$> scan_lines content [])
      else Err errScan
  end.

Definition NewHosts (file : option (list Z)) : outcome Hosts :=
  es ← loadAndParse file; Ok (mkHosts es file).

Definition set_entries (es : list hostEntry) (h : Hosts) : Hosts := mkHosts es (file h).

Definition clean_names (hosts : list (list Z)) : list (list Z) :=
  List.filter (fun h => negb (bool_decide (h = []))) (TrimSpace <$> hosts).

(** Appends the names not yet there, in order. *)
Definition add_names (names : list (list Z)) (new : list (list Z)) : list (list Z) :=
  foldl (fun acc h => if bool_decide (h ∈ acc) then acc else acc ++ [h]) names new.

(** The first active entry of the address is extended. *)
Fixpoint add_to_first (ip : list Z) (valid : list (list Z)) (es : list hostEntry) : option (list hostEntry) :=
  match es with
  | [] => None
  | e :: es' =>
      if IsActive e && bool_decide (he_IP e = ip) then
        let names := add_names (Hostnames e) valid in
        let raw := if bool_decide (names = Hostnames e) then Raw e else formatEntry (he_IP e) names in
        Some (mkEntry (he_IP e) names raw (IsActive e) :: es')
      else (fun es'' => e :: es'') <$> add_to_first ip valid es'
  end.

Definition Add (ip : list Z) (hosts : list (list Z)) : M Hosts unit :=
  if bool_decide (ParseIP ip = None) then merr ErrInvalidIP
  else if bool_decide (hosts = []) then merr errNoHost
  else
    let validHosts := clean_names hosts in
    if bool_decide (validHosts = []) then merr errNoValidHost
    else modify (fun h => set_entries
      (match add_to_first ip validHosts (entries h) with
       | Some es => es
       | None => entries h ++ [mkEntry ip validHosts (formatEntry ip validHosts) true]
       end) h).

Definition output (es : list hostEntry) : list Z := strings_Join (Raw <$> es) [10].

(** The content [Write] saves; [ok] is whether the file system takes it. *)
Definition Write (ok : bool) : M Hosts unit :=
  h ← gets id;
  let out := output (entries h) in
  let out := if HasSuffix out [10] then out else out ++ [10] in
  if ok then modify (fun h => mkHosts (entries h) (Some out))
  else merr (ErrWrap "failed to write hosts file" (ErrNew "os")).

Definition has_pair (es : list hostEntry) (ip host : list Z) : bool :=
  existsb (fun e => IsActive e && bool_decide (he_IP e = ip) && bool_decide (host ∈ Hostnames e)) es.

Definition Has (ip host : list Z) (h : Hosts) : bool :=
  let host := TrimSpace host in
  if bool_decide (host = []) then false else has_pair (entries h) ip host.

Definition has_name (es : list hostEntry) (host : list Z) : bool :=
  existsb (fun e => IsActive e && bool_decide (host ∈ Hostnames e)) es.

Definition HasHostname (host : list Z) (h : Hosts) : bool :=
  let host := TrimSpace host in
  if bool_decide (host = []) then false else has_name (entries h) host.

Definition HasIP (ip : list Z) (h : Hosts) : bool :=
  existsb (fun e => IsActive e && bool_decide (he_IP e = ip)) (entries h).

(** An entry without the names in [gone]: unchanged if it has none of them,
    dropped if it has no other. *)
Definition strip (gone : list Z -> bool) (e : hostEntry) : option hostEntry :=
  let remaining := List.filter (fun x => negb (gone x)) (Hostnames e) in
  if negb (existsb gone (Hostnames e)) then Some e
  else if bool_decide (remaining = []) then None
  else Some (mkEntry (he_IP e) remaining (formatEntry (he_IP e) remaining) (IsActive e)).

(** The new entries are kept only when a whole entry went away. *)
Definition Remove (ip : list Z) (hosts : list (list Z)) : M Hosts unit :=
  if bool_decide (ParseIP ip = None) then merr ErrInvalidIP
  else if bool_decide (hosts = []) then merr errNoHostRemoval
  else
    let names := clean_names hosts in
    if bool_decide (names = []) then merr errNoValidHostRemoval else
    h ← gets id;
    let gone x := bool_decide (x ∈ names) in
    let mine e := IsActive e && bool_decide (he_IP e = ip) in
    let foundIP := existsb mine (entries h) in
    let modified := existsb (fun e => mine e && existsb gone (Hostnames e)) (entries h) in
    let newEntries := omap (fun e => if mine e then strip gone e else Some e) (entries h) in
    let entryRemoved := existsb (fun e => mine e && bool_decide (strip gone e = None)) (entries h) in
    if negb foundIP then merr ErrIPNotFound
    else if negb modified then merr ErrHostEntryNotFound
    else if entryRemoved then modify (set_entries newEntries)
    else mret tt.

Definition RemoveByHostname (host : list Z) : M Hosts unit :=
  let host := TrimSpace host in
  if bool_decide (host = []) then merr errEmptyHost else
  h ← gets id;
  if negb (has_name (entries h) host) then merr ErrHostnameNotFound
  else modify (set_entries
    (omap (fun e => if IsActive e then strip (fun x => bool_decide (x = host)) e else Some e) (entries h))).

Definition RemoveByIP (ip : list Z) : M Hosts unit :=
  modify (fun h => set_entries
    (List.filter (fun e => negb (IsActive e && bool_decide (he_IP e = ip))) (entries h)) h).

Definition Hosts_String (h : Hosts) : list Z :=
  let out := output (entries h) in
  if negb (bool_decide (entries h = [])) && negb (HasSuffix out [10]) then out ++ [10] else out.

Definition Reload : M Hosts unit :=
  h ← gets id;
  es ← mlift (loadAndParse (file h));
  modify (set_entries es).

(** ** [extents.go] *)
Definition InsertRaw (lines : list (list Z)) : M Hosts unit :=
  modify (fun h => set_entries (entries h ++ (parseLine <$> lines)) h).

(** The first occurrence of each name that is not in [seen]. *)
Fixpoint uniq (seen : list (list Z)) (l : list (list Z)) : list (list Z) :=
  match l with
  | [] => []
  | x :: l' => if bool_decide (x ∈ seen) then uniq seen l' else x :: uniq (seen ++ [x]) l'
  end.

Definition reformat (e : hostEntry) (names : list (list Z)) : hostEntry :=
  mkEntry (he_IP e) names (formatEntry (he_IP e) names) (IsActive e).

(** Pass 1 of [RemoveDuplicateHosts], per entry. *)
Definition dedup_line (e : hostEntry) : hostEntry :=
  if negb (IsActive e) || bool_decide (length (Hostnames e) <= 1)%nat then e
  else let u := uniq [] (Hostnames e) in
       if bool_decide (u = Hostnames e) then e else reformat e u.

(** Pass 2: [seenGlobal] grows along the active entries. *)
Fixpoint dedup_global (seenGlobal : list (list Z)) (es : list hostEntry) : list hostEntry :=
  match es with
  | [] => []
  | e :: es' =>
      if negb (IsActive e) then e :: dedup_global seenGlobal es'
      else if bool_decide (Hostnames e = []) then dedup_global seenGlobal es'
      else
        let u := uniq seenGlobal (Hostnames e) in
        if bool_decide (u = []) then dedup_global seenGlobal es'
        else (if bool_decide (u = Hostnames e) then e else reformat e u)
             :: dedup_global (seenGlobal ++ u) es'
  end.

Definition removeDuplicateHostsInternal (h : Hosts) : Hosts :=
  set_entries (dedup_global [] (dedup_line <$> entries h)) h.

Definition RemoveDuplicateHosts : M Hosts unit := modify removeDuplicateHostsInternal.

(** The consecutive windows of [count] names. *)
Fixpoint chunks (fuel count : nat) (l : list (list Z)) : list (list (list Z)) :=
  match fuel, l with
  | S f, _ :: _ => take count l :: chunks f count (drop count l)
  | _, _ => []
  end.

Definition wrap_entry (count : nat) (e : hostEntry) : list hostEntry :=
  if negb (IsActive e) || bool_decide (length (Hostnames e) <= count)%nat then [e]
  else (fun c => mkEntry (he_IP e) c (formatEntry (he_IP e) c) true)
         <$> chunks (length (Hostnames e)) count (Hostnames e).

Definition WrapLinesAtMaxHostsPerLine (count : Z) : M Hosts unit :=
  if count <=? 0 then mret tt
  else modify (fun h => set_entries (entries h ≫= wrap_entry (Z.to_nat count)) h).

(** [ipMap[ip]]: the host names of all active entries of an address. *)
Definition names_of (es : list hostEntry) (ip : list Z) : list (list Z) :=
  es ≫= fun e => if IsActive e && bool_decide (he_IP e = ip) then Hostnames e else [].

(** [keepEntries]: the inactive entries and the first active one per address. *)
Fixpoint keep_first (seen : list (list Z)) (es : list hostEntry) : list hostEntry :=
  match es with
  | [] => []
  | e :: es' =>
      if negb (IsActive e) then e :: keep_first seen es'
      else if bool_decide (he_IP e ∈ seen) then keep_first seen es'
      else e :: keep_first (seen ++ [he_IP e]) es'
  end.

Definition combineDuplicateIPsInternal (h : Hosts) : Hosts :=
  let keep := keep_first [] (entries h) in
  if bool_decide (length keep = length (entries h)) then h
  else set_entries ((fun k => if IsActive k
         then let u := uniq [] (names_of (entries h) (he_IP k)) in
              mkEntry (he_IP k) u (formatEntry (he_IP k) u) true
         else k) <$> keep) h.

Definition CombineDuplicateIPs : M Hosts unit := modify combineDuplicateIPsInternal.

Definition removeEmptyActiveEntriesInternal (h : Hosts) : Hosts :=
  set_entries (List.filter (fun e => negb (IsActive e && bool_decide (Hostnames e = []))) (entries h)) h.

Definition Clean : M Hosts unit :=
  modify (fun h => removeEmptyActiveEntriesInternal
    (removeDuplicateHostsInternal (combineDuplicateIPsInternal h))).

(** [sort.Strings]: the sorted list is unique, so any sorting algorithm. *)
Definition str_le (a b : list Z) : Prop := str_ltb b a = false.
#[export] Instance str_le_dec a b : Decision (str_le a b).
Proof. unfold str_le. apply _. Defined.

Definition sort_line (e : hostEntry) : hostEntry :=
  if IsActive e && bool_decide (1 < length (Hostnames e))%nat
     && negb (bool_decide (Sorted str_le (Hostnames e)))
  then reformat e (merge_sort str_le (Hostnames e)) else e.

Definition SortHosts : M Hosts bool :=
  h ← gets id;
  modify (set_entries (sort_line <$> entries h));;
  mret (existsb (fun e => IsActive e && bool_decide (1 < length (Hostnames e))%nat
                  && negb (bool_decide (Sorted str_le (Hostnames e)))) (entries h)).

(** [bytes.Compare]. *)
Definition bytes_Compare (a b : list Z) : Z :=
  if bool_decide (a = b) then 0 else if str_ltb a b then -1 else 1.

Definition compareIPStrings (ipStr1 ipStr2 : list Z) : Z :=
  match ParseIP ipStr1, ParseIP ipStr2 with
  | None, None => 0
  | None, Some _ => -1
  | Some _, None => 1
  | Some ip1, Some ip2 =>
      let is4_1 := negb (bool_decide (To4 ip1 = [])) in
      let is4_2 := negb (bool_decide (To4 ip2 = [])) in
      if is4_1 && negb is4_2 then -1
      else if negb is4_1 && is4_2 then 1
      else bytes_Compare ip1 ip2
  end.

(** [sort.SliceStable]: insertion that keeps equal elements in order. *)
Fixpoint insert_stable (e : hostEntry) (l : list hostEntry) : list hostEntry :=
  match l with
  | [] => [e]
  | x :: l' => if compareIPStrings (he_IP x) (he_IP e) <=? 0 then x :: insert_stable e l' else e :: l
  end.

Definition sort_stable (l : list hostEntry) : list hostEntry := foldl (fun acc e => insert_stable e acc) [] l.

Definition SortIPs : M Hosts unit :=
  modify (fun h => set_entries
    (List.filter (fun e => negb (IsActive e)) (entries h) ++
     sort_stable (List.filter IsActive (entries h))) h).

(** ** Entries over shared backing arrays *)
Module Sharing.

(** A [[]string]: a window of an array, which may extend beyond the length. *)
Record Slice := mkSlice { arr : nat; off : nat; slen : nat; scap : nat }.
Notation Heap := (list (list (list Z))).

Definition read (hp : Heap) (s : Slice) : list (list Z) := take (slen s) (drop (off s) (hp !!! arr s)).

(** [s[a:b]]: the capacity reaches to the end of the array. *)
Definition window (s : Slice) (a b : nat) : Slice := mkSlice (arr s) (off s + a) (b - a) (scap s - a).

(** [append(s, x)]: in place while there is capacity, else in a new array of
    [grow] cells. *)
Definition append (grow : nat -> nat) (hp : Heap) (s : Slice) (x : list Z) : Heap * Slice :=
  if (slen s <? scap s)%nat
  then (<[arr s := <[(off s + slen s)%nat := x]> (hp !!! arr s)]> hp, mkSlice (arr s) (off s) (S (slen s)) (scap s))
  else (hp ++ [read hp s ++ [x] ++ replicate (grow (slen s) - S (slen s)) []],
        mkSlice (length hp) 0 (S (slen s)) (Nat.max (S (slen s)) (grow (slen s)))).

Record entry := mkSEntry { se_IP : list Z; se_Hostnames : Slice; se_Raw : list Z; se_IsActive : bool }.

(** The windows that start at [start], [start + count], ... *)
Fixpoint windows (fuel count start : nat) (s : Slice) : list Slice :=
  match fuel with
  | O => []
  | S f => if (start <? slen s)%nat
           then window s start (Nat.min (start + count) (slen s)) :: windows f count (start + count) s
           else []
  end.

Definition wrap_shared (hp : Heap) (count : nat) (e : entry) : list entry :=
  if negb (se_IsActive e) || (slen (se_Hostnames e) <=? count)%nat then [e]
  else (fun w => mkSEntry (se_IP e) w (formatEntry (se_IP e) (read hp w)) true)
         <$> windows (slen (se_Hostnames e)) count 0 (se_Hostnames e).

Definition append_new (grow : nat -> nat) (st : Heap * Slice * bool) (x : list Z) : Heap * Slice * bool :=
  let '(hp, s, added) := st in
  if bool_decide (x ∈ read hp s) then st else (append grow hp s x, true).

Definition add_shared (grow : nat -> nat) (valid : list (list Z)) (hp : Heap) (e : entry) : Heap * entry :=
  let '(hp', s', added) := foldl (append_new grow) (hp, se_Hostnames e, false) valid in
  (hp', mkSEntry (se_IP e) s' (if added then formatEntry (se_IP e) (read hp' s') else se_Raw e) (se_IsActive e)).

Fixpoint add_shared_first (grow : nat -> nat) (ip : list Z) (valid : list (list Z)) (hp : Heap) (es : list entry)
  : option (Heap * list entry) :=
  match es with
  | [] => None
  | e :: es' =>
      if se_IsActive e && bool_decide (se_IP e = ip) then
        let '(hp', e') := add_shared grow valid hp e in Some (hp', e' :: es')
      else '(hp', es'') ← add_shared_first grow ip valid hp es'; Some (hp', e :: es'')
  end.

End Sharing.
