(* ===== verification/HostsProps.v ===== *)
(** * Properties of the hosts file

    Formatting against parsing, the edits as operations on the set of pairs of
    address and name, the normalisations, and what wrapped lines share. *)
From stdpp Require Import gmap list strings sets sorting.
From Stdlib Require Import ZArith Lia.
From S2P Require Import Prelude GoBytes GoNet Hosts.
Open Scope Z_scope.

(** ** Splitting ASCII text *)
Definition ascii_text (s : list Z) : Prop := Forall (fun c => 0 <= c < 128) s.

(** A printable word: what a host name or an address is made of. *)
Definition word (s : list Z) : Prop := s <> [] /\ Forall (fun c => 33 <= c < 127) s.

#[export] Instance word_dec s : Decision (word s).
Proof. unfold word. apply _. Defined.

Lemma word_ascii s : word s -> ascii_text s.
Proof. intros [_ H]. eapply Forall_impl; [exact H|]. simpl. lia. Qed.

Lemma nonspace c : 33 <= c < 127 -> IsSpace c = false.
Proof.
  intros H. unfold IsSpace.
  repeat match goal with
  | |- context [?a <=? ?b] => destruct (Z.leb_spec a b); try lia
  | |- context [?a =? ?b] => destruct (Z.eqb_spec a b); try lia
  end; done.
Qed.

Lemma range_ascii s : forall i, ascii_text s ->
  range_str_aux (length s) i s = imap (fun k c => (i + k, c, [c])%nat) s.
Proof.
  induction s as [|c s IH]; intros i H; [done|]. apply Forall_cons in H as [Hc Hs].
  cbn [length range_str_aux]. rewrite decode_rune_ascii by done. rewrite imap_cons, Nat.add_0_r. f_equal.
  cbn [drop]. rewrite IH by done. apply imap_ext. intros k x _. simpl. do 2 f_equal. lia.
Qed.

(** [strings.Fields] on bytes. *)
Fixpoint fields_bytes (s cur : list Z) : list (list Z) :=
  match s with
  | [] => match cur with [] => [] | _ => [cur] end
  | c :: s' =>
      if IsSpace c then match cur with [] => fields_bytes s' [] | _ => cur :: fields_bytes s' [] end
      else fields_bytes s' (cur ++ [c])
  end.

Lemma Fields_ascii s : ascii_text s -> Fields s = fields_bytes s [].
Proof.
  unfold Fields, range_str. generalize 0%nat. generalize (@nil Z) as cur.
  induction s as [|c s IH]; intros cur i H; [done|]. apply Forall_cons in H as [Hc Hs].
  cbn [length range_str_aux fields_bytes]. rewrite decode_rune_ascii by done. cbn [fields_aux drop].
  unfold space_seg. cbn [fst snd take]. destruct (IsSpace c); [destruct cur; [by apply IH|f_equal; by apply IH]|by apply IH].
Qed.

Lemma fields_word w s cur : Forall (fun c => 33 <= c < 127) w ->
  fields_bytes (w ++ s) cur = fields_bytes s (cur ++ w).
Proof.
  revert cur. induction w as [|c w IH]; intros cur H; [by rewrite app_nil_r|].
  apply Forall_cons in H as [Hc Hw]. simpl. rewrite nonspace by done. rewrite IH by done.
  by rewrite <-app_assoc.
Qed.

Lemma fields_words ws : Forall word ws -> fields_bytes (strings_Join ws [32]) [] = ws.
Proof.
  induction ws as [|w ws IH]; intros H; [done|]. apply Forall_cons in H as [[Hne Hw] Hws].
  destruct ws as [|w' ws].
  - simpl. rewrite <-(app_nil_r w) at 1. rewrite fields_word by done. simpl. by destruct w.
  - change (strings_Join (w :: w' :: ws) [32]) with (w ++ 32 :: strings_Join (w' :: ws) [32]).
    rewrite fields_word by done. cbn [fields_bytes]. change (IsSpace 32) with true. cbn [app].
    rewrite IH by done. by destruct w.
Qed.

Lemma join_words ws : Forall word ws -> ws <> [] ->
  ascii_text (strings_Join ws [32]) /\ exists m b, strings_Join ws [32] = m ++ [b] /\ 33 <= b < 127.
Proof.
  induction ws as [|w ws IH]; intros H Hne; [done|]. apply Forall_cons in H as [Hw Hws].
  destruct ws as [|w' ws].
  - simpl. split; [by apply word_ascii|]. destruct Hw as [Hn Hc].
    destruct (exists_last Hn) as (m & b & ->). exists m, b. split; [done|].
    apply Forall_app in Hc as [_ Hb]. by apply Forall_cons in Hb as [? _].
  - destruct (IH Hws ltac:(done)) as (Ha & m & b & E & Hb).
    change (strings_Join (w :: w' :: ws) [32]) with (w ++ 32 :: strings_Join (w' :: ws) [32]). split.
    + apply Forall_app. split; [by apply word_ascii|]. constructor; [lia|done].
    + exists (w ++ 32 :: m), b. split; [|done]. rewrite E. by rewrite <-app_assoc.
Qed.

Lemma drop_while_head {A} (f : A -> bool) l x : head l = Some x -> f x = false -> drop_while f l = l.
Proof. destruct l; [done|]. simpl. by intros [= ->] ->. Qed.

Lemma TrimSpace_ascii s a b : ascii_text s -> head s = Some a -> last s = Some b ->
  IsSpace a = false -> IsSpace b = false -> TrimSpace s = s.
Proof.
  intros Hasc Hh Hl Ha Hb. unfold TrimSpace.
  assert (range_str s = imap (fun k c => (k, c, [c])%nat) s) as E by (unfold range_str; by rewrite range_ascii).
  rewrite (drop_while_head _ (range_str s) (0%nat, a, [a])).
  - rewrite (drop_while_head _ (reverse (range_str s)) (pred (length s), b, [b])).
    + by rewrite reverse_involutive, range_str_bytes.
    + rewrite head_reverse, last_lookup, E, length_imap, list_lookup_imap.
      rewrite last_lookup in Hl. by rewrite Hl.
    + done.
  - rewrite E. destruct s; [done|]. simpl in *. by injection Hh as ->.
  - done.
Qed.

Lemma format_shape ip hosts : word ip -> Forall word hosts -> hosts <> [] ->
  TrimSpace (formatEntry ip hosts) = formatEntry ip hosts /\ Fields (formatEntry ip hosts) = ip :: hosts /\
  HasPrefix (formatEntry ip hosts) (str "#") = HasPrefix ip (str "#") /\ formatEntry ip hosts <> [].
Proof.
  intros Hip Hhs Hne. destruct (join_words hosts Hhs Hne) as (Ha & m & b & E & Hb).
  assert (ascii_text (formatEntry ip hosts)) as Hasc.
  { unfold formatEntry. apply Forall_app. split; [by apply word_ascii|]. constructor; [lia|done]. }
  destruct Hip as [Hn Hc]. destruct ip as [|c ip]; [done|]. pose proof Hc as Hc'. apply Forall_cons in Hc' as [Hc0 _].
  split_and!.
  - apply (TrimSpace_ascii _ c b); [done|done| |by apply nonspace|by apply nonspace].
    unfold formatEntry. rewrite E. by rewrite !app_assoc, last_snoc.
  - rewrite Fields_ascii by done. unfold formatEntry. rewrite fields_word by done. cbn [app fields_bytes].
    change (IsSpace 9) with true. cbn. by rewrite fields_words.
  - done.
  - done.
Qed.

(** A line written for an address and its host names reads back as that
    active entry: formatting is inverted by parsing. *)
Theorem parse_format ip hosts :
  word ip -> Forall word hosts -> hosts <> [] -> is_Some (ParseIP ip) -> HasPrefix ip (str "#") = false ->
  parseLine (formatEntry ip hosts) = mkEntry ip hosts (formatEntry ip hosts) true.
Proof.
  intros Hip Hhs Hne [x Hx] Hp. destruct (format_shape ip hosts Hip Hhs Hne) as (Ht & Hf & Hpre & Hnil).
  unfold parseLine. rewrite Ht, Hpre, Hp, bool_decide_eq_false_2 by done. cbn [orb]. rewrite Hf.
  destruct hosts as [|h hs]; [done|]. by rewrite Hx.
Qed.

Lemma parse_format_witness :
  parseLine (formatEntry (str "10.128.0.7") [str "alice"; str "alice.lan"]) =
  mkEntry (str "10.128.0.7") [str "alice"; str "alice.lan"] (str "10.128.0.7" ++ [9] ++ str "alice alice.lan") true.
Proof.
  apply (parse_format (str "10.128.0.7") [str "alice"; str "alice.lan"]);
    (apply (bool_decide_unpack _); vm_compute; exact I).
Defined.

(** ** Adding *)
Lemma add_names_elem names new x : x ∈ add_names names new <-> x ∈ names \/ x ∈ new.
Proof.
  unfold add_names. revert names. induction new as [|h new IH]; intros names; simpl; [set_solver|].
  rewrite IH. case_bool_decide; set_solver.
Qed.

Lemma has_pair_spec es ip host : has_pair es ip host = true <->
  exists e, e ∈ es /\ IsActive e = true /\ he_IP e = ip /\ host ∈ Hostnames e.
Proof.
  unfold has_pair. rewrite existsb_exists. split.
  - intros (e & Hin & Hb). apply list_elem_of_In in Hin.
    apply andb_prop in Hb as [Hb H3]. apply andb_prop in Hb as [H1 H2].
    apply bool_decide_eq_true_1 in H2, H3. eauto 10.
  - intros (e & Hin & H1 & H2 & H3). exists e. split; [by apply list_elem_of_In|].
    rewrite H1. by rewrite !bool_decide_eq_true_2.
Qed.

Lemma has_pair_cons e es ip host : has_pair (e :: es) ip host =
  IsActive e && bool_decide (he_IP e = ip) && bool_decide (host ∈ Hostnames e) || has_pair es ip host.
Proof. done. Qed.

Lemma has_pair_app l1 l2 ip host : has_pair (l1 ++ l2) ip host = has_pair l1 ip host || has_pair l2 ip host.
Proof. apply existsb_app. Qed.

Lemma add_to_first_has ip valid es es' ip' host : add_to_first ip valid es = Some es' ->
  has_pair es' ip' host = has_pair es ip' host || bool_decide (ip' = ip /\ host ∈ valid).
Proof.
  revert es'. induction es as [|e es IH]; intros es' H; [done|]. cbn [add_to_first] in H.
  destruct (IsActive e && bool_decide (he_IP e = ip)) eqn:Em.
  - injection H as <-. rewrite !has_pair_cons. cbn [IsActive he_IP Hostnames].
    apply andb_prop in Em as [Ha Hi]. apply bool_decide_eq_true_1 in Hi. rewrite Ha. cbn [andb].
    apply eq_bool_prop_intro. rewrite !orb_True, !andb_True, !bool_decide_spec, add_names_elem.
    subst ip. naive_solver.
  - apply fmap_Some in H as (es'' & H & ->). rewrite !has_pair_cons, (IH _ H). by rewrite orb_assoc.
Qed.

(** [Add] is a set insertion: it is refused, without effect, exactly for
    an invalid address, no names, or only blank names; otherwise exactly the
    pairs present before and those of the address with each cleaned host name
    are present afterwards. *)
Theorem add_has ip hosts h : let '(r, h') := Add ip hosts h in
  if bool_decide (ParseIP ip = None) then r = Err ErrInvalidIP /\ h' = h
  else if bool_decide (hosts = []) then r = Err errNoHost /\ h' = h
  else if bool_decide (clean_names hosts = []) then r = Err errNoValidHost /\ h' = h
  else r = Ok tt /\ forall ip' host, has_pair (entries h') ip' host =
         has_pair (entries h) ip' host || bool_decide (ip' = ip /\ host ∈ clean_names hosts).
Proof.
  unfold Add, modify. repeat (case_bool_decide; [done|]). cbv beta iota zeta. cbn [entries set_entries].
  split; [done|]. intros ip' host.
  destruct (add_to_first ip (clean_names hosts) (entries h)) as [es|] eqn:E.
  - by apply add_to_first_has.
  - rewrite has_pair_app, has_pair_cons. cbn [IsActive he_IP Hostnames].
    change (has_pair [] ip' host) with false. rewrite orb_false_r. f_equal.
    apply eq_bool_prop_intro. rewrite !andb_True, !bool_decide_spec. naive_solver.
Qed.

(** ** Removing *)
Lemma strip_names gone e x : (exists e', strip gone e = Some e' /\ x ∈ Hostnames e') <->
  x ∈ Hostnames e /\ gone x = false.
Proof.
  unfold strip. assert (forall y, y ∈ List.filter (fun x => negb (gone x)) (Hostnames e) <->
    y ∈ Hostnames e /\ gone y = false) as Hf.
  { intros y. rewrite !list_elem_of_In, filter_In, negb_true_iff. done. }
  destruct (existsb gone (Hostnames e)) eqn:Eg; simpl.
  - case_bool_decide as Er.
    + rewrite <-Hf, Er. set_solver.
    + split; [intros (e' & [= <-] & H)|intros H; eexists; split; [reflexivity|]]; by apply Hf.
  - split.
    + intros (e' & [= <-] & Hx). split; [done|]. destruct (gone x) eqn:Gx; [|done].
      assert (existsb gone (Hostnames e) = true); [|congruence].
      apply existsb_exists. exists x. split; [by apply list_elem_of_In|done].
    + intros [Hx _]. eauto.
Qed.

Lemma strip_fields gone e e' : strip gone e = Some e' -> he_IP e' = he_IP e /\ IsActive e' = IsActive e.
Proof. unfold strip. repeat case_match; naive_solver. Qed.

(** The pairs of a list whose selected entries are stripped. *)
Lemma strip_has (sel : hostEntry -> bool) (gone : list Z -> bool) es ip host :
  has_pair (omap (fun e => if sel e then strip gone e else Some e) es) ip host = true <->
  exists e, e ∈ es /\ IsActive e = true /\ he_IP e = ip /\ host ∈ Hostnames e /\ (sel e = true -> gone host = false).
Proof.
  rewrite has_pair_spec. split.
  - intros (e' & Hin & Ha & Hi & Hh). apply list_elem_of_omap in Hin as (e & Hin & Hs).
    destruct (sel e) eqn:Esel; [|injection Hs as <-; exists e; by rewrite Esel].
    destruct (strip_fields _ _ _ Hs) as [E1 E2]. exists e. rewrite <-E1, <-E2.
    assert (host ∈ Hostnames e /\ gone host = false) as [? ?] by (apply strip_names; eauto). done.
  - intros (e & Hin & Ha & Hi & Hh & Hg). destruct (sel e) eqn:Esel.
    + destruct (proj2 (strip_names gone e host) (conj Hh (Hg eq_refl))) as (e' & Hs & Hh').
      destruct (strip_fields _ _ _ Hs) as [E1 E2]. exists e'. split; [|by rewrite E1, E2].
      apply list_elem_of_omap. exists e. by rewrite Esel.
    + exists e. split; [|done]. apply list_elem_of_omap. exists e. by rewrite Esel.
Qed.

(** [RemoveByHostname] removes the host name from every address and
    nothing else; it fails, without effect, exactly when no active entry has
    the name. *)
Theorem remove_by_hostname host h : TrimSpace host <> [] ->
  let '(r, h') := RemoveByHostname host h in
  if has_name (entries h) (TrimSpace host) then
    r = Ok tt /\ forall ip x, has_pair (entries h') ip x = has_pair (entries h) ip x && bool_decide (x <> TrimSpace host)
  else r = Err ErrHostnameNotFound /\ h' = h.
Proof.
  intros Hne. unfold RemoveByHostname. rewrite bool_decide_eq_false_2 by done.
  rewrite gets_bind. unfold id. destruct (has_name (entries h) (TrimSpace host)); [|done].
  cbn [negb]. unfold modify. cbv beta iota. split; [done|]. cbn [entries set_entries]. intros ip x.
  apply eq_bool_prop_intro. rewrite andb_True, bool_decide_spec, !Is_true_true, strip_has, has_pair_spec.
  split.
  - intros (e & H1 & H2 & H3 & H4 & H5). split; [eauto 10|]. specialize (H5 H2).
    by apply bool_decide_eq_false_1 in H5.
  - intros ((e & H1 & H2 & H3 & H4) & Hx). exists e. split_and!; try done. intros _.
    by apply bool_decide_eq_false_2.
Qed.

Definition sample_hosts : Hosts :=
  mkHosts [parseLine (str "127.0.0.1 localhost"); parseLine (str "# note");
           parseLine (str "10.0.0.1 a b"); parseLine (str "10.0.0.1 c a")] None.

Lemma remove_by_hostname_witness :
  has_pair (entries (RemoveByHostname (str "a") sample_hosts).2) (str "10.0.0.1") (str "a") = false.
Proof.
  pose proof (remove_by_hostname (str "a") sample_hosts) as H.
  destruct (RemoveByHostname (str "a") sample_hosts) as [r h'] eqn:E.
  assert (has_name (entries sample_hosts) (TrimSpace (str "a")) = true) as Hn by (vm_compute; reflexivity).
  rewrite Hn in H. destruct H as [_ H]; [vm_compute; discriminate|]. simpl. rewrite H.
  vm_compute. reflexivity.
Defined.

(** [Remove] loses partial removals: when every entry of the address that
    holds one of the names keeps another one, the call reports success and the
    entries are unchanged. *)
Theorem remove_partial_lost ip hosts h :
  is_Some (ParseIP ip) -> hosts <> [] -> clean_names hosts <> [] ->
  (exists e, e ∈ entries h /\ IsActive e = true /\ he_IP e = ip /\
     exists x, x ∈ Hostnames e /\ x ∈ clean_names hosts) ->
  (forall e, e ∈ entries h -> IsActive e = true -> he_IP e = ip -> exists x, x ∈ Hostnames e /\ x ∉ clean_names hosts) ->
  Remove ip hosts h = (Ok tt, h).
Proof.
  intros [a Ha] Hh Hc (e & Hin & Hact & Hip & x & Hx & Hxc) Hall. unfold Remove.
  rewrite bool_decide_eq_false_2 by (by rewrite Ha). rewrite !bool_decide_eq_false_2 by done.
  rewrite gets_bind. unfold id. cbv zeta.
  set (gone := fun x => bool_decide (x ∈ clean_names hosts)).
  assert (forall f : hostEntry -> bool, f e = true -> existsb f (entries h) = true) as Hex.
  { intros f Hf. apply existsb_exists. exists e. split; [by apply list_elem_of_In|done]. }
  rewrite Hex by (rewrite Hact; by rewrite bool_decide_eq_true_2). cbn [negb].
  rewrite Hex. 2:{ rewrite Hact, bool_decide_eq_true_2 by done. cbn [andb]. apply existsb_exists. exists x.
                   split; [by apply list_elem_of_In|]. by apply bool_decide_eq_true_2. }
  cbn [negb].
  assert (existsb (fun e => IsActive e && bool_decide (he_IP e = ip) && bool_decide (strip gone e = None)) (entries h)
    = false) as ->; [|done].
  apply not_true_iff_false. intros (e' & Hin' & Hb)%existsb_exists. apply list_elem_of_In in Hin'.
  apply andb_prop in Hb as [Hb H3]. apply andb_prop in Hb as [H1 H2].
  apply bool_decide_eq_true_1 in H2, H3. destruct (Hall e' Hin' H1 H2) as (y & Hy & Hyc).
  destruct (proj2 (strip_names gone e' y)) as (e2 & He2 & _); [|congruence].
  split; [done|]. by apply bool_decide_eq_false_2.
Qed.

Lemma remove_partial_lost_witness :
  Remove (str "10.0.0.1") [str "a"] sample_hosts = (Ok tt, sample_hosts) /\
  Has (str "10.0.0.1") (str "a") sample_hosts = true.
Proof.
  split; [|vm_compute; reflexivity].
  apply (remove_partial_lost (str "10.0.0.1") [str "a"] sample_hosts).
  - vm_compute. eauto.
  - discriminate.
  - vm_compute. discriminate.
  - exists (parseLine (str "10.0.0.1 a b")). split; [do 2 right; left|]. split; [reflexivity|]. split; [reflexivity|].
    exists (str "a"). split; [vm_compute; left|vm_compute; left].
  - intros e He Ha Hi. unfold sample_hosts in He. cbn [entries] in He.
    repeat (apply elem_of_cons in He as [->|He]); [vm_compute in Hi; discriminate|vm_compute in Ha; discriminate| | |].
    + exists (str "b"). split; [vm_compute; right; left|]. apply (bool_decide_unpack _). vm_compute. exact I.
    + exists (str "c"). split; [vm_compute; left|]. apply (bool_decide_unpack _). vm_compute. exact I.
    + by apply elem_of_nil in He.
Defined.

(** ** Normalising *)
Lemma uniq_elem l : forall seen x, x ∈ uniq seen l <-> x ∈ l /\ x ∉ seen.
Proof.
  induction l as [|y l IH]; intros seen x; simpl; [set_solver|].
  case_bool_decide as Hy.
  - rewrite IH, elem_of_cons. split; [tauto|]. intros [[->|?] ?]; tauto.
  - rewrite elem_of_cons, IH, elem_of_cons, elem_of_app, list_elem_of_singleton.
    destruct (decide (x = y)) as [->|]; tauto.
Qed.

Lemma uniq_NoDup l : forall seen, NoDup (uniq seen l).
Proof.
  induction l as [|y l IH]; intros seen; simpl; [constructor|]. case_bool_decide; [apply IH|].
  apply NoDup_cons. split; [|apply IH]. rewrite uniq_elem, elem_of_app, list_elem_of_singleton. tauto.
Qed.

Lemma uniq_ext l : forall s1 s2, (forall x, x ∈ s1 <-> x ∈ s2) -> uniq s1 l = uniq s2 l.
Proof.
  induction l as [|y l IH]; intros s1 s2 Hs; simpl; [done|].
  rewrite (bool_decide_ext (y ∈ s1) (y ∈ s2)) by done. case_bool_decide; [by apply IH|].
  f_equal. apply IH. intros x. by rewrite !elem_of_app, Hs.
Qed.

Lemma uniq_app a : forall seen b, uniq seen (a ++ b) = uniq seen a ++ uniq (seen ++ uniq seen a) b.
Proof.
  induction a as [|y a IH]; intros seen b; simpl; [by rewrite app_nil_r|].
  case_bool_decide; [apply IH|]. simpl. f_equal. rewrite IH. f_equal. apply uniq_ext.
  intros x. rewrite !elem_of_app, !elem_of_cons, elem_of_nil. tauto.
Qed.

(** The host names of the active entries, in order. *)
Definition active_names (es : list hostEntry) : list (list Z) :=
  es ≫= fun e => if IsActive e then Hostnames e else [].

Lemma has_name_spec es x : has_name es x = bool_decide (x ∈ active_names es).
Proof.
  apply eq_bool_prop_intro. rewrite bool_decide_spec. unfold active_names. rewrite list_elem_of_bind.
  unfold has_name. rewrite Is_true_true, existsb_exists. split.
  - intros (e & Hin & Hb). apply andb_prop in Hb as [Ha Hx]. apply bool_decide_eq_true_1 in Hx.
    exists e. rewrite Ha. split; [done|by apply list_elem_of_In].
  - intros (e & Hx & Hin). exists e. split; [by apply list_elem_of_In|].
    destruct (IsActive e); [by apply bool_decide_eq_true_2|by apply elem_of_nil in Hx].
Qed.

Lemma dedup_line_names e x : IsActive (dedup_line e) = IsActive e /\ (x ∈ Hostnames (dedup_line e) <-> x ∈ Hostnames e).
Proof.
  unfold dedup_line. destruct (_ || _); [done|]. case_bool_decide as E; [done|]. simpl. split; [done|].
  rewrite uniq_elem. split; [tauto|]. intros H. split; [done|apply not_elem_of_nil].
Qed.

(** The second pass keeps the first occurrence of each name. *)
Lemma dedup_global_names es : forall seen, active_names (dedup_global seen es) = uniq seen (active_names es).
Proof.
  induction es as [|e es IH]; intros seen; [done|].
  change (active_names (e :: es)) with ((if IsActive e then Hostnames e else []) ++ active_names es).
  cbn [dedup_global]. destruct (IsActive e) eqn:Ea; cbn [negb].
  - rewrite uniq_app. case_bool_decide as En; [rewrite En; simpl; rewrite app_nil_r; apply IH|].
    case_bool_decide as Eu; [rewrite Eu, app_nil_r; simpl; apply IH|].
    case_bool_decide as Ed.
    + change (active_names (e :: ?l)) with ((if IsActive e then Hostnames e else []) ++ active_names l).
      rewrite Ea, IH. by rewrite Ed at 2.
    + change (active_names (reformat e ?u :: ?l)) with ((if IsActive e then u else []) ++ active_names l).
      by rewrite Ea, IH.
  - change (active_names (e :: ?l)) with ((if IsActive e then Hostnames e else []) ++ active_names l).
    rewrite Ea. apply IH.
Qed.

(** [RemoveDuplicateHosts] leaves every host name in exactly one place and
    loses none: the active names are duplicate free and the same set. *)
Theorem remove_duplicate_hosts h :
  let h' := removeDuplicateHostsInternal h in
  NoDup (active_names (entries h')) /\ forall x, has_name (entries h') x = has_name (entries h) x.
Proof.
  cbv zeta. unfold removeDuplicateHostsInternal. cbn [entries set_entries]. rewrite dedup_global_names.
  split; [apply uniq_NoDup|]. intros x. rewrite !has_name_spec, dedup_global_names. apply bool_decide_ext.
  rewrite uniq_elem. unfold active_names. rewrite !list_elem_of_bind. split.
  - intros [(e' & Hx & Hin) _]. apply list_elem_of_fmap in Hin as (e & -> & Hin). exists e. split; [|done].
    destruct (dedup_line_names e x) as [Ea Hn]. rewrite Ea in Hx. destruct (IsActive e); [by apply Hn|done].
  - intros (e & Hx & Hin). split; [|apply not_elem_of_nil]. exists (dedup_line e).
    split; [|by apply list_elem_of_fmap_2]. destruct (dedup_line_names e x) as [-> Hn].
    destruct (IsActive e); [by apply Hn|done].
Qed.

Lemma keep_first_sublist es : forall seen, keep_first seen es `sublist_of` es.
Proof.
  induction es as [|e es IH]; intros seen; simpl; [done|].
  destruct (negb (IsActive e)); [by apply sublist_skip|]. case_bool_decide; [by apply sublist_cons|by apply sublist_skip].
Qed.

Definition active_ips (es : list hostEntry) : list (list Z) := he_IP <$> List.filter IsActive es.

Lemma keep_first_ips es : forall seen ip, ip ∈ active_ips (keep_first seen es) <-> ip ∈ active_ips es /\ ip ∉ seen.
Proof.
  unfold active_ips. induction es as [|e es IH]; intros seen ip; simpl; [set_solver|].
  destruct (IsActive e) eqn:Ea; simpl; [|rewrite Ea; apply IH].
  case_bool_decide as Hs.
  - rewrite IH, elem_of_cons. split; [tauto|]. intros [[->|?] ?]; tauto.
  - simpl. rewrite Ea. simpl. rewrite !elem_of_cons, IH, elem_of_app, list_elem_of_singleton.
    destruct (decide (ip = he_IP e)) as [->|]; tauto.
Qed.

Lemma keep_first_NoDup es : forall seen, NoDup (active_ips (keep_first seen es)).
Proof.
  induction es as [|e es IH]; intros seen; [constructor|]. simpl.
  destruct (IsActive e) eqn:Ea; simpl; [|unfold active_ips; simpl; rewrite Ea; apply IH].
  case_bool_decide; [apply IH|]. unfold active_ips. simpl. rewrite Ea. simpl. apply NoDup_cons.
  split; [|apply IH]. change (he_IP e ∉ active_ips (keep_first (seen ++ [he_IP e]) es)).
  rewrite keep_first_ips, elem_of_app, list_elem_of_singleton. tauto.
Qed.

Lemma elem_of_active_ips es ip : ip ∈ active_ips es <-> exists e, e ∈ es /\ IsActive e = true /\ he_IP e = ip.
Proof.
  unfold active_ips. rewrite list_elem_of_fmap. split.
  - intros (e & -> & Hin). apply list_elem_of_In, filter_In in Hin as [Hin Ha]. exists e.
    by rewrite list_elem_of_In.
  - intros (e & Hin & Ha & <-). exists e. split; [done|]. apply list_elem_of_In, filter_In.
    by rewrite <-list_elem_of_In.
Qed.

Lemma elem_of_names_of es ip x : x ∈ names_of es ip <-> has_pair es ip x = true.
Proof.
  unfold names_of. rewrite list_elem_of_bind, has_pair_spec. split.
  - intros (e & Hx & Hin). destruct (IsActive e) eqn:Ea; [|by apply elem_of_nil in Hx]. simpl in Hx.
    case_bool_decide; [|by apply elem_of_nil in Hx]. eauto 10.
  - intros (e & Hin & Ha & Hi & Hx). exists e. rewrite Ha, bool_decide_eq_true_2 by done. done.
Qed.

Lemma sublist_same_length {A} (l k : list A) : l `sublist_of` k -> (length k <= length l)%nat -> l = k.
Proof.
  induction 1 as [|x l k Hs IH|x l k Hs IH]; simpl; intros Hl; [done|rewrite IH by lia; done|].
  apply sublist_length in Hs. lia.
Qed.

(** The entries an address is combined into. *)
Definition combined (es : list hostEntry) (k : hostEntry) : hostEntry :=
  if IsActive k
  then let u := uniq [] (names_of es (he_IP k)) in mkEntry (he_IP k) u (formatEntry (he_IP k) u) true
  else k.

Lemma combined_ips es l : active_ips (combined es <$> l) = active_ips l.
Proof.
  assert (forall k, IsActive (combined es k) = IsActive k /\ he_IP (combined es k) = he_IP k) as Hc
    by (intros k; unfold combined; destruct (IsActive k) eqn:Ea; simpl; by rewrite ?Ea).
  unfold active_ips. induction l as [|k l IH]; [done|]. rewrite fmap_cons. cbn [List.filter].
  destruct (Hc k) as [-> Hi]. destruct (IsActive k); [|exact IH]. by rewrite !fmap_cons, IH, Hi.
Qed.

Lemma combined_pairs es ip x :
  has_pair (combined es <$> keep_first [] es) ip x = has_pair es ip x.
Proof.
  apply eq_bool_prop_intro. rewrite !Is_true_true, has_pair_spec, <-elem_of_names_of. split.
  - intros (e' & Hin & Ha & Hi & Hx). apply list_elem_of_fmap in Hin as (k & -> & Hin).
    unfold combined in *. destruct (IsActive k) eqn:Ek; [|congruence]. simpl in *. subst ip.
    by apply uniq_elem in Hx as [Hx _].
  - intros Hx. pose proof Hx as Hp. apply elem_of_names_of, has_pair_spec in Hp as (e & Hin & Ha & Hi & _).
    assert (ip ∈ active_ips (keep_first [] es)) as Hk.
    { apply keep_first_ips. split; [apply elem_of_active_ips; eauto|apply not_elem_of_nil]. }
    apply elem_of_active_ips in Hk as (k & Hk & Hka & Hki). exists (combined es k).
    split; [by apply list_elem_of_fmap_2|]. unfold combined. rewrite Hka. simpl. rewrite Hki.
    split_and!; [done..|]. apply uniq_elem. split; [done|apply not_elem_of_nil].
Qed.

(** [CombineDuplicateIPs] leaves one active entry per address, in the order
    of first occurrence, and exactly the pairs that were there. *)
Theorem combine_duplicate_ips h :
  let h' := combineDuplicateIPsInternal h in
  active_ips (entries h') = active_ips (keep_first [] (entries h)) /\ NoDup (active_ips (entries h')) /\
  forall ip x, has_pair (entries h') ip x = has_pair (entries h) ip x.
Proof.
  cbv zeta. unfold combineDuplicateIPsInternal. case_bool_decide as El.
  - assert (keep_first [] (entries h) = entries h) as E
      by (apply sublist_same_length; [apply keep_first_sublist|lia]).
    split_and!; [by rewrite E|rewrite <-E; apply keep_first_NoDup|done].
  - fold (combined (entries h)). cbn [entries set_entries]. rewrite combined_ips.
    split_and!; [done|apply keep_first_NoDup|apply combined_pairs].
Qed.

(** ** Wrapping *)
Lemma chunks_spec count : (0 < count)%nat -> forall fuel l, (length l <= fuel)%nat ->
  concat (chunks fuel count l) = l /\ Forall (fun c => c <> [] /\ (length c <= count)%nat) (chunks fuel count l).
Proof.
  intros Hc. induction fuel as [|f IH]; intros [|x l] Hl; simpl in *; try (split; [done|constructor]); [lia|].
  destruct (IH (drop count (x :: l))) as [H1 H2]; [rewrite length_drop; simpl; lia|].
  split; [rewrite H1; apply take_drop|]. constructor; [|done].
  split; [destruct count; [lia|done]|rewrite length_take; lia].
Qed.

(** The pairs of address and name of the active entries, in file order. *)
Definition pairs (es : list hostEntry) : list (list Z * list Z) :=
  es ≫= fun e => if IsActive e then (fun x => (he_IP e, x)) <$> Hostnames e else [].

Lemma pairs_app es es' : pairs (es ++ es') = pairs es ++ pairs es'.
Proof. apply bind_app. Qed.

Lemma pairs_chunks ip cs :
  pairs ((fun c => mkEntry ip c (formatEntry ip c) true) <$> cs) = (fun x => (ip, x)) <$> concat cs.
Proof.
  induction cs as [|c cs IH]; [done|]. rewrite fmap_cons. cbn [concat]. rewrite fmap_app, <-IH. done.
Qed.

Lemma wrap_entry_spec count e : (0 < count)%nat ->
  pairs (wrap_entry count e) = pairs [e] /\
  forall e', e' ∈ wrap_entry count e -> IsActive e' = true -> (length (Hostnames e') <= count)%nat.
Proof.
  intros Hc. unfold wrap_entry. destruct (IsActive e) eqn:Ea; cbn [negb orb];
    [case_bool_decide as El|]; try (split; [done|]; intros e' ->%list_elem_of_singleton; congruence).
  destruct (chunks_spec count Hc (length (Hostnames e)) (Hostnames e)) as [H1 H2]; [lia|]. split.
  - rewrite pairs_chunks, H1. unfold pairs. simpl. rewrite Ea. by rewrite app_nil_r.
  - intros e' (c & -> & Hin)%list_elem_of_fmap _. by apply (proj1 (Forall_forall _ _) H2).
Qed.

(** After [WrapLinesAtMaxHostsPerLine] no active line has more than [count]
    names, and the pairs of the file are the same, in the same order. *)
Theorem wrap_lines count h : 0 < count ->
  let h' := (WrapLinesAtMaxHostsPerLine count h).2 in
  pairs (entries h') = pairs (entries h) /\
  forall e, e ∈ entries h' -> IsActive e = true -> Z.of_nat (length (Hostnames e)) <= count.
Proof.
  intros Hc. unfold WrapLinesAtMaxHostsPerLine. rewrite (proj2 (Z.leb_gt _ _)) by done.
  cbn [modify snd entries set_entries]. split.
  - induction (entries h) as [|e es IH]; [done|]. rewrite bind_cons, pairs_app, IH.
    rewrite (proj1 (wrap_entry_spec (Z.to_nat count) e ltac:(lia))). by rewrite <-pairs_app.
  - intros e (e0 & Hin & _)%list_elem_of_bind Ha.
    pose proof (proj2 (wrap_entry_spec (Z.to_nat count) e0 ltac:(lia)) e Hin Ha). lia.
Qed.

Lemma wrap_lines_witness :
  length (entries (WrapLinesAtMaxHostsPerLine 1 sample_hosts).2) = 6%nat /\
  pairs (entries (WrapLinesAtMaxHostsPerLine 1 sample_hosts).2) = pairs (entries sample_hosts).
Proof.
  split; [vm_compute; reflexivity|]. apply (wrap_lines 1 sample_hosts). lia.
Defined.

(** ** Sorting by address *)
(** Addresses compare as their family and bytes do. *)
Definition ip_key (s : list Z) : list Z :=
  match ParseIP s with
  | None => [0]
  | Some ip => (if bool_decide (To4 ip = []) then 2 else 1) :: ip
  end.

Lemma compare_key a b : compareIPStrings a b = bytes_Compare (ip_key a) (ip_key b).
Proof.
  unfold compareIPStrings, ip_key, bytes_Compare.
  destruct (ParseIP a) as [x|], (ParseIP b) as [y|]; try done; cycle 1.
  - by destruct (bool_decide (To4 x = [])).
  - by destruct (bool_decide (To4 y = [])).
  - destruct (bool_decide (To4 x = [])), (bool_decide (To4 y = [])); cbn [negb andb]; try done;
    rewrite (bool_decide_ext (_ :: x = _ :: y) (x = y)) by naive_solver; done.
Qed.

Definition ip_le (e e' : hostEntry) : Prop := compareIPStrings (he_IP e) (he_IP e') <= 0.

Lemma ip_le_key e e' : ip_le e e' <-> str_ltb (ip_key (he_IP e')) (ip_key (he_IP e)) = false.
Proof.
  unfold ip_le. rewrite compare_key. unfold bytes_Compare.
  destruct (decide (ip_key (he_IP e) = ip_key (he_IP e'))) as [->|Hne].
  - rewrite bool_decide_eq_true_2 by done. rewrite str_ltb_irrefl. split; [done|lia].
  - rewrite bool_decide_eq_false_2 by done. destruct (str_ltb (ip_key (he_IP e)) _) eqn:E1.
    + split; [intros _|lia]. destruct (str_ltb (ip_key (he_IP e')) _) eqn:E2; [|done].
      pose proof (str_ltb_trans _ _ _ E1 E2) as H. by rewrite str_ltb_irrefl in H.
    + split; [lia|]. intros E2. by destruct Hne; apply str_ltb_total.
Qed.

#[local] Instance ip_le_trans : Transitive ip_le.
Proof.
  intros a b c. rewrite !ip_le_key. intros H1 H2.
  destruct (str_ltb (ip_key (he_IP c)) (ip_key (he_IP a))) eqn:E; [|done].
  destruct (str_ltb (ip_key (he_IP a)) (ip_key (he_IP b))) eqn:E2.
  - pose proof (str_ltb_trans _ _ _ E E2). congruence.
  - pose proof (str_ltb_total _ _ E2 H1) as Heq. rewrite Heq in E. congruence.
Qed.

Lemma insert_stable_perm e l : insert_stable e l ≡ₚ e :: l.
Proof.
  induction l as [|x l IH]; simpl; [done|]. destruct (_ <=? _); [|done]. rewrite IH. apply Permutation_swap.
Qed.

Lemma not_ip_le e e' : ~ ip_le e e' -> ip_le e' e.
Proof.
  rewrite !ip_le_key. intros Hn. destruct (str_ltb (ip_key (he_IP e')) (ip_key (he_IP e))) eqn:E; [|done].
  destruct (str_ltb (ip_key (he_IP e)) (ip_key (he_IP e'))) eqn:E2; [|done].
  pose proof (str_ltb_trans _ _ _ E E2) as H. by rewrite str_ltb_irrefl in H.
Qed.

Lemma list_filter_none {A} (f : A -> bool) l : (forall x, x ∈ l -> f x = false) -> List.filter f l = [].
Proof.
  induction l as [|x l IH]; intros H; [done|]. simpl. rewrite H by left. apply IH. intros y Hy. apply H. by right.
Qed.

(** Insertion into a sorted list: the place is after every element of the
    same address. *)
Lemma insert_stable_spec e l : StronglySorted ip_le l ->
  StronglySorted ip_le (insert_stable e l) /\
  forall ip, List.filter (fun x => bool_decide (he_IP x = ip)) (insert_stable e l) =
    List.filter (fun x => bool_decide (he_IP x = ip)) (l ++ [e]).
Proof.
  induction 1 as [|x l Hs [IH1 IH2] Hall]; simpl; [split; [repeat constructor|done]|].
  destruct (Z.leb_spec (compareIPStrings (he_IP x) (he_IP e)) 0) as [Hle|Hgt]; simpl.
  - split; [|intros ip; by rewrite IH2]. constructor; [done|]. rewrite insert_stable_perm. by constructor.
  - assert (~ ip_le x e) as Hn by (unfold ip_le; lia). split.
    + constructor; [by constructor|]. constructor; [by apply not_ip_le|].
      eapply Forall_impl; [done|]. intros y Hy. etrans; [by apply not_ip_le|done].
    + intros ip. rewrite !List.filter_app. simpl. case_bool_decide as He; [|by rewrite app_nil_r].
      rewrite (bool_decide_eq_false_2 (he_IP x = ip)).
      2:{ intros Hx. apply Hn. unfold ip_le. rewrite compare_key, Hx, He.
          unfold bytes_Compare. by rewrite bool_decide_eq_true_2. }
      assert (List.filter (fun x => bool_decide (he_IP x = ip)) l = []) as ->; [|done].
      apply list_filter_none. intros y Hy. apply bool_decide_eq_false_2. intros Hyi. apply Hn.
      rewrite Forall_forall in Hall. specialize (Hall y Hy). unfold ip_le in *. by rewrite He, <-Hyi.
Qed.

Lemma sort_stable_spec l :
  StronglySorted ip_le (sort_stable l) /\ sort_stable l ≡ₚ l /\
  forall ip, List.filter (fun x => bool_decide (he_IP x = ip)) (sort_stable l) =
    List.filter (fun x => bool_decide (he_IP x = ip)) l.
Proof.
  unfold sort_stable. induction l as [|e l (IH1 & IH2 & IH3)] using rev_ind; [split_and!; by constructor|].
  rewrite foldl_app. simpl. destruct (insert_stable_spec e _ IH1) as [H1 H2].
  split_and!; [done|rewrite insert_stable_perm, IH2; by rewrite Permutation_app_comm|].
  intros ip. rewrite H2, !List.filter_app. by rewrite IH3.
Qed.

(** [SortIPs] puts the inactive entries first, in their order, then the
    active ones sorted by address (IPv4 before IPv6), losing none and keeping
    the order of the entries of one address. *)
Theorem sort_ips h :
  exists active, entries (SortIPs h).2 = List.filter (fun e => negb (IsActive e)) (entries h) ++ active /\
    active ≡ₚ List.filter IsActive (entries h) /\
    StronglySorted (fun e e' => compareIPStrings (he_IP e) (he_IP e') <= 0) active /\
    forall ip, List.filter (fun x => bool_decide (he_IP x = ip)) active =
      List.filter (fun x => bool_decide (he_IP x = ip)) (List.filter IsActive (entries h)).
Proof.
  exists (sort_stable (List.filter IsActive (entries h))).
  destruct (sort_stable_spec (List.filter IsActive (entries h))) as (H1 & H2 & H3). done.
Qed.

(** ** Sharing *)
Import Sharing.

Lemma windows_two count s f : (0 < count < slen s)%nat ->
  exists ws, windows (S (S f)) count 0 s =
    window s 0 count :: window s count (Nat.min (count + count) (slen s)) :: ws.
Proof.
  intros Hc. simpl. rewrite !(proj2 (Nat.ltb_lt _ _)) by lia. rewrite Nat.min_l by lia. eauto.
Qed.

(** An in-place [append] at the end of the first window, seen from it and from
    the next one. *)
Lemma append_windows (a : list (list Z)) o c m x : (o + c < length a)%nat -> (0 < m)%nat ->
  take (S c) (drop o (<[(o + c)%nat := x]> a)) = take c (drop o a) ++ [x] /\
  take m (drop (o + c) (<[(o + c)%nat := x]> a)) = x :: tail (take m (drop (o + c) a)).
Proof.
  intros Hl Hm. split.
  - rewrite drop_insert_ge by lia. replace (o + c - o)%nat with c by lia.
    rewrite (take_S_r _ c x) by (apply list_lookup_insert_eq; rewrite length_drop; lia).
    by rewrite take_insert_ge by lia.
  - rewrite drop_insert_ge by lia. rewrite Nat.sub_diag.
    destruct (drop (o + c) a) as [|y t] eqn:E; [apply (f_equal length) in E; rewrite length_drop in E; simpl in E; lia|].
    destruct m; [lia|]. done.
Qed.

(** After [WrapLinesAtMaxHostsPerLine] the lines of one address share an
    array with spare capacity, so that an [Add] of a new name to that address
    overwrites the first name of the second line in memory, while that line's
    text still has the old name. *)
Theorem wrap_then_add grow hp e count x :
  let s := se_Hostnames e in
  se_IsActive e = true -> (0 < count < slen s)%nat -> (slen s <= scap s)%nat ->
  (arr s < length hp)%nat -> (off s + slen s <= length (hp !!! arr s))%nat -> x ∉ read hp (window s 0 count) ->
  exists e1 e2 rest hp' e1',
    wrap_shared hp count e = e1 :: e2 :: rest /\
    add_shared_first grow (se_IP e) [x] hp (wrap_shared hp count e) = Some (hp', e1' :: e2 :: rest) /\
    read hp' (se_Hostnames e1') = read hp (se_Hostnames e1) ++ [x] /\
    read hp' (se_Hostnames e2) = x :: tail (read hp (se_Hostnames e2)) /\
    se_Raw e2 = formatEntry (se_IP e) (read hp (se_Hostnames e2)).
Proof.
  intros s Ha Hc Hcap Har Hlen Hx. subst s. destruct e as [ip s raw act]; simpl in *. subst act.
  destruct (windows_two count s (slen s - 2) Hc) as [ws Hws].
  replace (S (S (slen s - 2))) with (slen s) in Hws by lia.
  unfold wrap_shared. cbn [se_IsActive se_Hostnames se_IP negb orb].
  rewrite (proj2 (Nat.leb_gt _ _)) by lia. rewrite Hws, !fmap_cons. cbn [add_shared_first se_IsActive se_IP andb].
  rewrite bool_decide_eq_true_2 by done. unfold add_shared. cbn [foldl append_new se_Hostnames].
  rewrite bool_decide_eq_false_2 by done. unfold append. cbn [window slen scap arr off].
  rewrite (proj2 (Nat.ltb_lt _ _)) by lia.
  do 5 eexists. split; [done|]. split; [done|]. unfold read. cbn [se_Hostnames arr off slen window se_Raw].
  rewrite list_lookup_total_insert_eq by done.
  replace (off s + 0 + (count - 0))%nat with (off s + count)%nat by lia.
  replace (off s + 0)%nat with (off s) by lia. replace (count - 0)%nat with count by lia.
  destruct (append_windows (hp !!! arr s) (off s) count (Nat.min (count + count) (slen s) - count) x) as [H1 H2];
    [lia..|]. done.
Qed.

Lemma wrap_then_add_witness :
  exists e1 e2 rest hp' e1',
    wrap_shared [[str "a"; str "b"; str "c"]] 2 (mkSEntry (str "10.0.0.1") (mkSlice 0 0 3 3) [] true) = e1 :: e2 :: rest /\
    add_shared_first (fun n => 2 * n)%nat (str "10.0.0.1") [str "d"] [[str "a"; str "b"; str "c"]]
      (wrap_shared [[str "a"; str "b"; str "c"]] 2 (mkSEntry (str "10.0.0.1") (mkSlice 0 0 3 3) [] true))
      = Some (hp', e1' :: e2 :: rest) /\
    read hp' (se_Hostnames e2) = [str "d"] /\ se_Raw e2 = formatEntry (str "10.0.0.1") [str "c"].
Proof.
  destruct (wrap_then_add (fun n => 2 * n)%nat [[str "a"; str "b"; str "c"]]
    (mkSEntry (str "10.0.0.1") (mkSlice 0 0 3 3) [] true) 2 (str "d"))
    as (e1 & e2 & rest & hp' & e1' & H1 & H2 & H3 & H4 & H5);
    [reflexivity|vm_compute; lia|vm_compute; lia|vm_compute; lia|vm_compute; lia
    |apply (bool_decide_unpack _); vm_compute; exact I|].
  pose proof H1 as H1'. vm_compute in H1'. injection H1' as <- <- <-.
  do 5 eexists. split; [exact H1|]. split; [exact H2|]. split; [exact H4|exact H5].
Defined.
