(* ===== verification/Edge.v ===== *)
(** * The edge client: [pkg/edge]

    The state of an edge and its operations: choice of the transport
    ([wire.go]), the handlers ([handlers.go], [handlers_missing.go]), the
    requests to the supernode ([requests.go], [setup.go]), and one round of
    each loop of [routines.go].  The sockets, the TAP device and the random
    reader are parameters; what was written to them is part of the state. *)
From S2P Require Import Prelude GoBytes GoNet Netstruct Protocol Frame Machine Transform P2P Crypto SNState.
From stdpp Require Import gmap list strings fin_maps.
From Stdlib Require Import ZArith Lia.
Open Scope Z_scope.

(** Whether the TAP device takes a frame, given all earlier writes. *)
Class TapDev := tap_write : list (list Z * option goerr) -> list Z -> option goerr.

(** The bytes the [n]-th user of the random reader gets. *)
Class RandSource := rand_at : nat -> list Z.

(** The operating system's side of the TAP interface. *)
Record TapLink := mkLink {
  IfUp : list Z -> option goerr;
  link_HardwareAddr : option (list Z);
  sendRawFrame : list Z -> option goerr }.

(** The message types an edge decodes or encodes. *)
Class EdgeCodec := {
  ecodec_sps :: Proto SnPublicSecret;
  ecodec_rreq :: Proto RegisterRequest;
  ecodec_rresp :: Proto RegisterResponse;
  ecodec_unreg :: Proto UnregisterRequest;
  ecodec_hb :: Proto HeartbeatPulse;
  ecodec_plr :: Proto PeerListRequest;
  ecodec_ptp :: Proto PeerToPing;
  ecodec_pil :: Proto PeerInfoList;
  ecodec_ppi :: Proto PeerP2PInfos;
  ecodec_pfs :: Proto P2PFullState;
  ecodec_li :: Proto LeasesInfos;
  ecodec_oc :: Proto OnlineCheck;
  ecodec_ack :: Proto Ack;
  ecodec_ice :: Proto ICECandidate;
  ecodec_turn :: Proto TURNCredentials }.

Definition errP2PNil : goerr := ErrNew "cannot write packet with UDPEnforceP2P flag and a nil destMACAddr".
Definition errP2PUnknown : goerr := ErrNew "cannot write packet with UDPEnforceP2P (peer not found)".
Definition errNoTransport : goerr := ErrNew "no transport available: WSS disconnected and UDP not initialized".
Definition errMissingAddress : goerr := ErrNew "missing address".
Definition ErrNACKRegister : goerr := ErrNew "Edge: supernode refused register request. Aborting".
Definition errLeaseRequest : goerr := ErrNew "edge do not handle request LeasesInfosMessage".
Definition errNotRetry : goerr := ErrNew " routing failure: not a TypeRetryRegisterRequest".
Definition errFullStateRequest : goerr := ErrNew "edge shall not received Request type P2PFullStateMessage".
Definition errSwap : goerr := ErrNew "cannot parse dst EdgeMACAddr for swaping".
Definition errRecipient : goerr := ErrNew "ping recipient differs from this edge MACAddress".
Definition errNoTarget : goerr := ErrNew "ICECandidate missing target MAC".
Definition errTargetMAC : goerr := ErrNew "cannot parse target MAC".
Definition errNotRegistered : goerr := ErrNew "cannot unregister an unregistered edge".
Definition errHbWaiting : goerr :=
  ErrNew " not sending heartbing while waiting for SNPubkeyUpdate or SNRetryRegisterResponse".
Definition errInfosWaiting : goerr :=
  ErrNew " not sending P2PInfos while waiting for SNPubkeyUpdate or SNRetryRegisterResponse".
Definition errShortSecret : goerr := ErrNew " short packet while waiting for initial SnSecretsPub".
Definition errShortResponse : goerr := ErrNew " short packet while waiting for initial RegisterResponse".
Definition errVirtualIP : goerr := ErrNew "invalid virtual IP in configuration".
(** The texts a loop looks for in an error to end itself. *)
Definition errFileClosed : goerr := ErrNew "file already closed".
Definition errConnClosed : goerr := ErrNew "use of closed network connection".

Record EdgeClientApi := mkApi {
  IsWaitingForLeasesInfos : bool; LastLeasesInfos : option LeasesInfos }.

Section EdgeState.
Context `{RSA : RSALib}.

(** [Conn] says whether the UDP socket exists, [WSSTransport] is the websocket
    transport if there is one; [EAPI] is nil until [Run] creates it.  [recvBuf]
    and [frameBuf] are the buffers the receive loops reuse for every packet.
    [ec_rand] counts the uses of the random reader. *)
Record EdgeClient := mkEdgeClient {
  ec_Peers : PeerRegistry;
  ec_ID : list Z;
  ec_Community : list Z;
  SupernodeAddr : netAddr;
  Conn : bool;
  WSSTransport : option nat;
  ec_seq : Z;
  enableVFuze : bool;
  ec_communityHash : Z;
  ec_VirtualIP : list Z;
  ParsedVirtualIP : list Z;
  ec_MACAddr : list Z;
  machineId : list Z;
  unregisterDone : bool;
  PacketsSent : Z;
  PacketsRecv : Z;
  EAPI : option EdgeClientApi;
  SNPubKey : option PublicKey;
  registered : bool;
  isWaitingForSNPubKeyUpdate : bool;
  isWaitingForSNRetryRegisterResponse : bool;
  payloadProcessor : list Transform;
  recvBuf : list Z;
  frameBuf : list Z;
  ec_rand : nat;
  ec_clock : Z;
  ec_wire : list (Sent * option goerr);
  tap_log : list (list Z * option goerr) }.

(** Field updates. *)
Definition upd_net (f : list (Sent * option goerr)) (tl : list (list Z * option goerr)) (e : EdgeClient) : EdgeClient :=
  mkEdgeClient (ec_Peers e) (ec_ID e) (ec_Community e) (SupernodeAddr e) (Conn e) (WSSTransport e) (ec_seq e)
    (enableVFuze e) (ec_communityHash e) (ec_VirtualIP e) (ParsedVirtualIP e) (ec_MACAddr e) (machineId e)
    (unregisterDone e) (PacketsSent e) (PacketsRecv e) (EAPI e) (SNPubKey e) (registered e)
    (isWaitingForSNPubKeyUpdate e) (isWaitingForSNRetryRegisterResponse e) (payloadProcessor e) (recvBuf e)
    (frameBuf e) (ec_rand e) (ec_clock e) f tl.
Definition upd_counts (sq sent recv : Z) (rnd : nat) (e : EdgeClient) : EdgeClient :=
  mkEdgeClient (ec_Peers e) (ec_ID e) (ec_Community e) (SupernodeAddr e) (Conn e) (WSSTransport e) sq
    (enableVFuze e) (ec_communityHash e) (ec_VirtualIP e) (ParsedVirtualIP e) (ec_MACAddr e) (machineId e)
    (unregisterDone e) sent recv (EAPI e) (SNPubKey e) (registered e)
    (isWaitingForSNPubKeyUpdate e) (isWaitingForSNRetryRegisterResponse e) (payloadProcessor e) (recvBuf e)
    (frameBuf e) rnd (ec_clock e) (ec_wire e) (tap_log e).
Definition upd_peers (r : PeerRegistry) (e : EdgeClient) : EdgeClient :=
  mkEdgeClient r (ec_ID e) (ec_Community e) (SupernodeAddr e) (Conn e) (WSSTransport e) (ec_seq e)
    (enableVFuze e) (ec_communityHash e) (ec_VirtualIP e) (ParsedVirtualIP e) (ec_MACAddr e) (machineId e)
    (unregisterDone e) (PacketsSent e) (PacketsRecv e) (EAPI e) (SNPubKey e) (registered e)
    (isWaitingForSNPubKeyUpdate e) (isWaitingForSNRetryRegisterResponse e) (payloadProcessor e) (recvBuf e)
    (frameBuf e) (ec_rand e) (ec_clock e) (ec_wire e) (tap_log e).
Definition upd_session (key : option PublicKey) (reg waitKey waitReg : bool) (e : EdgeClient) : EdgeClient :=
  mkEdgeClient (ec_Peers e) (ec_ID e) (ec_Community e) (SupernodeAddr e) (Conn e) (WSSTransport e) (ec_seq e)
    (enableVFuze e) (ec_communityHash e) (ec_VirtualIP e) (ParsedVirtualIP e) (ec_MACAddr e) (machineId e)
    (unregisterDone e) (PacketsSent e) (PacketsRecv e) (EAPI e) key reg waitKey waitReg (payloadProcessor e) (recvBuf e)
    (frameBuf e) (ec_rand e) (ec_clock e) (ec_wire e) (tap_log e).
Definition upd_misc (wss : option nat) (vip pvip : list Z) (unreg : bool) (api : option EdgeClientApi)
    (rbuf fbuf : list Z) (e : EdgeClient) : EdgeClient :=
  mkEdgeClient (ec_Peers e) (ec_ID e) (ec_Community e) (SupernodeAddr e) (Conn e) wss (ec_seq e)
    (enableVFuze e) (ec_communityHash e) vip pvip (ec_MACAddr e) (machineId e)
    unreg (PacketsSent e) (PacketsRecv e) api (SNPubKey e) (registered e)
    (isWaitingForSNPubKeyUpdate e) (isWaitingForSNRetryRegisterResponse e) (payloadProcessor e) rbuf
    fbuf (ec_rand e) (ec_clock e) (ec_wire e) (tap_log e).

Definition set_ec_clock (t : Z) (e : EdgeClient) : EdgeClient :=
  mkEdgeClient (ec_Peers e) (ec_ID e) (ec_Community e) (SupernodeAddr e) (Conn e) (WSSTransport e) (ec_seq e)
    (enableVFuze e) (ec_communityHash e) (ec_VirtualIP e) (ParsedVirtualIP e) (ec_MACAddr e) (machineId e)
    (unregisterDone e) (PacketsSent e) (PacketsRecv e) (EAPI e) (SNPubKey e) (registered e)
    (isWaitingForSNPubKeyUpdate e) (isWaitingForSNRetryRegisterResponse e) (payloadProcessor e) (recvBuf e)
    (frameBuf e) (ec_rand e) t (ec_wire e) (tap_log e).
Definition set_wss (t : option nat) (e : EdgeClient) : EdgeClient :=
  upd_misc t (ec_VirtualIP e) (ParsedVirtualIP e) (unregisterDone e) (EAPI e) (recvBuf e) (frameBuf e) e.
Definition set_vip (v p : list Z) (e : EdgeClient) : EdgeClient :=
  upd_misc (WSSTransport e) v p (unregisterDone e) (EAPI e) (recvBuf e) (frameBuf e) e.
Definition set_unregisterDone (b : bool) (e : EdgeClient) : EdgeClient :=
  upd_misc (WSSTransport e) (ec_VirtualIP e) (ParsedVirtualIP e) b (EAPI e) (recvBuf e) (frameBuf e) e.
Definition set_api (a : option EdgeClientApi) (e : EdgeClient) : EdgeClient :=
  upd_misc (WSSTransport e) (ec_VirtualIP e) (ParsedVirtualIP e) (unregisterDone e) a (recvBuf e) (frameBuf e) e.
Definition set_recvBuf (b : list Z) (e : EdgeClient) : EdgeClient :=
  upd_misc (WSSTransport e) (ec_VirtualIP e) (ParsedVirtualIP e) (unregisterDone e) (EAPI e) b (frameBuf e) e.
Definition set_frameBuf (b : list Z) (e : EdgeClient) : EdgeClient :=
  upd_misc (WSSTransport e) (ec_VirtualIP e) (ParsedVirtualIP e) (unregisterDone e) (EAPI e) (recvBuf e) b e.
Definition add_sent (e : EdgeClient) : EdgeClient :=
  upd_counts (ec_seq e) (u64 (PacketsSent e + 1)) (PacketsRecv e) (ec_rand e) e.
Definition add_recv (e : EdgeClient) : EdgeClient :=
  upd_counts (ec_seq e) (PacketsSent e) (u64 (PacketsRecv e + 1)) (ec_rand e) e.
Definition next_seq (e : EdgeClient) : EdgeClient :=
  upd_counts (u32 (ec_seq e + 1)) (PacketsSent e) (PacketsRecv e) (ec_rand e) e.
Definition next_rand (e : EdgeClient) : EdgeClient :=
  upd_counts (ec_seq e) (PacketsSent e) (PacketsRecv e) (S (ec_rand e)) e.

(** A method of the registry run on the edge's. *)
Definition on_peers {A} (m : M PeerRegistry A) : M EdgeClient A := fun e =>
  let '(r, p) := m (ec_Peers e) in (r, upd_peers p e).

Definition RecvBufSize : nat := Z.to_nat 65507.

(** The struct [NewEdgeClient] returns; [conn], [wss] and [snAddr] come from
    [setupNetworkComponents], the machine id and the MAC from [pkg/machine]. *)
Definition NewEdgeClient `{CryptoLib} (edgeID community : list Z) (vfuze compressPayload : bool) (passphrase : list Z)
    (snAddr : netAddr) (conn : bool) (wss : option nat) (machineId mac : list Z) (now : Z) : EdgeClient :=
  mkEdgeClient (NewPeerRegistry community) edgeID community snAddr conn wss 0 vfuze (HashCommunity community)
    [] [] mac machineId false 0 0 None None false false false (edge_transforms compressPayload passphrase)
    (replicate RecvBufSize 0) (replicate (RecvBufSize - ProtoVHeaderSize) 0) 0 now [] [].
End EdgeState.

Section Edge.
Context `{RSA : RSALib, NET : Net, TAPD : TapDev, RND : RandSource, CDC : EdgeCodec, US : UDPServices}
  {MR : MapRange (list Z)}.

(** ** [wire.go] *)
Definition edge_send (ev : Sent) : M EdgeClient unit :=
  e ← gets id;
  let r := net_write (ec_wire e) ev in
  modify (fun e => upd_net (ec_wire e ++ [(ev, r)]) (tap_log e) e);;
  match r with None => mret tt | Some err => merr err end.

(** [None] is a nil [*net.UDPAddr]: the published socket of a peer need not
    parse. *)
Definition UDPAddrWithStrategy (dst : option (list Z)) (strategy : UDPWriteStrategy) : M EdgeClient (option netAddr) :=
  e ← gets id;
  if bool_decide (is_Some (WSSTransport e)) then mret (Some (SupernodeAddr e)) else
  match strategy with
  | UDPEnforceSupernode => mret (Some (SupernodeAddr e))
  | UDPBestEffort | UDPEnforceP2P =>
      match dst with
      | None => if bool_decide (strategy = UDPEnforceP2P) then merr errP2PNil else mret (Some (SupernodeAddr e))
      | Some d =>
          p ← mtry (on_peers (GetPeer (HardwareAddr_String d)));
          match p with
          | inr _ => if bool_decide (strategy = UDPEnforceP2P) then merr errP2PUnknown else mret (Some (SupernodeAddr e))
          | inl l =>
              p ← mderef (pheap (ec_Peers e) !! l);
              if negb (bool_decide (P2PStatus p = P2PAvailable)) && bool_decide (strategy = UDPBestEffort)
              then mret (Some (SupernodeAddr e)) else mret (Peer_UDPAddr p)
          end
      end
  end.

(** [dst[:6]] of a shorter address panics (the spare capacity a decoded field
    may have is not modelled). *)
Definition EdgeHeader (pt : Z) (dst : option (list Z)) : M EdgeClient ProtoVHeader :=
  modify next_seq;;
  e ← gets id;
  src ← mlift (slice (ec_MACAddr e) 0 6);
  d ← (match dst with None => mret (replicate 6 0) | Some d => mlift (slice d 0 6) end);
  mret (mkHeader VersionV 64 pt 0 (Z.land (ec_seq e) 0xFFFF) (HashCommunity (ec_Community e)) src d
          (u32 (ec_clock e / 10 ^ 9)) 0).

(** The common end of the three sending functions; [wrap] is what they make of
    a UDP error. *)
Definition transmit (wrap : goerr -> goerr) (packet : list Z) (udpSocket : option netAddr) : M EdgeClient unit :=
  e ← gets id;
  match WSSTransport e with
  | Some t =>
      r ← mtry (edge_send (SentWSS t packet));
      match r with inl _ => mret tt | inr err => merr (ErrWrap "failed to send WSS packet" err) end
  | None =>
      if negb (Conn e) then merr errNoTransport else
      match udpSocket with
      | None => merr (wrap errMissingAddress)
      | Some a =>
          r ← mtry (edge_send (SentUDP packet a));
          match r with inl _ => mret tt | inr err => merr (wrap err) end
      end
  end.

Definition WritePacket (pt : Z) (dst : option (list Z)) (payload : list Z) (strategy : UDPWriteStrategy)
  : M EdgeClient unit :=
  udpSocket ← UDPAddrWithStrategy dst strategy;
  header ← EdgeHeader pt dst;
  modify add_sent;;
  transmit (ErrWrap "failed to send UDP packet") (PackProtoVDatagram header payload) udpSocket.

Definition SendStruct {T : Type} `{PacketTyped T, Proto T} (s : T) (dst : option (list Z)) (strategy : UDPWriteStrategy)
  : M EdgeClient unit :=
  udpSocket ← UDPAddrWithStrategy dst strategy;
  header ← EdgeHeader (PacketType T) dst;
  payload ← mlift (codec_Encode s);
  transmit (ErrWrap "failed to send UDP packet") (PackProtoVDatagram header payload) udpSocket.

Definition SendVFuze (dst payload : list Z) (strategy : UDPWriteStrategy) : M EdgeClient unit :=
  udpSocket ← UDPAddrWithStrategy (Some dst) strategy;
  vfuzh ← mlift (VFuzeHeaderBytes dst);
  let packet := take ProtoVFuzeSize vfuzh ++ payload in
  modify add_sent;;
  transmit id packet udpSocket.

(** ** [client.go] *)
Definition IsKnownPeerSocket (addr : option netAddr) : M EdgeClient bool :=
  r ← mtry (on_peers (GetPeerBySocket addr));
  mret (match r with inl _ => true | inr _ => false end).

Definition IsSupernodeUDPAddr (addr : netAddr) (e : EdgeClient) : bool :=
  match addr, SupernodeAddr e with
  | UDPAddr ip port, UDPAddr ip' port' => IP_Equal ip ip' && (port =? port')
  | _, _ => false
  end.

(** Encrypting with a nil key panics. *)
Definition EncryptedMachineID : M EdgeClient (list Z) :=
  e ← gets id;
  key ← mderef (SNPubKey e);
  modify next_rand;;
  mlift (EncryptSequence (rand_at (ec_rand e)) (machineId e) key).

Definition ProcessOutgoingPayload (payload : list Z) : M EdgeClient (list Z) :=
  e ← gets id;
  modify next_rand;;
  mlift (PrepareOutput (payloadProcessor e) payload (rand_at (ec_rand e))).1.

Definition ProcessIncomingPayload (payload : list Z) : M EdgeClient (list Z) :=
  e ← gets id; mlift (ParseInput (payloadProcessor e) payload).

Definition ProtocolVersion : Z := VersionV.

(** ** [stats.go] *)
Record EdgeStats := mkEdgeStats { TotalPacketsSent : Z; TotalPacketsRecv : Z; es_CommunityHash : Z }.

Definition edge_GetStats (e : EdgeClient) : EdgeStats :=
  mkEdgeStats (PacketsSent e) (PacketsRecv e) (ec_communityHash e).

(** ** [setup.go] and [requests.go] *)
Definition RequestSNPublicKey : M EdgeClient unit :=
  SendStruct (mkSnPublicSecret true []) None UDPEnforceSupernode.

Definition RequestRegister : M EdgeClient unit :=
  enc ← EncryptedMachineID;
  e ← gets id;
  SendStruct (mkRegisterRequest (HardwareAddr_String (ec_MACAddr e)) (ec_ID e) (ec_Community e) enc [])
    None UDPEnforceSupernode.

(** A call whose error is wrapped in the caller's. *)
Definition wrapping {A} (msg : string) (m : M EdgeClient A) : M EdgeClient A :=
  r ← mtry m;
  match r with inl a => mret a | inr e => merr (ErrWrap msg e) end.

Definition sendPeerListRequest : M EdgeClient unit :=
  e ← gets id;
  wrapping " failed to send peerList Request"
    (SendStruct (mkPeerListRequest (ec_Community e)) None UDPEnforceSupernode).

Definition sendHeartbeat : M EdgeClient unit :=
  e ← gets id;
  if isWaitingForSNPubKeyUpdate e || isWaitingForSNRetryRegisterResponse e then merr errHbWaiting else
  enc ← wrapping " failed to send heartbeat" EncryptedMachineID;
  wrapping " failed to send heartbeat"
    (SendStruct (mkHeartbeatPulse (HardwareAddr_String (ec_MACAddr e)) (ec_Community e) enc []) None UDPEnforceSupernode).

Definition sendP2PInfos : M EdgeClient unit :=
  e ← gets id;
  if isWaitingForSNPubKeyUpdate e || isWaitingForSNRetryRegisterResponse e then merr errInfosWaiting else
  pending ← on_peers HasPendingChanges;
  if negb (pending : bool) then mret tt else
  let infos := GetPeerP2PInfos (ec_Peers e) in
  on_peers ClearPendingChanges;;
  wrapping " failed to send updated P2PInfos" (SendStruct infos None UDPEnforceSupernode).

Definition sendP2PFullStateRequest : M EdgeClient unit :=
  e ← gets id;
  if IsWaitingCommunityDatas (ec_Peers e) then mret tt else
  on_peers (modify (set_waiting true));;
  wrapping " failed to send updated P2PInfos"
    (SendStruct (mkP2PFullState (ec_Community e) true ∅ ∅) None UDPEnforceSupernode).

(** A method of the API, which exists. *)
Definition sendLeasesInfosRequest : M EdgeClient unit :=
  e ← gets id;
  api ← mderef (EAPI e);
  if IsWaitingForLeasesInfos api then mret tt else
  wrapping " failed to send updated P2PInfos"
    (SendStruct (mkLeasesInfos true (ec_Community e) ∅) None UDPEnforceSupernode);;
  modify (set_api (Some (mkApi true (LastLeasesInfos api)))).

(** [unregisterOnce] runs the sending once, whether it succeeds or not. *)
Definition edge_Unregister : M EdgeClient unit :=
  e ← gets id;
  if negb (registered e) then merr errNotRegistered else
  enc ← EncryptedMachineID;
  if unregisterDone e then mret tt else
  modify (set_unregisterDone true);;
  wrapping " failed to send unregister"
    (SendStruct (mkUnregisterRequest (HardwareAddr_String (ec_MACAddr e)) (ec_Community e) enc) None UDPEnforceSupernode).

(** [resp] is what the socket delivers after the request: a packet and its
    source, or the error of the read (setting the deadline does not fail). *)
Definition InitialGetSNPublicKey (resp : (list Z * netAddr) + goerr) : M EdgeClient unit :=
  RequestSNPublicKey;;
  match resp with
  | inr e => merr (ErrWrap " pubkey ACK timeout" e)
  | inl (packet, addr) =>
      if bool_decide (length packet < ProtoVHeaderSize)%nat then merr errShortSecret else
      '(_, m) ← mlift (MessageFromPacket SnPublicSecret packet addr);
      pubkey ← mlift (PublicKeyFromPEMData (sps_PemData m));
      modify (fun e => upd_session (Some pubkey) (registered e) (isWaitingForSNPubKeyUpdate e)
        (isWaitingForSNRetryRegisterResponse e) e)
  end.

Definition InitialRegister (resp : (list Z * netAddr) + goerr) : M EdgeClient unit :=
  RequestRegister;;
  match resp with
  | inr e => merr (ErrWrap " registration ACK timeout" e)
  | inl (packet, addr) =>
      if bool_decide (length packet < ProtoVHeaderSize)%nat then merr errShortResponse else
      '(_, m) ← mlift (MessageFromPacket RegisterResponse packet addr);
      if negb (rresp_IsRegisterOk m) then merr ErrNACKRegister else
      let vip := rresp_VirtualIp m ++ [47] ++ itoa (rresp_Masklen m) in
      let parsed := ParseIP (default [] (head (split_byte 47 vip))) in
      modify (set_vip vip (default [] parsed));;
      if bool_decide (parsed = None) then merr errVirtualIP else
      modify (fun e => upd_session (SNPubKey e) true (isWaitingForSNPubKeyUpdate e)
        (isWaitingForSNRetryRegisterResponse e) e)
  end.

Definition errNoVIP : goerr := ErrNew "cannot configure TAP link before VirtualIP is not set".
Definition errNoParsedIP : goerr := ErrNew "cannot send gratuitous ARP: EdgeClient's ParsedVirtualIP is nil".

(** What the edge asks of the link, with its answers. *)
Inductive LinkCall :=
  | CallIfUp (cidr : list Z) (answer : option goerr)
  | CallRawFrame (frame : list Z) (answer : option goerr).

Definition on_edge {A} (m : M EdgeClient A) : M (EdgeClient * list LinkCall) A := zoom fst (fun e x => (e, x.2)) m.
Definition link_call (c : LinkCall) (answer : option goerr) : M (EdgeClient * list LinkCall) unit :=
  modify (fun x => (x.1, x.2 ++ [c]));;
  match answer with Some err => merr err | None => mret tt end.

(** Bringing up the link. *)
Definition TunUp (link : TapLink) : M (EdgeClient * list LinkCall) unit :=
  '(e, _) ← gets id;
  if bool_decide (ec_VirtualIP e = []) then merr errNoVIP else
  link_call (CallIfUp (ec_VirtualIP e) (IfUp link (ec_VirtualIP e))) (IfUp link (ec_VirtualIP e)).

(** The TAP interface exists. *)
Definition sendGratuitousARP (link : TapLink) : M (EdgeClient * list LinkCall) unit :=
  '(e, _) ← gets id;
  if bool_decide (ParsedVirtualIP e = []) then merr errNoParsedIP else
  frame ← mlift (SendGratuitousARP (link_HardwareAddr link) (ParsedVirtualIP e));
  link_call (CallRawFrame frame (sendRawFrame link frame)) (sendRawFrame link frame).

Definition InitialSetup (link : TapLink) (keyResp regResp : (list Z * netAddr) + goerr) : M (EdgeClient * list LinkCall) unit :=
  on_edge (InitialGetSNPublicKey keyResp);;
  on_edge (InitialRegister regResp);;
  TunUp link;;
  sendGratuitousARP link.

(** ** [handlers.go] *)
Definition handleHeartbeatMessage (r : RawMessage) : M EdgeClient unit := mret tt.

Definition handleSNPublicSecretMessage (r : RawMessage) : M EdgeClient unit :=
  m ← mlift (ToMessage SnPublicSecret r);
  pubkey ← mlift (PublicKeyFromPEMData (sps_PemData m));
  modify (fun e => upd_session (Some pubkey) (registered e) false (isWaitingForSNRetryRegisterResponse e) e);;
  e ← gets id;
  if isWaitingForSNRetryRegisterResponse e then RequestRegister else mret tt.

Definition handleRegisterResponseMessage (r : RawMessage) : M EdgeClient unit :=
  m ← mlift (ToMessage RegisterResponse r);
  if negb (rresp_IsRegisterOk m) then merr ErrNACKRegister else
  modify (fun e => upd_session (SNPubKey e) true (isWaitingForSNPubKeyUpdate e) false e);;
  on_peers (modify (set_waiting false));;
  mignore sendPeerListRequest.

Definition minGCMSize : nat := 28.
Definition minFrame : nat := 60.

Definition tap_Write (frame : list Z) : M EdgeClient unit :=
  e ← gets id;
  let r := tap_write (tap_log e) frame in
  modify (fun e => upd_net (ec_wire e) (tap_log e ++ [(frame, r)]) e);;
  match r with None => mret tt | Some err => merr err end.

Definition handleDataPayload (payload : list Z) : M EdgeClient unit :=
  payload ← (if bool_decide (length payload < minGCMSize)%nat then mret payload
             else wrapping "error while processing Incoming data packets, droping"
                    (ProcessIncomingPayload payload));
  let payload := if bool_decide (length payload < minFrame)%nat
                 then copy_at (replicate minFrame 0) 0 minFrame payload else payload in
  wrapping "TAP write error" (tap_Write payload).

Definition disablePeerSocketCheckingInVFuze : bool := true.

(** [packetBuf] is the whole receive buffer, of which [n] bytes are new. *)
Definition handleVFuzePacket (packetBuf : list Z) (n : nat) (addr : option netAddr) : M EdgeClient unit :=
  e ← gets id;
  if negb (enableVFuze e) then mret tt else
  match VFuzePacketDestMACAddr packetBuf with
  | Err _ => mret tt
  | Panic => mpanic
  | Ok dst =>
      if negb (bool_decide (HardwareAddr_String (ec_MACAddr e) = HardwareAddr_String dst)) then mret tt else
      known ← (if disablePeerSocketCheckingInVFuze then mret true else
               a ← mderef addr;
               if IsSupernodeUDPAddr a e then mret true else IsKnownPeerSocket addr);
      if negb (known : bool) then mret tt else
      payload ← mlift (slice packetBuf ProtoVFuzeSize n);
      handleDataPayload payload
  end.

Definition handleDataMessage (r : RawMessage) : M EdgeClient unit := handleDataPayload (Payload r).

Definition handlePeerInfoMessage (r : RawMessage) : M EdgeClient unit :=
  m ← mlift (ToMessage PeerInfoList r);
  e ← gets id;
  on_peers (HandlePeerInfoList (ec_clock e) m false true).

(** The API is nil until [Run] has created it. *)
Definition handleLeasesInfosMessage (r : RawMessage) : M EdgeClient unit :=
  m ← mlift (ToMessage LeasesInfos r);
  if li_IsRequest m then merr errLeaseRequest else
  e ← gets id;
  _ ← mderef (EAPI e);
  modify (set_api (Some (mkApi false (Some m)))).

Definition handleRetryRegisterRequest (r : RawMessage) : M EdgeClient unit :=
  if negb (hPacketType (Header r) =? TypeRetryRegisterRequest) then merr errNotRetry else
  e ← gets id;
  if isWaitingForSNRetryRegisterResponse e then mret tt else
  RequestSNPublicKey;;
  modify (fun e => upd_session (SNPubKey e) (registered e) true true e).

(** The decoder leaves a map without entries nil. *)
Definition nil_map {A} (m : gmap (list Z) A) : option (gmap (list Z) A) :=
  if bool_decide (map_to_list m = []) then None else Some m.

Definition handleP2PFullStateMessage (r : RawMessage) : M EdgeClient unit :=
  m ← mlift (ToMessage P2PFullState r);
  if pfs_IsRequest m then merr errFullStateRequest else
  on_peers (UpdateP2PCommunityDatas (nil_map (pfs_Reachables m)) (nil_map (pfs_Unreachables m))).

(** [if p.UpdateP2PStatus(...) { e.Peers.SetPendingChanges() }] on a peer. *)
Definition update_status (l : nat) (st : P2PCapacity) (checkid : list Z) : M EdgeClient unit :=
  e ← gets id;
  p ← mderef (pheap (ec_Peers e) !! l);
  let '(p', changed) := UpdateP2PStatus (ec_clock e) st checkid p in
  on_peers (update_peer l (fun _ => p'));;
  if (changed : bool) then on_peers SetPendingChanges else mret tt.

(** [if changed, _ := p.SetFullDuplex(v); changed { ... }]. *)
Definition set_duplex (l : nat) (v : bool) : M EdgeClient unit :=
  e ← gets id;
  p ← mderef (pheap (ec_Peers e) !! l);
  match SetFullDuplex p v with
  | Ok (p', changed) =>
      on_peers (update_peer l (fun _ => p'));;
      if (changed : bool) then on_peers SetPendingChanges else mret tt
  | _ => mret tt
  end.

Definition handlePingMessage (r : RawMessage) : M EdgeClient unit :=
  m ← mlift (ToMessage PeerToPing r);
  if negb (ptp_IsPong m) then
    match ParseMAC (EdgeMACAddr r) with
    | None => merr errSwap
    | Some dst =>
        e ← gets id;
        if negb (bool_decide (DestMACAddr r = HardwareAddr_String (ec_MACAddr e))) then merr errRecipient else
        mignore (SendStruct (mkPeerToPing (ptp_CheckId m) true) (Some dst) UDPBestEffort)
    end
  else
    x ← mtry (on_peers (GetPeer (EdgeMACAddr r)));
    match x with
    | inr _ => mret tt
    | inl l =>
        e ← gets id;
        p ← mderef (pheap (ec_Peers e) !! l);
        (if bool_decide (P2PCheckID p = ptp_CheckId m) then update_status l P2PAvailable (ptp_CheckId m)
         else update_status l P2PUnknown []);;
        e ← gets id;
        p ← mderef (pheap (ec_Peers e) !! l);
        if bool_decide (P2PStatus p = P2PAvailable) then set_duplex l (negb (IsFromSupernode (Header r)))
        else mret tt
    end.

(** ** [handlers_missing.go] *)
Definition handleUnregisterRequestMessage (r : RawMessage) : M EdgeClient unit :=
  _ ← mlift (ToMessage UnregisterRequest r);
  e ← gets id;
  if bool_decide (EdgeMACAddr r = HardwareAddr_String (ec_MACAddr e)) then mret tt
  else mignore (on_peers (RemovePeer (EdgeMACAddr r))).

Definition handleAckMessage (r : RawMessage) : M EdgeClient unit := mret tt.
Definition handlePeerListRequestMessage (r : RawMessage) : M EdgeClient unit := mret tt.

(** Marks a peer as available, if it is known. *)
Definition mark_available (mac : list Z) : M EdgeClient unit :=
  x ← mtry (on_peers (GetPeer mac));
  match x with inl l => update_status l P2PAvailable [] | inr _ => mret tt end.

Definition handleP2PStateInfoMessage (r : RawMessage) : M EdgeClient unit :=
  m ← mlift (ToMessage PeerP2PInfos r);
  (if bool_decide (is_Some (ppi_From m)) then mark_available (EdgeMACAddr r) else mret tt);;
  mfor (ppi_To m) (fun info => mark_available (mac_key info)).

Definition handleOnlineCheckMessage (r : RawMessage) : M EdgeClient unit :=
  m ← mlift (ToMessage OnlineCheck r);
  if oc_IsReply m then mret tt
  else SendStruct mkAck (GetSrcMACAddr (Header r)) UDPBestEffort.

Definition handleICECandidateMessage (r : RawMessage) : M EdgeClient unit :=
  m ← mlift (ToMessage ICECandidate r);
  let targetMAC := if bool_decide (ice_TargetMac m = []) then DestMACAddr r else ice_TargetMac m in
  if bool_decide (targetMAC = []) then merr errNoTarget else
  match ParseMAC targetMAC with
  | None => merr errTargetMAC
  | Some dst => SendStruct m (Some dst) UDPBestEffort
  end.

Definition handleTURNCredentialsMessage (r : RawMessage) : M EdgeClient unit :=
  _ ← mlift (ToMessage TURNCredentials r); mret tt.

Definition messageHandlers : gmap Z (RawMessage -> M EdgeClient unit) :=
  list_to_map
    [(TypeData, handleDataMessage); (TypePeerInfo, handlePeerInfoMessage); (TypePing, handlePingMessage);
     (TypeP2PFullState, handleP2PFullStateMessage); (TypeLeasesInfos, handleLeasesInfosMessage);
     (TypeRetryRegisterRequest, handleRetryRegisterRequest); (TypeRegisterResponse, handleRegisterResponseMessage);
     (TypeSNPublicSecret, handleSNPublicSecretMessage); (TypeHeartbeat, handleHeartbeatMessage);
     (TypeUnregisterRequest, handleUnregisterRequestMessage); (TypeAck, handleAckMessage);
     (TypePeerListRequest, handlePeerListRequestMessage); (TypeP2PStateInfo, handleP2PStateInfoMessage);
     (TypeOnlineCheck, handleOnlineCheckMessage); (TypeICECandidate, handleICECandidateMessage);
     (TypeTURNCredentials, handleTURNCredentialsMessage)].

(** ** [routines.go] *)

(** [n], a positive number of extra copies, and one whose error counts. *)
Definition PingPeer (l : nat) (n : nat) (status : P2PCapacity) : M EdgeClient unit :=
  e ← gets id;
  p ← mderef (pheap (ec_Peers e) !! l);
  let dst := match pi_MacAddr (Infos p) with [] => None | d => Some d end in
  let checkid := strings_Join [ec_ID e; HardwareAddr_String (ec_MACAddr e); HardwareAddr_String (pi_MacAddr (Infos p));
                               pi_PubSocket (Infos p); str "0"] [46] in
  let pingMsg := mkPeerToPing checkid false in
  update_status l status checkid;;
  mfor (replicate n tt) (fun _ => mignore (SendStruct pingMsg dst UDPEnforceP2P));;
  SendStruct pingMsg dst UDPEnforceP2P.

Definition UpdatePeersP2PStates : M EdgeClient unit :=
  peers ← on_peers GetP2PUnknownPeers;
  mfor peers (fun l => mignore (PingPeer l 3 P2PPending));;
  e ← gets id;
  peers ← on_peers (GetP2PendingPeers (ec_clock e));
  mfor peers (fun l => mignore (PingPeer l 3 P2PPending));;
  peers ← on_peers GetP2PAvailablePeers;
  mfor peers (fun l => mignore (PingPeer l 3 P2PAvailable)).

(** The result of one round of a loop: whether it goes on. *)
Definition round (stop : goerr) (m : M EdgeClient unit) : M EdgeClient bool :=
  r ← mtry m;
  mret (match r with inl _ => true | inr e => negb (errors_is e stop) end).

(** One frame read from the TAP device into the reused buffer. *)
Definition handleTAP_frame (frame : list Z) : M EdgeClient bool :=
  e ← gets id;
  let n := Nat.min (length frame) (length (frameBuf e)) in
  modify (set_frameBuf (copy_at (frameBuf e) 0 (length (frameBuf e)) frame));;
  e ← gets id;
  if bool_decide (n < 14)%nat then mret true else
  match GetEthertype (frameBuf e) with
  | Panic => mpanic
  | Err _ => mret true
  | Ok ethertype =>
      if bool_decide (ethertype = EthertypeIPv6) then mret true else
      data ← mlift (slice (frameBuf e) 0 n);
      out ← mtry (ProcessOutgoingPayload data);
      match out with
      | inr _ => mret true
      | inl payload =>
          destMAC ← mlift (FastDestination (frameBuf e));
          if negb (IsBroadcast destMAC) then
            if enableVFuze e then round errConnClosed (SendVFuze destMAC payload UDPBestEffort)
            else round errConnClosed (WritePacket TypeData (Some destMAC) payload UDPBestEffort)
          else round errConnClosed (WritePacket TypeData (Some destMAC) payload UDPEnforceSupernode)
      end
  end.

(** The part shared by the UDP and the websocket loop, after [n] bytes have
    been read into the reused buffer. *)
Definition receive (packet : list Z) (addr : option netAddr) : M EdgeClient bool :=
  e ← gets id;
  let n := Nat.min (length packet) (length (recvBuf e)) in
  modify (set_recvBuf (copy_at (recvBuf e) 0 (length (recvBuf e)) packet));;
  modify add_recv;;
  e ← gets id;
  v ← mlift (index (recvBuf e) 0);
  if v =? VersionVFuze then round errFileClosed (handleVFuzePacket (recvBuf e) n addr)
  else if bool_decide (n < ProtoVHeaderSize)%nat then mret true
  else
    p ← mlift (slice (recvBuf e) 0 n);
    match NewRawMessage p (default (OtherAddr (str "<nil>")) addr) with
    | Panic => mpanic
    | Err _ => mret true
    | Ok rawMsg => round errFileClosed (Handle messageHandlers rawMsg)
    end.

Definition handleUDP_packet (packet : list Z) (addr : netAddr) : M EdgeClient bool := receive packet (Some addr).

(** A websocket frame: its address is no UDP address. *)
Definition handleWSS_packet (packet : list Z) : M EdgeClient bool := receive packet None.

(** A failed read drops the transport; the next round connects again and asks
    for the key to register with. *)
Definition handleWSS_lost : M EdgeClient unit := modify (set_wss None).
Definition handleWSS_reconnect (t : nat) : M EdgeClient unit :=
  modify (set_wss (Some t));;
  modify (fun e => upd_session (SNPubKey e) false (isWaitingForSNPubKeyUpdate e) true e);;
  mignore RequestSNPublicKey.

(** What the loops wait for: a frame, a packet, a tick, and the requests of the
    local API. *)
Inductive edge_input :=
  | InTAP (frame : list Z)
  | InUDP (packet : list Z) (addr : netAddr)
  | InWSS (packet : list Z)
  | LostWSS
  | TickHeartbeat
  | TickP2PInfos
  | TickP2PUpdates
  | AskPeerList
  | AskFullState
  | AskLeases
  | Elapse (t : Z).

Definition edge_do (i : edge_input) : M EdgeClient unit :=
  match i with
  | InTAP frame => mignore (handleTAP_frame frame)
  | InUDP packet addr => mignore (handleUDP_packet packet addr)
  | InWSS packet => mignore (handleWSS_packet packet)
  | LostWSS => handleWSS_lost
  | TickHeartbeat => mignore sendHeartbeat
  | TickP2PInfos => mignore sendP2PInfos
  | TickP2PUpdates => UpdatePeersP2PStates
  | AskPeerList => mignore sendPeerListRequest
  | AskFullState => mignore sendP2PFullStateRequest
  | AskLeases => mignore sendLeasesInfosRequest
  | Elapse t => modify (set_ec_clock t)
  end.

(** The state after a run of the loops. *)
Definition edge_after (l : list edge_input) (e : EdgeClient) : EdgeClient :=
  foldl (fun e i => (edge_do i e).2) e l.
End Edge.
