(* ===== verification/EdgeProps.v ===== *)
(** * Properties of the edge client

    What an edge sends and what it hands to its TAP device, and the path of a
    frame from one edge through the supernode to another. *)
From S2P Require Import Prelude GoBytes GoNet Netstruct Protocol Frame Machine Transform P2P Crypto SNState.
From S2P Require Import Community Supernode SNWire SNInvariant SNSafety SNSample SNProps SNSync Edge.
From stdpp Require Import gmap list strings fin_maps.
From Stdlib Require Import ZArith Lia.
Open Scope Z_scope.

(** ** Buffers *)
Lemma copy_at_prefix {A} (buf p : list A) : (length p <= length buf)%nat ->
  copy_at buf 0 (length buf) p = p ++ drop (length p) buf.
Proof.
  intros H. unfold copy_at. rewrite Nat.sub_0_r, Nat.min_r by lia. by rewrite firstn_all.
Qed.

Lemma slice_prefix {A} (p rest : list A) : slice (p ++ rest) 0 (length p) = Ok p.
Proof.
  unfold slice. rewrite !bool_decide_eq_true_2 by (rewrite ?length_app; lia). cbn [andb].
  by rewrite Nat.sub_0_r, drop_0, take_app_length.
Qed.

Lemma index_app {A} (p rest : list A) i : (i < length p)%nat -> index (p ++ rest) i = index p i.
Proof. intros H. unfold index. by rewrite lookup_app_l. Qed.

(** What the frame says is what the buffer that starts with it says. *)
Lemma GetEthertype_app f rest e : GetEthertype f = Ok e -> GetEthertype (f ++ rest) = Ok e.
Proof.
  unfold GetEthertype. case_bool_decide as Hl; [done|]. unfold MinFrameSize in Hl.
  destruct (FastTaggingType f) as [t| |] eqn:Et; try done. cbn [mbind outcome_bind].
  case_bool_decide as Hm; [done|]. intros He.
  rewrite bool_decide_eq_false_2 by (rewrite length_app; unfold MinFrameSize; lia).
  assert (FastTaggingType (f ++ rest) = Ok t) as ->.
  { revert Et. unfold FastTaggingType. rewrite (index_app f rest 12), (index_app f rest 13) by lia.
    destruct (index f 12) as [a| |]; try done. destruct (index f 13) as [b| |]; try done. cbn [mbind outcome_bind].
    destruct (be16 a b =? Dot1QTagType); [|done]. case_bool_decide as H18.
    - rewrite bool_decide_eq_true_2 by (rewrite length_app; lia). by rewrite (index_app f rest 16), (index_app f rest 17) by lia.
    - intros [= <-]. cbn [min_size] in Hm. unfold MinTaggedFrameSize in Hm. lia. }
  cbn [mbind outcome_bind]. rewrite bool_decide_eq_false_2 by (rewrite length_app; lia).
  revert He. unfold FastEthertype. rewrite !index_app; [done| |];
    destruct t; cbn [min_size tag_bytes] in *; unfold MinFrameSize, MinTaggedFrameSize, MinDoubleTaggedSize in *; lia.
Qed.

Lemma FastDestination_app f rest : (6 <= length f)%nat -> FastDestination (f ++ rest) = Ok (take 6 f).
Proof.
  intros H. unfold FastDestination. rewrite slice_ok by (rewrite ?length_app; lia).
  by rewrite drop_0, take_app_le by (simpl; lia).
Qed.

(** ** Sending *)
Section Sending.
Context `{RSA : RSALib, NET : Net, TAPD : TapDev, RND : RandSource, CDC : EdgeCodec, US : UDPServices}
  {MR : MapRange (list Z)}.

(** The header of the next packet. *)
Definition next_header (e : EdgeClient) (pt : Z) (dst : option (list Z)) : ProtoVHeader :=
  mkHeader VersionV 64 pt 0 (Z.land (u32 (ec_seq e + 1)) 0xFFFF) (HashCommunity (ec_Community e))
    (take 6 (ec_MACAddr e)) (default (replicate 6 0) (take 6 <$> dst)) (u32 (ec_clock e / 10 ^ 9)) 0.

Definition mac_ok (m : list Z) : Prop := length m = 6%nat /\ bytes_ok m.

Lemma take6 (m : list Z) : length m = 6%nat -> take 6 m = m.
Proof. intros <-. apply firstn_all. Qed.

Lemma slice6 (m : list Z) : length m = 6%nat -> slice m 0 6 = Ok (take 6 m).
Proof. intros H. by rewrite slice_ok by lia. Qed.

Lemma EdgeHeader_eval e pt dst : mac_ok (ec_MACAddr e) -> (forall d, dst = Some d -> mac_ok d) ->
  EdgeHeader pt dst e = (Ok (next_header e pt dst), next_seq e).
Proof.
  intros [Hm _] Hd. unfold EdgeHeader. munfold. cbn [ec_MACAddr next_seq upd_counts].
  rewrite slice6 by done. destruct dst as [d|]; [|done]. destruct (Hd d eq_refl) as [Hl _].
  rewrite slice6 by done. done.
Qed.

Lemma land_ffff z : 0 <= Z.land z 0xFFFF < 2 ^ 16.
Proof. change 0xFFFF with (Z.ones 16). rewrite Z.land_ones by lia. by apply Z.mod_pos_bound. Qed.

Lemma u32_range z : 0 <= u32 z < 2 ^ 32.
Proof. by apply Z.mod_pos_bound. Qed.

Lemma next_header_wf e pt dst : is_byte pt -> mac_ok (ec_MACAddr e) -> (forall d, dst = Some d -> mac_ok d) ->
  bytes_ok (ec_Community e) -> header_wf (next_header e pt dst).
Proof.
  intros Hp [Hm Hmb] Hd Hc. unfold header_wf, next_header. cbn.
  split_and!; try (unfold is_byte, VersionV; lia); try done.
  - apply land_ffff.
  - apply land_ffff.
  - by apply HashCommunity_range.
  - by apply HashCommunity_range.
  - rewrite length_take. lia.
  - by apply bytes_ok_take.
  - destruct dst as [d|]; [|done]. destruct (Hd d eq_refl). cbn. rewrite length_take. lia.
  - destruct dst as [d|]; [|by repeat constructor]. destruct (Hd d eq_refl). cbn. by apply bytes_ok_take.
  - apply u32_range.
  - apply u32_range.
Qed.

Definition udp_ready (e : EdgeClient) : Prop := WSSTransport e = None /\ Conn e = true.

(** The state after an accepted write. *)
Definition sent_to (ev : Sent) (e : EdgeClient) : EdgeClient :=
  upd_net (ec_wire e ++ [(ev, None)]) (tap_log e) e.

Lemma transmit_udp e wrap packet a : udp_ready e -> net_write (ec_wire e) (SentUDP packet a) = None ->
  transmit wrap packet (Some a) e = (Ok tt, sent_to (SentUDP packet a) e).
Proof.
  intros [Hw Hc] Hn. unfold transmit, edge_send. munfold. unfold id. rewrite Hw, Hc. cbn [negb].
  rewrite Hn. done.
Qed.

(** No direct path to the destination is known. *)
Definition relay_only (e : EdgeClient) (d : list Z) : Prop :=
  forall l p, Peers (ec_Peers e) !! HardwareAddr_String d = Some l ->
    pheap (ec_Peers e) !! l = Some p -> P2PStatus p <> P2PAvailable.

Lemma on_peers_get {A} (m : M PeerRegistry A) r e : m (ec_Peers e) = (r, ec_Peers e) -> on_peers m e = (r, e).
Proof. intros H. unfold on_peers. rewrite H. by destruct e. Qed.

Lemma target_supernode e dst : udp_ready e -> UDPAddrWithStrategy dst UDPEnforceSupernode e = (Ok (Some (SupernodeAddr e)), e).
Proof. intros [Hw _]. unfold UDPAddrWithStrategy. munfold. unfold id. by rewrite Hw. Qed.

Lemma target_relay e d : udp_ready e -> reg_wf (ec_Peers e) -> relay_only e d ->
  UDPAddrWithStrategy (Some d) UDPBestEffort e = (Ok (Some (SupernodeAddr e)), e).
Proof.
  intros [Hw _] Hwf Hr. unfold UDPAddrWithStrategy. rewrite gets_bind. unfold id. rewrite Hw.
  rewrite bool_decide_eq_false_2 by (by intros [? ?]).
  destruct (Peers (ec_Peers e) !! HardwareAddr_String d) as [l|] eqn:El.
  - destruct (wf_mac _ Hwf _ _ El) as (p & Hp & _).
    assert (on_peers (GetPeer (HardwareAddr_String d)) e = (Ok l, e)) as E
      by (apply on_peers_get; unfold GetPeer; munfold; unfold id; by rewrite El).
    munfold. rewrite E. cbv beta iota. rewrite Hp. cbv beta iota.
    rewrite bool_decide_eq_false_2 by (by eapply Hr). done.
  - assert (on_peers (GetPeer (HardwareAddr_String d)) e = (Err errPeerNotFound, e)) as E
      by (apply on_peers_get; unfold GetPeer; munfold; unfold id; by rewrite El).
    munfold. rewrite E. done.
Qed.

Lemma WritePacket_udp e pt dst payload st a : udp_ready e -> mac_ok (ec_MACAddr e) ->
  (forall d, dst = Some d -> mac_ok d) -> UDPAddrWithStrategy dst st e = (Ok (Some a), e) ->
  let packet := PackProtoVDatagram (next_header e pt dst) payload in
  net_write (ec_wire e) (SentUDP packet a) = None ->
  WritePacket pt dst payload st e = (Ok tt, sent_to (SentUDP packet a) (add_sent (next_seq e))).
Proof.
  intros Hu Hm Hd Ht packet Hn. unfold WritePacket. rewrite (bind_ok _ _ _ _ _ Ht).
  rewrite (bind_ok _ _ _ _ _ (EdgeHeader_eval e pt dst Hm Hd)).
  unfold modify at 1. unfold mbind at 1, M_bind. cbv beta iota. by apply transmit_udp.
Qed.

(** The state after a frame was read and transformed. *)
Definition transformed (frame : list Z) (e : EdgeClient) : EdgeClient :=
  next_rand (set_frameBuf (frame ++ drop (length frame) (frameBuf e)) e).

Lemma tap_read e frame ty out rest :
  (14 <= length frame <= length (frameBuf e))%nat -> GetEthertype frame = Ok ty -> ty <> EthertypeIPv6 ->
  PrepareOutput (payloadProcessor e) frame (rand_at (ec_rand e)) = (Ok out, rest) ->
  handleTAP_frame frame e =
  (if negb (IsBroadcast (take 6 frame)) then
     if enableVFuze e then round errConnClosed (SendVFuze (take 6 frame) out UDPBestEffort)
     else round errConnClosed (WritePacket TypeData (Some (take 6 frame)) out UDPBestEffort)
   else round errConnClosed (WritePacket TypeData (Some (take 6 frame)) out UDPEnforceSupernode)) (transformed frame e).
Proof.
  intros Hlen Hty Hne Hp. set (e1 := set_frameBuf (frame ++ drop (length frame) (frameBuf e)) e).
  unfold handleTAP_frame. rewrite gets_bind. unfold id. cbv zeta. rewrite copy_at_prefix by lia.
  unfold modify at 1. unfold mbind at 1, M_bind at 1. cbv beta iota. fold e1. rewrite gets_bind. unfold id.
  rewrite bool_decide_eq_false_2 by lia.
  change (frameBuf e1) with (frame ++ drop (length frame) (frameBuf e)).
  rewrite (GetEthertype_app _ _ _ Hty), bool_decide_eq_false_2 by done.
  rewrite Nat.min_l by lia. rewrite slice_prefix, FastDestination_app by lia.
  assert (ProcessOutgoingPayload frame e1 = (Ok out, transformed frame e)) as Ho
    by (unfold ProcessOutgoingPayload; munfold; unfold id; change (ec_rand e1) with (ec_rand e);
        change (payloadProcessor e1) with (payloadProcessor e); by rewrite Hp).
  munfold. rewrite Ho. cbv beta iota. change (enableVFuze e1) with (enableVFuze e).
  by destruct (negb _), (enableVFuze e).
Qed.

Lemma mac_of_frame (frame : list Z) : (14 <= length frame)%nat -> bytes_ok frame -> mac_ok (take 6 frame).
Proof. intros Hl Hb. split; [rewrite length_take; lia|by apply bytes_ok_take]. Qed.

(** A frame for an edge without a direct path goes to the supernode. *)
Lemma tap_to_supernode e frame ty out rest :
  udp_ready e -> mac_ok (ec_MACAddr e) -> reg_wf (ec_Peers e) -> enableVFuze e = false ->
  bytes_ok frame -> (14 <= length frame <= length (frameBuf e))%nat ->
  GetEthertype frame = Ok ty -> ty <> EthertypeIPv6 ->
  IsBroadcast (take 6 frame) = true \/ relay_only e (take 6 frame) ->
  PrepareOutput (payloadProcessor e) frame (rand_at (ec_rand e)) = (Ok out, rest) ->
  let packet := PackProtoVDatagram (next_header e TypeData (Some (take 6 frame))) out in
  net_write (ec_wire e) (SentUDP packet (SupernodeAddr e)) = None ->
  exists e', handleTAP_frame frame e = (Ok true, e') /\
    ec_wire e' = ec_wire e ++ [(SentUDP packet (SupernodeAddr e), None)].
Proof.
  intros Hu Hm Hwf Hv Hfb Hlen Hty Hne Hd Hp packet Hn. set (e2 := transformed frame e).
  pose proof (mac_of_frame frame ltac:(lia) Hfb) as Hdst.
  assert (forall st, UDPAddrWithStrategy (Some (take 6 frame)) st e2 = (Ok (Some (SupernodeAddr e)), e2) ->
    round errConnClosed (WritePacket TypeData (Some (take 6 frame)) out st) e2 =
    (Ok true, sent_to (SentUDP packet (SupernodeAddr e)) (add_sent (next_seq e2)))) as Hw.
  { intros st Ht. unfold round. munfold.
    rewrite (WritePacket_udp e2 TypeData (Some (take 6 frame)) out st (SupernodeAddr e)); try done.
    intros d [= <-]. done. }
  exists (sent_to (SentUDP packet (SupernodeAddr e)) (add_sent (next_seq e2))). split; [|done].
  rewrite (tap_read e frame ty out rest Hlen Hty Hne Hp), Hv.
  destruct (IsBroadcast (take 6 frame)); cbn [negb].
  - apply Hw. exact (target_supernode e2 _ Hu).
  - apply Hw. destruct Hd as [?|Hd]; [done|]. exact (target_relay e2 (take 6 frame) Hu Hwf Hd).
Qed.

Lemma VFuzeHeader_eq d : mac_ok d -> VFuzeHeaderBytes d = Ok (VersionVFuze :: d).
Proof.
  intros [Hl _]. unfold VFuzeHeaderBytes. rewrite slice6 by done. cbn [mbind outcome_bind].
  do 6 (destruct d as [|? d]; [done|]). destruct d; [|done]. done.
Qed.

(** With the fast path enabled it goes there in a fast-path packet. *)
Lemma tap_vfuze e frame ty out rest :
  udp_ready e -> reg_wf (ec_Peers e) -> enableVFuze e = true ->
  bytes_ok frame -> (14 <= length frame <= length (frameBuf e))%nat ->
  GetEthertype frame = Ok ty -> ty <> EthertypeIPv6 ->
  IsBroadcast (take 6 frame) = false -> relay_only e (take 6 frame) ->
  PrepareOutput (payloadProcessor e) frame (rand_at (ec_rand e)) = (Ok out, rest) ->
  let packet := VersionVFuze :: take 6 frame ++ out in
  net_write (ec_wire e) (SentUDP packet (SupernodeAddr e)) = None ->
  exists e', handleTAP_frame frame e = (Ok true, e') /\
    ec_wire e' = ec_wire e ++ [(SentUDP packet (SupernodeAddr e), None)].
Proof.
  intros Hu Hwf Hv Hfb Hlen Hty Hne Hb Hd Hp packet Hn. set (e2 := transformed frame e).
  pose proof (mac_of_frame frame ltac:(lia) Hfb) as Hdst. pose proof Hdst as [Hl6 _].
  rewrite (tap_read e frame ty out rest Hlen Hty Hne Hp), Hv, Hb. cbn [negb]. fold e2.
  assert (SendVFuze (take 6 frame) out UDPBestEffort e2 =
    (Ok tt, sent_to (SentUDP packet (SupernodeAddr e)) (add_sent e2))) as E.
  { unfold SendVFuze. rewrite (bind_ok _ _ _ _ _ (target_relay e2 (take 6 frame) Hu Hwf Hd)).
    rewrite VFuzeHeader_eq by done. unfold mlift, modify. unfold mbind at 1 2, M_bind at 1 2. cbv beta iota zeta.
    assert (take ProtoVFuzeSize (VersionVFuze :: take 6 frame) = VersionVFuze :: take 6 frame) as ->
      by (apply take_ge; simpl; unfold ProtoVFuzeSize; lia).
    by apply transmit_udp. }
  unfold round. munfold. rewrite E. by eexists.
Qed.

(** ** Receiving *)

(** What the TAP device gets: short frames are filled up with zeros. *)
Definition padded (frame : list Z) : list Z := frame ++ replicate (minFrame - length frame) 0.

Lemma pad_eq p :
  (if bool_decide (length p < minFrame)%nat then copy_at (replicate minFrame 0) 0 minFrame p else p) = padded p.
Proof.
  unfold padded. case_bool_decide as H.
  - unfold copy_at. rewrite Nat.sub_0_r, Nat.min_r by lia. rewrite firstn_all. cbn [take Nat.add app].
    by rewrite drop_replicate.
  - replace (minFrame - length p)%nat with 0%nat by lia. by rewrite app_nil_r.
Qed.

Lemma tap_accepts e frame : tap_write (tap_log e) frame = None ->
  wrapping "TAP write error" (tap_Write frame) e = (Ok tt, upd_net (ec_wire e) (tap_log e ++ [(frame, None)]) e).
Proof. intros H. unfold wrapping, tap_Write. munfold. unfold id. by rewrite H. Qed.

Lemma handleDataPayload_long e payload frame : (28 <= length payload)%nat ->
  ParseInput (payloadProcessor e) payload = Ok frame -> tap_write (tap_log e) (padded frame) = None ->
  handleDataPayload payload e = (Ok tt, upd_net (ec_wire e) (tap_log e ++ [(padded frame, None)]) e).
Proof.
  intros Hl Hp Ht. unfold handleDataPayload. rewrite bool_decide_eq_false_2 by (unfold minGCMSize; lia).
  assert (wrapping "error while processing Incoming data packets, droping" (ProcessIncomingPayload payload) e
    = (Ok frame, e)) as E by (unfold wrapping, ProcessIncomingPayload; munfold; unfold id; by rewrite Hp).
  rewrite (bind_ok _ _ _ _ _ E). cbv zeta. rewrite pad_eq. by apply tap_accepts.
Qed.

Lemma handleDataPayload_short e payload : (length payload < 28)%nat -> tap_write (tap_log e) (padded payload) = None ->
  handleDataPayload payload e = (Ok tt, upd_net (ec_wire e) (tap_log e ++ [(padded payload, None)]) e).
Proof.
  intros Hl Ht. unfold handleDataPayload. rewrite bool_decide_eq_true_2 by (unfold minGCMSize; lia).
  unfold mbind at 1, M_bind at 1, mret, M_ret. cbv beta iota zeta. rewrite pad_eq. by apply tap_accepts.
Qed.

(** The state in which a packet is handled. *)
Definition received (packet : list Z) (e : EdgeClient) : EdgeClient :=
  add_recv (set_recvBuf (packet ++ drop (length packet) (recvBuf e)) e).

Lemma receive_head packet addr v tl e : packet = v :: tl -> (length packet <= length (recvBuf e))%nat ->
  receive packet addr e =
  (if v =? VersionVFuze then round errFileClosed (handleVFuzePacket (recvBuf (received packet e)) (length packet) addr)
   else if bool_decide (length packet < ProtoVHeaderSize)%nat then mret true
   else match NewRawMessage packet (default (OtherAddr (str "<nil>")) addr) with
        | Panic => mpanic
        | Err _ => mret true
        | Ok rawMsg => round errFileClosed (Handle messageHandlers rawMsg)
        end) (received packet e).
Proof.
  intros -> Hl. unfold receive. rewrite gets_bind. unfold id. cbv zeta. rewrite copy_at_prefix by done.
  unfold modify. unfold mbind at 1 2, M_bind at 1 2. cbv beta iota. fold (received (v :: tl) e). rewrite gets_bind.
  change (recvBuf (received (v :: tl) e)) with ((v :: tl) ++ drop (length (v :: tl)) (recvBuf e)).
  change (index ((v :: tl) ++ drop (length (v :: tl)) (recvBuf e)) 0) with (@Ok Z v).
  unfold mlift. unfold mbind at 1, M_bind at 1. cbv beta iota. rewrite Nat.min_l by done.
  destruct (v =? VersionVFuze); [done|]. case_bool_decide; [done|]. rewrite slice_prefix. done.
Qed.

Lemma NewRawMessage_pack h p addr : header_wf h -> Version h = VersionV ->
  NewRawMessage (PackProtoVDatagram h p) addr = Ok (mkRaw h p addr (PackProtoVDatagram h p)).
Proof. intros Hw Hv. unfold NewRawMessage. by rewrite Unpack_Pack_lemma. Qed.

Lemma length_pack h p : header_wf h -> length (PackProtoVDatagram h p) = (30 + length p)%nat.
Proof.
  intros (_ & _ & _ & _ & _ & _ & [Hs _] & [Hd _] & _). unfold PackProtoVDatagram.
  by rewrite length_app, length_header_bytes.
Qed.

(** A message on the wire reaches its handler. *)
Lemma receive_message h p addr e fn : header_wf h -> Version h = VersionV ->
  (30 + length p <= length (recvBuf e))%nat -> messageHandlers !! hPacketType h = Some fn ->
  let packet := PackProtoVDatagram h p in
  receive packet addr e =
    round errFileClosed (fn (mkRaw h p (default (OtherAddr (str "<nil>")) addr) packet)) (received packet e).
Proof.
  intros Hw Hv Hl Hh packet. pose proof (length_pack h p Hw) as Hlen.
  rewrite (receive_head packet addr VersionV (tail packet));
    [|unfold packet, PackProtoVDatagram, header_bytes; by rewrite Hv|unfold packet; lia].
  change (VersionV =? VersionVFuze) with false. cbv iota.
  rewrite bool_decide_eq_false_2 by (unfold ProtoVHeaderSize, packet; lia). unfold packet.
  rewrite NewRawMessage_pack by done. unfold Handle. simpl hPacketType at 1. cbn [Header]. by rewrite Hh.
Qed.

Lemma receive_data h p addr e frame : header_wf h -> Version h = VersionV -> hPacketType h = TypeData ->
  (30 + length p <= length (recvBuf e))%nat -> (28 <= length p)%nat ->
  ParseInput (payloadProcessor e) p = Ok frame -> tap_write (tap_log e) (padded frame) = None ->
  exists e', receive (PackProtoVDatagram h p) addr e = (Ok true, e') /\ tap_log e' = tap_log e ++ [(padded frame, None)].
Proof.
  intros Hw Hv Ht Hl H28 Hp Htap.
  rewrite (receive_message h p addr e handleDataMessage Hw Hv Hl) by (by rewrite Ht).
  unfold round, handleDataMessage. munfold. cbn [Payload].
  rewrite (handleDataPayload_long (received (PackProtoVDatagram h p) e) p frame) by done.
  eexists. split; [done|]. done.
Qed.

(** What a receiver makes of a processed payload: below 28 bytes it is taken as
    it is, without undoing the pipeline. *)
Definition arriving (frame processed : list Z) : list Z := if bool_decide (length processed < 28)%nat then processed else frame.

Lemma receive_arriving h p addr e frame : header_wf h -> Version h = VersionV -> hPacketType h = TypeData ->
  (30 + length p <= length (recvBuf e))%nat -> ParseInput (payloadProcessor e) p = Ok frame ->
  tap_write (tap_log e) (padded (arriving frame p)) = None ->
  exists e', receive (PackProtoVDatagram h p) addr e = (Ok true, e') /\ tap_log e' = tap_log e ++ [(padded (arriving frame p), None)].
Proof.
  unfold arriving. case_bool_decide; [|intros; apply receive_data; [done..|lia|done|done]].
  intros Hw Hv Ht Hl Hp Htap. rewrite (receive_message h p addr e handleDataMessage Hw Hv Hl) by (by rewrite Ht).
  unfold round, handleDataMessage. munfold. cbn [Payload].
  rewrite (handleDataPayload_short (received (PackProtoVDatagram h p) e) p) by done.
  eexists. split; [done|]. done.
Qed.
End Sending.

(** ** From edge to edge *)

(** A MAC that some edge derived is not the nil address of a header. *)
Lemma derived_mac name mid m : mac_ok m ->
  HardwareAddr_String (ExtGenerateMac name mid) = HardwareAddr_String m -> bytesToMAC m = Some m.
Proof.
  intros [Hl Hb] H. destruct (ExtGenerateMac_wf name mid) as [Hl' Hb'].
  apply HardwareAddr_String_inj in H; [|done..]. subst m. unfold bytesToMAC.
  unfold ExtGenerateMac in *. destruct (extGenerateMac_shape mid name HASH_KEY 12345) as (b & t & -> & Hbb & _).
  destruct (mac_bits b Hbb) as (_ & _ & H2). cbn [forallb].
  destruct (Z.eqb_spec (Z.land (Z.lor b 2) 254) 0) as [E|]; [|done]. by rewrite E in H2.
Qed.

Section EndToEnd.
Context `{IPP : IPPool, RSA : RSALib, CDC : SNCodec, ECDC : EdgeCodec, TAPD : TapDev, RND : RandSource,
  US : UDPServices} `{CIP : CipherLaws} {MR : MapRange (list Z)}.

(** The raw message of an edge's data packet. *)
Lemma data_packet_raw (a : EdgeClient) d out addr :
  mac_ok (ec_MACAddr a) -> mac_ok d -> bytes_ok (ec_Community a) ->
  bytesToMAC (ec_MACAddr a) = Some (ec_MACAddr a) -> bytesToMAC d = Some d ->
  let h := next_header a TypeData (Some d) in
  let r := mkRaw h out addr (PackProtoVDatagram h out) in
  NewRawMessage (PackProtoVDatagram h out) addr = Ok r /\ header_wf h /\
  EdgeMACAddr r = HardwareAddr_String (ec_MACAddr a) /\ DestMACAddr r = HardwareAddr_String d /\
  CommunityHash r = HashCommunity (ec_Community a).
Proof.
  intros Hm Hd Hc Hma Hmd h r.
  assert (header_wf h) as Hwf by (apply next_header_wf; [by vm_compute|done| |done]; by intros ? [= <-]).
  split; [by apply NewRawMessage_pack|]. split; [done|].
  unfold EdgeMACAddr, DestMACAddr, HasSrcMACAddr, HasDstMACAddr, GetSrcMACAddr, GetDstMACAddr.
  change (Header r) with h. change (SourceID h) with (take 6 (ec_MACAddr a)). change (DestID h) with (take 6 d).
  rewrite (take6 (ec_MACAddr a)), (take6 d) by apply Hm || apply Hd. rewrite Hma, Hmd. done.
Qed.
End EndToEnd.

(** ** A concrete edge to evaluate *)
Definition sample_edge_codec : EdgeCodec := {|
  ecodec_sps := countable_proto _; ecodec_rreq := countable_proto _; ecodec_rresp := countable_proto _;
  ecodec_unreg := countable_proto _; ecodec_hb := countable_proto _; ecodec_plr := countable_proto _;
  ecodec_ptp := countable_proto _; ecodec_pil := countable_proto _; ecodec_ppi := countable_proto _;
  ecodec_pfs := countable_proto _; ecodec_li := countable_proto _; ecodec_oc := countable_proto _;
  ecodec_ack := countable_proto _; ecodec_ice := countable_proto _; ecodec_turn := countable_proto _ |}.

Module EdgeSample.
#[export] Existing Instance sample_edge_codec.
#[export] Instance open_tap : TapDev := fun _ _ => None.
#[export] Instance fixed_rand : RandSource := fun n => [Z.of_nat n; 0; 0].
#[export] Instance no_services : UDPServices := fun _ => None.

(** The edge with machine id [mid] in community [ab], with small buffers. *)
Definition edge (vfuze : bool) (mid : list Z) : EdgeClient :=
  set_frameBuf (replicate 100 0) (set_recvBuf (replicate 100 0)
    (NewEdgeClient (str "e") (str "ab") vfuze true (str "secret") (UDPAddr [192; 0; 2; 9] 7777) true None mid
       (ExtGenerateMac (str "ab") mid) (1000 * 10 ^ 9))).

Definition frame_to (dst src : list Z) : list Z := NewFrame dst src EthertypeIPv4 (replicate 30 1).
End EdgeSample.

(** C6. A frame travels from edge to edge: a frame of at least 14 bytes that is
    not IPv6 and fits the buffers, read by edge [a] from its TAP device for the MAC of edge [b], without fast path and
    with no direct path known, and processed without error, goes in one packet to
    the supernode; the supernode,
    where both are registered in the community over UDP, relays it in one packet
    to the address of [b]; and [b], with the same compression and encryption
    settings, writes the frame, filled up to 60 bytes, to its TAP device, unless
    the processed payload is below 28 bytes: then it writes that payload.  The
    writes are accepted. *)
Theorem frame_end_to_end `{IPP : IPPool, RSA : RSALib, CDC : SNCodec, ECDC : EdgeCodec, TAPD : TapDev,
    RND : RandSource, US : UDPServices, CIP : CipherLaws} {MR : MapRange (list Z)} (netA netS netB : Net)
    compress passphrase (a b : EdgeClient) s frame ty out rest addrA addrS c cm la ea lb eb :
  udp_ready a -> mac_ok (ec_MACAddr a) -> bytes_ok (ec_Community a) -> reg_wf (ec_Peers a) -> enableVFuze a = false ->
  payloadProcessor a = edge_transforms compress passphrase ->
  payloadProcessor b = edge_transforms compress passphrase ->
  bytes_ok frame -> (14 <= length frame <= length (frameBuf a))%nat ->
  GetEthertype frame = Ok ty -> ty <> EthertypeIPv6 -> relay_only a (take 6 frame) ->
  PrepareOutput (payloadProcessor a) frame (rand_at (ec_rand a)) = (Ok out, rest) ->
  (30 + length out <= length (recvBuf b))%nat ->
  sn_inv s -> registered_at s (HardwareAddr_String (ec_MACAddr a)) (HashCommunity (ec_Community a)) c cm la ea ->
  cm_edges cm !! HardwareAddr_String (take 6 frame) = Some lb -> eheap s !! lb = Some eb -> WSSConnID eb = [] ->
  (forall ev, netA (ec_wire a) ev = None) -> (forall ev, netS (wire s) ev = None) ->
  tap_write (tap_log b) (padded (arriving frame out)) = None ->
  exists packet relayed a' s' b',
    handleTAP_frame (NET := netA) frame a = (Ok true, a') /\
    ec_wire a' = ec_wire a ++ [(SentUDP packet (SupernodeAddr a), None)] /\
    ProcessPacket (NET := netS) packet addrA s = (Ok tt, s') /\ core s s' /\
    wire s' = wire s ++ [(SentUDP relayed (Edge_UDPAddr eb), None)] /\
    handleUDP_packet (NET := netB) relayed addrS b = (Ok true, b') /\
    tap_log b' = tap_log b ++ [(padded (arriving frame out), None)].
Proof.
  intros Hu Hm Hcb Hwf Hv Hpa Hpb Hfb Hlen Hty Hne Hrel Hp Hbuf HI Hreg Hlb Heb Hws HnA HnS Htap.
  assert (mac_ok (take 6 frame)) as Hd by (split; [rewrite length_take; lia|by apply bytes_ok_take]).
  destruct (ra_ok _ _ _ _ _ _ _ Hreg) as (_ & _ & Hma).
  destruct (inv_edge HI _ _ _ _ (ra_cm _ _ _ _ _ _ _ Hreg) Hlb) as (eb' & Heb' & _ & _ & Hmd).
  assert (eb' = eb) as -> by congruence.
  destruct (data_packet_raw a (take 6 frame) out addrA) as (Hraw & Hh & E1 & E2 & E3);
    [done..|by eapply derived_mac|by eapply derived_mac|].
  set (h := next_header a TypeData (Some (take 6 frame))) in *.
  set (r := mkRaw h out addrA (PackProtoVDatagram h out)) in *.
  destruct (tap_to_supernode (NET := netA) a frame ty out rest) as (a' & Ha & Hwa); try done; [by right|].
  destruct (unicast_run (NET := netS) (PackProtoVDatagram h out) addrA r s c cm la ea lb eb
    (SentUDP (flagged r) (Edge_UDPAddr eb))) as (s' & Hs & Hcore & Hws' & _); try done.
  - by rewrite E1, E3.
  - by rewrite E2.
  - unfold delivery. by rewrite bool_decide_eq_true_2.
  - destruct (receive_arriving (NET := netB) (SetFromSupernode h true) out (Some addrS) b frame) as (b' & Hb & Ht); try done.
    + by apply header_wf_set_Flags.
    + rewrite Hpb. eapply pipeline_inverse; [apply edge_transforms_laws|]. by rewrite <-Hpa.
    + exists (PackProtoVDatagram h out), (flagged r), a', s', b'. done.
Qed.

Import Sample EdgeSample.

(** The sample edges know no peer yet. *)
Lemma sample_relay_only vf mid d : relay_only (edge vf mid) d.
Proof. intros l p Hl. change (Peers (ec_Peers (edge vf mid))) with (∅ : gmap (list Z) nat) in Hl. by rewrite lookup_empty in Hl. Qed.

Lemma frame_end_to_end_witness :
  let a := edge false [1; 2] in let b := edge false [3; 4] in
  let frame := frame_to (ExtGenerateMac (str "ab") [3; 4]) (ExtGenerateMac (str "ab") [1; 2]) in
  exists packet relayed a' s' b', handleTAP_frame (NET := open_net) frame a = (Ok true, a') /\
    ec_wire a' = [(SentUDP packet (SupernodeAddr a), None)] /\
    ProcessPacket packet (addr 1) two = (Ok tt, s') /\
    handleUDP_packet (NET := open_net) relayed (addr 9) b = (Ok true, b') /\
    tap_log b' = [(padded frame, None)].
Proof.
  intros a b frame. pose proof two_inv as HI.
  assert (bool_decide (is_Some (lookup_edge two (str "ab") (mac (str "ab") [1; 2]))) = true) as Hl
    by (vm_compute; reflexivity).
  apply bool_decide_eq_true_1 in Hl as [[[[c cm] l] e] Hl].
  apply (lookup_edge_at two _ _ _ _ _ _ HI) in Hl.
  assert (option_map (fun x => WSSConnID x.2) (lookup_edge two (str "ab") (mac (str "ab") [3; 4]))
    = Some []) as Hd by (vm_compute; reflexivity).
  destruct (lookup_edge two (str "ab") (mac (str "ab") [3; 4])) as [[[[c2 cm2] l2] e2]|] eqn:Hl2;
    [|discriminate].
  injection Hd as Hd. apply (lookup_edge_at two _ _ _ _ _ _ HI) in Hl2.
  destruct Hl2 as [H1 H2 H3 H4 _]. rewrite (ra_comm _ _ _ _ _ _ _ Hl) in H1. injection H1 as <-.
  rewrite (ra_cm _ _ _ _ _ _ _ Hl) in H2. injection H2 as <-.
  destruct (frame_end_to_end open_net open_net open_net true (str "secret") a b two frame EthertypeIPv4
    ([0; 0; 7; 40] ++ frame) [0] (addr 1) (addr 9) c cm l e l2 e2)
    as (packet & relayed & a' & s' & b' & R1 & R2 & R3 & _ & _ & R4 & R5).
  - split; reflexivity.
  - vm_compute. split; [reflexivity|repeat constructor; discriminate].
  - vm_compute. repeat constructor; discriminate.
  - apply NewPeerRegistry_wf.
  - reflexivity.
  - reflexivity.
  - reflexivity.
  - vm_compute. repeat constructor; discriminate.
  - vm_compute. lia.
  - vm_compute. reflexivity.
  - vm_compute. discriminate.
  - apply sample_relay_only.
  - vm_compute. reflexivity.
  - vm_compute. lia.
  - exact HI.
  - exact Hl.
  - exact H3.
  - exact H4.
  - exact Hd.
  - reflexivity.
  - reflexivity.
  - reflexivity.
  - exists packet, relayed, a', s', b'. split; [exact R1|]. split; [exact R2|]. split; [exact R3|].
    split; [exact R4|]. exact R5.
Defined.

(** ** The fast path *)
Section FastPath.
Context `{RSA : RSALib, NET : Net, TAPD : TapDev, RND : RandSource, CDC : EdgeCodec, US : UDPServices}
  {MR : MapRange (list Z)}.

Lemma handleDataPayload_state p e : exists tl, (handleDataPayload p e).2 = upd_net (ec_wire e) tl e.
Proof.
  assert (forall q, exists tl, (wrapping "TAP write error" (tap_Write q) e).2 = upd_net (ec_wire e) tl e) as Ht.
  { intros q. unfold wrapping, tap_Write. munfold. unfold id. destruct (tap_write (tap_log e) q); eexists; reflexivity. }
  unfold handleDataPayload. case_bool_decide.
  - unfold mbind at 1, M_bind at 1, mret, M_ret. cbv beta iota zeta. apply Ht.
  - assert (forall (k : list Z -> M EdgeClient unit), (forall q, exists tl, (k q e).2 = upd_net (ec_wire e) tl e) ->
      exists tl, ((wrapping "error while processing Incoming data packets, droping" (ProcessIncomingPayload p) ≫= k) e).2
        = upd_net (ec_wire e) tl e) as Hk.
    { intros k Hk. unfold wrapping, ProcessIncomingPayload. munfold. unfold id.
      destruct (ParseInput (payloadProcessor e) p); [apply Hk|exists (tap_log e); by destruct e..]. }
    apply Hk. intros q. cbv zeta. apply Ht.
Qed.

Lemma VFuzeDest_eq d rest : mac_ok d -> VFuzePacketDestMACAddr (VersionVFuze :: d ++ rest) = Ok d.
Proof.
  intros [Hl _]. unfold VFuzePacketDestMACAddr.
  rewrite bool_decide_eq_false_2 by (simpl; rewrite length_app; unfold ProtoVFuzeSize; lia).
  cbn [index lookup list_lookup mbind outcome_bind]. rewrite Z.eqb_refl. cbn [negb].
  rewrite slice_ok by (simpl; rewrite ?length_app; lia). change (drop 1 (VersionVFuze :: d ++ rest)) with (d ++ rest).
  change (7 - 1)%nat with 6%nat. rewrite <-Hl. by rewrite take_app_length.
Qed.

(** After a fast-path packet the reused buffer still starts with its header. *)
Lemma received_vfuze d payload addr e : mac_ok d ->
  (7 + length payload <= length (recvBuf e))%nat ->
  let e1 := (receive (VersionVFuze :: d ++ payload) addr e).2 in
  enableVFuze e1 = enableVFuze e /\ ec_MACAddr e1 = ec_MACAddr e /\
  recvBuf e1 = VersionVFuze :: d ++ payload ++ drop (7 + length payload) (recvBuf e).
Proof.
  intros Hd Hlen. pose proof Hd as [Hl _]. set (packet := VersionVFuze :: d ++ payload). cbv zeta.
  assert (length packet = 7 + length payload)%nat as Hpl by (simpl; rewrite length_app; lia).
  rewrite (receive_head packet addr VersionVFuze (d ++ payload)) by (done || lia). rewrite Z.eqb_refl.
  set (e0 := received packet e).
  assert (exists wl tl, (round errFileClosed (handleVFuzePacket (recvBuf e0) (length packet) addr) e0).2
    = upd_net wl tl e0) as (wl & tl & ->).
  { unfold round, handleVFuzePacket. munfold. unfold id.
    assert (forall x : outcome bool, exists wl tl, (x, e0).2 = upd_net wl tl e0) as Hid
      by (intros x; exists (ec_wire e0), (tap_log e0); by destruct e0).
    destruct (enableVFuze e0); [|apply Hid]. cbn [negb].
    change (recvBuf e0) with ((VersionVFuze :: d ++ payload) ++ drop (length packet) (recvBuf e)).
    change ((VersionVFuze :: d ++ payload) ++ drop (length packet) (recvBuf e))
      with (VersionVFuze :: (d ++ payload) ++ drop (length packet) (recvBuf e)).
    rewrite <-app_assoc, VFuzeDest_eq by done. case_bool_decide; [|apply Hid]. cbn [negb disablePeerSocketCheckingInVFuze].
    destruct (slice _ ProtoVFuzeSize (length packet)) as [q| |]; [|apply Hid..].
    destruct (handleDataPayload_state q e0) as [tl E]. destruct (handleDataPayload q e0) as [[x|x|] y]; simpl in *; subst;
      eexists _, _; reflexivity. }
  split_and!; [done..|]. change (recvBuf (upd_net wl tl e0)) with (packet ++ drop (length packet) (recvBuf e)).
  rewrite Hpl. unfold packet. simpl. by rewrite <-app_assoc.
Qed.
End FastPath.

(** The supernode relays a fast-path packet unchanged. *)
Lemma vfuze_relay `{IPP : IPPool, RSA : RSALib, NET : Net, CDC : SNCodec} {MR : MapRange (list Z)}
    d out addr s sl se dl de ev :
  mac_ok d -> EnableVFuze (config s) = true ->
  edgesBySocket s !! Addr_String addr = Some sl -> eheap s !! sl = Some se ->
  edgesByMAC s !! HardwareAddr_String d = Some dl -> eheap s !! dl = Some de ->
  e_Community de = e_Community se -> delivery s (VersionVFuze :: d ++ out) de = Some ev ->
  net_write (wire s) ev = None ->
  exists s', ProcessPacket (VersionVFuze :: d ++ out) addr s = (Ok tt, s') /\ core s s' /\
    wire s' = wire s ++ [(ev, None)].
Proof.
  intros Hd Hv Hsl Hse Hdl Hde Hcm Hev Hn. unfold ProcessPacket.
  rewrite (bind_ok _ _ s tt (set_stats (add_processed 1) s)) by done.
  rewrite (bind_ok _ _ _ VersionVFuze _) by done. rewrite Z.eqb_refl. unfold handleVFuze.
  rewrite VFuzeDest_eq by done. rewrite gets_bind. unfold id. set (s1 := set_stats (add_processed 1) s).
  change (EnableVFuze (config s1)) with (EnableVFuze (config s)). rewrite Hv. cbn [negb].
  change (edgesByMAC s1) with (edgesByMAC s). change (edgesBySocket s1) with (edgesBySocket s). rewrite Hdl, Hsl.
  assert (forall l e, eheap s !! l = Some e -> get_edge l s1 = (Ok e, s1)) as Hg
    by (intros l e He; unfold get_edge; munfold; simpl; by rewrite He).
  rewrite (bind_ok _ _ _ _ _ (Hg _ _ Hde)), (bind_ok _ _ _ _ _ (Hg _ _ Hse)).
  rewrite bool_decide_eq_true_2 by done. cbn [negb].
  assert (forwardPacket (VersionVFuze :: d ++ out) de s1 = (Ok tt, set_wire (wire s ++ [(ev, None)]) s1)) as Ef.
  { rewrite forwardPacket_eq. change (relayed (VersionVFuze :: d ++ out)) with (@Ok (list Z) (VersionVFuze :: d ++ out)).
    cbv beta iota.
    change (delivery s1) with (delivery s). rewrite Hev. unfold net_send. munfold. simpl. by rewrite Hn. }
  unfold mignore, mtry. munfold. rewrite Ef. by eexists.
Qed.

Lemma receive_vfuze `{RSA : RSALib, NET : Net, TAPD : TapDev, RND : RandSource, CDC : EdgeCodec, US : UDPServices}
    {MR : MapRange (list Z)} out addr e frame :
  enableVFuze e = true -> mac_ok (ec_MACAddr e) -> (7 + length out <= length (recvBuf e))%nat -> (28 <= length out)%nat ->
  ParseInput (payloadProcessor e) out = Ok frame -> tap_write (tap_log e) (padded frame) = None ->
  exists e', receive (VersionVFuze :: ec_MACAddr e ++ out) addr e = (Ok true, e') /\
    tap_log e' = tap_log e ++ [(padded frame, None)].
Proof.
  intros Hv Hm Hl H28 Hp Ht. pose proof Hm as [Hl6 _]. set (packet := VersionVFuze :: ec_MACAddr e ++ out).
  assert (length packet = 7 + length out)%nat as Hpl by (simpl; rewrite length_app; lia).
  rewrite (receive_head packet addr VersionVFuze (ec_MACAddr e ++ out)) by (done || lia). rewrite Z.eqb_refl.
  set (e0 := received packet e). unfold round, handleVFuzePacket. munfold. unfold id.
  change (enableVFuze e0) with (enableVFuze e). rewrite Hv. cbn [negb].
  change (recvBuf e0) with (VersionVFuze :: (ec_MACAddr e ++ out) ++ drop (length packet) (recvBuf e)).
  rewrite <-app_assoc, VFuzeDest_eq by done. change (ec_MACAddr e0) with (ec_MACAddr e).
  rewrite bool_decide_eq_true_2 by done. cbn [negb disablePeerSocketCheckingInVFuze].
  assert (slice (VersionVFuze :: ec_MACAddr e ++ out ++ drop (length packet) (recvBuf e)) ProtoVFuzeSize (length packet)
    = Ok out) as ->.
  { rewrite slice_ok by (rewrite ?Hpl; simpl; rewrite ?length_app; unfold ProtoVFuzeSize; lia). rewrite Hpl.
    change (VersionVFuze :: ec_MACAddr e ++ ?x) with ((VersionVFuze :: ec_MACAddr e) ++ x).
    rewrite drop_app_length' by (simpl; unfold ProtoVFuzeSize; lia).
    replace (7 + length out - ProtoVFuzeSize)%nat with (length out) by (unfold ProtoVFuzeSize; lia).
    by rewrite take_app_length. }
  rewrite (handleDataPayload_long e0 out frame) by done. by eexists.
Qed.

(** The fast path end to end: with fast-path packets enabled everywhere, a
    frame from edge [a] for edge [b] reaches the TAP device of [b] through the
    supernode, which relays the packet unchanged because the source socket and
    the destination belong to edges of one community. *)
Theorem vfuze_end_to_end `{IPP : IPPool, RSA : RSALib, CDC : SNCodec, ECDC : EdgeCodec, TAPD : TapDev,
    RND : RandSource, US : UDPServices, CIP : CipherLaws} {MR : MapRange (list Z)} (netA netS netB : Net)
    compress passphrase (a b : EdgeClient) s frame ty out rest addrA addrS la ea lb eb :
  udp_ready a -> reg_wf (ec_Peers a) -> enableVFuze a = true -> enableVFuze b = true ->
  payloadProcessor a = edge_transforms compress passphrase ->
  payloadProcessor b = edge_transforms compress passphrase ->
  bytes_ok frame -> (14 <= length frame <= length (frameBuf a))%nat ->
  GetEthertype frame = Ok ty -> ty <> EthertypeIPv6 ->
  take 6 frame = ec_MACAddr b -> IsBroadcast (ec_MACAddr b) = false -> relay_only a (ec_MACAddr b) ->
  PrepareOutput (payloadProcessor a) frame (rand_at (ec_rand a)) = (Ok out, rest) ->
  (28 <= length out)%nat -> (7 + length out <= length (recvBuf b))%nat ->
  EnableVFuze (config s) = true ->
  edgesBySocket s !! Addr_String addrA = Some la -> eheap s !! la = Some ea ->
  edgesByMAC s !! HardwareAddr_String (ec_MACAddr b) = Some lb -> eheap s !! lb = Some eb ->
  e_Community eb = e_Community ea -> WSSConnID eb = [] ->
  (forall ev, netA (ec_wire a) ev = None) -> (forall ev, netS (wire s) ev = None) ->
  tap_write (tap_log b) (padded frame) = None ->
  exists packet a' s' b',
    handleTAP_frame (NET := netA) frame a = (Ok true, a') /\
    ec_wire a' = ec_wire a ++ [(SentUDP packet (SupernodeAddr a), None)] /\
    ProcessPacket (NET := netS) packet addrA s = (Ok tt, s') /\ core s s' /\
    wire s' = wire s ++ [(SentUDP packet (Edge_UDPAddr eb), None)] /\
    handleUDP_packet (NET := netB) packet addrS b = (Ok true, b') /\
    tap_log b' = tap_log b ++ [(padded frame, None)].
Proof.
  intros Hu Hwf Hva Hvb Hpa Hpb Hfb Hlen Hty Hne Hdst Hbc Hrel Hp H28 Hbuf Hcfg Hla Hea Hlb Heb Hcm Hws HnA HnS Htap.
  pose proof (mac_of_frame frame ltac:(lia) Hfb) as Hd. rewrite Hdst in Hd.
  destruct (tap_vfuze (NET := netA) a frame ty out rest) as (a' & Ha & Hwa); rewrite ?Hdst; try done.
  rewrite Hdst in Hwa.
  destruct (vfuze_relay (NET := netS) (ec_MACAddr b) out addrA s la ea lb eb
    (SentUDP (VersionVFuze :: ec_MACAddr b ++ out) (Edge_UDPAddr eb))) as (s' & Hs & Hc & Hw); try done.
  { unfold delivery. by rewrite bool_decide_eq_true_2. }
  destruct (receive_vfuze (NET := netB) out (Some addrS) b frame) as (b' & Hb & Ht); try done.
  { rewrite Hpb. eapply pipeline_inverse; [apply edge_transforms_laws|]. by rewrite <-Hpa. }
  exists (VersionVFuze :: ec_MACAddr b ++ out), a', s', b'. done.
Qed.

(** An edge found by socket or by MAC in the sample supernode. *)
Definition by_socket (s : Supernode) (n : Z) : option (nat * Edge) :=
  l ← edgesBySocket s !! Addr_String (addr n); e ← eheap s !! l; Some (l, e).
Definition by_mac (s : Supernode) (m : list Z) : option (nat * Edge) :=
  l ← edgesByMAC s !! m; e ← eheap s !! l; Some (l, e).

Lemma by_socket_spec s n l e : by_socket s n = Some (l, e) ->
  edgesBySocket s !! Addr_String (addr n) = Some l /\ eheap s !! l = Some e.
Proof. unfold by_socket. intros (? & ? & (? & ? & [= -> ->])%bind_Some)%bind_Some. done. Qed.

Lemma by_mac_spec s m l e : by_mac s m = Some (l, e) -> edgesByMAC s !! m = Some l /\ eheap s !! l = Some e.
Proof. unfold by_mac. intros (? & ? & (? & ? & [= -> ->])%bind_Some)%bind_Some. done. Qed.

Lemma found {A B} (f : A -> B) o y : option_map f o = Some y -> exists x, o = Some x /\ f x = y.
Proof. destruct o as [x|]; [|done]. intros [= <-]. by exists x. Qed.

Lemma vfuze_end_to_end_witness :
  let a := edge true [1; 2] in let b := edge true [3; 4] in
  let frame := frame_to (ExtGenerateMac (str "ab") [3; 4]) (ExtGenerateMac (str "ab") [1; 2]) in
  exists packet a' s' b', handleTAP_frame (NET := open_net) frame a = (Ok true, a') /\
    ec_wire a' = [(SentUDP packet (SupernodeAddr a), None)] /\
    ProcessPacket packet (addr 1) two = (Ok tt, s') /\
    handleUDP_packet (NET := open_net) packet (addr 9) b = (Ok true, b') /\
    tap_log b' = [(padded frame, None)].
Proof.
  intros a b frame.
  assert (option_map (fun x => e_Community x.2) (by_socket two 1) = Some (str "ab")) as Hs by (vm_compute; reflexivity).
  assert (option_map (fun x => (e_Community x.2, WSSConnID x.2)) (by_mac two (mac (str "ab") [3; 4])) = Some (str "ab", []))
    as Hm by (vm_compute; reflexivity).
  apply found in Hs as ([la ea] & Ha & Hs). apply found in Hm as ([lb eb] & Hb & Hm).
  apply pair_eq in Hm as [Hm1 Hm2]. apply by_socket_spec in Ha as [Ha1 Ha2]. apply by_mac_spec in Hb as [Hb1 Hb2].
  destruct (vfuze_end_to_end open_net open_net open_net true (str "secret") a b two frame EthertypeIPv4
    ([0; 0; 7; 40] ++ frame) [0] (addr 1) (addr 9) la ea lb eb) as (packet & a' & s' & b' & R1 & R2 & R3 & _ & _ & R4 & R5).
  - split; reflexivity.
  - apply NewPeerRegistry_wf.
  - reflexivity.
  - reflexivity.
  - reflexivity.
  - reflexivity.
  - vm_compute. repeat constructor; discriminate.
  - vm_compute. lia.
  - vm_compute. reflexivity.
  - vm_compute. discriminate.
  - vm_compute. reflexivity.
  - vm_compute. reflexivity.
  - apply sample_relay_only.
  - vm_compute. reflexivity.
  - vm_compute. lia.
  - vm_compute. lia.
  - vm_compute. reflexivity.
  - exact Ha1.
  - exact Ha2.
  - exact Hb1.
  - exact Hb2.
  - exact (eq_trans Hm1 (eq_sym Hs)).
  - exact Hm2.
  - reflexivity.
  - reflexivity.
  - reflexivity.
  - exists packet, a', s', b'. split; [exact R1|]. split; [exact R2|]. split; [exact R3|]. split; [exact R4|]. exact R5.
Defined.

(** Multicast is lost on the fast path: a frame for a multicast address is
    sent as a fast-path packet, and the supernode, where no edge can be
    registered under such an address, sends it to nobody (as a data packet it
    would have been broadcast to the community). *)
Theorem vfuze_multicast_lost `{IPP : IPPool, RSA : RSALib, CDC : SNCodec, ECDC : EdgeCodec, TAPD : TapDev,
    RND : RandSource, US : UDPServices} {MR : MapRange (list Z)} (netA netS : Net)
    (a : EdgeClient) s frame ty out rest addrA :
  udp_ready a -> reg_wf (ec_Peers a) -> enableVFuze a = true -> sn_inv s ->
  bytes_ok frame -> (14 <= length frame <= length (frameBuf a))%nat ->
  GetEthertype frame = Ok ty -> ty <> EthertypeIPv6 ->
  IsMulticast (take 6 frame) = true -> IsBroadcast (take 6 frame) = false -> relay_only a (take 6 frame) ->
  PrepareOutput (payloadProcessor a) frame (rand_at (ec_rand a)) = (Ok out, rest) ->
  (forall ev, netA (ec_wire a) ev = None) ->
  exists packet a', handleTAP_frame (NET := netA) frame a = (Ok true, a') /\
    ec_wire a' = ec_wire a ++ [(SentUDP packet (SupernodeAddr a), None)] /\
    core s (ProcessPacket (NET := netS) packet addrA s).2 /\
    wire (ProcessPacket (NET := netS) packet addrA s).2 = wire s.
Proof.
  intros Hu Hwf Hva HI Hfb Hlen Hty Hne Hmc Hbc Hrel Hp HnA.
  pose proof (mac_of_frame frame ltac:(lia) Hfb) as Hd.
  destruct (tap_vfuze (NET := netA) a frame ty out rest) as (a' & Ha & Hwa); try done.
  exists (VersionVFuze :: take 6 frame ++ out), a'. split; [done|]. split; [done|]. unfold ProcessPacket.
  rewrite (bind_ok _ _ s tt (set_stats (add_processed 1) s)) by done.
  rewrite (bind_ok _ _ _ VersionVFuze _) by done. rewrite Z.eqb_refl. unfold handleVFuze.
  rewrite VFuzeDest_eq by done. rewrite gets_bind. unfold id. set (s1 := set_stats (add_processed 1) s).
  destruct (negb _); [done|]. change (edgesByMAC s1) with (edgesByMAC s).
  destruct (edgesByMAC s !! HardwareAddr_String (take 6 frame)) as [l|] eqn:El; [|done]. exfalso.
  destruct (inv_mac HI _ _ El) as (e & _ & _ & _ & Hder).
  destruct (ExtGenerateMac_wf (e_Community e) (MachineID e)) as [Hl6 Hb6]. destruct Hd as [Hdl Hdb].
  apply HardwareAddr_String_inj in Hder; [|done..]. rewrite <-Hder in Hmc.
  by rewrite (derived_unicast (e_Community e) (MachineID e)) in Hmc.
Qed.

Lemma vfuze_multicast_lost_witness :
  let a := edge true [1; 2] in
  let frame := frame_to [1; 0; 94; 0; 0; 1] (ExtGenerateMac (str "ab") [1; 2]) in
  exists packet a', handleTAP_frame (NET := open_net) frame a = (Ok true, a') /\
    ec_wire a' = [(SentUDP packet (SupernodeAddr a), None)] /\
    wire (ProcessPacket packet (addr 1) two).2 = wire two.
Proof.
  intros a frame.
  destruct (vfuze_multicast_lost open_net open_net a two frame EthertypeIPv4 ([0; 0; 7; 40] ++ frame) [0] (addr 1))
    as (packet & a' & R1 & R2 & _ & R3).
  - split; reflexivity.
  - apply NewPeerRegistry_wf.
  - reflexivity.
  - exact two_inv.
  - vm_compute. repeat constructor; discriminate.
  - vm_compute. lia.
  - vm_compute. reflexivity.
  - vm_compute. discriminate.
  - vm_compute. reflexivity.
  - vm_compute. reflexivity.
  - apply sample_relay_only.
  - vm_compute. reflexivity.
  - reflexivity.
  - exists packet, a'. split; [exact R1|]. split; [exact R2|]. exact R3.
Defined.

(** A fast-path packet of one byte crashes an edge that has received a
    complete one: the destination is read from what the earlier packet left in
    the buffer, and the payload is cut out between the header size and the
    received length. *)
Theorem vfuze_runt_crash `{RSA : RSALib, NET : Net, TAPD : TapDev, RND : RandSource, CDC : EdgeCodec,
    US : UDPServices} {MR : MapRange (list Z)} e payload addr addr' :
  enableVFuze e = true -> mac_ok (ec_MACAddr e) -> (7 + length payload <= length (recvBuf e))%nat ->
  let e1 := (handleUDP_packet (VersionVFuze :: ec_MACAddr e ++ payload) addr e).2 in
  (handleUDP_packet [VersionVFuze] addr' e1).1 = Panic.
Proof.
  intros Hv Hm Hl e1. destruct (received_vfuze (ec_MACAddr e) payload (Some addr) e Hm Hl) as (E1 & E2 & E3).
  fold (handleUDP_packet (VersionVFuze :: ec_MACAddr e ++ payload) addr) in E1, E2, E3. fold e1 in E1, E2, E3.
  unfold handleUDP_packet at 1. rewrite (receive_head [VersionVFuze] _ VersionVFuze [] e1) by (done || (rewrite E3; simpl; lia)).
  rewrite Z.eqb_refl. unfold round, handleVFuzePacket. munfold. unfold id.
  change (enableVFuze (received [VersionVFuze] e1)) with (enableVFuze e1).
  change (ec_MACAddr (received [VersionVFuze] e1)) with (ec_MACAddr e1).
  change (recvBuf (received [VersionVFuze] e1)) with (VersionVFuze :: drop 1 (recvBuf e1)).
  rewrite E1, E2, E3, Hv. cbn [negb skipn]. rewrite drop_0, VFuzeDest_eq by done.
  rewrite bool_decide_eq_true_2 by done. done.
Qed.

Lemma vfuze_runt_crash_witness :
  let e := edge true [3; 4] in
  (handleUDP_packet (NET := open_net) [VersionVFuze] (addr 7)
    (handleUDP_packet (NET := open_net) (VersionVFuze :: ec_MACAddr e ++ [1; 2; 3]) (addr 9) e).2).1 = Panic.
Proof.
  intros e. apply (vfuze_runt_crash (NET := open_net) e [1; 2; 3] (addr 9) (addr 7)).
  - reflexivity.
  - vm_compute. split; [reflexivity|repeat constructor; discriminate].
  - vm_compute. lia.
Defined.

(** A data payload shorter than 28 bytes reaches the TAP device as it came,
    whatever transforms the edge is configured with: an edge that encrypts
    accepts it in the clear, and one that compresses writes what the sender
    compressed to fewer than 28 bytes without decompressing it. *)
Theorem short_payload_unprocessed `{RSA : RSALib, NET : Net, TAPD : TapDev, RND : RandSource, CDC : EdgeCodec,
    US : UDPServices} {MR : MapRange (list Z)} h p addr e :
  header_wf h -> Version h = VersionV -> hPacketType h = TypeData -> (length p < 28)%nat ->
  (30 + length p <= length (recvBuf e))%nat -> tap_write (tap_log e) (padded p) = None ->
  exists e', handleUDP_packet (PackProtoVDatagram h p) addr e = (Ok true, e') /\
    tap_log e' = tap_log e ++ [(padded p, None)].
Proof.
  intros Hw Hv Ht H28 Hl Htap. unfold handleUDP_packet.
  rewrite (receive_message h p (Some addr) e handleDataMessage Hw Hv Hl) by (by rewrite Ht).
  unfold round, handleDataMessage. munfold. cbn [Payload].
  rewrite (handleDataPayload_short (received (PackProtoVDatagram h p) e) p) by done. eexists. split; [done|]. done.
Qed.

(** The receiving edge is configured with compression and encryption. *)
Lemma short_payload_unprocessed_witness :
  exists e', handleUDP_packet (NET := open_net)
    (PackProtoVDatagram (next_header (edge false [1; 2]) TypeData (Some (ExtGenerateMac (str "ab") [3; 4]))) [40; 1])
    (addr 9) (edge false [3; 4]) = (Ok true, e') /\ tap_log e' = [(padded [40; 1], None)].
Proof.
  apply (short_payload_unprocessed (NET := open_net)
    (next_header (edge false [1; 2]) TypeData (Some (ExtGenerateMac (str "ab") [3; 4]))) [40; 1] (addr 9) (edge false [3; 4])).
  - apply (bool_decide_unpack _). vm_compute. exact I.
  - reflexivity.
  - reflexivity.
  - simpl. lia.
  - vm_compute. lia.
  - reflexivity.
Defined.
