(* ===== verification/EdgeSession.v ===== *)
(** * The session of an edge with the supernode

    The exchanges between the two components as a whole: fetching the public
    key, registering, and registering again with a supernode that has lost its
    state.  Each step runs the model of the end that takes it. *)
From S2P Require Import Prelude GoBytes GoNet Netstruct Protocol Frame Machine Transform P2P Crypto SNState.
From S2P Require Import Community Supernode SNWire SNInvariant SNSafety SNSample SNProps SNLife SNSync Edge EdgeProps.
From stdpp Require Import gmap list strings fin_maps.
From Stdlib Require Import ZArith Lia.
Open Scope Z_scope.

(** Both ends run the same message codec, which decodes what it encodes. *)
Class CodecAgree (CDC : SNCodec) (ECDC : EdgeCodec) : Prop := {
  agree_sps : @ecodec_sps ECDC = @codec_sps CDC;
  agree_rreq : @ecodec_rreq ECDC = @codec_rreq CDC;
  agree_rresp : @ecodec_rresp ECDC = @codec_rresp CDC;
  laws_sps : @ProtoLaws SnPublicSecret (@codec_sps CDC);
  laws_rreq : @ProtoLaws RegisterRequest (@codec_rreq CDC);
  laws_rresp : @ProtoLaws RegisterResponse (@codec_rresp CDC) }.

(** One end decodes what the other has encoded. *)
Section Agreement.
Context `{AG : CodecAgree}.
Lemma sps_at_sn x b : @Marshal _ (@ecodec_sps ECDC) x = Some b -> @Unmarshal _ (@codec_sps CDC) b = Some x.
Proof. rewrite agree_sps. apply laws_sps. Qed.
Lemma sps_at_edge x b : @Marshal _ (@codec_sps CDC) x = Some b -> @Unmarshal _ (@ecodec_sps ECDC) b = Some x.
Proof. rewrite agree_sps. apply laws_sps. Qed.
Lemma rreq_at_sn x b : @Marshal _ (@ecodec_rreq ECDC) x = Some b -> @Unmarshal _ (@codec_rreq CDC) b = Some x.
Proof. rewrite agree_rreq. apply laws_rreq. Qed.
Lemma rresp_at_edge x b : @Marshal _ (@codec_rresp CDC) x = Some b -> @Unmarshal _ (@ecodec_rresp ECDC) b = Some x.
Proof. rewrite agree_rresp. apply laws_rresp. Qed.
End Agreement.

(** A network that takes every packet. *)
Definition open_link (net : Net) : Prop := forall w ev, net w ev = None.

(** ** The supernode's side *)
Section Answers.
Context `{IPP : IPPool, RSA : RSALib, NET : Net, CDC : SNCodec} {MR : MapRange (list Z)}.

Definition sn_header (pt : Z) (community : list Z) (s : Supernode) : ProtoVHeader :=
  mkHeader VersionV 64 pt FlagFromSuperNode 0 (HashCommunity community) (take 6 SupernodeMACAddr) (replicate 6 0)
    (u32 (clock s / 10 ^ 9)) 0.

Lemma sn_header_wf pt community s : is_byte pt -> header_wf (sn_header pt community s).
Proof.
  intros Hp. unfold header_wf, sn_header. cbn.
  pose proof (HashCommunity_range community). pose proof (u32_range (clock s / 10 ^ 9)).
  split_and!; try done; try lia; try (unfold is_byte, VersionV, FlagFromSuperNode; lia); by repeat constructor.
Qed.

(** Nobody is connected over a websocket. *)
Lemma wss_target_none a s : wssConnections s = ∅ -> wss_target a s = None.
Proof.
  intros Hw. unfold wss_target. rewrite Hw. induction (omap _ _) as [|e l IH]; [done|]. cbn [List.find].
  rewrite lookup_empty, (bool_decide_eq_false_2 (is_Some None)) by (by intros [? ?]).
  by rewrite andb_false_r, IH.
Qed.

Lemma SendStruct_reply {T} `{PacketTyped T, Proto T} (x : T) payload community ip port s :
  open_link NET -> wssConnections s = ∅ -> Marshal x = Some payload ->
  Supernode.SendStruct x community None (Some (UDPAddr ip port)) s =
    (Ok tt, set_wire (wire s ++ [(SentUDP (PackProtoVDatagram (sn_header (PacketType T) community s) payload)
                                    (UDPAddr ip port), None)]) s).
Proof.
  intros Hn Hw Hm. unfold Supernode.SendStruct, SNStructHeader, SNHeader, codec_Encode, write_udp, net_send.
  rewrite Hm. munfold. unfold id. rewrite wss_target_none by done. cbv beta iota zeta.
  unfold net_write. rewrite Hn. done.
Qed.

(** The answer to a request for the public key. *)
Lemma key_answer packet ip port r s payload :
  open_link NET -> wssConnections s = ∅ -> NewRawMessage packet (UDPAddr ip port) = Ok r ->
  hPacketType (Header r) = TypeSNPublicSecret -> ToMessage SnPublicSecret r = Ok (mkSnPublicSecret true []) ->
  Marshal (mkSnPublicSecret false (Pem (SecretsOf s))) = Some payload ->
  exists s', ProcessPacket packet (UDPAddr ip port) s = (Ok tt, s') /\ core s s' /\
    wire s' = wire s ++ [(SentUDP (PackProtoVDatagram (sn_header TypeSNPublicSecret [] s) payload) (UDPAddr ip port), None)].
Proof.
  intros Hn Hw Hr Ht Hm Hp. destruct (NewRawMessage_raw _ _ _ Hr) as (_ & Hfrom & _).
  assert (SnMessageHandlers !! hPacketType (Header r) = Some Supernode.handleSNPublicSecretMessage) as Hh by (by rewrite Ht).
  rewrite (ProcessPacket_raw _ _ _ _ _ Hr Hh). cbv zeta. set (s1 := set_stats (add_processed 1) s).
  assert (Supernode.handleSNPublicSecretMessage r s1 = (Ok tt, set_wire (wire s ++
    [(SentUDP (PackProtoVDatagram (sn_header TypeSNPublicSecret [] s) payload) (UDPAddr ip port), None)]) s1)) as E.
  { unfold Supernode.handleSNPublicSecretMessage. rewrite (bind_ok _ _ s1 _ s1) by (unfold mlift; by rewrite Hm).
    cbn [sps_IsRequest negb]. rewrite gets_bind. unfold id. rewrite Hfrom.
    exact (SendStruct_reply _ payload [] ip port s1 Hn Hw Hp). }
  rewrite E. by eexists.
Qed.

(** *** Admission *)

(** The pool has an address for a new edge. *)
Definition has_seat (edges : gmap (list Z) nat) (ips : pool) (w : pool_world) (mac : list Z) : bool :=
  match edges !! mac with
  | Some _ => true
  | None => match (RequestIP ips mac true w).1 with
            | inl ip => bool_decide (is_Some (ParseAddr (IP_String ip)))
            | inr _ => false
            end
  end.

(** The supernode can place an edge in the community: the community exists
    under this name, or a network and a pool can be set up for it, and there is
    an address. *)
Definition admits (s : Supernode) (name mac : list Z) : bool :=
  match communities s !! HashCommunity name with
  | Some c =>
      match cheap s !! c with
      | Some cm => bool_decide (cm_name cm = name) && has_seat (cm_edges cm) (cm_ips cm) (pools s) mac
      | None => false
      end
  | None =>
      match ProposeVirtualNetwork (netAllocator s) name with
      | Ok subnet =>
          let masked := Prefix_Masked subnet in
          let cidr := netip_String (prefix_Addr masked) ++ [47] ++ itoa (prefix_Bits masked) in
          match GetRegisteredPool cidr (pools s) with
          | Some ips => has_seat ∅ ips (pools s) mac
          | None =>
              match NewIPPool cidr (24 * 3600 * 10 ^ 9) (pools s) with
              | (inl ips, w) => has_seat ∅ ips w mac
              | (inr _, _) => false
              end
          end
      | _ => false
      end
  end.

(** What admission leaves alone. *)
Definition same_net (s s' : Supernode) : Prop :=
  wire s' = wire s /\ wssConnections s' = wssConnections s /\ clock s' = clock s.

Lemma RegisterCommunity_admits s name mac : sn_inv s -> admits s name mac = true ->
  exists c s' cm, RegisterCommunity name (HashCommunity name) s = (Ok c, s') /\ same_net s s' /\
    cheap s' !! c = Some cm /\ cm_name cm = name /\ has_seat (cm_edges cm) (cm_ips cm) (pools s') mac = true.
Proof.
  intros HI Ha. unfold admits in Ha. unfold RegisterCommunity. rewrite Z.eqb_refl. cbn [negb].
  rewrite gets_bind. unfold id. destruct (communities s !! HashCommunity name) as [c|].
  - destruct (cheap s !! c) as [cm|] eqn:Hc; [|done]. apply andb_true_iff in Ha as [Hn%bool_decide_eq_true_1 Hs].
    exists c, s, cm. rewrite (bind_ok _ _ s cm s) by (unfold get_cm; munfold; unfold id; by rewrite Hc).
    by rewrite bool_decide_eq_true_2.
  - unfold register_locked. rewrite gets_bind. unfold id.
    destruct (ProposeVirtualNetwork (netAllocator s) name) as [subnet| |]; [|done..].
    unfold NewCommunityWithConfig, NewCommunity, new_cm. munfold. unfold id. cbv zeta in Ha |- *.
    destruct (GetRegisteredPool _ _) as [ips|].
    + eexists _, _, _. split; [done|]. split; [done|]. split; [apply lookup_insert_eq|]. done.
    + destruct (NewIPPool _ _ _) as [[ips|x] w]; [|done].
      eexists _, _, _. split; [done|]. split; [done|]. split; [apply lookup_insert_eq|]. done.
Qed.

Lemma EdgeUpdate_seat s c cm r m mid : sn_inv s -> cheap s !! c = Some cm ->
  has_seat (cm_edges cm) (cm_ips cm) (pools s) (EdgeMACAddr r) = true ->
  exists l s', EdgeUpdate c r m mid s = (Ok l, s') /\ same_net s s'.
Proof.
  intros HI Hc Hs. unfold EdgeUpdate, has_seat in *.
  rewrite (bind_ok _ _ s cm s) by (unfold get_cm; munfold; unfold id; by rewrite Hc).
  destruct (cm_edges cm !! EdgeMACAddr r) as [l|] eqn:El.
  - destruct (inv_edge HI _ _ _ _ Hc El) as (e & He & _ & Hcm & _).
    rewrite (bind_ok _ _ s e s) by (unfold get_edge; munfold; unfold id; by rewrite He).
    rewrite bool_decide_eq_true_2 by done. by eexists _, _.
  - rewrite gets_bind. unfold id. destruct (RequestIP _ _ _ _) as [[ip|x] w]; [|done]. cbn [fst] in Hs.
    apply bool_decide_eq_true_1 in Hs as [vip Hv]. munfold. rewrite Hv. by eexists _, _.
Qed.

Lemma RegisterEdge_admits s r m : sn_inv s ->
  auth_ok s (rreq_EncryptedMachineId m) (rreq_CommunityName m) (EdgeMACAddr r) = true ->
  CommunityHash r = HashCommunity (rreq_CommunityName m) -> admits s (rreq_CommunityName m) (EdgeMACAddr r) = true ->
  exists l c s', RegisterEdge r m s = (Ok (l, c), s') /\ same_net s s'.
Proof.
  intros HI Ha Hh Had. unfold RegisterEdge. destruct (Validate_accepted _ _ _ _ Ha) as (mid & Em & _).
  rewrite (bind_ok _ _ _ _ _ Em), Hh.
  destruct (RegisterCommunity_admits s _ _ HI Had) as (c & s1 & cm & E1 & (Hw1 & Hs1 & Hk1) & Hc & Hn & Hseat).
  rewrite (bind_ok _ _ _ _ _ E1).
  assert (sn_inv s1) as HI1.
  { destruct (RegisterCommunity_keeps false (rreq_CommunityName m) (HashCommunity (rreq_CommunityName m)) s
      ltac:(by split)) as [[HJ _] _]. rewrite E1 in HJ. apply HJ. }
  destruct (EdgeUpdate_seat s1 c cm r m mid HI1 Hc Hseat) as (l & s2 & E2 & Hw2 & Hs2 & Hk2).
  rewrite (bind_ok _ _ _ _ _ E2). eexists l, c, _. split; [done|]. unfold same_net. cbn. split_and!; congruence.
Qed.

(** *** The answer to a registration *)
Definition register_response (e : Edge) : RegisterResponse :=
  mkRegisterResponse true (netip_String (VirtualIP e)) (VNetMaskLen e).

(** The first packet after a successful [RegisterEdge] is the response. *)
Lemma handleRegister_wire r m s l c s1 e ip port b :
  open_link NET -> wssConnections s1 = ∅ -> FromAddr r = UDPAddr ip port ->
  ToMessage RegisterRequest r = Ok m -> RegisterEdge r m s = (Ok (l, c), s1) ->
  eheap s1 !! l = Some e -> is_Some (cheap s1 !! c) -> Marshal (register_response e) = Some b ->
  exists evs, wire (handleRegisterMessage r s).2 = wire s1 ++
    (SentUDP (PackProtoVDatagram (sn_header TypeRegisterResponse (rreq_CommunityName m) s1) b) (UDPAddr ip port), None) :: evs.
Proof.
  intros Hn Hw Hf Hm ER He [cm Hc] Hb. unfold handleRegisterMessage.
  rewrite (bind_ok _ _ s m s) by (unfold mlift; by rewrite Hm).
  rewrite (bind_ok _ _ s (inl (l, c)) s1) by (unfold mtry; by rewrite ER).
  rewrite Hf. rewrite (bind_ok _ _ s1 tt s1) by done.
  rewrite (bind_ok _ _ s1 e s1) by (unfold get_edge; munfold; unfold id; by rewrite He).
  erewrite bind_ok by reflexivity. set (s3 := set_indices _ _ s1).
  set (ev := SentUDP _ _).
  assert (mignore (Supernode.SendStruct (register_response e) (rreq_CommunityName m) None (Some (UDPAddr ip port))) s3
    = (Ok tt, set_wire (wire s1 ++ [(ev, None)]) s3)) as Es.
  { unfold mignore, mtry. munfold.
    by rewrite (SendStruct_reply (register_response e) b (rreq_CommunityName m) ip port s3 Hn Hw Hb). }
  rewrite (bind_ok _ _ _ _ _ Es). set (s4 := set_wire _ s3).
  destruct (BroadcastStruct_emits s4 (newPeerInfoEvent TypeRegister e) c cm (EdgeMACAddr r) Hc s4 (reflexivity _))
    as (evs & _ & Hwire & _).
  exists evs. rewrite Hwire. unfold s4. cbn [wire set_wire]. by rewrite <-app_assoc.
Qed.

(** What follows the handler only adds to the wire. *)
Lemma ProcessPacket_wire packet addr r s (h : RawMessage -> M Supernode unit) :
  NewRawMessage packet addr = Ok r -> SnMessageHandlers !! hPacketType (Header r) = Some h ->
  exists evs, wire (ProcessPacket packet addr s).2 = wire (h r (set_stats (add_processed 1) s)).2 ++ evs.
Proof.
  intros Hr Hh. rewrite (ProcessPacket_raw _ _ _ _ _ Hr Hh). cbv zeta.
  destruct (h r _) as [[u|x|] s2]; [by exists []; rewrite app_nil_r| |by exists []; rewrite app_nil_r].
  destruct (unknown_err x); [|by exists []; rewrite app_nil_r].
  destruct addr as [ip port| | |]; try (by exists []; rewrite app_nil_r).
  destruct (emits_ignore s2 _ _ (WritePacket_emits s2 TypeRetryRegisterRequest [] [] (UDPAddr ip port)) s2
    (reflexivity _)) as (evs & _ & Hw & _). by exists evs.
Qed.

Lemma register_answer packet ip port r m s :
  open_link NET -> wssConnections s = ∅ -> sn_inv s ->
  NewRawMessage packet (UDPAddr ip port) = Ok r -> ToMessage RegisterRequest r = Ok m ->
  auth_ok s (rreq_EncryptedMachineId m) (rreq_CommunityName m) (EdgeMACAddr r) = true ->
  CommunityHash r = HashCommunity (rreq_CommunityName m) -> admits s (rreq_CommunityName m) (EdgeMACAddr r) = true ->
  let s' := (ProcessPacket packet (UDPAddr ip port) s).2 in
  exists c cm l e, registered_at s' (EdgeMACAddr r) (CommunityHash r) c cm l e /\
    cm_name cm = rreq_CommunityName m /\ Edge_UDPAddr e = UDPAddr ip port /\ LastHeartbeat e = clock s /\
    edgesByMAC s' !! EdgeMACAddr r = Some l /\ edgesBySocket s' !! Addr_String (UDPAddr ip port) = Some l /\
    forall b, Marshal (register_response e) = Some b -> exists evs, wire s' = wire s ++
      (SentUDP (PackProtoVDatagram (sn_header TypeRegisterResponse (rreq_CommunityName m) s) b) (UDPAddr ip port), None)
      :: evs.
Proof.
  intros Hn Hw HI Hr Hm Ha Hh Had s'. set (s0 := set_stats (add_processed 1) s).
  destruct (NewRawMessage_raw _ _ _ Hr) as (_ & Hfrom & _).
  destruct (RegisterEdge_admits s0 r m HI Ha Hh Had) as (l & c & s1 & ER & Hw1 & Hs1 & Hk1).
  destruct (registration_run packet (UDPAddr ip port) r m s HI Hr Hm) as [_ Hrun].
  destruct (Hrun l c s1 ER) as (_ & _ & cm & e & Hreg & Hname & HbM & HbS & Hhb & Hudp). fold s' in Hreg, HbM, HbS.
  specialize (Hudp ip port eq_refl). rewrite Hudp in HbS.
  exists c, cm, l, e. split_and!; [done..|]. intros b Hb.
  assert (SnMessageHandlers !! hPacketType (Header r) = Some handleRegisterMessage) as Hhd
    by (rewrite (ToMessage_type _ _ _ Hm); apply handler_register).
  destruct (RegisterEdge_ok r m s0 l c s1 HI ER) as (_ & _ & cm1 & e1 & Hc1 & _ & _ & He1 & _).
  assert (core (indexed_state s1 (FromAddr r) l e1) s') as Hcore.
  { etransitivity; [|by apply (ProcessPacket_core packet (UDPAddr ip port) r s _ Hr Hhd)].
    eapply handleRegister_ok; eauto. }
  assert (e = e1) as <-.
  { pose proof (ra_heap _ _ _ _ _ _ _ Hreg) as He. rewrite <-(core_field eheap _ _ Hcore) in He by done.
    rewrite Hfrom in He. cbn in He. rewrite lookup_insert_eq in He. congruence. }
  destruct (handleRegister_wire r m s0 l c s1 e ip port b) as (evs & Hwire); eauto; [by rewrite Hs1|].
  destruct (ProcessPacket_wire packet (UDPAddr ip port) r s _ Hr Hhd) as (evs' & Hwire'). fold s0 s' in Hwire'.
  exists (evs ++ evs'). rewrite Hwire', Hwire, <-app_assoc, Hw1. unfold sn_header. by rewrite Hk1.
Qed.
End Answers.

(** ** The edge's side *)
Section Requests.
Context `{RSA : RSALib, NET : Net, TAPD : TapDev, RND : RandSource, ECDC : EdgeCodec, US : UDPServices}
  {MR : MapRange (list Z)}.

(** The next packet to the supernode with this message. *)
Definition request (e : EdgeClient) (pt : Z) (payload : list Z) : list Z :=
  PackProtoVDatagram (next_header e pt None) payload.

Lemma SendStruct_request {T} `{PacketTyped T, Proto T} (x : T) payload e :
  open_link NET -> udp_ready e -> mac_ok (ec_MACAddr e) -> Marshal x = Some payload ->
  SendStruct x None UDPEnforceSupernode e =
    (Ok tt, sent_to (SentUDP (request e (PacketType T) payload) (SupernodeAddr e)) (next_seq e)).
Proof.
  intros Hn Hu Hm Hp. unfold SendStruct. rewrite (bind_ok _ _ _ _ _ (target_supernode e None Hu)).
  rewrite (bind_ok _ _ _ _ _ (EdgeHeader_eval e _ None Hm ltac:(done))).
  unfold codec_Encode. rewrite Hp. rewrite (bind_ok _ _ (next_seq e) payload (next_seq e)) by done.
  apply (transmit_udp (next_seq e)); [done|]. apply Hn.
Qed.

(** The part of the state the exchange is about. *)
Definition session (e : EdgeClient) :=
  (SNPubKey e, registered e, isWaitingForSNPubKeyUpdate e, isWaitingForSNRetryRegisterResponse e).

(** Any message to the supernode: it is sent or it is not, the session stays. *)
Lemma SendStruct_session {T} `{PacketTyped T, Proto T} (x : T) e : mac_ok (ec_MACAddr e) ->
  let r := SendStruct x None UDPEnforceSupernode e in r.1 <> Panic /\ session r.2 = session e.
Proof.
  intros Hm. unfold SendStruct.
  assert (UDPAddrWithStrategy None UDPEnforceSupernode e = (Ok (Some (SupernodeAddr e)), e)) as E
    by (unfold UDPAddrWithStrategy; munfold; unfold id; by destruct (bool_decide _)).
  cbv zeta. rewrite (bind_ok _ _ _ _ _ E). rewrite (bind_ok _ _ _ _ _ (EdgeHeader_eval e _ None Hm ltac:(done))).
  unfold codec_Encode. destruct (Marshal x) as [b|]; [|done].
  rewrite (bind_ok _ _ (next_seq e) b (next_seq e)) by done.
  unfold transmit, edge_send. munfold. unfold id. cbn [WSSTransport Conn next_seq upd_counts].
  destruct (WSSTransport e) as [t|], (Conn e); cbn [negb]; try done;
    (destruct (net_write _ _); done).
Qed.

Definition register_request (e : EdgeClient) (enc : list Z) : RegisterRequest :=
  mkRegisterRequest (HardwareAddr_String (ec_MACAddr e)) (ec_ID e) (ec_Community e) enc [].

Lemma RequestRegister_run e key enc payload :
  open_link NET -> udp_ready e -> mac_ok (ec_MACAddr e) -> SNPubKey e = Some key ->
  EncryptSequence (rand_at (ec_rand e)) (machineId e) key = Ok enc ->
  Marshal (register_request e enc) = Some payload ->
  RequestRegister e = (Ok tt, sent_to (SentUDP (request e TypeRegisterRequest payload) (SupernodeAddr e))
                                (next_seq (next_rand e))).
Proof.
  intros Hn Hu Hm Hk He Hp. unfold RequestRegister.
  rewrite (bind_ok _ _ e enc (next_rand e)) by (unfold EncryptedMachineID; munfold; unfold id; by rewrite Hk, He).
  rewrite gets_bind. unfold id.
  exact (SendStruct_request (register_request e enc) payload (next_rand e) Hn Hu Hm Hp).
Qed.

(** What no step of the exchange changes. *)
Definition static (e : EdgeClient) :=
  (ec_ID e, ec_Community e, SupernodeAddr e, (Conn e, WSSTransport e), ec_MACAddr e, machineId e, length (recvBuf e)).

Lemma received_static packet e : (length packet <= length (recvBuf e))%nat -> static (received packet e) = static e.
Proof.
  intros H. unfold static. cbn. unfold upd_misc. f_equal. rewrite length_app, length_drop. lia.
Qed.

(** A message of the supernode: well formed, and it fits the buffer. *)
Definition arrives (h : ProtoVHeader) (p : list Z) (pt : Z) (e : EdgeClient) : Prop :=
  header_wf h /\ Version h = VersionV /\ hPacketType h = pt /\ (30 + length p <= length (recvBuf e))%nat.

Lemma arrives_static h p pt e : arrives h p pt e -> static (received (PackProtoVDatagram h p) e) = static e.
Proof. intros (Hw & _ & _ & Hl). apply received_static. by rewrite length_pack. Qed.

Lemma handled (fn : RawMessage -> M EdgeClient unit) h p from e (P : EdgeClient -> Prop) :
  arrives h p (hPacketType h) e -> messageHandlers !! hPacketType h = Some fn ->
  let packet := PackProtoVDatagram h p in
  (exists e', fn (mkRaw h p from packet) (received packet e) = (Ok tt, e') /\ P e') ->
  exists e', handleUDP_packet packet from e = (Ok true, e') /\ P e'.
Proof.
  intros (Hw & Hv & _ & Hl) Hh packet (e' & E & HP). exists e'. split; [|done]. unfold handleUDP_packet, packet.
  rewrite (receive_message h p (Some from) e fn Hw Hv Hl Hh). unfold round, mtry. munfold.
  change (default _ (Some from)) with from. fold packet. by rewrite E.
Qed.

(** Told to register again, the edge asks for the key. *)
Lemma recv_retry h p from e kb :
  open_link NET -> udp_ready e -> mac_ok (ec_MACAddr e) -> arrives h p TypeRetryRegisterRequest e ->
  isWaitingForSNRetryRegisterResponse e = false -> Marshal (mkSnPublicSecret true []) = Some kb ->
  exists e', handleUDP_packet (PackProtoVDatagram h p) from e = (Ok true, e') /\
    ec_wire e' = ec_wire e ++ [(SentUDP (request e TypeSNPublicSecret kb) (SupernodeAddr e), None)] /\
    session e' = (SNPubKey e, registered e, true, true) /\ static e' = static e /\ ec_rand e' = ec_rand e.
Proof.
  intros Hn Hu Hm Har Hq Hk. pose proof Har as (Hw & Hv & Ht & Hl).
  apply (handled handleRetryRegisterRequest); [by rewrite Ht|by rewrite Ht|]. set (e1 := received (PackProtoVDatagram h p) e).
  unfold handleRetryRegisterRequest. cbn [Header]. rewrite Ht, Z.eqb_refl.
  cbn [negb]. rewrite gets_bind. unfold id.
  change (isWaitingForSNRetryRegisterResponse e1) with (isWaitingForSNRetryRegisterResponse e). rewrite Hq.
  unfold RequestSNPublicKey.
  rewrite (bind_ok _ _ _ _ _ (SendStruct_request (mkSnPublicSecret true []) kb e1 Hn Hu Hm Hk)).
  unfold modify. eexists. split; [done|]. split; [done|]. split; [done|]. split; [|done].
  rewrite <-(arrives_static _ _ _ _ Har). done.
Qed.

(** With the key in hand it registers, if that is what it waits for. *)
Lemma recv_key h p from e pem key enc rb :
  open_link NET -> udp_ready e -> mac_ok (ec_MACAddr e) -> arrives h p TypeSNPublicSecret e ->
  Unmarshal p = Some (mkSnPublicSecret false pem) -> PublicKeyFromPEMData pem = Ok key ->
  isWaitingForSNRetryRegisterResponse e = true ->
  EncryptSequence (rand_at (ec_rand e)) (machineId e) key = Ok enc ->
  Marshal (register_request e enc) = Some rb ->
  exists e', handleUDP_packet (PackProtoVDatagram h p) from e = (Ok true, e') /\
    ec_wire e' = ec_wire e ++ [(SentUDP (request e TypeRegisterRequest rb) (SupernodeAddr e), None)] /\
    session e' = (Some key, registered e, false, true) /\ static e' = static e.
Proof.
  intros Hn Hu Hm Har Hd Hk Hq He Hr. pose proof Har as (Hw & Hv & Ht & Hl).
  apply (handled handleSNPublicSecretMessage); [by rewrite Ht|by rewrite Ht|]. set (e1 := received (PackProtoVDatagram h p) e).
  unfold handleSNPublicSecretMessage, ToMessage. cbn [Header Payload].
  rewrite Ht. change (TypeSNPublicSecret =? PacketType SnPublicSecret) with true. cbn [negb].
  unfold codec_Decode. rewrite Hd. rewrite (bind_ok _ _ e1 _ e1) by done. cbn [sps_PemData]. rewrite Hk.
  rewrite (bind_ok _ _ e1 key e1) by done. unfold modify at 1. erewrite bind_ok by done. rewrite gets_bind. unfold id.
  set (e2 := upd_session _ _ _ _ e1).
  change (isWaitingForSNRetryRegisterResponse e2) with (isWaitingForSNRetryRegisterResponse e). rewrite Hq.
  rewrite (RequestRegister_run e2 key enc rb Hn Hu Hm eq_refl He Hr).
  eexists. split; [done|]. split; [done|]. split; [unfold session; cbn; by rewrite Hq|].
  rewrite <-(arrives_static _ _ _ _ Har). done.
Qed.

(** The response ends the exchange. *)
Lemma recv_response h p from e m :
  mac_ok (ec_MACAddr e) -> arrives h p TypeRegisterResponse e -> Unmarshal p = Some m -> rresp_IsRegisterOk m = true ->
  exists e', handleUDP_packet (PackProtoVDatagram h p) from e = (Ok true, e') /\
    session e' = (SNPubKey e, true, isWaitingForSNPubKeyUpdate e, false).
Proof.
  intros Hm Har Hd Hok. pose proof Har as (Hw & Hv & Ht & Hl).
  apply (handled handleRegisterResponseMessage); [by rewrite Ht|by rewrite Ht|]. set (e1 := received (PackProtoVDatagram h p) e).
  unfold handleRegisterResponseMessage, ToMessage. cbn [Header Payload].
  rewrite Ht. change (TypeRegisterResponse =? PacketType RegisterResponse) with true. cbn [negb].
  unfold codec_Decode. rewrite Hd. rewrite (bind_ok _ _ e1 _ e1) by done. rewrite Hok. cbn [negb].
  unfold modify at 1. erewrite bind_ok by done. set (e2 := upd_session _ _ _ _ e1).
  rewrite (bind_ok _ _ e2 tt (upd_peers (set_waiting false (ec_Peers e2)) e2)) by done. set (e3 := upd_peers _ e2).
  unfold sendPeerListRequest, wrapping. munfold. unfold id.
  destruct (SendStruct_session (mkPeerListRequest (ec_Community e3)) e3 Hm) as [Hp Hs].
  destruct (SendStruct (mkPeerListRequest (ec_Community e3)) None UDPEnforceSupernode e3) as [[x|x|] e4]; [..|done];
    (exists e4; split; [done|]; exact Hs).
Qed.
End Requests.

(** ** The whole exchange *)

(** The request as the supernode reads it. *)
Lemma request_raw `{RSA : RSALib} (e : EdgeClient) pt payload from :
  ec_MACAddr e = ExtGenerateMac (ec_Community e) (machineId e) -> bytes_ok (ec_Community e) -> is_byte pt ->
  exists r, NewRawMessage (request e pt payload) from = Ok r /\ hPacketType (Header r) = pt /\ Payload r = payload /\
    EdgeMACAddr r = HardwareAddr_String (ec_MACAddr e) /\ CommunityHash r = HashCommunity (ec_Community e).
Proof.
  intros Hm Hc Hp. assert (mac_ok (ec_MACAddr e)) as Hmac by (rewrite Hm; apply ExtGenerateMac_wf).
  assert (header_wf (next_header e pt None)) as Hwf by (apply next_header_wf; done).
  eexists. split; [by apply NewRawMessage_pack|]. split; [done|]. split; [done|]. split; [|done].
  unfold EdgeMACAddr, HasSrcMACAddr, GetSrcMACAddr. cbn [Header SourceID next_header].
  rewrite take6 by apply Hmac.
  rewrite (derived_mac (ec_Community e) (machineId e) (ec_MACAddr e) Hmac) by (by rewrite Hm). done.
Qed.

Lemma mac_derived_ok `{RSA : RSALib} (e : EdgeClient) : ec_MACAddr e = ExtGenerateMac (ec_Community e) (machineId e) ->
  mac_ok (ec_MACAddr e).
Proof. intros ->. apply ExtGenerateMac_wf. Qed.

(** A registration encrypted for the supernode's key is let in. *)
Lemma register_run `{IPP : IPPool, RSA : RSALib, NET : Net, CDC : SNCodec, ECDC : EdgeCodec} {MR : MapRange (list Z)}
    {RL : @RSALaws RSA} {AG : CodecAgree CDC ECDC} (e : EdgeClient) (s : Supernode) ip port rnd rnd' enc rb :
  open_link NET -> ec_MACAddr e = ExtGenerateMac (ec_Community e) (machineId e) -> bytes_ok (ec_Community e) ->
  sn_inv s -> wssConnections s = ∅ -> GenSNSecrets rnd = Ok (SecretsOf s) ->
  admits s (ec_Community e) (HardwareAddr_String (ec_MACAddr e)) = true ->
  EncryptSequence rnd' (machineId e) (Pub (SecretsOf s)) = Ok enc ->
  @Marshal _ ecodec_rreq (register_request e enc) = Some rb ->
  let s' := (ProcessPacket (request e TypeRegisterRequest rb) (UDPAddr ip port) s).2 in
  exists c cm l es,
    registered_at s' (HardwareAddr_String (ec_MACAddr e)) (HashCommunity (ec_Community e)) c cm l es /\
    cm_name cm = ec_Community e /\ Edge_UDPAddr es = UDPAddr ip port /\
    edgesByMAC s' !! HardwareAddr_String (ec_MACAddr e) = Some l /\ edgesBySocket s' !! Addr_String (UDPAddr ip port) = Some l /\
    forall b, @Marshal _ codec_rresp (register_response es) = Some b -> exists evs, wire s' = wire s ++
      (SentUDP (PackProtoVDatagram (sn_header TypeRegisterResponse (ec_Community e) s) b) (UDPAddr ip port), None) :: evs.
Proof.
  intros Hn Hmac Hcb HI Hw Hg Had Henc Hrb s'.
  destruct (request_raw e TypeRegisterRequest rb (UDPAddr ip port)) as (r & Hraw & Ht & Hp & Hm & Hh); [done..|].
  destruct (register_answer (request e TypeRegisterRequest rb) ip port r (register_request e enc) s)
    as (c & cm & l & es & Hreg & Hname & Hudp & _ & HbM & HbS & Hresp); try done.
  - unfold ToMessage, codec_Decode. by rewrite Ht, Hp, (rreq_at_sn _ _ Hrb).
  - unfold auth_ok. cbn [rreq_EncryptedMachineId rreq_CommunityName register_request].
    rewrite (secrets_decrypt _ _ _ _ _ Hg Henc). apply bool_decide_eq_true_2. by rewrite Hm, Hmac.
  - by rewrite Hm.
  - exists c, cm, l, es. rewrite Hm, Hh in Hreg. rewrite Hm in HbM. done.
Qed.

(** The supernode's answer to the key request, and what the edge does with it
    while it waits to register. *)
Lemma key_run `{IPP : IPPool, RSA : RSALib, CDC : SNCodec, ECDC : EdgeCodec, TAPD : TapDev, RND : RandSource,
    US : UDPServices} {MR : MapRange (list Z)} {RL : @RSALaws RSA} {AG : CodecAgree CDC ECDC} (netA netS : Net)
    (e0 e : EdgeClient) (s : Supernode) from ip port rnd kb pb enc rb :
  open_link netA -> open_link netS -> udp_ready e -> static e = static e0 ->
  ec_MACAddr e0 = ExtGenerateMac (ec_Community e0) (machineId e0) -> bytes_ok (ec_Community e0) ->
  isWaitingForSNRetryRegisterResponse e = true -> wssConnections s = ∅ -> GenSNSecrets rnd = Ok (SecretsOf s) ->
  @Marshal _ ecodec_sps (mkSnPublicSecret true []) = Some kb ->
  @Marshal _ codec_sps (mkSnPublicSecret false (Pem (SecretsOf s))) = Some pb -> (30 + length pb <= length (recvBuf e))%nat ->
  EncryptSequence (rand_at (ec_rand e)) (machineId e) (Pub (SecretsOf s)) = Ok enc ->
  @Marshal _ ecodec_rreq (register_request e enc) = Some rb ->
  exists keyresp s1 e2,
    ProcessPacket (NET := netS) (request e0 TypeSNPublicSecret kb) (UDPAddr ip port) s = (Ok tt, s1) /\ core s s1 /\
    wire s1 = wire s ++ [(SentUDP keyresp (UDPAddr ip port), None)] /\
    handleUDP_packet (NET := netA) keyresp from e = (Ok true, e2) /\
    ec_wire e2 = ec_wire e ++ [(SentUDP (request e TypeRegisterRequest rb) (SupernodeAddr e), None)] /\
    session e2 = (Some (Pub (SecretsOf s)), registered e, false, true) /\ static e2 = static e.
Proof.
  intros HnA HnS Hu Hst Hmac Hcb Hq Hw Hg Hkb Hpb Hpl Henc Hrb.
  destruct (request_raw e0 TypeSNPublicSecret kb (UDPAddr ip port)) as (r & Hraw & Ht & Hp & _); [done..|].
  destruct (key_answer (NET := netS) (request e0 TypeSNPublicSecret kb) ip port r s pb) as (s1 & P1 & Hc & Hws); try done.
  { unfold ToMessage, codec_Decode. by rewrite Ht, Hp, (sps_at_sn _ _ Hkb). }
  injection Hst as _ Hcm _ _ _ Hma Hmi _.
  destruct (recv_key (NET := netA) (sn_header TypeSNPublicSecret [] s) pb from e (Pem (SecretsOf s)) (Pub (SecretsOf s))
    enc rb) as (e2 & E2 & Hwire2 & Hs2 & Hst2); try done.
  - rewrite Hma. by apply mac_derived_ok.
  - split; [by apply sn_header_wf|done].
  - by apply sps_at_edge.
  - by eapply secrets_pem.
  - by eexists _, s1, e2.
Qed.

(** ** Joining *)

(** A dotted quad holds no slash. *)
Lemma octets_no_slash : forallb (fun n => bool_decide (47 ∉ itoa (Z.of_nat n))) (seq 0 256) = true.
Proof. vm_compute. reflexivity. Qed.

Lemma quad_no_slash ip : length ip = 4%nat -> bytes_ok ip -> 47 ∉ IPv4_String ip.
Proof.
  intros Hl Hok. destruct ip as [|a [|b [|c [|d [|? ?]]]]]; try done. unfold bytes_ok in Hok. rewrite !Forall_cons in Hok.
  assert (forall x, is_byte x -> 47 ∉ itoa x) as Hx.
  { intros x Hx. unfold is_byte in Hx. pose proof octets_no_slash as H. rewrite forallb_forall in H.
    specialize (H (Z.to_nat x)). rewrite Z2Nat.id in H by lia. eapply bool_decide_eq_true_1, H, in_seq. lia. }
  destruct Hok as (Ha & Hb & Hc & Hd & _). unfold IPv4_String. simpl.
  repeat (rewrite ?elem_of_app, ?elem_of_cons). intros H. destruct_or!; try done; try (by apply elem_of_nil in H); by apply Hx in H.
Qed.

(** The address the edge takes from the response. *)
Lemma response_vip ip n : length ip = 4%nat -> bytes_ok ip ->
  ParseIP (default [] (head (split_byte 47 (netip_String ip ++ [47] ++ itoa n)))) = Some (v4InV6Prefix ++ ip).
Proof.
  intros Hl Hok. pose proof (quad_no_slash ip Hl Hok) as Hs.
  assert (netip_String ip = IPv4_String ip) as -> by (unfold netip_String; destruct ip; [done|by rewrite bool_decide_eq_true_2]).
  cbn [app]. rewrite split_byte_app by done.
  change (default [] (head (IPv4_String ip :: ?l))) with (IPv4_String ip).
  rewrite <-ParseIP_IPv4_String by done. f_equal. unfold IP_String.
  rewrite bool_decide_eq_false_2 by (by destruct ip). rewrite (bool_decide_eq_true_2 (_ \/ _)) by lia. cbn [negb].
  assert (To4 ip = ip) as -> by (unfold To4; by rewrite bool_decide_eq_true_2). by destruct ip.
Qed.

(** A typed message that arrives. *)
Lemma MessageFromPacket_pack (T : Type) `{PacketTyped T, Proto T} h p from (m : T) :
  header_wf h -> Version h = VersionV -> hPacketType h = PacketType T -> Unmarshal p = Some m ->
  MessageFromPacket T (PackProtoVDatagram h p) from = Ok (mkRaw h p from (PackProtoVDatagram h p), m).
Proof.
  intros Hw Hv Ht Hd. unfold MessageFromPacket. rewrite NewRawMessage_pack by done. unfold ToMessage. cbn [Header Payload].
  rewrite Ht, Z.eqb_refl. cbn [negb]. unfold codec_Decode. by rewrite Hd.
Qed.

Section Joining.
Context `{RSA : RSALib, NET : Net, TAPD : TapDev, RND : RandSource, ECDC : EdgeCodec, US : UDPServices}
  {MR : MapRange (list Z)}.

Lemma initial_key e kb h p from pem key :
  open_link NET -> udp_ready e -> mac_ok (ec_MACAddr e) -> Marshal (mkSnPublicSecret true []) = Some kb ->
  header_wf h -> Version h = VersionV -> hPacketType h = TypeSNPublicSecret ->
  Unmarshal p = Some (mkSnPublicSecret false pem) -> PublicKeyFromPEMData pem = Ok key ->
  exists e', InitialGetSNPublicKey (inl (PackProtoVDatagram h p, from)) e = (Ok tt, e') /\
    ec_wire e' = ec_wire e ++ [(SentUDP (request e TypeSNPublicSecret kb) (SupernodeAddr e), None)] /\
    SNPubKey e' = Some key /\ static e' = static e /\ ec_rand e' = ec_rand e.
Proof.
  intros Hn Hu Hm Hk Hw Hv Ht Hd Hp. unfold InitialGetSNPublicKey, RequestSNPublicKey.
  rewrite (bind_ok _ _ _ _ _ (SendStruct_request (mkSnPublicSecret true []) kb e Hn Hu Hm Hk)).
  rewrite bool_decide_eq_false_2 by (rewrite length_pack by done; unfold ProtoVHeaderSize; lia).
  rewrite (MessageFromPacket_pack SnPublicSecret h p from (mkSnPublicSecret false pem)) by done.
  erewrite bind_ok by done. cbn [sps_PemData]. rewrite Hp. erewrite bind_ok by done. by eexists.
Qed.

Lemma initial_register e key enc rb h p from vip n :
  open_link NET -> udp_ready e -> mac_ok (ec_MACAddr e) -> SNPubKey e = Some key ->
  EncryptSequence (rand_at (ec_rand e)) (machineId e) key = Ok enc -> Marshal (register_request e enc) = Some rb ->
  header_wf h -> Version h = VersionV -> hPacketType h = TypeRegisterResponse ->
  Unmarshal p = Some (mkRegisterResponse true (netip_String vip) n) -> length vip = 4%nat -> bytes_ok vip ->
  exists e', InitialRegister (inl (PackProtoVDatagram h p, from)) e = (Ok tt, e') /\
    ec_wire e' = ec_wire e ++ [(SentUDP (request e TypeRegisterRequest rb) (SupernodeAddr e), None)] /\
    SNPubKey e' = Some key /\ registered e' = true /\ ParsedVirtualIP e' = v4InV6Prefix ++ vip /\
    ec_VirtualIP e' = netip_String vip ++ [47] ++ itoa n.
Proof.
  intros Hn Hu Hm Hk He Hr Hw Hv Ht Hd Hl Hok. unfold InitialRegister.
  rewrite (bind_ok _ _ _ _ _ (RequestRegister_run e key enc rb Hn Hu Hm Hk He Hr)).
  rewrite bool_decide_eq_false_2 by (rewrite length_pack by done; unfold ProtoVHeaderSize; lia).
  rewrite (MessageFromPacket_pack RegisterResponse h p from (mkRegisterResponse true (netip_String vip) n)) by done.
  erewrite bind_ok by done. cbn [rresp_IsRegisterOk rresp_VirtualIp rresp_Masklen negb]. cbv zeta.
  rewrite (response_vip vip n Hl Hok). unfold modify at 1. erewrite bind_ok by done.
  eexists. split; [reflexivity|]. by split_and!.
Qed.

(** The link comes up and the address is announced. *)
Lemma announced link e vip n mac calls :
  ec_VirtualIP e = netip_String vip ++ [47] ++ itoa n -> ParsedVirtualIP e = v4InV6Prefix ++ vip -> length vip = 4%nat ->
  IfUp link (ec_VirtualIP e) = None -> link_HardwareAddr link = Some mac -> length mac = 6%nat ->
  (forall f, sendRawFrame link f = None) ->
  exists frame, (TunUp link;; sendGratuitousARP link) (e, calls) =
      (Ok tt, (e, calls ++ [CallIfUp (netip_String vip ++ [47] ++ itoa n) None; CallRawFrame frame None])) /\
    ParseFrame frame = Ok (mkParsed BroadcastAddr mac NotTagged EthertypeARP
      ([0; 1; 8; 0; 6; 4; 0; 2] ++ mac ++ vip ++ mac ++ vip) None).
Proof.
  intros Hv Hp Hl Hi Hh Hm Hs. destruct (gratuitous_arp mac (v4InV6Prefix ++ vip) vip Hm Hl) as (frame & Hf & _ & Hparse).
  { unfold To4. do 4 (destruct vip as [|? vip]; [done|]). by destruct vip. }
  exists frame. split; [|done]. rewrite (bind_ok _ _ (e, calls) tt (e, calls ++ [CallIfUp (netip_String vip ++ [47] ++ itoa n) None])).
  - unfold sendGratuitousARP, link_call. munfold. unfold id. rewrite Hp, bool_decide_eq_false_2 by done. rewrite Hh, Hf. cbn.
    by rewrite Hs, <-app_assoc.
  - unfold TunUp, link_call. munfold. unfold id. rewrite Hi, bool_decide_eq_false_2; [cbn; by rewrite Hv|].
    rewrite Hv. intros H. by apply app_eq_nil in H as [_ ?].
Qed.
End Joining.

(** C8. Recovery over UDP: an edge with the derived MAC that is not waiting
    already and is told to register again, by a supernode that does not know it
    (any more), whatever its key is now, that admits it and has no websocket
    connections, asks for the key, the supernode answers with it, the edge sends a
    registration encrypted for it, the supernode files the edge in its community
    and under its MAC and address in the indices, and the response ends the
    edge's waiting, when no packet is lost and the messages encode and fit the
    receive buffer. *)
Theorem edge_recovers `{IPP : IPPool, RSA : RSALib, CDC : SNCodec, ECDC : EdgeCodec, TAPD : TapDev, RND : RandSource,
    US : UDPServices} {MR : MapRange (list Z)} {RL : @RSALaws RSA} {AG : CodecAgree CDC ECDC} (netA netS : Net)
    (e : EdgeClient) (s : Supernode) h p from ip port rnd kb pb enc rb :
  open_link netA -> open_link netS -> udp_ready e ->
  ec_MACAddr e = ExtGenerateMac (ec_Community e) (machineId e) -> bytes_ok (ec_Community e) ->
  isWaitingForSNRetryRegisterResponse e = false -> arrives h p TypeRetryRegisterRequest e ->
  sn_inv s -> wssConnections s = ∅ -> GenSNSecrets rnd = Ok (SecretsOf s) ->
  admits s (ec_Community e) (HardwareAddr_String (ec_MACAddr e)) = true ->
  @Marshal _ ecodec_sps (mkSnPublicSecret true []) = Some kb ->
  @Marshal _ codec_sps (mkSnPublicSecret false (Pem (SecretsOf s))) = Some pb -> (30 + length pb <= length (recvBuf e))%nat ->
  EncryptSequence (rand_at (ec_rand e)) (machineId e) (Pub (SecretsOf s)) = Ok enc ->
  @Marshal _ ecodec_rreq (register_request e enc) = Some rb ->
  exists keyreq e1 keyresp s1 regreq e2 c cm l es,
    handleUDP_packet (NET := netA) (PackProtoVDatagram h p) from e = (Ok true, e1) /\
    ec_wire e1 = ec_wire e ++ [(SentUDP keyreq (SupernodeAddr e), None)] /\
    ProcessPacket (NET := netS) keyreq (UDPAddr ip port) s = (Ok tt, s1) /\
    wire s1 = wire s ++ [(SentUDP keyresp (UDPAddr ip port), None)] /\
    handleUDP_packet (NET := netA) keyresp from e1 = (Ok true, e2) /\
    ec_wire e2 = ec_wire e1 ++ [(SentUDP regreq (SupernodeAddr e), None)] /\
    let s2 := (ProcessPacket (NET := netS) regreq (UDPAddr ip port) s1).2 in
    registered_at s2 (HardwareAddr_String (ec_MACAddr e)) (HashCommunity (ec_Community e)) c cm l es /\
    cm_name cm = ec_Community e /\ Edge_UDPAddr es = UDPAddr ip port /\
    edgesByMAC s2 !! HardwareAddr_String (ec_MACAddr e) = Some l /\ edgesBySocket s2 !! Addr_String (UDPAddr ip port) = Some l /\
    forall b, @Marshal _ codec_rresp (register_response es) = Some b -> (30 + length b <= length (recvBuf e))%nat ->
      exists regresp evs e3, wire s2 = wire s1 ++ (SentUDP regresp (UDPAddr ip port), None) :: evs /\
        handleUDP_packet (NET := netA) regresp from e2 = (Ok true, e3) /\
        session e3 = (Some (Pub (SecretsOf s)), true, false, false).
Proof.
  intros HnA HnS Hu Hmac Hcb Hq Har HI Hw Hg Had Hkb Hpb Hpl Henc Hrb. pose proof (mac_derived_ok e Hmac) as Hm.
  destruct (recv_retry (NET := netA) h p from e kb) as (e1 & E1 & Hwire1 & Hs1 & Hst1 & Hr1); try done.
  pose proof Hst1 as Hst. injection Hst as Hi Hc Hsn Hco Hwt Hma Hmi Hlen. injection Hs1 as _ _ _ Hf.
  assert (register_request e1 enc = register_request e enc) as Hrr by (unfold register_request; by rewrite Hma, Hi, Hc).
  destruct (key_run netA netS e e1 s from ip port rnd kb pb enc rb)
    as (keyresp & s1 & e2 & P1 & Hcore & Hws1 & E2 & Hwire2 & Hs2 & Hst2);
    rewrite ?Hrr, ?Hr1, ?Hmi, ?Hlen; try done; [unfold udp_ready; by rewrite Hwt, Hco|].
  assert (sn_inv s1) as HI1.
  { pose proof (ProcessPacket_keeps (NET := netS) false (request e TypeSNPublicSecret kb) (UDPAddr ip port) s
      ltac:(by split) ltac:(done)) as [HJ _]. rewrite P1 in HJ. apply HJ. }
  pose proof (core_field SecretsOf _ _ Hcore ltac:(done)) as Hsec.
  destruct (register_run (NET := netS) e1 s1 ip port rnd (rand_at (ec_rand e)) enc rb)
    as (c & cm & l & es & Hreg & Hname & Hudp & HbM & HbS & Hresp); rewrite <-?Hsec, ?Hma, ?Hc, ?Hmi; try done.
  - by rewrite <-(core_field wssConnections _ _ Hcore).
  - rewrite <-Had. symmetry. by apply (core_field (fun s => admits s _ _)).
  - by rewrite Hrr.
  - rewrite Hma, Hc in Hreg. rewrite Hma in HbM. rewrite Hc in Hname, Hresp. rewrite Hsn in Hwire2.
    eexists _, e1, keyresp, s1, _, e2, c, cm, l, es. do 6 (split; [done|]). cbv zeta. do 5 (split; [done|]).
    intros b Hb Hbl. destruct (Hresp b Hb) as (evs & Hwire).
    rewrite Hst1 in Hst2. injection Hst2 as _ _ _ _ _ Hma2 _ Hlen2.
    destruct (recv_response (NET := netA) (sn_header TypeRegisterResponse (ec_Community e) s1) b from e2 (register_response es))
      as (e3 & E3 & Hs3).
    + by rewrite Hma2.
    + split; [by apply sn_header_wf|]. by rewrite Hlen2.
    + by apply rresp_at_edge.
    + done.
    + eexists _, evs, e3. split; [done|]. split; [done|]. rewrite Hs3. injection Hs2 as -> _ -> _. done.
Qed.

(** C7. Joining over UDP: an edge with the derived MAC and the address of a
    supernode that admits it and has no websocket connections gets the public key, registers, is filed in its community and under its MAC and its
    address in the indices, takes over the virtual address of the response, brings
    its link up with that address and prefix, and then announces it with an ARP
    frame for its hardware address, when no packet is lost, the messages encode,
    the address is an IPv4 one and the link does as it is told. *)
Theorem edge_joins `{IPP : IPPool, RSA : RSALib, CDC : SNCodec, ECDC : EdgeCodec, TAPD : TapDev, RND : RandSource,
    US : UDPServices} {MR : MapRange (list Z)} {RL : @RSALaws RSA} {AG : CodecAgree CDC ECDC} (netA netS : Net)
    (e : EdgeClient) (s : Supernode) from ip port rnd kb pb enc rb link mac :
  open_link netA -> open_link netS -> udp_ready e ->
  ec_MACAddr e = ExtGenerateMac (ec_Community e) (machineId e) -> bytes_ok (ec_Community e) ->
  sn_inv s -> wssConnections s = ∅ -> GenSNSecrets rnd = Ok (SecretsOf s) ->
  admits s (ec_Community e) (HardwareAddr_String (ec_MACAddr e)) = true ->
  @Marshal _ ecodec_sps (mkSnPublicSecret true []) = Some kb ->
  @Marshal _ codec_sps (mkSnPublicSecret false (Pem (SecretsOf s))) = Some pb ->
  EncryptSequence (rand_at (ec_rand e)) (machineId e) (Pub (SecretsOf s)) = Ok enc ->
  @Marshal _ ecodec_rreq (register_request e enc) = Some rb ->
  (forall cidr, IfUp link cidr = None) -> link_HardwareAddr link = Some mac -> length mac = 6%nat ->
  (forall f, sendRawFrame link f = None) ->
  exists keyreq keyresp s1 regreq c cm l es,
    ProcessPacket (NET := netS) keyreq (UDPAddr ip port) s = (Ok tt, s1) /\
    wire s1 = wire s ++ [(SentUDP keyresp (UDPAddr ip port), None)] /\
    let s2 := (ProcessPacket (NET := netS) regreq (UDPAddr ip port) s1).2 in
    registered_at s2 (HardwareAddr_String (ec_MACAddr e)) (HashCommunity (ec_Community e)) c cm l es /\
    cm_name cm = ec_Community e /\ Edge_UDPAddr es = UDPAddr ip port /\
    edgesByMAC s2 !! HardwareAddr_String (ec_MACAddr e) = Some l /\ edgesBySocket s2 !! Addr_String (UDPAddr ip port) = Some l /\
    forall b, @Marshal _ codec_rresp (register_response es) = Some b ->
      length (VirtualIP es) = 4%nat -> bytes_ok (VirtualIP es) ->
      exists regresp evs frame e', wire s2 = wire s1 ++ (SentUDP regresp (UDPAddr ip port), None) :: evs /\
        InitialSetup (NET := netA) link (inl (keyresp, from)) (inl (regresp, from)) (e, []) =
          (Ok tt, (e', [CallIfUp (netip_String (VirtualIP es) ++ [47] ++ itoa (VNetMaskLen es)) None; CallRawFrame frame None])) /\
        ec_wire e' = ec_wire e ++ [(SentUDP keyreq (SupernodeAddr e), None); (SentUDP regreq (SupernodeAddr e), None)] /\
        registered e' = true /\ SNPubKey e' = Some (Pub (SecretsOf s)) /\
        ParsedVirtualIP e' = v4InV6Prefix ++ VirtualIP es /\
        ParseFrame frame = Ok (mkParsed BroadcastAddr mac NotTagged EthertypeARP
          ([0; 1; 8; 0; 6; 4; 0; 2] ++ mac ++ VirtualIP es ++ mac ++ VirtualIP es) None).
Proof.
  intros HnA HnS Hu Hmac Hcb HI Hw Hg Had Hkb Hpb Henc Hrb Hup Hhw Hml Hraw. pose proof (mac_derived_ok e Hmac) as Hm.
  destruct (request_raw e TypeSNPublicSecret kb (UDPAddr ip port)) as (r & Hr & Ht & Hp & _); [done..|].
  destruct (key_answer (NET := netS) (request e TypeSNPublicSecret kb) ip port r s pb) as (s1 & P1 & Hcore & Hws); try done.
  { unfold ToMessage, codec_Decode. by rewrite Ht, Hp, (sps_at_sn _ _ Hkb). }
  destruct (initial_key (NET := netA) e kb (sn_header TypeSNPublicSecret [] s) pb from (Pem (SecretsOf s)) (Pub (SecretsOf s)))
    as (e1 & E1 & Hw1 & Hk1 & Hst & Hr1); try done; [by apply sn_header_wf|by apply sps_at_edge|by eapply secrets_pem|].
  injection Hst as Hi Hc Hsn Hco Hwt Hma Hmi _.
  assert (register_request e1 enc = register_request e enc) as Hrr by (unfold register_request; by rewrite Hma, Hi, Hc).
  pose proof (core_field SecretsOf _ _ Hcore ltac:(done)) as Hsec.
  destruct (register_run (NET := netS) e1 s1 ip port rnd (rand_at (ec_rand e)) enc rb)
    as (c & cm & l & es & Hreg & Hname & Hudp & HbM & HbS & Hresp); rewrite <-?Hsec, ?Hma, ?Hc, ?Hmi, ?Hrr; try done.
  - pose proof (ProcessPacket_keeps (NET := netS) false (request e TypeSNPublicSecret kb) (UDPAddr ip port) s
      ltac:(by split) ltac:(done)) as [HJ _]. rewrite P1 in HJ. apply HJ.
  - by rewrite <-(core_field wssConnections _ _ Hcore).
  - rewrite <-Had. symmetry. by apply (core_field (fun s => admits s _ _)).
  - rewrite Hma, Hc in Hreg. rewrite Hma in HbM. rewrite Hc in Hname, Hresp.
    eexists _, _, s1, _, c, cm, l, es. do 2 (split; [done|]). cbv zeta. do 5 (split; [done|]). intros b Hb Hvl Hvb.
    destruct (Hresp b Hb) as (evs & Hwire).
    destruct (initial_register (NET := netA) e1 (Pub (SecretsOf s)) enc rb (sn_header TypeRegisterResponse (ec_Community e) s1)
      b from (VirtualIP es) (VNetMaskLen es)) as (e2 & E2 & Hw2 & Hk2 & Hreg2 & Hpv & Hvip);
      rewrite ?Hma, ?Hmi, ?Hr1, ?Hrr; try done;
      [unfold udp_ready; by rewrite Hwt, Hco|by apply sn_header_wf|by apply (rresp_at_edge (register_response es))|].
    destruct (announced link e2 (VirtualIP es) (VNetMaskLen es) mac []) as (frame & Hf & Hpf); try done.
    eexists _, evs, frame, e2. split; [done|]. split.
    + unfold InitialSetup, on_edge. rewrite (bind_ok _ _ _ _ _ (zoom_eq fst _ _ (e, []) _ _ E1)).
      cbn [snd]. rewrite (bind_ok _ _ _ _ _ (zoom_eq fst _ _ (e1, []) _ _ E2)). exact Hf.
    + rewrite Hw2, Hw1, Hsn, <-app_assoc. done.
Qed.

Import Sample EdgeSample.

Lemma sample_agree : CodecAgree sample_codec sample_edge_codec.
Proof. split; reflexivity || apply countable_proto_laws. Qed.

Lemma edge_joins_witness :
  let e := edge false [1; 2] in
  exists keyreq keyresp s1 regreq c cm l es,
    ProcessPacket (NET := open_net) keyreq (addr 1) start = (Ok tt, s1) /\
    wire s1 = [(SentUDP keyresp (addr 1), None)] /\
    registered_at (ProcessPacket (NET := open_net) regreq (addr 1) s1).2 (mac (str "ab") [1; 2])
      (HashCommunity (str "ab")) c cm l es.
Proof.
  intros e. pose proof sample_agree as AG. pose proof toy_rsa_laws as RL.
  destruct (edge_joins (RL := RL) (AG := AG) open_net open_net e start (addr 9)
    [192; 0; 2; 1] 4000 [7] (default [] (Marshal (mkSnPublicSecret true [])))
    (default [] (Marshal (mkSnPublicSecret false (Pem (SecretsOf start))))) [7; 1; 2]
    (default [] (Marshal (register_request e [7; 1; 2])))
    (mkLink (fun _ => None) (Some [2; 0; 0; 0; 0; 5]) (fun _ => None)) [2; 0; 0; 0; 0; 5])
    as (keyreq & keyresp & s1 & regreq & c & cm & l & es & R1 & R2 & R3 & _).
  - intros w ev. reflexivity.
  - intros w ev. reflexivity.
  - split; reflexivity.
  - vm_compute. reflexivity.
  - vm_compute. repeat constructor; discriminate.
  - exact start_inv.
  - vm_compute. reflexivity.
  - vm_compute. reflexivity.
  - vm_compute. reflexivity.
  - vm_compute. reflexivity.
  - vm_compute. reflexivity.
  - vm_compute. reflexivity.
  - vm_compute. reflexivity.
  - intros cidr. reflexivity.
  - reflexivity.
  - reflexivity.
  - intros f. reflexivity.
  - exists keyreq, keyresp, s1, regreq, c, cm, l, es. split; [exact R1|]. split; [exact R2|]. exact R3.
Defined.

(** The sample edge with a buffer for the messages of the sample codec. *)
Definition roomy (e : EdgeClient) : EdgeClient := set_recvBuf (replicate 5000 0) e.

(** A freshly started supernode that the edge was registered with before. *)
Lemma edge_recovers_witness :
  let e := roomy (edge false [1; 2]) in
  exists keyreq e1 keyresp s1 regreq e2 c cm l es,
    handleUDP_packet (NET := open_net) (PackProtoVDatagram (sn_header TypeRetryRegisterRequest [] start) []) (addr 9) e
      = (Ok true, e1) /\
    ProcessPacket (NET := open_net) keyreq (addr 1) start = (Ok tt, s1) /\
    handleUDP_packet (NET := open_net) keyresp (addr 9) e1 = (Ok true, e2) /\
    registered_at (ProcessPacket (NET := open_net) regreq (addr 1) s1).2 (mac (str "ab") [1; 2])
      (HashCommunity (str "ab")) c cm l es.
Proof.
  intros e. pose proof sample_agree as AG. pose proof toy_rsa_laws as RL.
  destruct (edge_recovers (RL := RL) (AG := AG) open_net open_net e start (sn_header TypeRetryRegisterRequest [] start) [] (addr 9)
    [192; 0; 2; 1] 4000 [7] (default [] (Marshal (mkSnPublicSecret true [])))
    (default [] (Marshal (mkSnPublicSecret false (Pem (SecretsOf start))))) [7; 1; 2]
    (default [] (Marshal (register_request e [7; 1; 2]))))
    as (keyreq & e1 & keyresp & s1 & regreq & e2 & c & cm & l & es & R1 & _ & R2 & _ & R3 & _ & R4 & _).
  - intros w ev. reflexivity.
  - intros w ev. reflexivity.
  - split; reflexivity.
  - vm_compute. reflexivity.
  - vm_compute. repeat constructor; discriminate.
  - reflexivity.
  - split; [apply sn_header_wf; vm_compute; split; [discriminate|reflexivity]|].
    split; [reflexivity|]. split; [reflexivity|]. vm_compute. lia.
  - exact start_inv.
  - vm_compute. reflexivity.
  - vm_compute. reflexivity.
  - vm_compute. reflexivity.
  - vm_compute. reflexivity.
  - vm_compute. reflexivity.
  - apply Nat.leb_le. vm_compute. reflexivity.
  - vm_compute. reflexivity.
  - vm_compute. reflexivity.
  - exists keyreq, e1, keyresp, s1, regreq, e2, c, cm, l, es. split; [exact R1|]. split; [exact R2|]. split; [exact R3|].
    exact R4.
Defined.

(** ** An interrupted registration *)
Section Waiting.
Context `{RSA : RSALib, NET : Net, TAPD : TapDev, RND : RandSource, ECDC : EdgeCodec, US : UDPServices}
  {MR : MapRange (list Z)}.

(** The packet asks for the key, for registration, or is a heartbeat. *)
Definition asks (packet : list Z) : bool :=
  match packet with
  | v :: _ :: t :: _ =>
      (v =? VersionV) && ((t =? TypeSNPublicSecret) || (t =? TypeRegisterRequest) || (t =? TypeHeartbeat))
  | _ => false
  end.
Definition sent_packet (ev : Sent) : list Z := match ev with SentUDP p _ => p | SentWSS _ p => p end.
Definition asked (e : EdgeClient) : list (Sent * option goerr) :=
  List.filter (fun x => asks (sent_packet x.1)) (ec_wire e).

(** Waiting, having asked [w]. *)
Definition waiting (w : list (Sent * option goerr)) (e : EdgeClient) : Prop :=
  isWaitingForSNRetryRegisterResponse e = true /\ asked e = w.

Definition quiet_type (t : Z) : bool :=
  negb ((t =? TypeSNPublicSecret) || (t =? TypeRegisterRequest) || (t =? TypeHeartbeat)).

Lemma waiting_on_peers {A} (m : M PeerRegistry A) w : preserves (waiting w) (on_peers m).
Proof. intros e H. unfold on_peers. by destruct (m (ec_Peers e)). Qed.

Lemma waiting_wrapping {A} msg (m : M EdgeClient A) w : preserves (waiting w) m -> preserves (waiting w) (wrapping msg m).
Proof. intros H. unfold wrapping. by preserve. Qed.

Lemma waiting_send ev w : asks (sent_packet ev) = false -> preserves (waiting w) (edge_send ev).
Proof.
  intros Ha. unfold edge_send. preserve. apply preserves_modify. intros s [H1 H2]. split; [done|].
  rewrite <-H2. unfold asked. cbn. rewrite List.filter_app. cbn [List.filter fst]. rewrite Ha. by rewrite app_nil_r.
Qed.

Lemma waiting_transmit wrap packet a w : asks packet = false -> preserves (waiting w) (transmit wrap packet a).
Proof. intros Ha. unfold transmit. preserve; by apply waiting_send. Qed.

Lemma waiting_target dst st w : preserves (waiting w) (UDPAddrWithStrategy dst st).
Proof. unfold UDPAddrWithStrategy. preserve; apply waiting_on_peers. Qed.

(** A header is that of its packet type. *)
Lemma EdgeHeader_any pt dst e :
  exists o, EdgeHeader pt dst e = (o, next_seq e) /\ forall h, o = Ok h -> hPacketType h = pt.
Proof.
  unfold EdgeHeader. munfold. unfold id. cbv beta iota zeta.
  destruct (slice _ 0 6) as [src| |]; [|by eexists..]. destruct dst as [d|].
  - destruct (slice d 0 6) as [x| |]; [|by eexists..]. eexists. split; [done|]. by intros h [= <-].
  - eexists. split; [done|]. by intros h [= <-].
Qed.

Lemma waiting_header {B} pt dst w (k : ProtoVHeader -> M EdgeClient B) :
  (forall h, hPacketType h = pt -> preserves (waiting w) (k h)) -> preserves (waiting w) (EdgeHeader pt dst ≫= k).
Proof.
  intros Hk e H. unfold mbind, M_bind. destruct (EdgeHeader_any pt dst e) as (o & -> & Ho).
  destruct o as [h| |]; [|done..]. by apply Hk; [apply Ho|].
Qed.

Lemma asks_packed h p : quiet_type (hPacketType h) = true -> asks (PackProtoVDatagram h p) = false.
Proof.
  unfold quiet_type. intros H. apply negb_true_iff in H. cbn. rewrite H. apply andb_false_r.
Qed.

Lemma waiting_SendStruct {T} `{PacketTyped T, Proto T} (x : T) dst st w :
  quiet_type (PacketType T) = true -> preserves (waiting w) (SendStruct x dst st).
Proof.
  intros Hq. unfold SendStruct. apply preserves_bind; [apply waiting_target|]. intros a.
  apply waiting_header. intros h Hh. preserve. apply waiting_transmit, asks_packed. by rewrite Hh.
Qed.

Lemma waiting_modify f w : (forall e, isWaitingForSNRetryRegisterResponse (f e) = isWaitingForSNRetryRegisterResponse e) ->
  (forall e, ec_wire (f e) = ec_wire e) -> preserves (waiting w) (modify f).
Proof. intros H1 H2. apply preserves_modify. intros e [Hf Ha]. unfold waiting, asked. by rewrite H1, H2. Qed.

(** Walks a method of the edge. *)
Ltac wait_step :=
  match goal with
  | |- preserves _ (on_peers _) => apply waiting_on_peers
  | |- preserves _ (wrapping _ _) => apply waiting_wrapping
  | |- preserves _ (UDPAddrWithStrategy _ _) => apply waiting_target
  | |- preserves _ (SendStruct _ _ _) => apply waiting_SendStruct; reflexivity
  | |- preserves _ (modify _) => apply waiting_modify; reflexivity
  | |- preserves _ (edge_send _) => apply waiting_send
  | _ => preserve_step
  end.
Ltac wait := repeat wait_step.

Lemma waiting_tap frame w : preserves (waiting w) (tap_Write frame).
Proof. unfold tap_Write. wait. Qed.
Lemma waiting_data p w : preserves (waiting w) (handleDataPayload p).
Proof. unfold handleDataPayload, ProcessIncomingPayload. wait; apply waiting_tap. Qed.
Lemma waiting_vfuze buf n a w : preserves (waiting w) (handleVFuzePacket buf n a).
Proof. unfold handleVFuzePacket, IsKnownPeerSocket. wait; apply waiting_data. Qed.
Lemma waiting_status l st id w : preserves (waiting w) (update_status l st id).
Proof. unfold update_status. wait. Qed.
Lemma waiting_duplex l v w : preserves (waiting w) (set_duplex l v).
Proof. unfold set_duplex. wait. Qed.
Lemma waiting_available m w : preserves (waiting w) (mark_available m).
Proof. unfold mark_available. wait. apply waiting_status. Qed.
Lemma waiting_PingPeer l n st w : preserves (waiting w) (PingPeer l n st).
Proof. unfold PingPeer. wait; apply waiting_status. Qed.
Lemma waiting_updates w : preserves (waiting w) UpdatePeersP2PStates.
Proof. unfold UpdatePeersP2PStates. wait; apply waiting_PingPeer. Qed.
Lemma waiting_round stop m w : preserves (waiting w) m -> preserves (waiting w) (round stop m).
Proof. intros H. unfold round. by wait. Qed.

(** While it waits, the edge does not answer another request to register. *)
Lemma waiting_retry r w : preserves (waiting w) (handleRetryRegisterRequest r).
Proof.
  intros e H. unfold handleRetryRegisterRequest. destruct (negb _); [done|]. rewrite gets_bind. unfold id.
  by rewrite (proj1 H).
Qed.

Lemma waiting_handlers t fn r w : messageHandlers !! t = Some fn ->
  t <> TypeRegisterResponse -> t <> TypeSNPublicSecret -> preserves (waiting w) (fn r).
Proof.
  intros Hf H1 H2. apply elem_of_list_to_map_2 in Hf.
  repeat (apply elem_of_cons in Hf as [[= -> ->]|Hf]); [..|by apply elem_of_nil in Hf]; try done.
  - apply waiting_data.
  - unfold handlePeerInfoMessage. wait.
  - unfold handlePingMessage. wait; apply waiting_status || apply waiting_duplex.
  - unfold handleP2PFullStateMessage. wait.
  - unfold handleLeasesInfosMessage. wait.
  - apply waiting_retry.
  - unfold handleHeartbeatMessage. wait.
  - unfold handleUnregisterRequestMessage. wait.
  - unfold handleAckMessage. wait.
  - unfold handlePeerListRequestMessage. wait.
  - unfold handleP2PStateInfoMessage. wait; apply waiting_available.
  - unfold handleOnlineCheckMessage. wait.
  - unfold handleICECandidateMessage. wait.
  - unfold handleTURNCredentialsMessage. wait.
Qed.

(** *** Frames and packets *)
Lemma waiting_WritePacket dst p st w : preserves (waiting w) (WritePacket TypeData dst p st).
Proof.
  unfold WritePacket. apply preserves_bind; [apply waiting_target|]. intros a. apply waiting_header. intros h Hh.
  wait. apply waiting_transmit, asks_packed. by rewrite Hh.
Qed.

Lemma asks_vfuze l : asks (VersionVFuze :: l) = false.
Proof. by destruct l as [|? [|? ?]]. Qed.

Lemma waiting_SendVFuze dst p st w : preserves (waiting w) (SendVFuze dst p st).
Proof.
  unfold SendVFuze, VFuzeHeaderBytes. wait_step; [wait|]. intros e H. destruct (slice dst 0 6) as [d| |]; [|done..].
  revert e H. change (preserves (waiting w) (mlift (Ok (copy_at (VersionVFuze :: replicate 6 0) 1 7 d)) ≫= fun vfuzh =>
    modify add_sent;; transmit id (take ProtoVFuzeSize vfuzh ++ p) a)).
  intros e H. unfold mbind at 1, M_bind at 1, mlift. revert e H.
  change (preserves (waiting w) (modify add_sent;; transmit id
    (take ProtoVFuzeSize (copy_at (VersionVFuze :: replicate 6 0) 1 7 d) ++ p) a)).
  wait. apply waiting_transmit. exact (asks_vfuze _).
Qed.

Lemma waiting_frame frame w : preserves (waiting w) (handleTAP_frame frame).
Proof.
  unfold handleTAP_frame, ProcessOutgoingPayload. wait; apply waiting_round; apply waiting_SendVFuze || apply waiting_WritePacket.
Qed.

Lemma NewRawMessage_type p a r : NewRawMessage p a = Ok r -> hPacketType (Header r) = nth 2 p 0.
Proof.
  unfold NewRawMessage. rewrite Unpack_spec. case_bool_decide as Hl; [done|]. destruct (negb _); [done|].
  unfold header_read. case_bool_decide; [done|]. intros [= <-]. cbn [Header hPacketType].
  rewrite nth_firstn. done.
Qed.

Lemma copy_slice {A} (buf p : list A) :
  slice (copy_at buf 0 (length buf) p) 0 (Nat.min (length p) (length buf)) = Ok (take (length buf) p).
Proof.
  unfold copy_at. rewrite Nat.sub_0_r, take_0, app_nil_l, Nat.add_0_l.
  assert (take (Nat.min (length buf) (length p)) p = take (length buf) p) as ->.
  { destruct (Nat.le_ge_cases (length buf) (length p)); [by rewrite Nat.min_l|].
    rewrite Nat.min_r by done. by rewrite firstn_all, take_ge. }
  replace (Nat.min (length p) (length buf)) with (length (take (length buf) p)) by (rewrite length_take; lia).
  apply slice_prefix.
Qed.

(** The packet is neither the key nor the response. *)
Definition quiet_packet (packet : list Z) : bool :=
  negb (nth 2 packet 0 =? TypeRegisterResponse) && negb (nth 2 packet 0 =? TypeSNPublicSecret).
Definition quiet_input (i : edge_input) : bool :=
  match i with InUDP p _ => quiet_packet p | InWSS p => quiet_packet p | _ => true end.

Lemma waiting_message p a w : quiet_packet p = true ->
  preserves (waiting w) (match NewRawMessage p a with
    | Panic => mpanic
    | Err _ => mret true
    | Ok rawMsg => round errFileClosed (Handle messageHandlers rawMsg)
    end).
Proof.
  intros Hq. destruct (NewRawMessage p a) as [r| |] eqn:Er; [|wait..]. apply waiting_round. unfold Handle.
  destruct (messageHandlers !! hPacketType (Header r)) as [fn|] eqn:Ef; [|wait].
  apply (waiting_handlers _ _ _ _ Ef); rewrite (NewRawMessage_type _ _ _ Er);
    apply andb_true_iff in Hq as [H1%negb_true_iff%Z.eqb_neq H2%negb_true_iff%Z.eqb_neq]; done.
Qed.

Lemma waiting_receive packet a w : quiet_packet packet = true -> preserves (waiting w) (receive packet a).
Proof.
  intros Hq e H. unfold receive. rewrite gets_bind. unfold id. cbv zeta.
  unfold modify. unfold mbind at 1 2, M_bind at 1 2. cbv beta iota. set (e1 := add_recv _). rewrite gets_bind.
  change (recvBuf e1) with (copy_at (recvBuf e) 0 (length (recvBuf e)) packet).
  assert (waiting w e1) as H1 by done. unfold mlift. unfold mbind at 1, M_bind at 1.
  destruct (index _ 0) as [v| |]; [|done..]. destruct (v =? VersionVFuze).
  { by apply waiting_round; [apply waiting_vfuze|]. }
  case_bool_decide as Hl; [done|]. rewrite copy_slice. unfold mbind at 1, M_bind at 1.
  apply waiting_message; [|done]. unfold ProtoVHeaderSize in Hl. revert Hq. unfold quiet_packet.
  rewrite nth_firstn. destruct (Nat.ltb_spec 2 (length (recvBuf e))); [done|lia].
Qed.

Lemma waiting_do i w : quiet_input i = true -> preserves (waiting w) (edge_do i).
Proof.
  intros Hq. destruct i; simpl in Hq; unfold edge_do.
  - wait. apply waiting_frame.
  - wait. by apply waiting_receive.
  - wait. by apply waiting_receive.
  - unfold handleWSS_lost. wait.
  - intros e H. unfold sendHeartbeat. munfold. unfold id. rewrite (proj1 H). by rewrite orb_true_r.
  - unfold sendP2PInfos. wait.
  - apply waiting_updates.
  - unfold sendPeerListRequest. wait.
  - unfold sendP2PFullStateRequest. wait.
  - unfold sendLeasesInfosRequest. wait.
  - wait.
Qed.
End Waiting.

(** An interrupted registration is not taken up again: an edge that waits for
    the response to a repeated registration (after its request for the key, or
    the key, or the registration, or the response was lost) keeps waiting
    whatever else it receives, reads or is asked to do, and until the
    supernode sends a key or a response on its own it sends no request for the
    key, no registration and no heartbeat, however often it is told to
    register. *)
Theorem waiting_forever `{RSA : RSALib, NET : Net, TAPD : TapDev, RND : RandSource, ECDC : EdgeCodec,
    US : UDPServices} {MR : MapRange (list Z)} l e :
  isWaitingForSNRetryRegisterResponse e = true -> Forall (fun i => quiet_input i = true) l ->
  let e' := edge_after l e in isWaitingForSNRetryRegisterResponse e' = true /\ asked e' = asked e.
Proof.
  intros Hw Hl. assert (waiting (asked e) e) as H by done. cbv zeta. revert H. generalize (asked e) as w. intros w.
  clear Hw. revert e. induction Hl as [|i l Hi _ IH]; intros e H; [done|].
  apply (IH (edge_do i e).2). by apply waiting_do.
Qed.

(** The request for the key was lost; the supernode keeps answering. *)
Lemma waiting_forever_witness :
  let retry := PackProtoVDatagram (sn_header TypeRetryRegisterRequest [] start) [] in
  let e := (handleUDP_packet (NET := open_net) retry (addr 9) (edge false [1; 2])).2 in
  let l := [TickHeartbeat; InUDP retry (addr 9); InTAP (frame_to (ExtGenerateMac (str "ab") [3; 4]) [2; 2; 2; 2; 2; 2]);
            InUDP retry (addr 9); TickHeartbeat] in
  length (asked e) = 1%nat /\ length (ec_wire (edge_after (NET := open_net) l e)) = 2%nat /\
  asked (edge_after (NET := open_net) l e) = asked e.
Proof.
  intros retry e l. split; [vm_compute; reflexivity|]. split; [vm_compute; reflexivity|].
  apply (waiting_forever (NET := open_net) l e).
  - vm_compute. reflexivity.
  - repeat constructor.
Defined.
