(* ===== verification/EdgeDirect.v ===== *)
(** * Direct paths between edges

    Pings and pongs: how an edge finds out that a peer can be reached without
    the supernode, and that its frames then go there directly. *)
From S2P Require Import Prelude GoBytes GoNet Netstruct Protocol Frame Machine Transform P2P Crypto SNState.
From S2P Require Import Community Supernode SNWire SNInvariant SNSafety SNSample SNProps SNSync Edge EdgeProps EdgeSession.
From stdpp Require Import gmap list strings fin_maps.
From Stdlib Require Import ZArith Lia.
Open Scope Z_scope.

Section Direct.
Context `{RSA : RSALib, NET : Net, TAPD : TapDev, RND : RandSource, ECDC : EdgeCodec, US : UDPServices}
  {MR : MapRange (list Z)}.

(** Where a packet goes, as a function of the state. *)
Definition target (dst : option (list Z)) (st : UDPWriteStrategy) (e : EdgeClient) : outcome (option netAddr) :=
  match WSSTransport e, st, dst with
  | Some _, _, _ | None, UDPEnforceSupernode, _ | None, UDPBestEffort, None => Ok (Some (SupernodeAddr e))
  | None, UDPEnforceP2P, None => Err errP2PNil
  | None, st, Some d =>
      match Peers (ec_Peers e) !! HardwareAddr_String d with
      | None => if bool_decide (st = UDPEnforceP2P) then Err errP2PUnknown else Ok (Some (SupernodeAddr e))
      | Some l =>
          match pheap (ec_Peers e) !! l with
          | None => Panic
          | Some p => if negb (bool_decide (P2PStatus p = P2PAvailable)) && bool_decide (st = UDPBestEffort)
                      then Ok (Some (SupernodeAddr e)) else Ok (Peer_UDPAddr p)
          end
      end
  end.

Lemma lookup_peer e mac : mtry (on_peers (GetPeer mac)) e =
  (Ok (match Peers (ec_Peers e) !! mac with Some l => inl l | None => inr errPeerNotFound end), e).
Proof.
  unfold mtry, on_peers, GetPeer. munfold. unfold id. destruct (Peers (ec_Peers e) !! mac); by destruct e.
Qed.

Lemma UDPAddrWithStrategy_eq dst st e : UDPAddrWithStrategy dst st e = (target dst st e, e).
Proof.
  unfold UDPAddrWithStrategy, target. rewrite gets_bind. unfold id. destruct (WSSTransport e) as [t|].
  - by rewrite bool_decide_eq_true_2.
  - rewrite bool_decide_eq_false_2 by (by intros [? ?]). destruct st, dst as [d|]; try done.
    all: rewrite (bind_ok _ _ _ _ _ (lookup_peer e (HardwareAddr_String d)));
      destruct (Peers (ec_Peers e) !! HardwareAddr_String d) as [l|]; [|done].
    all: munfold; destruct (pheap (ec_Peers e) !! l) as [p|]; [|done]; by destruct (_ && _).
Qed.

(** *** A message to a peer *)
Lemma SendStruct_to {T} `{PacketTyped T, Proto T} (x : T) d st a payload e :
  open_link NET -> udp_ready e -> mac_ok (ec_MACAddr e) -> mac_ok d -> target (Some d) st e = Ok (Some a) ->
  Marshal x = Some payload ->
  SendStruct x (Some d) st e =
    (Ok tt, sent_to (SentUDP (PackProtoVDatagram (next_header e (PacketType T) (Some d)) payload) a) (next_seq e)).
Proof.
  intros Hn Hu Hm Hd Ht Hp. unfold SendStruct.
  assert (UDPAddrWithStrategy (Some d) st e = (Ok (Some a), e)) as E by (by rewrite UDPAddrWithStrategy_eq, Ht).
  rewrite (bind_ok _ _ _ _ _ E). rewrite (bind_ok _ _ _ _ _ (EdgeHeader_eval e _ (Some d) Hm ltac:(by intros ? [= <-]))).
  unfold codec_Encode. rewrite Hp. rewrite (bind_ok _ _ (next_seq e) payload (next_seq e)) by done.
  apply (transmit_udp (next_seq e)); [done|]. apply Hn.
Qed.

(** The header of a ping or pong between two edges. *)
Definition ping_header (src dst : list Z) (h : ProtoVHeader) : Prop :=
  header_wf h /\ Version h = VersionV /\ hPacketType h = TypePing /\ SourceID h = src /\ DestID h = dst /\
  Flags h = 0.

Lemma next_ping_header e d : mac_ok (ec_MACAddr e) -> mac_ok d -> bytes_ok (ec_Community e) ->
  ping_header (ec_MACAddr e) d (next_header e TypePing (Some d)).
Proof.
  intros Hm Hd Hc. split; [apply next_header_wf; [by vm_compute|done| |done]; by intros ? [= <-]|].
  split; [done|]. split; [done|]. cbn. rewrite !take6 by apply Hm || apply Hd. done.
Qed.

(** What a run of sends leaves alone. *)
Definition kept (e : EdgeClient) :=
  (ec_Peers e, ec_clock e, static e, payloadProcessor e, enableVFuze e, length (frameBuf e), ec_rand e).

Definition pings (src dst payload : list Z) (a : netAddr) (evs : list (Sent * option goerr)) : Prop :=
  Forall (fun ev => exists h, ev = (SentUDP (PackProtoVDatagram h payload) a, None) /\ ping_header src dst h) evs.

Lemma ping_once e d a x payload st : open_link NET -> udp_ready e -> mac_ok (ec_MACAddr e) -> mac_ok d ->
  bytes_ok (ec_Community e) -> target (Some d) st e = Ok (Some a) -> Marshal (T := PeerToPing) x = Some payload ->
  exists e' ev, SendStruct x (Some d) st e = (Ok tt, e') /\ ec_wire e' = ec_wire e ++ [ev] /\
    pings (ec_MACAddr e) d payload a [ev] /\ kept e' = kept e.
Proof.
  intros Hn Hu Hm Hd Hc Ht Hp. eexists _, _. split; [by apply (SendStruct_to x d st a payload)|].
  split; [done|]. split; [|done]. repeat constructor. eexists. split; [done|]. by apply next_ping_header.
Qed.

Lemma kept_target e e' d st : kept e' = kept e -> target d st e' = target d st e.
Proof. intros H. injection H as Hp _ _ _ Hsn _ Hw. unfold target. by rewrite Hp, Hsn, Hw. Qed.

Lemma kept_ready e e' : kept e' = kept e -> udp_ready e -> udp_ready e'.
Proof. intros H. injection H as _ _ _ _ _ Hc Hw. unfold udp_ready. by rewrite Hc, Hw. Qed.

Lemma ping_many n e d a x payload st : open_link NET -> udp_ready e -> mac_ok (ec_MACAddr e) -> mac_ok d ->
  bytes_ok (ec_Community e) -> target (Some d) st e = Ok (Some a) -> Marshal (T := PeerToPing) x = Some payload ->
  exists e' evs, (mfor (replicate n tt) (fun _ => mignore (SendStruct x (Some d) st));; SendStruct x (Some d) st) e = (Ok tt, e') /\
    ec_wire e' = ec_wire e ++ evs /\ length evs = S n /\ pings (ec_MACAddr e) d payload a evs /\ kept e' = kept e.
Proof.
  revert e. induction n as [|n IH]; intros e Hn Hu Hm Hd Hc Ht Hp.
  all: destruct (ping_once e d a x payload st Hn Hu Hm Hd Hc Ht Hp) as (e1 & ev & E & Hw & Hps & Hk).
  - exists e1, [ev]. split; [|done]. cbn [replicate mfor]. erewrite bind_ok by done. exact E.
  - pose proof Hk as Hk'. injection Hk' as _ _ _ Hcm _ _ _ Hmac.
    destruct (IH e1) as (e2 & evs & E2 & Hw2 & Hl2 & Hp2 & Hk2); rewrite ?Hmac, ?Hcm; try done.
    { by apply (kept_ready e). }
    { by rewrite (kept_target e). }
    exists e2, (ev :: evs). split.
    + rewrite <-E2. cbn [replicate mfor]. unfold mignore, mtry. unfold mbind, M_bind. by rewrite E.
    + rewrite Hw2, Hw, <-app_assoc. rewrite Hmac in Hp2. split; [done|]. split; [simpl; lia|]. split; [|congruence].
      inversion Hps; subst. by constructor.
Qed.

(** *** The status of a peer *)

(** The registry changed only in what it holds about the peer at [l]. *)
Definition peer_set (l : nat) (p : Peer) (e e' : EdgeClient) : Prop :=
  exists r, e' = upd_peers r e /\ Peers r = Peers (ec_Peers e) /\ pheap r !! l = Some p.

Lemma peer_set_trans l p q e e' e'' : peer_set l p e e' -> peer_set l q e' e'' -> peer_set l q e e''.
Proof. intros (r & -> & Hr & _) (r' & -> & Hr' & Hp). exists r'. split; [done|]. split; [by rewrite Hr', <-Hr|done]. Qed.

Lemma update_status_run l st id e p : pheap (ec_Peers e) !! l = Some p ->
  exists e', update_status l st id e = (Ok tt, e') /\ peer_set l (UpdateP2PStatus (ec_clock e) st id p).1 e e'.
Proof.
  intros Hp. unfold update_status. rewrite gets_bind. unfold Datatypes.id.
  rewrite (bind_ok _ _ e p e) by (unfold mderef; by rewrite Hp).
  destruct (UpdateP2PStatus (ec_clock e) st id p) as [p' changed]. cbn [fst].
  unfold on_peers, update_peer, SetPendingChanges. munfold.
  assert (alter (fun _ => p') l (pheap (ec_Peers e)) !! l = Some p') as Ha by (by rewrite lookup_alter_eq, Hp).
  destruct changed; eexists; (split; [reflexivity|]); eexists; (split; [by destruct e|done]).
Qed.

Lemma set_duplex_run l v e p : pheap (ec_Peers e) !! l = Some p -> P2PStatus p = P2PAvailable ->
  exists e', set_duplex l v e = (Ok tt, e') /\
    peer_set l (mkPeer (Infos p) P2PAvailable v (P2PCheckID p) (pendingTTL p) (UpdatedAt p)) e e'.
Proof.
  intros Hp Hs. unfold set_duplex. rewrite gets_bind. unfold id.
  rewrite (bind_ok _ _ e p e) by (unfold mderef; by rewrite Hp).
  unfold SetFullDuplex. rewrite Hs, bool_decide_eq_true_2 by done. cbn [negb]. rewrite andb_false_r.
  set (p' := mkPeer _ _ _ _ _ _). unfold on_peers, update_peer, SetPendingChanges. munfold.
  assert (alter (fun _ => p') l (pheap (ec_Peers e)) !! l = Some p') as Ha by (by rewrite lookup_alter_eq, Hp).
  destruct (negb _); eexists; (split; [reflexivity|]); eexists; (split; [by destruct e|done]).
Qed.

(** *** Pinging *)
Definition check_id (e : EdgeClient) (p : Peer) : list Z :=
  strings_Join [ec_ID e; HardwareAddr_String (ec_MACAddr e); HardwareAddr_String (pi_MacAddr (Infos p));
                pi_PubSocket (Infos p); str "0"] [46].

(** A peer of the registry that can be pinged. *)
Record knows (e : EdgeClient) (d : list Z) (l : nat) (p : Peer) (a : netAddr) : Prop := {
  kn_mac : Peers (ec_Peers e) !! HardwareAddr_String d = Some l;
  kn_peer : pheap (ec_Peers e) !! l = Some p;
  kn_infos : pi_MacAddr (Infos p) = d;
  kn_addr : Peer_UDPAddr p = Some a }.

Lemma first_ping now id p : P2PStatus p = P2PUnknown ->
  (UpdateP2PStatus now P2PPending id p).1 = mkPeer (Infos p) P2PPending (IsFullDuplex p) id 30 now.
Proof. intros Hs. unfold UpdateP2PStatus. rewrite Hs. done. Qed.

Lemma PingPeer_run l n e d p a payload :
  open_link NET -> udp_ready e -> mac_ok (ec_MACAddr e) -> mac_ok d -> bytes_ok (ec_Community e) ->
  knows e d l p a -> P2PStatus p = P2PUnknown -> Marshal (mkPeerToPing (check_id e p) false) = Some payload ->
  exists e' evs, PingPeer l n P2PPending e = (Ok tt, e') /\ ec_wire e' = ec_wire e ++ evs /\ length evs = S n /\
    pings (ec_MACAddr e) d payload a evs /\ static e' = static e /\
    knows e' d l (mkPeer (Infos p) P2PPending (IsFullDuplex p) (check_id e p) 30 (ec_clock e)) a.
Proof.
  intros Hn Hu Hm Hd Hc [H1 H2 H3 H4] Hs Hp. unfold PingPeer. rewrite gets_bind. unfold id.
  rewrite (bind_ok _ _ e p e) by (unfold mderef; by rewrite H2). cbv zeta.
  assert ((match pi_MacAddr (Infos p) with [] => None | d => Some d end) = Some d) as ->
    by (rewrite H3; destruct Hd as [Hl _]; by destruct d).
  fold (check_id e p).
  destruct (update_status_run l P2PPending (check_id e p) e p H2) as (e1 & E1 & r & -> & Hr1 & Hr2).
  rewrite (bind_ok _ _ _ _ _ E1). rewrite first_ping in Hr2 by done.
  destruct (ping_many n (upd_peers r e) d a (mkPeerToPing (check_id e p) false) payload UDPEnforceP2P)
    as (e2 & evs & E2 & Hw & Hl & Hps & Hk); try done.
  { destruct Hu as [Hw _]. unfold target. cbn [WSSTransport upd_peers ec_Peers]. rewrite Hw, Hr1, H1, Hr2.
    cbn [P2PStatus]. unfold Peer_UDPAddr in *. cbn [Infos]. by rewrite H4. }
  exists e2, evs. split; [exact E2|]. split; [done|]. split; [done|]. split; [done|].
  injection Hk as Hpe _ Hst1 Hst2 Hst3 Hst4 Hst5 Hst6 Hst7 Hst8 _ _ _ _.
  split; [unfold static; congruence|].
  split; rewrite ?Hpe; cbn [ec_Peers upd_peers]; [by rewrite Hr1|done|done|done].
Qed.

(** *** Answering a ping *)

(** The ends of a message as its handler reads them. *)
Lemma ends_of h p from packet src dst : SourceID h = src -> DestID h = dst ->
  bytesToMAC src = Some src -> bytesToMAC dst = Some dst ->
  EdgeMACAddr (mkRaw h p from packet) = HardwareAddr_String src /\
  DestMACAddr (mkRaw h p from packet) = HardwareAddr_String dst.
Proof.
  intros Hs Hd H1 H2. unfold EdgeMACAddr, DestMACAddr, HasSrcMACAddr, HasDstMACAddr, GetSrcMACAddr, GetDstMACAddr.
  cbn [Header]. rewrite Hs, Hd, H1, H2. done.
Qed.

Lemma ToPing h p from packet m : hPacketType h = TypePing -> Unmarshal p = Some m ->
  ToMessage PeerToPing (mkRaw h p from packet) = Ok m.
Proof. intros Ht Hm. unfold ToMessage, codec_Decode. cbn [Header Payload]. rewrite Ht, Hm. done. Qed.

Lemma ping_answered h src payload from b cid dest answer :
  open_link NET -> udp_ready b -> mac_ok (ec_MACAddr b) -> mac_ok src -> bytes_ok (ec_Community b) ->
  bytesToMAC src = Some src -> bytesToMAC (ec_MACAddr b) = Some (ec_MACAddr b) ->
  ping_header src (ec_MACAddr b) h -> (30 + length payload <= length (recvBuf b))%nat ->
  Unmarshal payload = Some (mkPeerToPing cid false) -> target (Some src) UDPBestEffort b = Ok (Some dest) ->
  Marshal (mkPeerToPing cid true) = Some answer ->
  exists b' h', handleUDP_packet (PackProtoVDatagram h payload) from b = (Ok true, b') /\
    ec_wire b' = ec_wire b ++ [(SentUDP (PackProtoVDatagram h' answer) dest, None)] /\ ping_header (ec_MACAddr b) src h'.
Proof.
  intros Hn Hu Hm Hsrc Hc Hb1 Hb2 (Hw & Hv & Ht & Hs & Hd & _) Hl Hp Htg Ha.
  set (h' := next_header (received (PackProtoVDatagram h payload) b) TypePing (Some src)).
  destruct (handled handlePingMessage h payload from b
    (fun b' => ec_wire b' = ec_wire b ++ [(SentUDP (PackProtoVDatagram h' answer) dest, None)])) as (b' & E & Hwire).
  - exact (conj Hw (conj Hv (conj eq_refl Hl))).
  - by rewrite Ht.
  - set (b1 := received (PackProtoVDatagram h payload) b). set (r := mkRaw h payload from _).
    destruct (ends_of h payload from (PackProtoVDatagram h payload) src (ec_MACAddr b) Hs Hd Hb1 Hb2) as [He1 He2]. fold r in He1, He2.
    unfold handlePingMessage. rewrite (bind_ok _ _ b1 (mkPeerToPing cid false) b1)
      by (unfold mlift; unfold r; by rewrite (ToPing _ _ _ _ _ Ht Hp)).
    cbn [ptp_IsPong negb]. rewrite He1, ParseMAC_String by apply Hsrc. rewrite gets_bind. unfold id.
    rewrite He2, bool_decide_eq_true_2 by done. cbn [negb ptp_CheckId].
    pose proof (SendStruct_to (mkPeerToPing cid true) src UDPBestEffort dest answer b1 Hn Hu Hm Hsrc Htg Ha) as Es.
    unfold mignore, mtry. munfold. rewrite Es. by eexists.
  - exists b', h'. split; [done|]. split; [done|]. by apply (next_ping_header (received (PackProtoVDatagram h payload) b) src).
Qed.

(** *** The answer *)
Lemma pong_received h payload from e d l p a :
  mac_ok d -> bytesToMAC d = Some d -> header_wf h -> Version h = VersionV -> hPacketType h = TypePing -> SourceID h = d ->
  (30 + length payload <= length (recvBuf e))%nat -> knows e d l p a -> 0 < pendingTTL p -> P2PStatus p = P2PPending ->
  Unmarshal payload = Some (mkPeerToPing (P2PCheckID p) true) ->
  exists e' p', handleUDP_packet (PackProtoVDatagram h payload) from e = (Ok true, e') /\ knows e' d l p' a /\
    P2PStatus p' = P2PAvailable /\ IsFullDuplex p' = negb (IsFromSupernode h) /\ static e' = static e.
Proof.
  intros Hd Hb Hw Hv Ht Hs Hl [H1 H2 H3 H4] Httl Hst Hp.
  set (q := mkPeer (Infos p) P2PAvailable (negb (IsFromSupernode h)) (P2PCheckID p) (pendingTTL p) (ec_clock e)).
  destruct (handled handlePingMessage h payload from e
    (fun e' => peer_set l q (received (PackProtoVDatagram h payload) e) e')) as (e' & E & r & -> & Hr1 & Hr2).
  - exact (conj Hw (conj Hv (conj eq_refl Hl))).
  - by rewrite Ht.
  - set (e1 := received (PackProtoVDatagram h payload) e). set (m := mkRaw h payload from _).
    assert (EdgeMACAddr m = HardwareAddr_String d) as Em.
    { unfold m, EdgeMACAddr, HasSrcMACAddr, GetSrcMACAddr. cbn [Header]. by rewrite Hs, Hb. }
    unfold handlePingMessage. rewrite (bind_ok _ _ e1 (mkPeerToPing (P2PCheckID p) true) e1)
      by (unfold mlift, m; by rewrite (ToPing _ _ _ _ _ Ht Hp)).
    cbn [ptp_IsPong negb ptp_CheckId]. rewrite (bind_ok _ _ _ _ _ (lookup_peer e1 (EdgeMACAddr m))).
    change (ec_Peers e1) with (ec_Peers e). rewrite Em, H1, gets_bind. unfold id.
    rewrite (bind_ok _ _ e1 p e1) by (unfold mderef; change (ec_Peers e1) with (ec_Peers e); by rewrite H2).
    rewrite bool_decide_eq_true_2 by done.
    destruct (update_status_run l P2PAvailable (P2PCheckID p) e1 p H2) as (e2 & E2 & Hset).
    rewrite (bind_ok _ _ _ _ _ E2), gets_bind.
    assert ((UpdateP2PStatus (ec_clock e1) P2PAvailable (P2PCheckID p) p).1 =
      mkPeer (Infos p) P2PAvailable (IsFullDuplex p) (P2PCheckID p) (pendingTTL p) (ec_clock e)) as Eq.
    { unfold UpdateP2PStatus. rewrite Hst. cbv zeta.
      rewrite (bool_decide_eq_false_2 (P2PPending = P2PAvailable)), (bool_decide_eq_false_2 (P2PPending = P2PUnknown)) by done.
      cbn [andb].
      destruct (Z.ltb_spec (pendingTTL p) 1); [lia|]. done. }
    rewrite Eq in Hset. pose proof Hset as (r & -> & Hr1 & Hr2).
    erewrite bind_ok by (unfold mderef, id; cbn [ec_Peers upd_peers]; by rewrite Hr2).
    cbn [P2PStatus]. rewrite bool_decide_eq_true_2 by done.
    destruct (set_duplex_run l (negb (IsFromSupernode h)) (upd_peers r e1) _ Hr2 eq_refl) as (e3 & E3 & Hset3).
    exists e3. split; [exact E3|]. by eapply peer_set_trans.
  - exists (upd_peers r (received (PackProtoVDatagram h payload) e)), q. split; [exact E|]. split.
    + split; cbn [ec_Peers upd_peers]; [by rewrite Hr1|done|done|done].
    + split; [done|]. split; [done|]. apply (arrives_static h payload TypePing).
      exact (conj Hw (conj Hv (conj Ht Hl))).
Qed.
End Direct.


Import Sample EdgeSample.

(** The edge with machine id 1, 2, which has heard of the one with 3, 4. *)
Definition infos_b : PeerInfo :=
  mkPeerInfo (str "10.128.0.4") (ExtGenerateMac (str "ab") [3; 4]) (str "192.0.2.2:4000") (str "ab") (str "b").
Definition aware : EdgeClient :=
  let e := roomy (edge false [1; 2]) in upd_peers (AddPeer 0 infos_b true (ec_Peers e)).2 e.

