(* ===== verification/P2Viz.v ===== *)
(** * The graph of a community: [pkg/p2p/p2viz.go]

    The data behind the graph page of an edge and the graphviz text made of
    it.  The layout of the picture is third party and not modelled. *)
From S2P Require Import Prelude GoBytes GoNet Netstruct P2P Hosts.
From stdpp Require Import gmap list strings sorting.
From Stdlib Require Import ZArith Lia.
Open Scope Z_scope.

(** Text in which a backquote stands for a double quote. *)
Definition qstr (s : string) : list Z := (fun b => if b =? 96 then 34 else b) <$> str s.

(** [unicode.ToTitle] on a string that is not ASCII only. *)
Class UnicodeTitle := unicode_title : list Z -> list Z.

Definition ToTitle `{UnicodeTitle} (s : list Z) : list Z :=
  if forallb (fun b => b <? 128) s then (fun b => if (97 <=? b) && (b <=? 122) then b - 32 else b) <$> s
  else unicode_title s.

(** ** Keys *)
Definition errDirectedKey : goerr := ErrNew "bogus cannot decode bogus PeerDirectedPairKey".
Definition errPairKey : goerr := ErrNew "bogus cannot decode bogus PeerPairKey".

(** [strings.Split(s, "->")] *)
Fixpoint split_arrow (s cur : list Z) : list (list Z) :=
  match s with
  | [] => [cur]
  | b :: s' =>
      match s' with
      | c :: s'' => if (b =? 45) && (c =? 62) then cur :: split_arrow s'' [] else split_arrow s' (cur ++ [b])
      | [] => [cur ++ [b]]
      end
  end.

Definition newPeerDirectedPairKey (from to_ : list Z) : list Z := from ++ [45; 62] ++ to_.

Definition GetDirectedPeers (pdpk : list Z) : outcome (list Z * list Z) :=
  match split_arrow pdpk [] with
  | from :: to_ :: _ => Ok (from, to_)
  | _ => Err errDirectedKey
  end.

Definition newPeerPairKey (peerA peerB : list Z) : list Z :=
  if str_ltb peerA peerB then peerA ++ [44] ++ peerB else peerB ++ [44] ++ peerA.

Definition ToPeerPairKey (pdpk : list Z) : outcome (list Z) :=
  '(from, to_) ← GetDirectedPeers pdpk; Ok (newPeerPairKey from to_).

Definition getPeers (ppk : list Z) : outcome (list Z * list Z) :=
  match split_byte 44 ppk with
  | peerA :: peerB :: _ => Ok (peerA, peerB)
  | _ => Err errPairKey
  end.

(** ** The data *)
Inductive ConnectionType := FullP2P | PartialP2P_AtoB | PartialP2P_BtoA | NoP2P.

Record ConnectionInfo := mkConnInfo { ci_Status : P2PCapacity; FromPeer : list Z; ToPeer : list Z }.

Record CommunityP2PVizDatas := mkViz {
  viz_CommunityName : list Z;
  PeersDescToVIP : gmap (list Z) (list Z);
  P2PAvailabilityInfos : gmap (list Z) PeerP2PInfos;
  ConnectionData : gmap (list Z) ConnectionInfo;
  PeerPairs : gmap (list Z) bool;
  P2PStates : gmap (list Z) ConnectionType }.

Definition getConnectionType (peerA peerB : list Z) (connectionData : gmap (list Z) ConnectionInfo) : ConnectionType :=
  let p2p k := match connectionData !! k with Some i => bool_decide (ci_Status i = P2PAvailable) | None => false end in
  match p2p (newPeerDirectedPairKey peerA peerB), p2p (newPeerDirectedPairKey peerB peerA) with
  | true, true => FullP2P
  | true, false => PartialP2P_AtoB
  | false, true => PartialP2P_BtoA
  | false, false => NoP2P
  end.

Definition from_Desc (i : PeerP2PInfos) : list Z := match ppi_From i with Some p => pi_Desc p | None => [] end.
Definition from_VirtualIp (i : PeerP2PInfos) : list Z := match ppi_From i with Some p => pi_VirtualIp p | None => [] end.

(** The connections one peer reports. *)
Definition add_connections (fromID : list Z) (tos : list PeerInfo) (m : gmap (list Z) ConnectionInfo)
  : gmap (list Z) ConnectionInfo :=
  foldl (fun m toPeer => <[newPeerDirectedPairKey fromID (pi_Desc toPeer) :=
    mkConnInfo P2PUnknown fromID (pi_Desc toPeer)]> m) m tos.

Section Viz.
Context {MR : MapRange (list Z)} `{UT : UnicodeTitle}.

Fixpoint add_pairs (keys : list (list Z)) (m : gmap (list Z) bool) : outcome (gmap (list Z) bool) :=
  match keys with
  | [] => Ok m
  | k :: keys' => pairKey ← ToPeerPairKey k; add_pairs keys' (<[pairKey := true]> m)
  end.

Fixpoint add_states (conns : gmap (list Z) ConnectionInfo) (keys : list (list Z)) (m : gmap (list Z) ConnectionType)
  : outcome (gmap (list Z) ConnectionType) :=
  match keys with
  | [] => Ok m
  | k :: keys' => '(peerA, peerB) ← getPeers k; add_states conns keys' (<[k := getConnectionType peerA peerB conns]> m)
  end.

Definition NewCommunityP2PVizDatas (community : list Z) (peerInfos : gmap (list Z) PeerP2PInfos)
  : outcome CommunityP2PVizDatas :=
  let infos := (map_range peerInfos).*2 in
  let peersDescToVIP := foldl (fun m i => <[from_Desc i := from_VirtualIp i]> m) ∅ infos in
  let connectionData := foldl (fun m i => add_connections (from_Desc i) (ppi_To i) m) ∅ infos in
  peerPairs ← add_pairs (map_range connectionData).*1 ∅;
  states ← add_states connectionData (map_range peerPairs).*1 ∅;
  Ok (mkViz community peersDescToVIP peerInfos connectionData peerPairs states).

(** ** The text *)
Definition sorted_keys {A} (m : gmap (list Z) A) : list (list Z) := merge_sort str_le (map_range m).*1.

Definition quoted (s : list Z) : list Z := [34] ++ s ++ [34].

Definition add_offline (s desc ip : list Z) : list Z :=
  s ++ [10] ++ quoted desc ++
  qstr " [color=grey label=<<table BORDER=`0` CELLBORDER=`0`><tr><TD ROWSPAN=`3`><img src=`/static/cloud.png`/></TD><td align=`left`>"
  ++ desc ++ qstr "</td></tr><tr><TD align=`left`>" ++ ip ++ str "</TD></tr></table>>]".

Definition header_start : list Z := qstr "
digraph G {
    graph [fontname = `courier new` inputscale=0];
    label=<<font point-size=`22`><b>".
Definition header_end : list Z := qstr "</b>'s Network<br align=`center`/></font>>
    labelloc=`t`
    fontsize=28
    center=true
    node [fontname = `courier new` fontsize=11 shape=underline];
    edge [fontname = `courier new` len=4.5]

   bgcolor=transparent;
   splines=true
   layout=neato
  normalize=-90
 ".

Definition genHeader (community : list Z) : list Z := header_start ++ ToTitle community ++ header_end.

Fixpoint sn_lines (reverse : bool) (keys : list (list Z)) : list Z :=
  match keys with
  | [] => []
  | k :: keys' =>
      let sn := str "sn" in
      [10] ++ (if reverse then quoted sn ++ str " -> " ++ quoted k else quoted k ++ str " -> " ++ quoted sn) ++
      qstr " [style=`dashed`  arrowhead=none, color=grey]" ++ sn_lines (negb reverse) keys'
  end.

Definition snPeerEdges (peersNodeIDs : gmap (list Z) (list Z)) : list Z :=
  str "# to supernodes" ++ sn_lines false (sorted_keys peersNodeIDs) ++ [10].

Definition offline_start : list Z := qstr "
digraph G {
label=<<br/><font point-size=`22`>Offline Peers<br align=`center`/></font>>
    rankdir=LR
    graph [fontname = `courier new` inputscale=0];
    labelloc=`t`
    fontsize=16
    center=true
    node [fontname = `courier new` fontsize=11 shape=plain];
    edge [fontname = `courier new` len=4.5]
   bgcolor=transparent;
 fontsize=9
 fontname = `courier new`
 
 rank = same {
 ".
Definition offline_end : list Z := str "
 }
}
".

Definition P2VizGenOfflinesDot (offlines : gmap (list Z) PeerCachedInfo) : list Z :=
  offline_start ++
  foldl (fun s k => match offlines !! k with Some i => add_offline s (pci_Desc i) (pci_VirtualIp i) | None => s end)
    [] (sorted_keys offlines) ++ offline_end.

Definition peer_edge (k : list Z) (v : ConnectionType) : list Z :=
  let '(peerA, peerB) := match getPeers k with Ok p => p | _ => ([], []) end in
  match v with
  | FullP2P => [10] ++ quoted peerA ++ str " -> " ++ quoted peerB ++ str "[dir=both,style=bold, color=green]"
  | PartialP2P_AtoB => [10] ++ quoted peerA ++ str " -> " ++ quoted peerB ++ str "[color=orange,style=bold]"
  | PartialP2P_BtoA => [10] ++ quoted peerB ++ str " -> " ++ quoted peerA ++ str "[color=orange,style=bold]"
  | NoP2P => []
  end.

Definition peerEdges (connections : gmap (list Z) ConnectionType) : list Z :=
  (sorted_keys connections ≫= fun k => match connections !! k with Some v => peer_edge k v | None => [] end) ++ [10].

Definition peerNodes (peersIdLabels : gmap (list Z) (list Z)) : list Z :=
  str "# supernode def" ++ [10] ++
  qstr "`sn` [shape=rectangle,style=`rounded,bold` color=`#FFB0B0` label=`SUPER\nNODE` pos=`60,0!`]

 # nodedefs" ++
  (sorted_keys peersIdLabels ≫= fun k => [10] ++ str " " ++ quoted k ++ qstr " [color=grey label=`💻" ++
    default [] (peersIdLabels !! k) ++ str "\n" ++ k ++ qstr "`]") ++
  [10] ++ str "}" ++ [10].

Definition GenerateP2PGraphviz (cs : CommunityP2PVizDatas) : list Z :=
  genHeader (viz_CommunityName cs) ++ [10] ++ snPeerEdges (PeersDescToVIP cs) ++ [10] ++ peerEdges (P2PStates cs) ++
  [10] ++ peerNodes (PeersDescToVIP cs) ++ [10].

(** The methods of the registry behind the pages. *)
Definition GenPeersDot (reg : PeerRegistry) : list Z :=
  match Reachables reg with
  | None => []
  | Some r => match NewCommunityP2PVizDatas (reg_CommunityName reg) r with
              | Ok cp2p => GenerateP2PGraphviz cp2p
              | _ => []
              end
  end.

Definition GenOfflinesDot (reg : PeerRegistry) : list Z :=
  match UnReachables reg with Some u => P2VizGenOfflinesDot u | None => [] end.
End Viz.

(** ** Correctness *)

(** A description that the keys can carry. *)
Fixpoint no_arrow (s : list Z) : bool :=
  match s with
  | b :: ((c :: _) as s') => negb ((b =? 45) && (c =? 62)) && no_arrow s'
  | _ => true
  end.
Definition plain (s : list Z) : Prop := no_arrow s = true /\ 44 ∉ s.

Lemma split_arrow_step b c s cur : split_arrow (b :: c :: s) cur =
  if (b =? 45) && (c =? 62) then cur :: split_arrow s [] else split_arrow (c :: s) (cur ++ [b]).
Proof. done. Qed.

Lemma split_arrow_key a b : forall cur, no_arrow a = true ->
  split_arrow (a ++ [45; 62] ++ b) cur = (cur ++ a) :: split_arrow b [].
Proof.
  induction a as [|x a IH]; intros cur Ha; [by rewrite app_nil_r|].
  destruct a as [|y a].
  - change (([x] ++ [45; 62] ++ b)) with (x :: 45 :: 62 :: b). rewrite split_arrow_step.
    by rewrite andb_false_r.
  - cbn [no_arrow] in Ha. apply andb_true_iff in Ha as [Hx Ha].
    change ((x :: y :: a) ++ [45; 62] ++ b) with (x :: y :: (a ++ [45; 62] ++ b)). rewrite split_arrow_step.
    apply negb_true_iff in Hx. rewrite Hx. etransitivity; [exact (IH (cur ++ [x]) Ha)|].
    by rewrite <-app_assoc.
Qed.

Lemma ToPeerPairKey_key a b : no_arrow a = true -> no_arrow b = true ->
  ToPeerPairKey (newPeerDirectedPairKey a b) = Ok (newPeerPairKey a b).
Proof.
  intros Ha Hb. unfold ToPeerPairKey, GetDirectedPeers, newPeerDirectedPairKey. rewrite split_arrow_key by done.
  assert (split_arrow b [] = [b]) as ->; [|done].
  assert (forall cur, split_arrow b cur = [cur ++ b]) as H; [|by rewrite H].
  clear Ha a. induction b as [|x b IH]; intros cur; [by rewrite app_nil_r|]. destruct b as [|y b]; [done|].
  cbn [no_arrow] in Hb. apply andb_true_iff in Hb as [Hx Hb]. apply negb_true_iff in Hx.
  rewrite split_arrow_step, Hx, IH by done. by rewrite <-app_assoc.
Qed.

(** The pair is the same in both directions. *)
Lemma newPeerPairKey_sym a b : newPeerPairKey a b = newPeerPairKey b a.
Proof.
  unfold newPeerPairKey. destruct (str_ltb a b) eqn:E1, (str_ltb b a) eqn:E2; [|done|done|].
  - pose proof (str_ltb_trans _ _ _ E1 E2) as H. by rewrite str_ltb_irrefl in H.
  - by rewrite (str_ltb_total a b).
Qed.

(** The two peers of a pair are read back in order. *)
Lemma getPeers_key a b : 44 ∉ a -> 44 ∉ b ->
  getPeers (newPeerPairKey a b) = Ok (if str_ltb a b then (a, b) else (b, a)).
Proof.
  intros Ha Hb. unfold getPeers, newPeerPairKey.
  destruct (str_ltb a b); cbn [app]; by rewrite split_byte_app, split_byte_none.
Qed.

(** *** Maps filled in a loop *)
Section Fill.
Context {B V : Type} (key : B -> list Z) (val : B -> V).
Definition fill (l : list B) (m : gmap (list Z) V) : gmap (list Z) V := foldl (fun m x => <[key x := val x]> m) m l.

Lemma fill_dom l : forall m k, is_Some (fill l m !! k) <-> (exists x, x ∈ l /\ k = key x) \/ is_Some (m !! k).
Proof.
  induction l as [|x l IH]; intros m k.
  - cbn. split; [by right|]. intros [(x & Hx & _)|H]; [by apply not_elem_of_nil in Hx|done].
  - change (fill (x :: l) m) with (fill l (<[key x := val x]> m)). rewrite IH, lookup_insert_is_Some. split.
    + intros [(y & Hy & ->)|[<-|[_ H]]]; [left; exists y; split; [by right|done]|left; exists x; split; [by left|done]|by right].
    + intros [(y & Hy & ->)|H].
      * apply elem_of_cons in Hy as [->|Hy]; [right; by left|left; by exists y].
      * destruct (decide (key x = k)) as [E|E]; [right; by left|right; right; done].
Qed.

Lemma fill_val l (P : V -> Prop) : (forall x, x ∈ l -> P (val x)) ->
  forall m, map_Forall (fun _ => P) m -> map_Forall (fun _ => P) (fill l m).
Proof.
  induction l as [|x l IH]; intros Hl m Hm; [done|]. apply (IH (fun y Hy => Hl y (list_elem_of_further _ _ _ Hy))).
  apply map_Forall_insert_2; [|done]. apply Hl. by left.
Qed.
End Fill.

(** Edge [a] reports edge [b] as a peer. *)
Definition reports (peerInfos : gmap (list Z) PeerP2PInfos) (a b : list Z) : Prop :=
  exists k i t, peerInfos !! k = Some i /\ from_Desc i = a /\ t ∈ ppi_To i /\ pi_Desc t = b.

Section VizProps.
Context {MR : MapRange (list Z)} `{UT : UnicodeTitle}.
Implicit Types (peerInfos : gmap (list Z) PeerP2PInfos).

Definition reported (infos : list PeerP2PInfos) : list (list Z * list Z) :=
  infos ≫= fun i => (fun t => (from_Desc i, pi_Desc t)) <$> ppi_To i.

Definition conns_of (infos : list PeerP2PInfos) : gmap (list Z) ConnectionInfo :=
  foldl (fun m i => add_connections (from_Desc i) (ppi_To i) m) ∅ infos.

Lemma conns_fill infos : conns_of infos =
  fill (fun p => newPeerDirectedPairKey p.1 p.2) (fun p => mkConnInfo P2PUnknown p.1 p.2) (reported infos) ∅.
Proof.
  unfold conns_of. generalize (∅ : gmap (list Z) ConnectionInfo). induction infos as [|i infos IH]; intros m; [done|].
  cbn [foldl]. rewrite IH. unfold reported. rewrite bind_cons. unfold fill. rewrite foldl_app. f_equal.
  unfold add_connections. generalize m. induction (ppi_To i) as [|t l IHl]; intros m'; [done|]. cbn. by rewrite IHl.
Qed.

Lemma reported_spec peerInfos a b : (a, b) ∈ reported (map_range peerInfos).*2 <-> reports peerInfos a b.
Proof.
  unfold reported, reports. rewrite list_elem_of_bind. split.
  - intros (i & Hp & Hi). apply list_elem_of_fmap in Hp as (t & [= -> ->] & Ht).
    apply elem_of_range_values in Hi as [k Hi]. by exists k, i, t.
  - intros (k & i & t & Hi & <- & Ht & <-). exists i. split; [apply list_elem_of_fmap; by exists t|].
    apply elem_of_range_values. by exists k.
Qed.

Lemma conns_dom peerInfos k : is_Some (conns_of (map_range peerInfos).*2 !! k) <->
  exists a b, reports peerInfos a b /\ k = newPeerDirectedPairKey a b.
Proof.
  rewrite conns_fill, fill_dom. split.
  - intros [([a b] & Hin & ->)|[? H]]; [|done]. exists a, b. by rewrite <-reported_spec.
  - intros (a & b & Hr & ->). left. exists (a, b). by rewrite reported_spec.
Qed.

Lemma conns_unknown infos : map_Forall (fun _ i => ci_Status i = P2PUnknown) (conns_of infos).
Proof. rewrite conns_fill. by apply fill_val. Qed.

Lemma getConnectionType_unknown a b conns : map_Forall (fun _ i => ci_Status i = P2PUnknown) conns ->
  getConnectionType a b conns = NoP2P.
Proof.
  intros H. unfold getConnectionType.
  assert (forall k, match conns !! k with Some i => bool_decide (ci_Status i = P2PAvailable) | None => false end = false) as E.
  { intros k. destruct (conns !! k) as [i|] eqn:Ek; [|done]. by rewrite (H _ _ Ek). }
  by rewrite !E.
Qed.

Lemma add_pairs_ok (keys : list (list Z)) (pair : list Z -> list Z) :
  (forall k, k ∈ keys -> ToPeerPairKey k = Ok (pair k)) ->
  forall m, add_pairs keys m = Ok (fill pair (fun _ => true) keys m).
Proof.
  induction keys as [|k keys IH]; intros Hk m; [done|]. cbn. rewrite (Hk k) by by left. cbn.
  apply IH. intros k' H. apply Hk. by right.
Qed.

Lemma add_states_ok conns (keys : list (list Z)) : map_Forall (fun _ i => ci_Status i = P2PUnknown) conns ->
  (forall k, k ∈ keys -> exists p, getPeers k = Ok p) ->
  forall m, add_states conns keys m = Ok (fill id (fun _ => NoP2P) keys m).
Proof.
  intros Hc. induction keys as [|k keys IH]; intros Hk m; [done|]. cbn. destruct (Hk k) as [[a b] E]; [by left|].
  rewrite E. cbn. rewrite getConnectionType_unknown by done. apply IH. intros k' H. apply Hk. by right.
Qed.

(** Whatever the states say, none of them is a direct connection. *)
Lemma add_states_none conns keys : map_Forall (fun _ i => ci_Status i = P2PUnknown) conns -> forall m m',
  map_Forall (fun _ v => v = NoP2P) m -> add_states conns keys m = Ok m' -> map_Forall (fun _ v => v = NoP2P) m'.
Proof.
  intros Hc. induction keys as [|k keys IH]; intros m m' Hm; cbn; [by intros [= <-]|].
  destruct (getPeers k) as [[a b]| |]; [|done|done]. cbn. rewrite getConnectionType_unknown by done.
  apply IH. by apply map_Forall_insert_2.
Qed.

Lemma peerEdges_none (m : gmap (list Z) ConnectionType) : map_Forall (fun _ v => v = NoP2P) m -> peerEdges m = [10].
Proof.
  intros Hm. unfold peerEdges. induction (sorted_keys m) as [|k l IH]; [done|]. rewrite bind_cons, <-app_assoc, IH.
  destruct (m !! k) as [v|] eqn:E; [|done]. rewrite (Hm _ _ E). unfold peer_edge. by destruct (match getPeers k with Ok _ => _ | _ => _ end).
Qed.

(** The pairs of the connections. *)
Definition pair_of (k : list Z) : list Z := match ToPeerPairKey k with Ok p => p | _ => [] end.

Lemma pairs_dom peerInfos : (forall a b, reports peerInfos a b -> plain a /\ plain b) ->
  let keys := (map_range (conns_of (map_range peerInfos).*2)).*1 in
  (forall k, k ∈ keys -> ToPeerPairKey k = Ok (pair_of k)) /\
  forall k, is_Some (fill pair_of (fun _ => true) keys ∅ !! k) <-> exists a b, reports peerInfos a b /\ k = newPeerPairKey a b.
Proof.
  intros Hp keys.
  assert (forall a b, reports peerInfos a b -> ToPeerPairKey (newPeerDirectedPairKey a b) = Ok (newPeerPairKey a b)) as Ht.
  { intros a b Hr. destruct (Hp _ _ Hr) as [[Ha _] [Hb _]]. by apply ToPeerPairKey_key. }
  unfold keys, pair_of. split.
  - intros k Hk. apply elem_of_range_keys, conns_dom in Hk as (a & b & Hr & ->). by rewrite Ht.
  - intros k. rewrite fill_dom. split.
    + intros [(x & Hx & ->)|[? H]]; [|done]. apply elem_of_range_keys, conns_dom in Hx as (a & b & Hr & ->).
      exists a, b. by rewrite Ht.
    + intros (a & b & Hr & ->). left. exists (newPeerDirectedPairKey a b). rewrite Ht by done. split; [|done].
      apply elem_of_range_keys, conns_dom. by exists a, b.
Qed.
End VizProps.

(** *** A community for evaluation *)
Module VizSample.
#[export] Instance range : MapRange (list Z) := default_range (list Z).
#[export] Instance title : UnicodeTitle := fun s => s.
Definition peer (d : string) : PeerInfo := mkPeerInfo (str "10.0.0.1") [] [] [] (str d).
Definition infos : gmap (list Z) PeerP2PInfos :=
  {[ str "m1" := mkPeerP2PInfos (Some (peer "alice")) [peer "bob"]; str "m2" := mkPeerP2PInfos (Some (peer "bob")) [peer "alice"] ]}.
End VizSample.
Import VizSample.

(** The graph has a state for every pair of edges of which one reports the
    other, once and whatever the direction and the order of the maps, and a
    node for every edge that reports; the data is never refused.  (The
    descriptions must be free of the separators of the keys.) *)
Theorem viz_pairs {MR : MapRange (list Z)} community peerInfos :
  (forall a b, reports peerInfos a b -> plain a /\ plain b) ->
  exists d, NewCommunityP2PVizDatas community peerInfos = Ok d /\
    (forall k, is_Some (P2PStates d !! k) <-> exists a b, reports peerInfos a b /\ k = newPeerPairKey a b) /\
    (forall desc, is_Some (PeersDescToVIP d !! desc) <-> exists k i, peerInfos !! k = Some i /\ desc = from_Desc i).
Proof.
  intros Hp. destruct (pairs_dom peerInfos Hp) as [Hpair Hdom]. cbv zeta in Hdom.
  unfold NewCommunityP2PVizDatas. fold (conns_of (map_range peerInfos).*2).
  rewrite (add_pairs_ok _ pair_of Hpair). cbn [mbind outcome_bind].
  rewrite add_states_ok; [|apply conns_unknown|].
  - cbn [mbind outcome_bind]. eexists. split; [done|]. cbn [P2PStates PeersDescToVIP]. split.
    + intros k. rewrite fill_dom, <-Hdom. split.
      * intros [(x & Hx & ->)|[? H]]; [by apply elem_of_range_keys|done].
      * intros Hk. left. exists k. split; [by apply elem_of_range_keys|done].
    + intros desc. change (foldl _ ∅ (map_range peerInfos).*2) with (fill from_Desc from_VirtualIp (map_range peerInfos).*2 ∅).
      rewrite fill_dom. split.
      * intros [(i & Hi & ->)|[? H]]; [|done]. apply elem_of_range_values in Hi as [k Hi]. by exists k, i.
      * intros (k & i & Hi & ->). left. exists i. split; [|done]. apply elem_of_range_values. by exists k.
  - intros k Hin. apply elem_of_range_keys, Hdom in Hin as (a & b & Hr & ->).
    destruct (Hp _ _ Hr) as [[_ Ha] [_ Hb]]. rewrite getPeers_key by done. by eexists.
Qed.

Lemma viz_pairs_witness : exists d, NewCommunityP2PVizDatas (str "c") infos = Ok d /\
  is_Some (P2PStates d !! newPeerPairKey (str "bob") (str "alice")).
Proof.
  assert (forall a b, reports infos a b -> (a = str "alice" /\ b = str "bob") \/ (a = str "bob" /\ b = str "alice")) as Hr.
  { intros a b (k & i & t & Hi & <- & Ht & <-). unfold infos in Hi.
    apply lookup_insert_Some in Hi as [[_ <-]|[_ Hi]].
    - apply list_elem_of_singleton in Ht as ->. by left.
    - apply lookup_singleton_Some in Hi as [_ <-]. apply list_elem_of_singleton in Ht as ->. by right. }
  assert (plain (str "alice") /\ plain (str "bob")) as [Pa Pb].
  { split; (split; [vm_compute; reflexivity|]); apply (bool_decide_unpack _); vm_compute; exact I. }
  destruct (viz_pairs (str "c") infos) as (d & Ed & Hd & _).
  - intros a b H. destruct (Hr a b H) as [[-> ->]|[-> ->]]; split; assumption.
  - exists d. split; [exact Ed|]. apply Hd. exists (str "alice"), (str "bob"). split; [|vm_compute; reflexivity].
    exists (str "m1"), (mkPeerP2PInfos (Some (peer "alice")) [peer "bob"]), (peer "bob").
    split; [vm_compute; reflexivity|]. split; [reflexivity|]. split; [left|reflexivity].
Defined.

(** The graph never shows a direct connection: the states are taken from
    connections that are all of unknown capacity, whatever the edges report,
    so the part of the text for the green and orange arrows of the legend is
    always empty. *)
Theorem graph_never_direct {MR : MapRange (list Z)} community peerInfos :
  match NewCommunityP2PVizDatas community peerInfos with
  | Ok d => map_Forall (fun _ v => v = NoP2P) (P2PStates d) /\ peerEdges (P2PStates d) = [10]
  | Err _ => True
  | Panic => False
  end.
Proof.
  unfold NewCommunityP2PVizDatas. fold (conns_of (map_range peerInfos).*2).
  assert (forall keys m, add_pairs keys m <> Panic) as Hp.
  { induction keys as [|k keys IH]; intros m; [done|]. cbn. unfold ToPeerPairKey, GetDirectedPeers.
    destruct (split_arrow k []) as [|? [|? ?]]; [done|done|]. apply IH. }
  assert (forall conns keys m, add_states conns keys m <> Panic) as Hs.
  { intros conns. induction keys as [|k keys IH]; intros m; [done|]. cbn. unfold getPeers.
    destruct (split_byte 44 k) as [|? [|? ?]]; [done|done|]. apply IH. }
  destruct (add_pairs _ _) as [pairs| |] eqn:Ep; [|done|by apply Hp in Ep]. cbn [mbind outcome_bind].
  destruct (add_states _ _ _) as [states| |] eqn:Es; [|done|by apply Hs in Es]. cbn [mbind outcome_bind P2PStates].
  assert (map_Forall (fun _ v => v = NoP2P) states) as Hn.
  { eapply add_states_none; [|apply map_Forall_empty|exact Es]. apply conns_unknown. }
  split; [done|]. by apply peerEdges_none.
Qed.
