(* ===== verification/EdgeApi.v ===== *)
(** * The HTTP interface of an edge: [pkg/edge/api.go]

    A page asks the supernode for data, polls a flag of the client until the
    handler of the answer has cleared it, and renders what the client then has.
    The router (echo), the JSON encoder and graphviz are third party: a page is
    the data it hands to them.  The polls are interleaved with the loops of the
    edge and with the other pages: what they do during each pause is an input. *)
From S2P Require Import Prelude GoBytes GoNet Netstruct Protocol Frame Machine Transform P2P Crypto SNState SNSample Hosts Edge EdgeProps EdgeSession P2Viz.
From stdpp Require Import gmap list strings fin_maps.
From Stdlib Require Import ZArith Lia.
Open Scope Z_scope.

Definition millisecond : Z := 10 ^ 6.
Definition pollInterval : Z := 300 * millisecond.
Definition updateTimeout : Z := 3000 * millisecond.

(** What happens beside a page: a loop of the edge, or another page's request,
    does something; the timeout of another page clears the flag both poll. *)
Inductive api_input := EdgeDoes (i : edge_input) | OtherTimeout.

(** One turn of a polling loop: what happens while it sleeps, what happens
    before it looks at the flag again, and by how much the sleep was longer. *)
Record Nap := mkNap { nap_inputs : list api_input; nap_after : list api_input; nap_extra : Z }.

(** What a page hands to the renderer. *)
Inductive Body :=
  | BodyDatas (reachables : option (gmap (list Z) PeerP2PInfos)) (unreachables : option (gmap (list Z) PeerCachedInfo))
  | BodyLeases (l : option LeasesInfos)
  | BodyText (s : list Z)
  | BodyDot (graph : list Z)
  | BodyHTML
  | BodyAsset.

(** A page answers, fails, or still polls when the turns are used up. *)
Inductive PageResult := Page (b : Body) | PageError (e : goerr) | PagePanic | Polling.

Section Api.
Context `{RSA : RSALib, NET : Net, TAPD : TapDev, RND : RandSource, CDC : EdgeCodec, US : UDPServices}
  `{CL : CryptoLib} {MR : MapRange (list Z)} `{UT : UnicodeTitle}.

Definition clear_waiting (e : EdgeClient) : EdgeClient := upd_peers (set_waiting false (ec_Peers e)) e.

Definition api_do (i : api_input) (e : EdgeClient) : EdgeClient :=
  match i with EdgeDoes i => (edge_do i e).2 | OtherTimeout => clear_waiting e end.
Definition api_after (l : list api_input) (e : EdgeClient) : EdgeClient := foldl (fun e i => api_do i e) e l.

Definition sleep (n : Nap) (e : EdgeClient) : EdgeClient :=
  let e' := api_after (nap_inputs n) e in
  set_ec_clock (Z.max (ec_clock e') (ec_clock e + pollInterval + Z.max 0 (nap_extra n))) e'.

Definition waiting_datas (e : EdgeClient) : bool := IsWaitingCommunityDatas (ec_Peers e).
Definition waiting_leases (e : EdgeClient) : bool :=
  match EAPI e with Some a => IsWaitingForLeasesInfos a | None => false end.

(** [for { if flag { time.Sleep(...) } else { break } }] *)
Fixpoint poll (waiting : EdgeClient -> bool) (naps : list Nap) (e : EdgeClient) : option EdgeClient :=
  if waiting e then
    match naps with
    | [] => None
    | n :: naps => poll waiting naps (api_after (nap_after n) (sleep n e))
    end
  else Some e.

Fixpoint update_loop (start timeout : Z) (naps : list Nap) (e : EdgeClient) : option EdgeClient :=
  if waiting_datas e then
    match naps with
    | [] => None
    | n :: naps =>
        let e := sleep n e in
        let e := if timeout <=? ec_clock e - start then clear_waiting e else e in
        update_loop start timeout naps (api_after (nap_after n) e)
    end
  else Some e.

Definition WaitForCommunityDatasUpdate (timeout : Z) (naps : list Nap) (e : EdgeClient) : option EdgeClient :=
  update_loop (ec_clock e) timeout naps e.

(** The edge after the turns of a loop that has not ended. *)
Definition turns (naps : list Nap) (e : EdgeClient) : EdgeClient := foldl (fun e n => api_after (nap_after n) (sleep n e)) e naps.

(** A request, a wait, and what is rendered then. *)
Definition ask_and_wait (ask : M EdgeClient unit) (wait : EdgeClient -> option EdgeClient)
    (render : EdgeClient -> PageResult) (e : EdgeClient) : PageResult * EdgeClient :=
  match ask e with
  | (Ok _, e) => match wait e with Some e => (render e, e) | None => (Polling, e) end
  | (Err err, e) => (PageError err, e)
  | (Panic, e) => (PagePanic, e)
  end.

Definition GetPeersJSON (naps : list Nap) : EdgeClient -> PageResult * EdgeClient :=
  ask_and_wait sendP2PFullStateRequest (poll waiting_datas naps)
    (fun e => Page (BodyDatas (Reachables (ec_Peers e)) (UnReachables (ec_Peers e)))).

Definition GetLeasesInfosJSON (naps : list Nap) : EdgeClient -> PageResult * EdgeClient :=
  ask_and_wait sendLeasesInfosRequest (poll waiting_leases naps)
    (fun e => match EAPI e with Some a => Page (BodyLeases (LastLeasesInfos a)) | None => PagePanic end).

Definition GetOfflinesDot (naps : list Nap) : EdgeClient -> PageResult * EdgeClient :=
  ask_and_wait (mret tt) (WaitForCommunityDatasUpdate updateTimeout naps) (fun e => Page (BodyText (GenOfflinesDot (ec_Peers e)))).

Definition GetPeersDot (naps : list Nap) : EdgeClient -> PageResult * EdgeClient :=
  ask_and_wait sendP2PFullStateRequest (WaitForCommunityDatasUpdate updateTimeout naps)
    (fun e => Page (BodyText (GenPeersDot (ec_Peers e)))).

(** [GenerateP2PGraphImage] hands the text of the graph to graphviz. *)
Definition GetPeersSVG (naps : list Nap) : EdgeClient -> PageResult * EdgeClient :=
  ask_and_wait sendP2PFullStateRequest (WaitForCommunityDatasUpdate updateTimeout naps)
    (fun e => match NewCommunityP2PVizDatas (ec_Community e) (default ∅ (Reachables (ec_Peers e))) with
              | Ok cp2p => Page (BodyDot (GenerateP2PGraphviz cp2p))
              | Err err => PageError err
              | Panic => PagePanic
              end).

Definition GetPeersHTML (e : EdgeClient) : PageResult * EdgeClient := (Page BodyHTML, e).
Definition GetHostsFile (h : Hosts.Hosts) (e : EdgeClient) : PageResult * EdgeClient := (Page (BodyText (Hosts_String h)), e).

(** The routes of [NewEdgeApi]. *)
Definition NewEdgeApi_routes (h : Hosts.Hosts) : list (list Z * (list Nap -> EdgeClient -> PageResult * EdgeClient)) :=
  [(str "/static/*", fun _ e => (Page BodyAsset, e)); (str "/peers", fun _ => GetPeersHTML); (str "/peers.json", GetPeersJSON); (str "/peers.dot", GetPeersDot);
   (str "/peers.svg", GetPeersSVG); (str "/leases.json", GetLeasesInfosJSON); (str "/offlines.dot", GetOfflinesDot);
   (str "/syshosts/file", fun _ => GetHostsFile h)].

(** The API that [Run] creates. *)
Definition NewEdgeApi : EdgeClientApi := mkApi false None.
End Api.

(** ** Who changes the flag and the clock *)
Section Flag.
Context `{RSA : RSALib, NET : Net, TAPD : TapDev, RND : RandSource, CDC : EdgeCodec, US : UDPServices}
  {MR : MapRange (list Z)}.

(** The flag is [b], where [b] says something, and the clock [t]. *)
Definition reg_flag (b : option bool) (r : PeerRegistry) : Prop :=
  match b with Some b => IsWaitingCommunityDatas r = b | None => True end.
Definition flag (b : option bool) (t : Z) (e : EdgeClient) : Prop := reg_flag b (ec_Peers e) /\ ec_clock e = t.

Lemma flag_on_peers {A} (m : M PeerRegistry A) b t : preserves (reg_flag b) m -> preserves (flag b t) (on_peers m).
Proof.
  intros Hm e [H1 H2]. unfold on_peers. specialize (Hm (ec_Peers e) H1). destruct (m (ec_Peers e)) as [o r]. by split.
Qed.

Lemma reg_update b l f : preserves (reg_flag b) (update_peer l f).
Proof. unfold update_peer. by apply preserves_modify. Qed.
Lemma reg_pending b x : preserves (reg_flag b) (modify (set_pending x)).
Proof. by apply preserves_modify. Qed.

Local Ltac reg := repeat first [preserve_step | apply reg_update | apply reg_pending | by apply preserves_modify].

Lemma reg_GetPeer b m : preserves (reg_flag b) (GetPeer m).
Proof. unfold GetPeer. reg. Qed.
Lemma reg_GetPeerBySocket b a : preserves (reg_flag b) (GetPeerBySocket a).
Proof. unfold GetPeerBySocket. reg. Qed.
Lemma reg_RemovePeer b m : preserves (reg_flag b) (RemovePeer m).
Proof. unfold RemovePeer, SetPendingChanges. reg. Qed.
Lemma reg_AddPeer b now i o : preserves (reg_flag b) (AddPeer now i o).
Proof. unfold AddPeer, SetPendingChanges. reg. Qed.
Lemma reg_GetP2PendingPeers b now : preserves (reg_flag b) (GetP2PendingPeers now).
Proof. unfold GetP2PendingPeers. reg. Qed.
Lemma reg_HandlePeerInfoList b now l x y : preserves (reg_flag b) (HandlePeerInfoList now l x y).
Proof. unfold HandlePeerInfoList, add_all. reg; try apply reg_AddPeer; apply reg_RemovePeer. Qed.

Lemma flag_modify b t f : (forall e, ec_Peers (f e) = ec_Peers e) -> (forall e, ec_clock (f e) = ec_clock e) ->
  preserves (flag b t) (modify f).
Proof. intros H1 H2. apply preserves_modify. intros e [Hf Hc]. split; [by rewrite H1|by rewrite H2]. Qed.

Local Ltac flag_step :=
  match goal with
  | |- preserves _ (on_peers _) => apply flag_on_peers; first
      [ apply reg_update | apply reg_pending | apply reg_GetPeer | apply reg_GetPeerBySocket | apply reg_RemovePeer
      | apply reg_GetP2PendingPeers | apply reg_HandlePeerInfoList | apply preserves_gets ]
  | |- preserves _ (modify _) => apply flag_modify; reflexivity
  | |- _ => preserve_step
  end.
Local Ltac walk := repeat flag_step.

Lemma flag_wrapping {A} msg (m : M EdgeClient A) b t : preserves (flag b t) m -> preserves (flag b t) (wrapping msg m).
Proof. intros H. unfold wrapping. by preserve. Qed.
Lemma flag_send ev b t : preserves (flag b t) (edge_send ev).
Proof. unfold edge_send. walk. Qed.
Lemma flag_transmit f p a b t : preserves (flag b t) (transmit f p a).
Proof. unfold transmit. walk; apply flag_send. Qed.
Lemma flag_target d st b t : preserves (flag b t) (UDPAddrWithStrategy d st).
Proof. unfold UDPAddrWithStrategy. walk. Qed.
Lemma flag_header pt d b t : preserves (flag b t) (EdgeHeader pt d).
Proof. unfold EdgeHeader. walk. Qed.
Lemma flag_SendStruct {T} `{PacketTyped T, Proto T} (x : T) d st b t : preserves (flag b t) (SendStruct x d st).
Proof. unfold SendStruct. preserve; [apply flag_target|apply flag_header|apply flag_transmit]. Qed.
Lemma flag_WritePacket pt d p st b t : preserves (flag b t) (WritePacket pt d p st).
Proof. unfold WritePacket. walk; first [apply flag_target|apply flag_header|apply flag_transmit]. Qed.
Lemma flag_SendVFuze d p st b t : preserves (flag b t) (SendVFuze d p st).
Proof. unfold SendVFuze. walk; first [apply flag_target|apply flag_transmit]. Qed.
Lemma flag_round stop m b t : preserves (flag b t) m -> preserves (flag b t) (round stop m).
Proof. intros H. unfold round. by preserve. Qed.

Local Ltac go := repeat first [ flag_step | apply flag_wrapping | apply flag_SendStruct | apply flag_WritePacket | apply flag_SendVFuze
  | apply flag_round | apply flag_target | apply flag_send | apply flag_header | apply flag_transmit ].

Lemma flag_tap f b t : preserves (flag b t) (tap_Write f).
Proof. unfold tap_Write. go. Qed.
Lemma flag_data p b t : preserves (flag b t) (handleDataPayload p).
Proof. unfold handleDataPayload, ProcessIncomingPayload. go; apply flag_tap. Qed.
Lemma flag_vfuze buf n a b t : preserves (flag b t) (handleVFuzePacket buf n a).
Proof. unfold handleVFuzePacket, IsKnownPeerSocket. go; apply flag_data. Qed.
Lemma flag_status l st id b t : preserves (flag b t) (update_status l st id).
Proof. unfold update_status, SetPendingChanges. go. Qed.
Lemma flag_duplex l v b t : preserves (flag b t) (set_duplex l v).
Proof. unfold set_duplex, SetPendingChanges. go. Qed.
Lemma flag_PingPeer l n st b t : preserves (flag b t) (PingPeer l n st).
Proof. unfold PingPeer. go; apply flag_status. Qed.
Lemma flag_updates b t : preserves (flag b t) UpdatePeersP2PStates.
Proof. unfold UpdatePeersP2PStates, GetP2PUnknownPeers, GetP2PAvailablePeers. go; apply flag_PingPeer. Qed.
Lemma flag_machine b t : preserves (flag b t) EncryptedMachineID.
Proof. unfold EncryptedMachineID. go. Qed.
Lemma flag_register b t : preserves (flag b t) RequestRegister.
Proof. unfold RequestRegister. go; apply flag_machine. Qed.
Lemma flag_key b t : preserves (flag b t) RequestSNPublicKey.
Proof. unfold RequestSNPublicKey. go. Qed.

(** The handlers that clear the flag: of a full state and of a response. *)
Definition clears (t : Z) : bool := (t =? TypeP2PFullState) || (t =? TypeRegisterResponse).

Lemma flag_handlers ty fn r b t : messageHandlers !! ty = Some fn -> b <> Some true \/ clears ty = false -> preserves (flag b t) (fn r).
Proof.
  intros Hf Hc. apply elem_of_list_to_map_2 in Hf.
  repeat (apply elem_of_cons in Hf as [[= -> ->]|Hf]); [..|by apply elem_of_nil in Hf].
  - apply flag_data.
  - unfold handlePeerInfoMessage. go.
  - unfold handlePingMessage. go; apply flag_status || apply flag_duplex.
  - destruct Hc as [Hc|[=]]. unfold handleP2PFullStateMessage, UpdateP2PCommunityDatas. go.
    apply flag_on_peers. preserve. by apply preserves_modify; destruct b as [[]|].
  - unfold handleLeasesInfosMessage. go.
  - unfold handleRetryRegisterRequest. go; apply flag_key.
  - destruct Hc as [Hc|[=]]. unfold handleRegisterResponseMessage, sendPeerListRequest. go. apply flag_on_peers.
    by apply preserves_modify; destruct b as [[]|].
  - unfold handleSNPublicSecretMessage. go; apply flag_register.
  - unfold handleHeartbeatMessage. go.
  - unfold handleUnregisterRequestMessage. go.
  - unfold handleAckMessage. go.
  - unfold handlePeerListRequestMessage. go.
  - unfold handleP2PStateInfoMessage, mark_available. go; apply flag_status.
  - unfold handleOnlineCheckMessage. go.
  - unfold handleICECandidateMessage. go.
  - unfold handleTURNCredentialsMessage. go.
Qed.

Lemma flag_frame frame b t : preserves (flag b t) (handleTAP_frame frame).
Proof. unfold handleTAP_frame, ProcessOutgoingPayload. go. Qed.

Lemma flag_message p a b t : b <> Some true \/ clears (nth 2 p 0) = false ->
  preserves (flag b t) (match NewRawMessage p a with
    | Panic => mpanic
    | Err _ => mret true
    | Ok rawMsg => round errFileClosed (Handle messageHandlers rawMsg)
    end).
Proof.
  intros Hq. destruct (NewRawMessage p a) as [r| |] eqn:Er; [|go..]. apply flag_round. unfold Handle.
  destruct (messageHandlers !! hPacketType (Header r)) as [fn|] eqn:Ef; [|go].
  apply (flag_handlers _ _ _ _ _ Ef). by rewrite (NewRawMessage_type _ _ _ Er).
Qed.

Lemma flag_receive packet a b t : b <> Some true \/ clears (nth 2 packet 0) = false -> preserves (flag b t) (receive packet a).
Proof.
  intros Hq e H. unfold receive. rewrite gets_bind. unfold id. cbv zeta.
  unfold modify. unfold mbind at 1 2, M_bind at 1 2. cbv beta iota. set (e1 := add_recv _). rewrite gets_bind.
  change (recvBuf e1) with (copy_at (recvBuf e) 0 (length (recvBuf e)) packet).
  assert (flag b t e1) as H1 by done. unfold mlift. unfold mbind at 1, M_bind at 1.
  destruct (index _ 0) as [v| |]; [|done..]. destruct (v =? VersionVFuze).
  { by apply flag_round; [apply flag_vfuze|]. }
  case_bool_decide as Hl; [done|]. rewrite copy_slice. unfold mbind at 1, M_bind at 1.
  apply flag_message; [|done]. destruct Hq as [Hq|Hq]; [by left|right]. unfold ProtoVHeaderSize in Hl. rewrite <-Hq.
  rewrite nth_firstn. destruct (Nat.ltb_spec 2 (length (recvBuf e))); [done|lia].
Qed.

(** Whether an input can change the flag from [b], or the clock. *)
Definition changes (b : option bool) (i : edge_input) : bool :=
  match i with
  | InUDP p _ | InWSS p => bool_decide (b = Some true) && clears (nth 2 p 0)
  | AskFullState => bool_decide (b = Some false)
  | Elapse _ => true
  | _ => false
  end.

Lemma flag_do i b t : changes b i = false -> preserves (flag b t) (edge_do i).
Proof.
  intros Hq. assert (forall p, bool_decide (b = Some true) && clears (nth 2 p 0) = false -> b <> Some true \/ clears (nth 2 p 0) = false) as Hp.
  { intros p Hb. apply andb_false_iff in Hb as [Hb|Hb]; [left; by apply bool_decide_eq_false_1 in Hb|by right]. }
  destruct i; cbn in Hq; unfold edge_do; try discriminate Hq.
  - go. apply flag_frame.
  - go. by apply flag_receive, Hp.
  - go. by apply flag_receive, Hp.
  - unfold handleWSS_lost. go.
  - unfold sendHeartbeat. go; apply flag_machine.
  - unfold sendP2PInfos, HasPendingChanges, ClearPendingChanges. go.
  - apply flag_updates.
  - unfold sendPeerListRequest. go.
  - apply bool_decide_eq_false_1 in Hq. destruct b as [[]|]; [|done|].
    + intros e [H1 H2]. unfold sendP2PFullStateRequest, mignore, mtry. munfold. unfold id. cbn in H1. rewrite H1. by split.
    + unfold sendP2PFullStateRequest. go. apply flag_on_peers. by apply preserves_modify.
  - unfold sendLeasesInfosRequest. go.
Qed.

(** Whether what happens beside a page can. *)
Definition disturbs (b : option bool) (i : api_input) : bool :=
  match i with EdgeDoes i => changes b i | OtherTimeout => bool_decide (b = Some true) end.

Lemma flag_after l b t e : Forall (fun i => disturbs b i = false) l -> flag b t e -> flag b t (api_after l e).
Proof.
  intros Hl. revert e. induction Hl as [|i l Hi _ IH]; intros e He; [done|]. apply (IH (api_do i e)).
  destruct i as [i|]; [by apply flag_do|]. apply bool_decide_eq_false_1 in Hi. destruct He as [_ Hc]. split; [|done].
  by destruct b as [[]|].
Qed.
End Flag.

(** ** The waits *)
Section Waits.
Context `{RSA : RSALib, NET : Net, TAPD : TapDev, RND : RandSource, CDC : EdgeCodec, US : UDPServices}
  {MR : MapRange (list Z)} `{UT : UnicodeTitle}.

(** Nobody asks for the data again, or sets the clock, between the timeout of a
    wait and its next look at the flag. *)
Definition undisturbed (n : Nap) : Prop := Forall (fun i => disturbs (Some false) i = false) (nap_after n).

(** Nothing clears the flag: no packet that would, no timeout of another page. *)
Definition unanswered (n : Nap) : Prop := Forall (fun i => disturbs (Some true) i = false) (nap_inputs n ++ nap_after n).

Lemma disturbs_clock b i : disturbs b i = false -> disturbs None i = false.
Proof. by destruct i as [[]|]. Qed.

Lemma update_loop_ends start timeout naps e : Forall undisturbed naps ->
  waiting_datas e = false \/ (start + timeout <= ec_clock e + Z.of_nat (length naps) * pollInterval /\ naps <> []) ->
  exists e', update_loop start timeout naps e = Some e' /\ waiting_datas e' = false.
Proof.
  intros Hn. revert e. induction Hn as [|n naps Hn _ IH]; intros e He; cbn [update_loop].
  - destruct (waiting_datas e) eqn:Ew; [|by exists e]. by destruct He as [|[_ ?]].
  - destruct (waiting_datas e) eqn:Ew; [|by exists e]. destruct He as [|[He _]]; [done|]. apply IH.
    set (e1 := sleep n e).
    assert (ec_clock e + pollInterval <= ec_clock e1) as Hs by (unfold e1, sleep; cbn; lia).
    destruct (Z.leb_spec timeout (ec_clock e1 - start)) as [Ht|Ht].
    + left. set (e2 := clear_waiting e1). assert (flag (Some false) (ec_clock e2) e2) as F by done.
      exact (proj1 (flag_after _ _ _ _ Hn F)).
    + right. assert (flag None (ec_clock e1) e1) as F by done.
      assert (Forall (fun i => disturbs None i = false) (nap_after n)) as Hc by (eapply Forall_impl; [exact Hn|]; apply disturbs_clock).
      destruct (flag_after _ _ _ _ Hc F) as [_ ->].
      cbn [length] in He. rewrite Nat2Z.inj_succ in He. assert (0 < pollInterval) by (unfold pollInterval, millisecond; lia).
      split; [lia|]. intros ->. cbn in He. lia.
Qed.

Lemma poll_unanswered naps e : Forall unanswered naps -> waiting_datas e = true ->
  poll waiting_datas naps e = None /\ waiting_datas (turns naps e) = true.
Proof.
  intros Hn. revert e. induction Hn as [|n naps Hn _ IH]; intros e He; cbn [poll]; rewrite He; [done|]. apply (IH (api_after (nap_after n) (sleep n e))).
  apply Forall_app in Hn as [H1 H2]. assert (flag (Some true) (ec_clock e) e) as F by done.
  pose proof (proj1 (flag_after _ _ _ _ H1 F)) as G1. set (e1 := sleep n e).
  assert (flag (Some true) (ec_clock e1) e1) as F1 by (split; [exact G1|done]). exact (proj1 (flag_after _ _ _ _ H2 F1)).
Qed.

(** A request while the flag is set is not sent. *)
Lemma not_asked_again e : waiting_datas e = true -> sendP2PFullStateRequest e = (Ok tt, e).
Proof. unfold waiting_datas. intros H. unfold sendP2PFullStateRequest. rewrite gets_bind. unfold id. by rewrite H. Qed.

Lemma asked_waits e r e1 : waiting_datas e = false -> sendP2PFullStateRequest e = (r, e1) -> waiting_datas e1 = true.
Proof.
  intros Hw. unfold sendP2PFullStateRequest. rewrite gets_bind. unfold id. unfold waiting_datas in Hw. rewrite Hw.
  rewrite (bind_ok _ _ _ tt (upd_peers (set_waiting true (ec_Peers e)) e)) by done. intros E.
  assert (flag (Some true) (ec_clock e) (upd_peers (set_waiting true (ec_Peers e)) e)) as F by done.
  pose proof (flag_wrapping " failed to send updated P2PInfos" _ (Some true) (ec_clock e)
    (flag_SendStruct (mkP2PFullState (ec_Community e) true ∅ ∅) None UDPEnforceSupernode _ _) _ F) as G.
  rewrite E in G. exact (proj1 G).
Qed.

Lemma nil_map_default {A} (m : gmap (list Z) A) : default ∅ (nil_map m) = m.
Proof. unfold nil_map. case_bool_decide as H; [|done]. cbn. by apply map_to_list_empty_iff in H. Qed.

(** A full state that arrives: it is kept when it has entries. *)
Lemma full_state_received h p from e m : arrives h p TypeP2PFullState e ->
  ToMessage P2PFullState (mkRaw h p from (PackProtoVDatagram h p)) = Ok m -> pfs_IsRequest m = false ->
  let e' := (handleUDP_packet (PackProtoVDatagram h p) from e).2 in
  if bool_decide (map_to_list (pfs_Reachables m) = []) then waiting_datas e' = waiting_datas e
  else ec_Peers e' = set_datas (Some (pfs_Reachables m)) (Some (pfs_Unreachables m)) false (ec_Peers e).
Proof.
  intros Ha Hm Hr. cbv zeta. destruct Ha as (Hw & Hv & Ht & Hl). unfold handleUDP_packet.
  rewrite (receive_message h p (Some from) e handleP2PFullStateMessage Hw Hv Hl) by (rewrite Ht; reflexivity).
  change (default _ (Some from)) with from. unfold round, mtry, handleP2PFullStateMessage, mlift. rewrite Hm. munfold. rewrite Hr.
  unfold on_peers, UpdateP2PCommunityDatas. rewrite nil_map_default. unfold nil_map. case_bool_decide as Hb; cbn; done.
Qed.

(** A turn in which one packet arrives. *)
Definition packet_nap (packet : list Z) (from : netAddr) (extra : Z) : Nap := mkNap [EdgeDoes (InUDP packet from)] [] extra.

Lemma packet_turn packet from extra naps e :
  ec_Peers (turns [packet_nap packet from extra] e) = ec_Peers (handleUDP_packet packet from e).2 /\
  turns (packet_nap packet from extra :: naps) e = turns naps (turns [packet_nap packet from extra] e).
Proof.
  split; [|done]. unfold turns, packet_nap, sleep. cbn. unfold edge_do, mignore, mtry. munfold. by destruct (handleUDP_packet _ _ e) as [[] ?].
Qed.
End Waits.

(** C37. The pages with a timeout answer: [/peers.dot], [/peers.svg] and
    [/offlines.dot] have stopped polling after ten pauses of at least 300
    milliseconds, whatever the loops of the edge do meanwhile, unless somebody
    asks for the data in the moment between the timeout and the next look. *)
Theorem pages_answer `{RSA : RSALib, NET : Net, TAPD : TapDev, RND : RandSource, CDC : EdgeCodec, US : UDPServices}
    {MR : MapRange (list Z)} `{UT : UnicodeTitle} naps e page :
  (10 <= length naps)%nat -> Forall undisturbed naps -> page ∈ [GetPeersDot; GetPeersSVG; GetOfflinesDot] ->
  (page naps e).1 <> Polling.
Proof.
  intros Hl Hn Hp.
  assert (forall e, exists e', WaitForCommunityDatasUpdate updateTimeout naps e = Some e') as Hw.
  { intros e1. destruct (update_loop_ends (ec_clock e1) updateTimeout naps e1 Hn) as (e' & E & _); [|by exists e'].
    right. split; [|by destruct naps; [cbn in Hl; lia|]]. unfold updateTimeout, pollInterval, millisecond. lia. }
  assert (forall ask render, (forall e, render e <> Polling) ->
    (ask_and_wait ask (WaitForCommunityDatasUpdate updateTimeout naps) render e).1 <> Polling) as Ha.
  { intros ask render Hr. unfold ask_and_wait. destruct (ask e) as [[u|err|] e1]; [|done..].
    destruct (Hw e1) as (e' & ->). apply Hr. }
  repeat (apply elem_of_cons in Hp as [-> | Hp]; [apply Ha; intros e'; by repeat case_match|]). by apply elem_of_nil in Hp.
Qed.


(** ** Witnesses *)
Import EdgeSample Sample.

Definition short_nap : Nap := mkNap [EdgeDoes TickHeartbeat; EdgeDoes AskFullState] [EdgeDoes TickP2PInfos] 0.

Lemma pages_answer_witness : (GetPeersDot (NET := open_net) (UT := fun s => s) (replicate 10 short_nap) (edge false [1; 2])).1 <> Polling.
Proof.
  apply (pages_answer (NET := open_net) (UT := fun s => s) (replicate 10 short_nap) (edge false [1; 2])).
  - reflexivity.
  - repeat constructor.
  - left.
Defined.

(** A codec in which every full state is the same, of one reachable peer, and
    takes one byte. *)
Definition one_peer : P2PFullState := mkP2PFullState (str "ab") false {[ str "p" := mkPeerP2PInfos None [] ]} ∅.
Definition one_byte : EdgeCodec := {|
  ecodec_sps := countable_proto _; ecodec_rreq := countable_proto _; ecodec_rresp := countable_proto _;
  ecodec_unreg := countable_proto _; ecodec_hb := countable_proto _; ecodec_plr := countable_proto _;
  ecodec_ptp := countable_proto _; ecodec_pil := countable_proto _; ecodec_ppi := countable_proto _;
  ecodec_pfs := {| Marshal := fun _ => Some [1]; Unmarshal := fun _ => Some one_peer |};
  ecodec_li := countable_proto _; ecodec_oc := countable_proto _;
  ecodec_ack := countable_proto _; ecodec_ice := countable_proto _; ecodec_turn := countable_proto _ |}.
Definition full_header : ProtoVHeader := sn_header TypeP2PFullState (str "ab") start.

