(* ===== verification/Log.v ===== *)
(** * Logging: [pkg/log], [pkg/appdir]

    The package's global logger and the retrieval functions over the database
    it writes to.  SQLite and zerolog are third-party packages: the database
    engine is the parameter [SQLite], the text of an event [ZeroLog]; the
    [SQLiteLaws] say what the statements of [log.go] mean to SQL. *)
From S2P Require Import Prelude GoBytes.
From stdpp Require Import gmap list strings sorting.
From Stdlib Require Import ZArith Lia.
Open Scope Z_scope.

(** ** Times

    An instant with the offset of its zone in seconds, and its text in the
    layout [time.RFC3339Nano]. *)
Record Time := mkTime { unixNano : Z; zone : Z }.

(** Year, month and day of a day counted from 1970-01-01. *)
Definition civil (days : Z) : Z * Z * Z :=
  let z := days + 719468 in
  let era := z / 146097 in
  let doe := z mod 146097 in
  let yoe := (doe - doe / 1460 + doe / 36524 - doe / 146096) / 365 in
  let doy := doe - (365 * yoe + yoe / 4 - yoe / 100) in
  let mp := (5 * doy + 2) / 153 in
  let m := if mp <? 10 then mp + 3 else mp - 9 in
  (yoe + era * 400 + (if m <=? 2 then 1 else 0), m, doy - (153 * mp + 2) / 5 + 1).

(** A number with at least [w] digits, for [w] at most 9. *)
Definition pad_digits (w : nat) (z : Z) : list Z :=
  let s := itoa z in replicate (w - length s) 48 ++ s.

Definition trim_zeros (s : list Z) : list Z := reverse (drop_while (Z.eqb 48) (reverse s)).

Definition RFC3339Nano (t : Time) : list Z :=
  let sec := unixNano t / 10 ^ 9 + zone t in
  let '(y, m, d) := civil (sec / 86400) in
  let s := sec mod 86400 in
  let frac := trim_zeros (pad_digits 9 (unixNano t mod 10 ^ 9)) in
  let off := Z.abs (zone t) / 60 in
  pad_digits 4 y ++ [45] ++ pad_digits 2 m ++ [45] ++ pad_digits 2 d ++ [84] ++
  pad_digits 2 (s / 3600) ++ [58] ++ pad_digits 2 (s / 60 mod 60) ++ [58] ++ pad_digits 2 (s mod 60) ++
  (match frac with [] => [] | _ => 46 :: frac end) ++
  (if zone t =? 0 then [90]
   else (if zone t <? 0 then 45 else 43) :: pad_digits 2 (off / 60) ++ [58] ++ pad_digits 2 (off mod 60)).

(** ** [path.Join] *)
Definition path_push (rooted : bool) (st : list (list Z)) (c : list Z) : list (list Z) :=
  if bool_decide (c = []) || bool_decide (c = [46]) then st
  else if bool_decide (c = [46; 46]) then
    match st with
    | [] => if rooted then [] else [c]
    | top :: st' => if bool_decide (top = [46; 46]) then c :: st else st'
    end
  else c :: st.

Definition path_Clean (p : list Z) : list Z :=
  let rooted := bool_decide (head p = Some 47) in
  let body := strings_Join (reverse (foldl (path_push rooted) [] (split_byte 47 p))) [47] in
  let out := if rooted then 47 :: body else body in
  if bool_decide (out = []) then [46] else out.

Definition path_Join (elems : list (list Z)) : list Z :=
  match List.filter (fun e => negb (bool_decide (e = []))) elems with
  | [] => []
  | es => path_Clean (strings_Join es [47])
  end.

(** ** [appdir.go] *)

(** The home directory of the user; the program ends when there is none. *)
Definition AppDir (home : list Z) (appDirCache : list Z) : list Z * list Z :=
  let dir := if bool_decide (appDirCache = []) then path_Join [home; str ".n2n-go"] else appDirCache in (dir, dir).

(** ** The database *)
Record LogRow := mkRow { row_id : Z; row_inserted_at : list Z; row_data : list Z }.

(** The content of a database file and the statements run on it: opening (of a
    file that may not exist), creating the table, preparing and running the
    insertion, the two queries, closing the statement and the database. *)
Class SQLite := {
  sql_DB : Type;
  sql_ping : option sql_DB -> option goerr;
  sql_create : option sql_DB -> sql_DB + goerr;
  sql_prepare : sql_DB -> option goerr;
  sql_insert : sql_DB -> list Z -> sql_DB + goerr;
  sql_last : sql_DB -> Z -> list LogRow + goerr;
  sql_between : sql_DB -> list Z -> list Z -> Z -> list LogRow + goerr;
  sql_close : sql_DB -> option goerr }.

(** The text of an event at a level ([None] for [Log()]). *)
Class ZeroLog := zerolog_event : option (list Z) -> Time -> list Z -> list Z.

(** [json_extract(log_data, '$.time')]. *)
Class JsonTime := json_time : list Z -> option (list Z).

(** [time.Parse] with a layout. *)
Class TimeParse := time_Parse : list Z -> list Z -> option Time.

(** [ORDER BY json_extract(log_data, '$.time') ASC, id ASC] *)
Definition row_key `{JsonTime} (r : LogRow) : list Z := default [] (json_time (row_data r)).
Definition row_le `{JsonTime} (a b : LogRow) : Prop :=
  str_ltb (row_key a) (row_key b) = true \/ (row_key a = row_key b /\ row_id a <= row_id b).
#[export] Instance row_le_dec `{JsonTime} a b : Decision (row_le a b).
Proof. unfold row_le. solve_decision. Defined.

(** Whether the [WHERE] clause of [GetLogsBetween] takes a row. *)
Definition in_window `{JsonTime} (s e : list Z) (r : LogRow) : bool :=
  match json_time (row_data r) with
  | Some t => negb (str_ltb t s) && negb (str_ltb e t)
  | None => false
  end.

(** [sql_rows] are the rows of the table in the order of their ids. *)
Class SQLiteLaws `{SQLite, JsonTime} := {
  sql_rows : sql_DB -> list LogRow;
  sql_create_new : forall d, sql_create None = inl d -> sql_rows d = [];
  sql_create_old : forall d d', sql_create (Some d) = inl d' -> sql_rows d' = sql_rows d;
  sql_insert_rows : forall d data d', sql_insert d data = inl d' ->
    exists id at_, sql_rows d' = sql_rows d ++ [mkRow id at_ data] /\ Forall (fun r => row_id r < id) (sql_rows d);
  sql_last_rows : forall d n, 0 < n ->
    match sql_last d n with inl l => l = take (Z.to_nat n) (reverse (sql_rows d)) | inr _ => True end;
  sql_between_rows : forall d s e n, 0 < n ->
    match sql_between d s e n with
    | inl l => l = take (Z.to_nat n) (merge_sort row_le (List.filter (in_window s e) (sql_rows d)))
    | inr _ => True
    end }.

(** ** [log.go] *)
Inductive Logger := LogNop | LogStd | LogDB (path : list Z).

Record LogEntry := mkLogEntry { le_ID : Z; InsertedAt : option Time; LogData : list Z }.

Definition ErrNotInitialized : goerr := ErrNew "log: logger not initialized, call log.Init() first".
Definition errNoDbFile : goerr := ErrNew "logger need an explicity dbFile".
Definition errInitialized : goerr := ErrNew "logger already initialized".
Definition DefaultLimit : Z := 100.

Section Log.
Context `{SQL : SQLite, ZL : ZeroLog, TP : TimeParse}.

(** The files by path, the globals of the package and of [appdir], and the
    clock.  A writer and a handle are the path of their database. *)
Record LogState := mkLog {
  files : gmap (list Z) sql_DB;
  dbWriterInstance : option (list Z);
  dbHandle : option (list Z);
  pkgLogger : Logger;
  writeSinceStart : Z;
  appDirCache : list Z;
  log_clock : Time }.

Definition set_files (f : gmap (list Z) sql_DB) (s : LogState) : LogState :=
  mkLog f (dbWriterInstance s) (dbHandle s) (pkgLogger s) (writeSinceStart s) (appDirCache s) (log_clock s).
Definition set_logger (w h : option (list Z)) (l : Logger) (s : LogState) : LogState :=
  mkLog (files s) w h l (writeSinceStart s) (appDirCache s) (log_clock s).
Definition count_write (s : LogState) : LogState :=
  mkLog (files s) (dbWriterInstance s) (dbHandle s) (pkgLogger s) (i64 (writeSinceStart s + 1)) (appDirCache s) (log_clock s).
Definition set_appdir (d : list Z) (s : LogState) : LogState :=
  mkLog (files s) (dbWriterInstance s) (dbHandle s) (pkgLogger s) (writeSinceStart s) d (log_clock s).
Definition set_log_clock (t : Time) (s : LogState) : LogState :=
  mkLog (files s) (dbWriterInstance s) (dbHandle s) (pkgLogger s) (writeSinceStart s) (appDirCache s) t.

(** The two index statements only warn. *)
Definition newSQLiteWriter (path : list Z) : M LogState (list Z) :=
  s ← gets id;
  match sql_ping (files s !! path) with
  | Some e => merr (ErrWrap "failed to ping sqlite db" e)
  | None =>
      match sql_create (files s !! path) with
      | inr e => merr (ErrWrap "failed to create logs table" e)
      | inl d =>
          modify (set_files (<[path := d]> (files s)));;
          match sql_prepare d with
          | Some e => merr (ErrWrap "failed to prepare insert statement" e)
          | None => mret path
          end
      end
  end.

Definition sqlite_Write (path p : list Z) : M LogState Z :=
  s ← gets id;
  d ← mderef (files s !! path);
  match sql_insert d p with
  | inr e => merr e
  | inl d' =>
      modify (set_files (<[path := d']> (files s)));;
      modify count_write;;
      mret (len p)
  end.

(** An event on a logger: its text goes to the writer, whose error is only
    reported. *)
Definition log_event (l : Logger) (level : option (list Z)) (msg : list Z) : M LogState unit :=
  s ← gets id;
  match l with
  | LogDB path => mignore (sqlite_Write path (zerolog_event level (log_clock s) msg))
  | LogNop | LogStd => mret tt
  end.

Definition SetStd : M LogState unit :=
  modify (fun s => set_logger (dbWriterInstance s) (dbHandle s) LogStd s).

Definition Init (home dbFile : list Z) : M LogState unit :=
  if bool_decide (dbFile = []) then merr errNoDbFile else
  s ← gets id;
  let '(dir, cache) := AppDir home (appDirCache s) in
  modify (set_appdir cache);;
  let dbPath := path_Join [dir; dbFile] in
  if bool_decide (is_Some (dbWriterInstance s)) then merr errInitialized else
  let path := if bool_decide (dbPath = []) then str "./logs.db" else dbPath in
  w ← mtry (newSQLiteWriter path);
  match w with
  | inr e => merr (ErrWrap "failed to create SQLite writer" e)
  | inl writer => modify (set_logger (Some writer) (Some writer) (LogDB writer))
  end.

Definition Close : M LogState unit :=
  s ← gets id;
  match dbWriterInstance s with
  | None => mret tt
  | Some writer =>
      modify (set_logger None None LogNop);;
      log_event (LogDB writer) None (str "Closing SQLite logger");;
      s ← gets id;
      d ← mderef (files s !! writer);
      match sql_close d with
      | Some e => merr (ErrWrap "error closing SQLite logger" e)
      | None => mret tt
      end
  end.

(** [Print] and [Printf] with the formatted message. *)
Definition Printf (msg : list Z) : M LogState unit :=
  s ← gets id; log_event (pkgLogger s) (Some (str "info")) msg.

Definition getHandle : M LogState (list Z) :=
  s ← gets id;
  match dbHandle s with None => merr ErrNotInitialized | Some h => mret h end.

(** The first layout that parses; the zero time when none does. *)
Definition parseDBTimestamp (ts : list Z) : option Time :=
  foldr (fun layout r => match time_Parse layout ts with Some t => Some t | None => r end) None
    [str "2006-01-02 15:04:05"; str "2006-01-02T15:04:05Z07:00"; str "2006-01-02T15:04:05.999999999Z07:00";
     str "2006-01-02 15:04:05.999"; str "2006-01-02 15:04:05"].

Definition log_entry (r : LogRow) : LogEntry :=
  mkLogEntry (row_id r) (parseDBTimestamp (row_inserted_at r)) (row_data r).

(** The rows come newest first and the slice is reversed in place. *)
Definition GetLastNLogs (n : Z) : M LogState (list LogEntry) :=
  handle ← getHandle;
  if n <=? 0 then mret [] else
  s ← gets id;
  d ← mderef (files s !! handle);
  match sql_last d n with
  | inr e => merr (ErrWrap "failed to query last logs" e)
  | inl rows => mret (reverse (log_entry <$> rows))
  end.

Definition GetLogsSinceStart : M LogState (list LogEntry) :=
  s ← gets id; GetLastNLogs (writeSinceStart s).

Definition GetLogsBetween (start end_ : Time) (limit : Z) : M LogState (list LogEntry) :=
  handle ← getHandle;
  let effectiveLimit := if limit <=? 0 then DefaultLimit else limit in
  s ← gets id;
  d ← mderef (files s !! handle);
  match sql_between d (RFC3339Nano start) (RFC3339Nano end_) effectiveLimit with
  | inr e => merr (ErrWrap "failed to query logs between" e)
  | inl rows => mret (log_entry <$> rows)
  end.

Definition GetLogsSince (start : Time) (limit : Z) : M LogState (list LogEntry) :=
  s ← gets id; GetLogsBetween start (log_clock s) limit.
End Log.

(** ** Correctness *)
Section LogProps.
Context `{SQL : SQLite, JT : JsonTime, ZL : ZeroLog, TP : TimeParse, LAWS : !SQLiteLaws}.

(** The logger writes to [path], where [new] rows were added to the [old]. *)
Record log_inv (path : list Z) (old new : list LogRow) (s : LogState) : Prop := {
  inv_logger : pkgLogger s = LogDB path;
  inv_handle : dbHandle s = Some path;
  inv_rows : exists d, files s !! path = Some d /\ sql_rows d = old ++ new;
  inv_count : writeSinceStart s = Z.of_nat (length new) }.

(** A line logged at some time. *)
Definition log_at (x : Time * list Z) : M LogState unit :=
  modify (set_log_clock x.1);; Printf x.2.

Definition info_line (x : Time * list Z) : list Z := zerolog_event (Some (str "info")) x.1 x.2.

Lemma Init_inv home file s s0 : dbWriterInstance s = None -> writeSinceStart s = 0 ->
  Init home file s = (Ok tt, s0) -> exists path old, log_inv path old [] s0.
Proof.
  intros Hw Hc. unfold Init. case_bool_decide; [done|]. rewrite gets_bind. unfold id.
  destruct (AppDir home (appDirCache s)) as [dir cache]. munfold. cbn [dbWriterInstance set_appdir].
  rewrite Hw, bool_decide_eq_false_2 by (intros [? ?]; done). cbv zeta.
  set (path := if bool_decide _ then _ else _). clearbody path.
  unfold newSQLiteWriter. munfold. unfold id. cbn [files set_appdir].
  destruct (sql_ping _); [done|]. destruct (sql_create _) as [d|]; [|done].
  destruct (sql_prepare d); [done|]. intros [= <-]. exists path, (sql_rows d). split; cbn; try done.
  exists d. rewrite lookup_insert_eq, app_nil_r. done.
Qed.

(** A line is added to the table and counted, or, when the insertion fails,
    neither. *)
Lemma log_at_inv path old new s x : log_inv path old new s -> Z.of_nat (length new) < 2 ^ 63 - 1 ->
  (log_at x s).1 = Ok tt /\
  ((exists d e, sql_insert d (info_line x) = inr e) /\ log_inv path old new (log_at x s).2 \/
   exists r, row_data r = info_line x /\ log_inv path old (new ++ [r]) (log_at x s).2).
Proof.
  intros [Hl Hh (d & Hd & Hr) Hc] Hb. unfold log_at, Printf, log_event. munfold. unfold id. cbn [pkgLogger set_log_clock].
  rewrite Hl. unfold sqlite_Write. munfold. unfold id. cbn [files set_log_clock log_clock]. rewrite Hd.
  change (zerolog_event (Some (str "info")) x.1 x.2) with (info_line x).
  destruct (sql_insert d (info_line x)) as [d'|e] eqn:Ei; (split; [done|]).
  - right. destruct (sql_insert_rows _ _ _ Ei) as (i & at_ & Hr' & _). exists (mkRow i at_ (info_line x)).
    split; [done|]. split; cbn; [done|done| |].
    + exists d'. by rewrite lookup_insert_eq, Hr', Hr, app_assoc.
    + rewrite Hc, length_app, i64_small by lia. cbn. lia.
  - left. split; [by exists d, e|]. split; cbn; [done|done|by exists d|done].
Qed.

Lemma log_run_inv path old xs : forall new s, log_inv path old new s ->
  Z.of_nat (length new + length xs) < 2 ^ 63 ->
  exists new', log_inv path old (new ++ new') (mfor xs log_at s).2 /\ row_data <$> new' `sublist_of` info_line <$> xs /\
    ((forall d l, exists d', sql_insert d l = inl d') -> row_data <$> new' = info_line <$> xs).
Proof.
  induction xs as [|x xs IH]; intros new s Hi Hb; [exists []; by rewrite app_nil_r|].
  cbn [length] in Hb. destruct (log_at_inv path old new s x Hi) as [E H]; [lia|].
  cbn [mfor]. unfold mbind, M_bind. destruct (log_at x s) as [r s1]. cbn in E, H. subst r.
  destruct H as [((d & e & Hf) & Hi')|(r & Hr & Hi')].
  - destruct (IH new s1 Hi') as (new' & Hn & Hs & Ha); [lia|]. exists new'. split; [done|].
    rewrite fmap_cons. split; [by apply sublist_cons|]. intros Hok. destruct (Hok d (info_line x)) as [? ?]. congruence.
  - destruct (IH (new ++ [r]) s1 Hi') as (new' & Hn & Hs & Ha); [rewrite length_app; cbn; lia|].
    exists (r :: new'). rewrite (assoc_L (++) new [r] new') in Hn || rewrite <-app_assoc in Hn.
    split; [exact Hn|]. rewrite !fmap_cons, Hr. split; [by apply sublist_skip|]. intros Hok. by rewrite Ha.
Qed.

Lemma GetLogsSinceStart_rows path old new s : log_inv path old new s ->
  match GetLogsSinceStart s with
  | (Ok entries, s') => s' = s /\ entries = log_entry <$> new
  | (Err _, s') => s' = s
  | (Panic, _) => False
  end.
Proof.
  intros [_ Hh (d & Hd & Hr) Hc]. unfold GetLogsSinceStart, GetLastNLogs, getHandle. munfold. unfold id. rewrite Hh, Hc.
  destruct (Z.leb_spec (Z.of_nat (length new)) 0) as [Hn|Hn].
  { destruct new; [done|cbn in Hn; lia]. }
  rewrite Hd. pose proof (sql_last_rows d (Z.of_nat (length new)) Hn) as H. destruct (sql_last _ _) as [rows|]; [|done].
  split; [done|]. rewrite H, Hr, Nat2Z.id, reverse_app, take_app_le, <-(length_reverse new), firstn_all by (rewrite length_reverse; lia).
  by rewrite <-fmap_reverse, reverse_involutive.
Qed.
End LogProps.

(** *** A database for evaluation: a list of rows, every event its own time *)
Module LogSample.
#[export] Instance sql : SQLite := {
  sql_DB := list LogRow;
  sql_ping _ := None;
  sql_create o := inl (default [] o);
  sql_prepare _ := None;
  sql_insert d data := inl (d ++ [mkRow (foldr (fun r m => Z.max (row_id r) m) 0 d + 1) [] data]);
  sql_last d n := inl (take (Z.to_nat n) (reverse d));
  sql_between d s e n := inl (take (Z.to_nat n)
    (merge_sort (@row_le (fun data => Some data)) (List.filter (@in_window (fun data => Some data) s e) d)));
  sql_close _ := None }.

(** An event is its time, so that a row's data is its time field. *)
#[export] Instance zerolog : ZeroLog := fun _ t msg => RFC3339Nano t ++ msg.
#[export] Instance json : JsonTime := fun data => Some data.
#[export] Instance parse : TimeParse := fun _ _ => None.

Lemma max_id_above (d : list LogRow) : Forall (fun r => row_id r < foldr (fun r m => Z.max (row_id r) m) 0 d + 1) d.
Proof.
  induction d as [|r d IH]; [constructor|]. cbn. constructor; [lia|].
  eapply Forall_impl; [exact IH|]. cbn. lia.
Qed.

#[export, refine] Instance laws : SQLiteLaws := { sql_rows := fun d : @sql_DB sql => d }.
Proof.
  - by intros d [= <-].
  - by intros d d' [= <-].
  - intros d data d' [= <-]. eexists _, _. split; [done|]. apply max_id_above.
  - done.
  - done.
Defined.

Definition start : LogState :=
  mkLog {[ str "/home/u/.n2n-go/edge.db" := [mkRow 7 [] (str "old")] ]} None None LogNop 0 [] (mkTime 0 0).
End LogSample.
Import LogSample.

(** The log of a process is exactly what it wrote: after [Init] in a fresh
    process and any lines logged, over a database that may hold rows of
    earlier runs, [GetLogsSinceStart] returns the lines whose insertion
    succeeded, in order; all of them when none fails.  It fails only when the
    query does. *)
Theorem logs_since_start `{SQL : SQLite, JT : JsonTime, ZL : ZeroLog, TP : TimeParse, LAWS : !SQLiteLaws}
    home file s s0 xs :
  dbWriterInstance s = None -> writeSinceStart s = 0 -> Init home file s = (Ok tt, s0) ->
  Z.of_nat (length xs) < 2 ^ 63 ->
  let s1 := (mfor xs log_at s0).2 in
  match GetLogsSinceStart s1 with
  | (Ok entries, s2) => s2 = s1 /\ LogData <$> entries `sublist_of` info_line <$> xs /\
      ((forall d l, exists d', sql_insert d l = inl d') -> LogData <$> entries = info_line <$> xs)
  | (Err _, s2) => s2 = s1
  | (Panic, _) => False
  end.
Proof.
  intros Hw Hc Hi Hb s1. destruct (Init_inv _ _ _ _ Hw Hc Hi) as (path & old & Hinv).
  destruct (log_run_inv path old xs [] s0 Hinv) as (new & Hn & Hsub & Hall); [done|].
  pose proof (GetLogsSinceStart_rows _ _ _ _ Hn) as H. fold s1 in H.
  destruct (GetLogsSinceStart s1) as [[entries| |] s2]; [|done|done]. destruct H as [-> ->]. split; [done|].
  rewrite <-list_fmap_compose. split; [exact Hsub|exact Hall].
Qed.

Definition succeeds {A S} (r : outcome A * S) : bool := match r with (Ok _, _) => true | _ => false end.

Lemma logs_since_start_witness :
  let xs := [(mkTime 5 0, str "a"); (mkTime 6 0, str "b")] in
  exists entries, (GetLogsSinceStart (mfor xs log_at (Init (str "/home/u") (str "edge.db") start).2).2).1 = Ok entries /\
    LogData <$> entries = info_line <$> xs.
Proof.
  intros xs. set (s0 := (Init (str "/home/u") (str "edge.db") start).2).
  assert (Init (str "/home/u") (str "edge.db") start = (Ok tt, s0)) as Hi.
  { rewrite (surjective_pairing (Init (str "/home/u") (str "edge.db") start)). f_equal. }
  assert (Z.of_nat (length xs) < 2 ^ 63) as Hb by (vm_compute; reflexivity).
  pose proof (logs_since_start (str "/home/u") (str "edge.db") start s0 xs eq_refl eq_refl Hi Hb) as H. cbv zeta in H.
  assert (succeeds (GetLogsSinceStart (mfor xs log_at s0).2) = true) as B by (vm_compute; reflexivity).
  destruct (GetLogsSinceStart (mfor xs log_at s0).2) as [[entries|e|] s2].
  - exists entries. split; [reflexivity|]. apply H. intros d l. eexists. reflexivity.
  - discriminate B.
  - destruct H.
Defined.

(** The text of a second in UTC. *)
Definition utc_second (sec : Z) : list Z :=
  let '(y, m, d) := civil (sec / 86400) in
  let s := sec mod 86400 in
  pad_digits 4 y ++ [45] ++ pad_digits 2 m ++ [45] ++ pad_digits 2 d ++ [84] ++
  pad_digits 2 (s / 3600) ++ [58] ++ pad_digits 2 (s / 60 mod 60) ++ [58] ++ pad_digits 2 (s mod 60).

Lemma RFC3339Nano_utc t : zone t = 0 ->
  RFC3339Nano t = utc_second (unixNano t / 10 ^ 9) ++
    (match trim_zeros (pad_digits 9 (unixNano t mod 10 ^ 9)) with [] => [] | f => 46 :: f end) ++ [90].
Proof.
  intros Hz. unfold RFC3339Nano, utc_second. rewrite Hz, Z.add_0_r. destruct (civil _) as [[y m] d].
  cbv zeta. rewrite <-!app_assoc. by destruct (trim_zeros _).
Qed.

Lemma drop_while_nil {A} (f : A -> bool) l : drop_while f l = [] -> Forall (fun x => f x = true) l.
Proof.
  induction l as [|x l IH]; [constructor|]. cbn. destruct (f x) eqn:E; [|done]. intros H. constructor; auto.
Qed.

Lemma trim_zeros_nil s : trim_zeros s = [] -> Forall (eq 48) s.
Proof.
  unfold trim_zeros. intros H. apply (f_equal reverse) in H. rewrite reverse_involutive in H.
  apply drop_while_nil in H. rewrite Forall_reverse in H. eapply Forall_impl; [exact H|].
  intros x Hx. by apply Z.eqb_eq in Hx.
Qed.

Lemma str_ltb_app p a b : str_ltb (p ++ a) (p ++ b) = str_ltb a b.
Proof. induction p as [|x p IH]; [done|]. cbn. by rewrite Z.eqb_refl. Qed.

Lemma itoa_aux_ne f : forall z acc, 0 < z -> (0 < f)%nat -> z < 10 ^ Z.of_nat f ->
  exists x, x ∈ itoa_aux f z acc /\ x <> 48.
Proof.
  induction f as [|f IH]; intros z acc Hz Hf Hb; [lia|]. cbn [itoa_aux]. destruct (Z.ltb_spec z 10).
  - exists (48 + z). split; [left|lia].
  - rewrite Nat2Z.inj_succ, Z.pow_succ_r in Hb by lia. destruct f as [|f]; [cbn in Hb; lia|].
    apply IH; [apply Z.div_str_pos; lia|lia|apply Z.div_lt_upper_bound; lia].
Qed.

Lemma frac_visible n : 0 < n < 10 ^ 9 -> trim_zeros (pad_digits 9 n) <> [].
Proof.
  intros Hn H. apply trim_zeros_nil in H. unfold pad_digits in H. apply Forall_app in H as [_ H].
  unfold itoa in H. destruct (Z.ltb_spec n 0); [lia|].
  destruct (itoa_aux_ne 20 n []) as (x & Hx & Hne); [lia|lia|cbn; lia|].
  rewrite Forall_forall in H. by apply Hne, eq_sym, H.
Qed.

(** Within a second the whole second is the largest text: a fraction starts
    with a dot, which comes before the letter of the zone. *)
Lemma fraction_before t s : zone s = 0 -> zone t = 0 -> unixNano s mod 10 ^ 9 = 0 ->
  unixNano s < unixNano t < unixNano s + 10 ^ 9 -> str_ltb (RFC3339Nano t) (RFC3339Nano s) = true.
Proof.
  intros Hs Ht H0 Hr. rewrite !RFC3339Nano_utc by done.
  pose proof (Z.div_mod (unixNano s) (10 ^ 9)) as D. rewrite H0 in D.
  assert (unixNano t / 10 ^ 9 = unixNano s / 10 ^ 9) as ->.
  { symmetry. apply (Z.div_unique _ _ _ (unixNano t - unixNano s)); lia. }
  assert (unixNano t mod 10 ^ 9 = unixNano t - unixNano s) as ->.
  { symmetry. apply (Z.mod_unique _ _ (unixNano s / 10 ^ 9)); lia. }
  rewrite str_ltb_app, H0. change (trim_zeros (pad_digits 9 0)) with (@nil Z).
  pose proof (frac_visible (unixNano t - unixNano s)) as Hf.
  destruct (trim_zeros (pad_digits 9 (unixNano t - unixNano s))); [by destruct Hf; [lia|]|]. done.
Qed.

(** Events in the first second of a window are missed: the window is compared
    with the texts of the times, and a text with a fraction of a second comes
    before that of the whole second.  For a window that starts at a whole
    second (as every time given on the command line without fraction does),
    no event later in that second is returned. *)
Theorem between_misses_first_second `{SQL : SQLite, JT : JsonTime, ZL : ZeroLog, TP : TimeParse, LAWS : !SQLiteLaws}
    start end_ t limit s entries s' :
  zone start = 0 -> zone t = 0 -> unixNano start mod 10 ^ 9 = 0 ->
  unixNano start < unixNano t < unixNano start + 10 ^ 9 ->
  GetLogsBetween start end_ limit s = (Ok entries, s') ->
  Forall (fun e => json_time (LogData e) <> Some (RFC3339Nano t)) entries.
Proof.
  intros Hs Ht H0 Hr. unfold GetLogsBetween, getHandle. munfold. unfold id.
  destruct (dbHandle s) as [h|]; [|done]. destruct (files s !! h) as [d|]; [|done].
  set (n := if limit <=? 0 then _ else _).
  assert (0 < n) as Hn by (unfold n, DefaultLimit; destruct (Z.leb_spec limit 0); lia).
  pose proof (sql_between_rows d (RFC3339Nano start) (RFC3339Nano end_) n Hn) as H.
  destruct (sql_between _ _ _ _) as [rows|]; [|done]. intros [= <- _].
  rewrite H, Forall_fmap. apply Forall_take. rewrite merge_sort_Permutation. apply Forall_forall. intros r Hin. change (json_time (row_data r) <> Some (RFC3339Nano t)).
  apply list_elem_of_In, filter_In in Hin as [_ Hin]. unfold in_window in Hin. intros E. rewrite E in Hin.
  cbv beta iota in Hin. rewrite (fraction_before t start) in Hin by done. done.
Qed.

Lemma between_misses_first_second_witness :
  let t0 := mkTime (1700000000 * 10 ^ 9) 0 in let t1 := mkTime (1700000060 * 10 ^ 9) 0 in
  let t := mkTime (1700000000 * 10 ^ 9 + 5 * 10 ^ 8) 0 in
  let s := (log_at (t, []) (Init (str "/home/u") (str "edge.db") start).2).2 in
  (GetLogsSinceStart s).1 = Ok [mkLogEntry 8 None (RFC3339Nano t)] /\
  exists entries, (GetLogsBetween t0 t1 0 s).1 = Ok entries /\
    Forall (fun e => json_time (LogData e) <> Some (RFC3339Nano t)) entries.
Proof.
  intros t0 t1 t s. split; [vm_compute; reflexivity|].
  assert (succeeds (GetLogsBetween t0 t1 0 s) = true) as B by (vm_compute; reflexivity).
  destruct (GetLogsBetween t0 t1 0 s) as [[entries|e|] s'] eqn:E; [|discriminate B..].
  exists entries. split; [reflexivity|].
  refine (between_misses_first_second t0 t1 t 0 s entries s' eq_refl eq_refl eq_refl _ E).
  split; vm_compute; reflexivity.
Defined.
