(* ===== verification/GoTime.v ===== *)
(** * The standard library's times: [time.ParseDuration] and [time.Parse]

    As far as the repository uses them: durations with all their units, and
    timestamps in numeric layouts.  The text of an instant, [RFC3339Nano], is
    in [Log]. *)
From S2P Require Import Prelude GoBytes Log.
From stdpp Require Import gmap list strings.
From Stdlib Require Import ZArith Lia.
Open Scope Z_scope.

Definition is_digit (c : Z) : bool := (48 <=? c) && (c <=? 57).

(** ** [float64], for positive values: a mantissa of 53 bits and an exponent *)
Record float := mkFloat { mant : Z; expo : Z }.

(** The quotient of two positive integers, rounded to the nearest, ties to
    even. *)
Definition round_ratio (n d : Z) : float :=
  let at_ e :=
    let n' := n * 2 ^ Z.max 0 (- e) in let d' := d * 2 ^ Z.max 0 e in
    let q := n' / d' in let r := n' mod d' in
    (q, if (d' <? 2 * r) || ((2 * r =? d') && Z.odd q) then q + 1 else q) in
  let e := Z.log2 n - Z.log2 d - 53 in
  if (at_ e).1 <? 2 ^ 53 then mkFloat (at_ e).2 e else mkFloat (at_ (e + 1)).2 (e + 1).

Definition fnum (f : float) : Z := mant f * 2 ^ Z.max 0 (expo f).
Definition fden (f : float) : Z := 2 ^ Z.max 0 (- expo f).
Definition of_int (z : Z) : float := round_ratio z 1.
Definition fdiv (a b : float) : float := round_ratio (fnum a * fden b) (fden a * fnum b).
Definition fmul (a b : float) : float := round_ratio (fnum a * fnum b) (fden a * fden b).
Definition ftrunc (f : float) : Z := fnum f / fden f.

(** ** [time.ParseDuration] *)

(** The digits at the front, with the overflow test of each. *)
Fixpoint leadingInt (s : list Z) (x : Z) : option (Z * list Z) :=
  match s with
  | c :: s' =>
      if is_digit c then
        if 2 ^ 63 / 10 <? x then None
        else let x' := x * 10 + (c - 48) in if 2 ^ 63 <? x' then None else leadingInt s' x'
      else Some (x, s)
  | [] => Some (x, [])
  end.

(** Digits that would overflow are skipped. *)
Fixpoint leadingFraction (s : list Z) (x scale : Z) (overflow : bool) : Z * Z * list Z :=
  match s with
  | c :: s' =>
      if is_digit c then
        let y := x * 10 + (c - 48) in
        if overflow || ((2 ^ 63 - 1) / 10 <? x) || (2 ^ 63 <? y) then leadingFraction s' x scale true
        else leadingFraction s' y (scale * 10) false
      else (x, scale, s)
  | [] => (x, scale, [])
  end.

Definition unitMap (u : list Z) : option Z :=
  if bool_decide (u = str "ns") then Some 1
  else if bool_decide (u = str "us") || bool_decide (u = [194; 181; 115]) || bool_decide (u = [206; 188; 115]) then Some (10 ^ 3)
  else if bool_decide (u = str "ms") then Some (10 ^ 6)
  else if bool_decide (u = str "s") then Some (10 ^ 9)
  else if bool_decide (u = str "m") then Some (60 * 10 ^ 9)
  else if bool_decide (u = str "h") then Some (3600 * 10 ^ 9)
  else None.

Definition in_unit (c : Z) : bool := negb ((c =? 46) || is_digit c).

Fixpoint take_while {A} (f : A -> bool) (l : list A) : list A :=
  match l with
  | x :: l' => if f x then x :: take_while f l' else []
  | [] => []
  end.

(** One number with its unit: the nanoseconds and the rest. *)
Definition duration_term (s : list Z) : option (Z * list Z) :=
  match s with
  | [] => None
  | c :: _ =>
      if negb ((c =? 46) || is_digit c) then None else
      '(v, s1) ← leadingInt s 0;
      let pre := negb (length s =? length s1)%nat in
      let '(f, scale, s2, post) :=
        match s1 with
        | 46 :: s' => let '(f, scale, s2) := leadingFraction s' 0 1 false in (f, scale, s2, negb (length s' =? length s2)%nat)
        | _ => (0, 1, s1, false)
        end in
      if negb pre && negb post then None else
      let u := take_while in_unit s2 in
      if bool_decide (u = []) then None else
      unit ← unitMap u;
      if 2 ^ 63 / unit <? v then None else
      let v := v * unit in
      let v := if 0 <? f then u64 (v + ftrunc (fmul (of_int f) (fdiv (of_int unit) (of_int scale)))) else v in
      if (0 <? f) && (2 ^ 63 <? v) then None else Some (v, drop (length u) s2)
  end.

(** The terms; each takes at least a byte, so the length is enough fuel. *)
Fixpoint duration_terms (fuel : nat) (s : list Z) (d : Z) : option Z :=
  match s, fuel with
  | [], _ => Some d
  | _, O => None
  | _, S fuel' =>
      '(v, s') ← duration_term s;
      let d' := u64 (d + v) in
      if 2 ^ 63 <? d' then None else duration_terms fuel' s' d'
  end.

Definition ParseDuration (s : list Z) : option Z :=
  let '(neg, s) := match s with 45 :: s' => (true, s') | 43 :: s' => (false, s') | _ => (false, s) end in
  if bool_decide (s = [48]) then Some 0 else
  if bool_decide (s = []) then None else
  d ← duration_terms (length s) s 0;
  if neg then Some (i64 (- d)) else if 2 ^ 63 - 1 <? d then None else Some d.

(** ** [time.Parse] *)

(** The chunks of a layout. *)
Inductive tok := TLit (c : Z) | TYear | TMonth | TDay | THour | TMinute | TSecond | TFrac (n : nat) | TZone.

Definition tok_text (t : tok) : list Z :=
  match t with
  | TLit c => [c] | TYear => str "2006" | TMonth => str "01" | TDay => str "02" | THour => str "15" | TMinute => str "04"
  | TSecond => str "05" | TFrac n => 46 :: replicate n 57 | TZone => str "Z07:00"
  end.
Definition layout_text (l : list tok) : list Z := l ≫= tok_text.

(** [getnum]: two digits, or one where that is allowed. *)
Definition getnum (fixed : bool) (s : list Z) : option (Z * list Z) :=
  match s with
  | a :: s' =>
      if is_digit a then
        match s' with
        | b :: s'' => if is_digit b then Some ((a - 48) * 10 + (b - 48), s'') else if fixed then None else Some (a - 48, s')
        | [] => if fixed then None else Some (a - 48, [])
        end
      else None
  | [] => None
  end.

Definition commaOrPeriod (c : Z) : bool := (c =? 46) || (c =? 44).

Definition dval (s : list Z) : Z := foldl (fun a c => a * 10 + (c - 48)) 0 s.

(** A fraction at the front, when there is one: its nanoseconds, of which at
    most nine digits count. *)
Definition fraction (s : list Z) : option (Z * list Z) :=
  match s with
  | p :: d :: _ =>
      if commaOrPeriod p && is_digit d then
        let ds := take_while is_digit (drop 1 s) in
        let kept := take 9 ds in
        Some (dval kept * 10 ^ (9 - Z.of_nat (length kept)), drop (1 + length ds) s)
      else None
  | _ => None
  end.

Record Fields := mkFields { fyear : Z; fmonth : Z; fday : Z; fhour : Z; fmin : Z; fsec : Z; fnsec : Z; foff : Z }.
Definition no_fields : Fields := mkFields 0 1 1 0 0 0 0 0.

Definition in_range (lo hi : Z) (r : option (Z * list Z)) : option (Z * list Z) :=
  '(n, s) ← r; if (lo <=? n) && (n <? hi) then Some (n, s) else None.

(** An offset: [Z], or sign, hours, colon and minutes. *)
Definition parse_zone (s : list Z) : option (Z * list Z) :=
  match s with
  | 90 :: s' => Some (0, s')
  | sign :: h1 :: h2 :: colon :: m1 :: m2 :: s' =>
      if negb (colon =? 58) then None else
      '(hr, _) ← in_range 0 25 (getnum true [h1; h2]);
      '(mm, _) ← in_range 0 61 (getnum true [m1; m2]);
      if sign =? 43 then Some ((hr * 60 + mm) * 60, s') else if sign =? 45 then Some (- ((hr * 60 + mm) * 60), s') else None
  | _ => None
  end.

Fixpoint parse_toks (l : list tok) (s : list Z) (f : Fields) : option Fields :=
  match l with
  | [] => if bool_decide (s = []) then Some f else None
  | TLit c :: l' =>
      if c =? 32 then
        match s with
        | b :: _ => if b =? 32 then parse_toks l' (drop_while (Z.eqb 32) s) f else None
        | [] => parse_toks l' [] f
        end
      else match s with b :: s' => if b =? c then parse_toks l' s' f else None | [] => None end
  | TYear :: l' =>
      let y := take 4 s in
      if (length y =? 4)%nat && forallb is_digit y then
        parse_toks l' (drop 4 s) (mkFields (dval y) (fmonth f) (fday f) (fhour f) (fmin f) (fsec f) (fnsec f) (foff f))
      else None
  | TMonth :: l' =>
      '(n, s') ← in_range 1 13 (getnum true s);
      parse_toks l' s' (mkFields (fyear f) n (fday f) (fhour f) (fmin f) (fsec f) (fnsec f) (foff f))
  | TDay :: l' =>
      '(n, s') ← getnum true s;
      parse_toks l' s' (mkFields (fyear f) (fmonth f) n (fhour f) (fmin f) (fsec f) (fnsec f) (foff f))
  | THour :: l' =>
      '(n, s') ← in_range 0 24 (getnum false s);
      parse_toks l' s' (mkFields (fyear f) (fmonth f) (fday f) n (fmin f) (fsec f) (fnsec f) (foff f))
  | TMinute :: l' =>
      '(n, s') ← in_range 0 60 (getnum true s);
      parse_toks l' s' (mkFields (fyear f) (fmonth f) (fday f) (fhour f) n (fsec f) (fnsec f) (foff f))
  | TSecond :: l' =>
      '(n, s') ← in_range 0 60 (getnum true s);
      let '(ns, s'') :=
        match l' with
        | TFrac _ :: _ => (fnsec f, s')
        | _ => match fraction s' with Some (ns, s'') => (ns, s'') | None => (fnsec f, s') end
        end in
      parse_toks l' s'' (mkFields (fyear f) (fmonth f) (fday f) (fhour f) (fmin f) n ns (foff f))
  | TFrac _ :: l' =>
      let '(ns, s') := match fraction s with Some (ns, s') => (ns, s') | None => (fnsec f, s) end in
      parse_toks l' s' (mkFields (fyear f) (fmonth f) (fday f) (fhour f) (fmin f) (fsec f) ns (foff f))
  | TZone :: l' =>
      '(z, s') ← parse_zone s;
      parse_toks l' s' (mkFields (fyear f) (fmonth f) (fday f) (fhour f) (fmin f) (fsec f) (fnsec f) z)
  end.

Definition isLeap (y : Z) : bool := (y mod 4 =? 0) && (negb (y mod 100 =? 0) || (y mod 400 =? 0)).
Definition daysIn (m y : Z) : Z :=
  if m =? 2 then (if isLeap y then 29 else 28)
  else if (m =? 4) || (m =? 6) || (m =? 9) || (m =? 11) then 30 else 31.

(** The day of a date, counted from 1970-01-01. *)
Definition date_days (y m d : Z) : Z :=
  let y' := if m <=? 2 then y - 1 else y in
  let mp := if m <=? 2 then m + 9 else m - 3 in
  let yoe := y' mod 400 in
  let doe := yoe * 365 + yoe / 4 - yoe / 100 + ((153 * mp + 2) / 5 + d - 1) in
  y' / 400 * 146097 + doe - 719468.

(** A time without a zone is in UTC. *)
Definition time_Parse_layout (l : list tok) (s : list Z) : option Time :=
  f ← parse_toks l s no_fields;
  if (1 <=? fday f) && (fday f <=? daysIn (fmonth f) (fyear f)) then
    Some (mkTime ((date_days (fyear f) (fmonth f) (fday f) * 86400 + fhour f * 3600 + fmin f * 60 + fsec f - foff f) * 10 ^ 9 + fnsec f) (foff f))
  else None.

Definition L_date : list tok := [TYear; TLit 45; TMonth; TLit 45; TDay].
Definition L_clock : list tok := [THour; TLit 58; TMinute; TLit 58; TSecond].
Definition L_RFC3339Nano : list tok := L_date ++ [TLit 84] ++ L_clock ++ [TFrac 9; TZone].
Definition L_RFC3339 : list tok := L_date ++ [TLit 84] ++ L_clock ++ [TZone].
Definition L_T : list tok := L_date ++ [TLit 84] ++ L_clock.
Definition L_space : list tok := L_date ++ [TLit 32] ++ L_clock.
Definition L_space_milli : list tok := L_date ++ [TLit 32] ++ L_clock ++ [TFrac 3].

(** The layouts the repository names, by their text. *)
#[export] Instance go_time_Parse : TimeParse := fun layout s =>
  l ← List.find (fun l => bool_decide (layout_text l = layout)) [L_RFC3339Nano; L_RFC3339; L_T; L_space; L_space_milli; L_date];
  time_Parse_layout l s.

(** ** Decimal texts *)

(** The [w] last digits of a number. *)
Fixpoint digits (w : nat) (z : Z) : list Z :=
  match w with
  | O => []
  | S w' => digits w' (z / 10) ++ [48 + z mod 10]
  end.

Lemma length_digits w : forall z, length (digits w z) = w.
Proof. induction w as [|w IH]; intros z; [done|]. cbn. rewrite length_app, IH. cbn. lia. Qed.

Lemma digits_zero w : digits w 0 = replicate w 48.
Proof. induction w as [|w IH]; [done|]. cbn [digits]. change (0 / 10) with 0. rewrite IH. change (48 + 0 mod 10) with 48. symmetry. apply replicate_S_end. Qed.

Lemma digits_digits w : forall z, forallb is_digit (digits w z) = true.
Proof.
  induction w as [|w IH]; intros z; [done|]. cbn [digits]. rewrite forallb_app, IH. cbn. unfold is_digit.
  pose proof (Z.mod_pos_bound z 10 ltac:(lia)). lia.
Qed.

Lemma dval_app s c : dval (s ++ [c]) = dval s * 10 + (c - 48).
Proof. unfold dval. by rewrite foldl_app. Qed.

Lemma dval_digits w : forall z, 0 <= z < 10 ^ Z.of_nat w -> dval (digits w z) = z.
Proof.
  induction w as [|w IH]; intros z Hz; [cbn in Hz |- *; lia|]. cbn [digits]. rewrite dval_app, IH.
  - pose proof (Z.div_mod z 10). lia.
  - rewrite Nat2Z.inj_succ, Z.pow_succ_r in Hz by lia. split; [apply Z.div_pos; lia|]. apply Z.div_lt_upper_bound; lia.
Qed.

Lemma itoa_aux_app f : forall z acc, itoa_aux f z acc = itoa_aux f z [] ++ acc.
Proof.
  induction f as [|f IH]; intros z acc; [done|]. cbn. destruct (z <? 10); [done|]. rewrite IH, (IH _ [_]), <-app_assoc. done.
Qed.

Lemma itoa_aux_fuel f : forall g z, 0 <= z < 10 ^ Z.of_nat f -> z < 10 ^ Z.of_nat g -> (0 < f)%nat -> (0 < g)%nat -> itoa_aux f z [] = itoa_aux g z [].
Proof.
  induction f as [|f IH]; intros [|g] z Hf Hg H1 H2; [lia..|]. cbn [itoa_aux]. destruct (Z.ltb_spec z 10); [done|].
  rewrite (itoa_aux_app f), (itoa_aux_app g). f_equal. rewrite Nat2Z.inj_succ, Z.pow_succ_r in Hf, Hg by lia.
  assert (0 <= z / 10) by (apply Z.div_pos; lia). assert (10 <= z) by lia.
  apply IH; [split; [done|]; apply Z.div_lt_upper_bound; lia|apply Z.div_lt_upper_bound; lia| |].
  - destruct f; [cbn in Hf; lia|lia].
  - destruct g; [cbn in Hg; lia|lia].
Qed.

Lemma itoa_step z : 10 <= z < 10 ^ 20 -> itoa z = itoa (z / 10) ++ [48 + z mod 10].
Proof.
  intros Hz. unfold itoa. destruct (Z.ltb_spec z 0); [lia|]. destruct (Z.ltb_spec (z / 10) 0); [pose proof (Z.div_pos z 10); lia|].
  assert (itoa_aux 20 z [] = itoa_aux 19 (z / 10) [48 + z mod 10]) as ->.
  { change (itoa_aux 20 z []) with (if z <? 10 then [48 + z] else itoa_aux 19 (z / 10) [48 + z mod 10]). by destruct (Z.ltb_spec z 10); [lia|]. }
  rewrite itoa_aux_app. f_equal.
  assert (z / 10 < 10 ^ 19) by (apply Z.div_lt_upper_bound; lia).
  apply itoa_aux_fuel; [lia|change (Z.of_nat 20) with 20; lia|lia|lia].
Qed.

Lemma pad_digits_eq w : forall z, (0 < w <= 19)%nat -> 0 <= z < 10 ^ Z.of_nat w -> pad_digits w z = digits w z.
Proof.
  induction w as [|w IH]; intros z Hw Hz; [lia|]. unfold pad_digits. cbv zeta.
  destruct (Z.ltb_spec z 10).
  - assert (itoa z = [48 + z]) as -> by (unfold itoa; destruct (Z.ltb_spec z 0); [lia|]; cbn; by destruct (Z.ltb_spec z 10); [|lia]).
    cbn [digits length]. rewrite Z.div_small, Z.mod_small, digits_zero by lia. by rewrite Nat.sub_succ, Nat.sub_0_r.
  - rewrite Nat2Z.inj_succ, Z.pow_succ_r in Hz by lia.
    assert (10 ^ Z.of_nat w <= 10 ^ 18) by (apply Z.pow_le_mono_r; lia). rewrite itoa_step by lia.
    rewrite length_app. cbn [length digits]. replace (S w - (length (itoa (z / 10)) + 1))%nat with (w - length (itoa (z / 10)))%nat by lia.
    rewrite app_assoc. f_equal. apply IH.
    + destruct w; [cbn in Hz; lia|lia].
    + split; [apply Z.div_pos; lia|apply Z.div_lt_upper_bound; lia].
Qed.

Lemma trim_zeros_split s : exists k, s = trim_zeros s ++ replicate k 48.
Proof.
  unfold trim_zeros. assert (exists k, reverse s = replicate k 48 ++ drop_while (Z.eqb 48) (reverse s)) as [k Hk].
  { generalize (reverse s). intros l. induction l as [|c l [k IH]]; [by exists O|]. cbn [drop_while]. destruct (Z.eqb_spec 48 c) as [<-|]; [|by exists O].
    exists (S k). cbn. by f_equal. }
  exists k. apply (f_equal reverse) in Hk. rewrite reverse_involutive, reverse_app, reverse_replicate in Hk. exact Hk.
Qed.

Lemma dval_zeros s k : dval (s ++ replicate k 48) = dval s * 10 ^ Z.of_nat k.
Proof.
  induction k as [|k IH]; [cbn; rewrite app_nil_r; lia|]. rewrite replicate_S_end, app_assoc, dval_app, IH, Nat2Z.inj_succ, Z.pow_succ_r by lia. lia.
Qed.

(** ** Dates *)
Definition all_below (n : positive) (f : Z -> bool) : bool := (Pos.iter (fun '(i, ok) => (i + 1, ok && f i)) (0, true) n).2.

Lemma all_below_spec n f : all_below n f = true -> forall z, 0 <= z < Z.pos n -> f z = true.
Proof.
  unfold all_below. assert ((Pos.iter (fun '(i, ok) => (i + 1, ok && f i)) (0, true) n).1 = Z.pos n /\
    ((Pos.iter (fun '(i, ok) => (i + 1, ok && f i)) (0, true) n).2 = true -> forall z, 0 <= z < Z.pos n -> f z = true)) as [_ H]; [|exact H].
  induction n as [|n [IH1 IH2]] using Pos.peano_ind.
  - split; [done|]. cbn. intros H z Hz. by replace z with 0 by lia.
  - rewrite Pos.iter_succ. destruct (Pos.iter _ _ n) as [i ok]. cbn [fst snd] in *. subst i. split; [lia|].
    intros [Hok Hf]%andb_prop z Hz. destruct (decide (z = Z.pos n)) as [->|]; [done|]. apply IH2; [done|lia].
Qed.

(** A day of the 400 years of the calendar's period. *)
Definition day_ok (doe : Z) : bool :=
  let yoe := (doe - doe / 1460 + doe / 36524 - doe / 146096) / 365 in
  let doy := doe - (365 * yoe + yoe / 4 - yoe / 100) in
  let mp := (5 * doy + 2) / 153 in
  let m := if mp <? 10 then mp + 3 else mp - 9 in
  let d := doy - (153 * mp + 2) / 5 + 1 in
  (0 <=? yoe) && (yoe <? 400) && (1 <=? m) && (m <=? 12) && (1 <=? d) && (d <=? daysIn m (yoe + (if m <=? 2 then 1 else 0))) &&
  (yoe * 365 + yoe / 4 - yoe / 100 + ((153 * (if m <=? 2 then m + 9 else m - 3) + 2) / 5 + d - 1) =? doe).

Lemma days_ok : all_below 146097 day_ok = true.
Proof. vm_compute. reflexivity. Qed.

Lemma daysIn_period m y k : daysIn m (y + k * 400) = daysIn m y.
Proof.
  unfold daysIn, isLeap. replace (y + k * 400) with (y + (k * 4) * 100) at 2 by lia. replace (y + k * 400) with (y + (k * 100) * 4) at 1 by lia.
  by rewrite !Z.mod_add by lia.
Qed.

Lemma civil_days days y m d : civil days = (y, m, d) -> date_days y m d = days /\ 1 <= m <= 12 /\ 1 <= d <= daysIn m y.
Proof.
  unfold civil. set (z := days + 719468). pose proof (Z.mod_pos_bound z 146097 ltac:(lia)) as Hb.
  pose proof (all_below_spec _ _ days_ok _ Hb) as H. unfold day_ok in H. cbv zeta in *.
  set (doe := z mod 146097) in *. set (yoe := (doe - doe / 1460 + doe / 36524 - doe / 146096) / 365) in *.
  set (mp := (5 * (doe - (365 * yoe + yoe / 4 - yoe / 100)) + 2) / 153) in *.
  set (m' := if mp <? 10 then mp + 3 else mp - 9) in *. set (d' := doe - (365 * yoe + yoe / 4 - yoe / 100) - (153 * mp + 2) / 5 + 1) in *.
  rewrite !andb_true_iff, !Z.leb_le, !Z.ltb_lt, !Z.eqb_eq in H. destruct H as ((((((Y1 & Y2) & M1) & M2) & D1) & D2) & E).
  intros Ec. injection Ec as <- <- <-. split_and!; [|done|done|done|].
  - unfold date_days. cbv zeta. destruct (Z.leb_spec m' 2).
    + replace (yoe + z / 146097 * 400 + 1 - 1) with (yoe + z / 146097 * 400) by lia. rewrite Z.mod_add, Z.div_add, (Z.mod_small yoe), (Z.div_small yoe) by lia.
      rewrite E. unfold doe. pose proof (Z.div_mod z 146097). unfold z in *. lia.
    + rewrite Z.add_0_r, Z.mod_add, Z.div_add, (Z.mod_small yoe), (Z.div_small yoe) by lia.
      rewrite E. unfold doe. pose proof (Z.div_mod z 146097). unfold z in *. lia.
  - replace (yoe + z / 146097 * 400 + (if m' <=? 2 then 1 else 0)) with (yoe + (if m' <=? 2 then 1 else 0) + z / 146097 * 400) by lia.
    by rewrite daysIn_period.
Qed.

(** ** The text of an instant read back *)
Lemma digit_is d : 0 <= d < 10 -> is_digit (48 + d) = true.
Proof. intros H. unfold is_digit. lia. Qed.

Lemma getnum_pad b n rest : 0 <= n < 100 -> getnum b (pad_digits 2 n ++ rest) = Some (n, rest).
Proof.
  intros H. rewrite pad_digits_eq by (cbn; lia). cbn [digits app]. pose proof (Z.div_mod n 10). pose proof (Z.mod_pos_bound n 10).
  assert (n / 10 < 10) by (apply Z.div_lt_upper_bound; lia). assert (0 <= n / 10) by (apply Z.div_pos; lia).
  rewrite (Z.mod_small (n / 10)) by lia. unfold getnum. rewrite !digit_is by lia. f_equal. f_equal. lia.
Qed.

Lemma in_range_ok lo hi n s : lo <= n < hi -> in_range lo hi (Some (n, s)) = Some (n, s).
Proof. intros H. unfold in_range. cbn [mbind option_bind]. destruct (Z.leb_spec lo n), (Z.ltb_spec n hi); try lia. done. Qed.

Lemma take_while_app {A} (f : A -> bool) l c rest : forallb f l = true -> f c = false -> take_while f (l ++ c :: rest) = l.
Proof.
  intros H Hc. induction l as [|x l IH]; cbn in *; [by rewrite Hc|]. apply andb_prop in H as [H1 H2]. rewrite H1. f_equal. by apply IH.
Qed.

(** Nanoseconds without their trailing zeros, as [RFC3339Nano] writes them,
    before something that is neither a digit nor a point. *)
Lemma fraction_text n c rest : 0 <= n < 10 ^ 9 -> is_digit c = false -> commaOrPeriod c = false ->
  match fraction ((match trim_zeros (pad_digits 9 n) with [] => [] | _ => 46 :: trim_zeros (pad_digits 9 n) end) ++ c :: rest) with
  | Some (ns, s) => ns = n /\ s = c :: rest
  | None => n = 0 /\ trim_zeros (pad_digits 9 n) = []
  end.
Proof.
  intros Hn Hc Hp. rewrite pad_digits_eq by (cbn; lia). destruct (trim_zeros_split (digits 9 n)) as [k Hk].
  pose proof (dval_digits 9 n Hn) as Hv. pose proof (digits_digits 9 n) as Hd. pose proof (length_digits 9 n) as Hl.
  rewrite Hk in Hv, Hd, Hl. rewrite dval_zeros in Hv. rewrite forallb_app in Hd. apply andb_prop in Hd as [Hd _].
  rewrite length_app, length_replicate in Hl. destruct (trim_zeros (digits 9 n)) as [|d f] eqn:Et.
  - cbn [app]. unfold fraction. rewrite Hp. destruct rest; cbn in Hv; split; try done; lia.
  - unfold fraction. cbn [app]. cbn [forallb] in Hd. apply andb_prop in Hd as [Hd1 Hd2]. rewrite Hd1. cbn [commaOrPeriod Z.eqb orb andb].
    change (commaOrPeriod 46) with true. cbn [andb]. cbn [drop]. change (d :: f ++ c :: rest) with ((d :: f) ++ c :: rest).
    rewrite take_while_app by (done || (cbn; by rewrite Hd1)). rewrite (take_ge (d :: f)) by lia. split.
    + rewrite <-Hv. f_equal. f_equal. lia.
    + change (drop (1 + length (d :: f)) (46 :: (d :: f) ++ c :: rest)) with (drop (length (d :: f)) ((d :: f) ++ c :: rest)). by rewrite drop_app_length.
Qed.

Definition zone_text (z : Z) : list Z :=
  if z =? 0 then [90]
  else (if z <? 0 then 45 else 43) :: pad_digits 2 (Z.abs z / 60 / 60) ++ [58] ++ pad_digits 2 (Z.abs z / 60 mod 60).

Lemma parse_zone_text z : z mod 60 = 0 -> Z.abs z < 25 * 3600 -> parse_zone (zone_text z) = Some (z, []).
Proof.
  intros Hm Hz. unfold zone_text. destruct (Z.eqb_spec z 0) as [->|]; [done|].
  set (o := Z.abs z / 60). assert (Z.abs z = o * 60) as Ho.
  { unfold o. pose proof (Z.div_mod (Z.abs z) 60). assert (Z.abs z mod 60 = 0) by (destruct (Z.abs_spec z) as [[_ ->]|[_ ->]]; [done|by rewrite Z.mod_opp_l_z by lia]). lia. }
  assert (0 <= o) by lia. pose proof (Z.mod_pos_bound o 60). pose proof (Z.div_mod o 60). assert (o / 60 < 25) by (apply Z.div_lt_upper_bound; lia).
  assert (0 <= o / 60) by (apply Z.div_pos; lia).
  pose proof (getnum_pad true (o / 60) [] ltac:(lia)) as G1. pose proof (getnum_pad true (o mod 60) [] ltac:(lia)) as G2. rewrite app_nil_r in G1, G2.
  rewrite !pad_digits_eq in * by (cbn; lia). cbn [digits app] in *. unfold parse_zone.
  set (a := 48 + _) in *. set (b := 48 + _) in *. set (c := 48 + _) in *. set (d := 48 + _) in *.
  destruct (Z.ltb_spec z 0); cbn [Z.eqb Pos.eqb negb]; rewrite G1, G2, in_range_ok by lia; cbn [mbind option_bind]; rewrite in_range_ok by lia;
    cbn [mbind option_bind Z.eqb Pos.eqb]; f_equal; f_equal; lia.
Qed.

(** The instants whose text has a year of four digits, with an offset of whole
    minutes under 25 hours. *)
Definition printable (t : Time) : Prop :=
  0 <= (civil ((unixNano t / 10 ^ 9 + zone t) / 86400)).1.1 < 10000 /\ zone t mod 60 = 0 /\ Z.abs (zone t) < 25 * 3600.

Lemma zone_text_head z : exists c rest, zone_text z = c :: rest /\ is_digit c = false /\ commaOrPeriod c = false.
Proof. unfold zone_text. destruct (z =? 0); [by eexists _, _|]. destruct (z <? 0); by eexists _, _. Qed.

(** The clock part of the text, from the hour on. *)
Lemma parse_clock_text h mi se ns z f : 0 <= h < 24 -> 0 <= mi < 60 -> 0 <= se < 60 -> 0 <= ns < 10 ^ 9 -> fnsec f = 0 ->
  z mod 60 = 0 -> Z.abs z < 25 * 3600 ->
  parse_toks (L_clock ++ [TFrac 9; TZone])
    (pad_digits 2 h ++ [58] ++ pad_digits 2 mi ++ [58] ++ pad_digits 2 se ++
     (match trim_zeros (pad_digits 9 ns) with [] => [] | _ => 46 :: trim_zeros (pad_digits 9 ns) end) ++ zone_text z) f =
  Some (mkFields (fyear f) (fmonth f) (fday f) h mi se ns z).
Proof.
  intros Hh Hm Hs Hn Hf Hz1 Hz2. cbn [L_clock app parse_toks]. rewrite getnum_pad, in_range_ok by lia. cbn [mbind option_bind app Z.eqb Pos.eqb].
  rewrite getnum_pad, in_range_ok by lia. cbn [mbind option_bind app Z.eqb Pos.eqb].
  rewrite getnum_pad, in_range_ok by lia. cbn [mbind option_bind app fnsec].
  destruct (zone_text_head z) as (c & rest & Ez & Hc1 & Hc2). pose proof (fraction_text ns c rest Hn Hc1 Hc2) as Hfr. rewrite <-Ez in Hfr.
  destruct (fraction _) as [[ns' s']|] eqn:E.
  - destruct Hfr as [-> ->]. cbv zeta. rewrite parse_zone_text by done. done.
  - destruct Hfr as [-> Ht]. rewrite Ht. cbn [app]. rewrite parse_zone_text by done. cbn. by rewrite Hf.
Qed.

Lemma parse_date_text y m d rest l : 0 <= y < 10000 -> 1 <= m <= 12 -> 1 <= d <= 31 ->
  parse_toks (L_date ++ l) (pad_digits 4 y ++ [45] ++ pad_digits 2 m ++ [45] ++ pad_digits 2 d ++ rest) no_fields =
  parse_toks l rest (mkFields y m d 0 0 0 0 0).
Proof.
  intros Hy Hm Hd. cbn [L_date app parse_toks]. rewrite (pad_digits_eq 4) by (cbn; lia).
  rewrite take_app_le, (take_ge (digits 4 y)), drop_app_ge by (rewrite length_digits; lia). rewrite length_digits, digits_digits, dval_digits by (cbn; lia).
  cbn [Nat.eqb andb Nat.sub]. rewrite drop_0. cbn [app Z.eqb Pos.eqb]. rewrite getnum_pad, in_range_ok by lia.
  cbn [mbind option_bind app Z.eqb Pos.eqb]. rewrite getnum_pad by lia. done.
Qed.

(** [time.Parse] of the text [RFC3339Nano] writes is the instant, with its
    offset. *)
Lemma parse_RFC3339Nano t : printable t -> time_Parse_layout L_RFC3339Nano (RFC3339Nano t) = Some t.
Proof.
  intros (Hy & Hz1 & Hz2). unfold RFC3339Nano, time_Parse_layout. cbv zeta. set (sec := unixNano t / 10 ^ 9 + zone t) in *.
  destruct (civil (sec / 86400)) as [[y m] d] eqn:Ec. cbn [fst] in Hy. destruct (civil_days _ _ _ _ Ec) as (Ed & Hm & Hd).
  assert (d <= 31) as Hd31. { destruct Hd as [_ Hd]. unfold daysIn in Hd. repeat case_match; lia. }
  pose proof (Z.mod_pos_bound sec 86400 ltac:(lia)) as Hs. set (s := sec mod 86400) in *.
  pose proof (Z.mod_pos_bound (unixNano t) (10 ^ 9) ltac:(lia)) as Hn.
  unfold L_RFC3339Nano. rewrite (parse_date_text y m d) by lia.
  match goal with |- context [parse_toks ([TLit 84] ++ ?l) ([84] ++ ?r) ?f] => change (parse_toks ([TLit 84] ++ l) ([84] ++ r) f) with (parse_toks l r f) end.
  change (if zone t =? 0 then [90] else _) with (zone_text (zone t)).
  assert (0 <= s / 3600 < 24) by (split; [apply Z.div_pos; lia|apply Z.div_lt_upper_bound; lia]).
  pose proof (Z.mod_pos_bound (s / 60) 60 ltac:(lia)). pose proof (Z.mod_pos_bound s 60 ltac:(lia)).
  rewrite (parse_clock_text (s / 3600) (s / 60 mod 60) (s mod 60) (unixNano t mod 10 ^ 9) (zone t) (mkFields y m d 0 0 0 0 0)) by done.
  cbn [mbind option_bind fyear fmonth fday fhour fmin fsec fnsec foff].
  destruct (Z.leb_spec 1 d), (Z.leb_spec d (daysIn m y)); [|lia..]. cbn [andb]. rewrite Ed.
  assert (s = s / 3600 * 3600 + s / 60 mod 60 * 60 + s mod 60) as Hs2.
  { pose proof (Z.div_mod s 60). pose proof (Z.div_mod (s / 60) 60). rewrite Z.div_div in * by lia. change (60 * 60) with 3600 in *. lia. }
  destruct t as [u z]. cbn [unixNano zone] in *. do 2 f_equal. pose proof (Z.div_mod sec 86400). pose proof (Z.div_mod u (10 ^ 9)). unfold sec in *. lia.
Qed.
