(* ===== verification/Management.v ===== *)
(** * The management interface: [pkg/management]

    The command server of a daemon on a local socket ([server.go]) and its
    client ([client.go]).  A connection is the bytes the client sends, how the
    stream ends, and what the server has written; the console writer of
    zerolog is a parameter. *)
From S2P Require Import Prelude GoBytes Log Hosts.
From stdpp Require Import gmap list strings sorting.
From Stdlib Require Import ZArith Lia.
Open Scope Z_scope.

(** The text zerolog's console writer makes of one event, or its error. *)
Class ConsoleWriter := console_line : list Z -> list Z + goerr.

(** Whether the connection takes more bytes, given what it took before. *)
Class ConnSink := conn_accept : list Z -> list Z -> bool.

Definition okAuthString : list Z := str "OK:AUTHENTICATED".
Definition nokAuthString : list Z := str "NOK:UNAUTHENTICATED".
Definition pongString : list Z := str "OK: pong".
Definition defaultSocketDir : list Z := str "/run/n2n-go".

(** [dir] is [defaultSocketDir], which [ensureSocketDir] replaces by the
    application directory on Windows. *)
Definition GetDefaultSocketPath (dir app : list Z) : list Z := dir ++ [47] ++ app.

(** ** Texts *)
(** [strings.TrimRight(s, "\n")] *)
Definition trim_newlines (s : list Z) : list Z := reverse (drop_while (Z.eqb 10) (reverse s)).

Definition second : Z := 10 ^ 9.

(** [time.Duration.Round(time.Second)] of a duration that is not negative. *)
Definition round_second (d : Z) : Z :=
  let r := d mod second in if 2 * r <? second then d - r else d + second - r.

(** [time.Duration.String] of whole seconds. *)
Definition duration_text (d : Z) : list Z :=
  let s := d / second in
  let sec := itoa (s mod 60) ++ str "s" in
  if s <? 60 then sec
  else if s <? 3600 then itoa (s / 60) ++ str "m" ++ sec
  else itoa (s / 3600) ++ str "h" ++ itoa (s / 60 mod 60) ++ str "m" ++ sec.

(** ** Messages: a length in four bytes and the text *)
Definition errNoLength : goerr := ErrNew "Connection closed before receiving length.".
Definition errPartLength : goerr := ErrNew "Connection closed unexpectedly while reading length".
Definition errZeroLength : goerr := ErrNew "Received zero length message.".
Definition errNoBody : goerr := ErrNew "connection closed before receiving full message body".
Definition errPartBody : goerr := ErrNew "connection closed unexpectedly while reading message body".

Definition message (m : list Z) : list Z := be_put 4 (u32 (len m)) ++ m.

(** [io.ReadFull] of what a closed stream still holds. *)
Definition recvMessage (stream : list Z) : outcome (list Z) :=
  if bool_decide (stream = []) then Err errNoLength
  else if bool_decide (length stream < 4)%nat then Err errPartLength
  else
    let messageLen := be_get (take 4 stream) in
    let body := drop 4 stream in
    if messageLen =? 0 then Err errZeroLength
    else if bool_decide (body = []) then Err errNoBody
    else if len body <? messageLen then Err errPartBody
    else Ok (take (Z.to_nat messageLen) body).

(** ** [server.go] *)

(** The handler functions: the server's own, and one a component registers. *)
Inductive Command :=
  | handleStatusCommand
  | handlePingCommand
  | handleLogsCommand
  | handleHelpCommand
  | ExternalCommand (f : list (list Z) -> outcome (list Z)).

Record CommandInfo := mkCommand { Handler : Command; Description : list Z }.

(** [quit_closed] and [listener] are the channel and the listener,
    [socketFile] is whether the socket is in the file system. *)
Record ManagementServer := mkServer {
  socketPath : list Z;
  handlers : gmap (list Z) CommandInfo;
  startTime : Z;
  password : list Z;
  quit_closed : bool;
  listener : bool;
  socketFile : bool }.

Definition set_handlers (h : gmap (list Z) CommandInfo) (s : ManagementServer) : ManagementServer :=
  mkServer (socketPath s) h (startTime s) (password s) (quit_closed s) (listener s) (socketFile s).
Definition set_socket (q l f : bool) (s : ManagementServer) : ManagementServer :=
  mkServer (socketPath s) (handlers s) (startTime s) (password s) q l f.

Definition errListen : goerr := ErrNew "failed to listen on socket".
Definition errWrite : goerr := ErrNew "write: broken pipe".

(** A connection: what the client sends and how its stream ends, what the
    server has written and whether writing has failed, and the commands run. *)
Inductive ReadEnd := ReadEOF | ReadTimeout | ReadFailed.

Record Conn := mkConn {
  c_in : list Z;
  c_end : ReadEnd;
  c_out : list Z;
  c_failed : bool;
  c_ran : list (list Z * list (list Z)) }.

(** [reader.ReadString('\n')]: the line with its end, or how reading ended. *)
Fixpoint read_line (s : list Z) : option (list Z * list Z) :=
  match s with
  | [] => None
  | b :: s' => if b =? 10 then Some ([10], s')
               else (fun '(l, rest) => (b :: l, rest)) <$> read_line s'
  end.

Definition ReadString : M Conn (list Z + ReadEnd) := fun c =>
  match read_line (c_in c) with
  | Some (line, rest) => (Ok (inl line), mkConn rest (c_end c) (c_out c) (c_failed c) (c_ran c))
  | None => (Ok (inr (c_end c)), mkConn [] (c_end c) (c_out c) (c_failed c) (c_ran c))
  end.

Section Server.
Context `{SQL : SQLite, TP : TimeParse, CW : ConsoleWriter, UL : UnicodeLower, CS : ConnSink}.

Definition RegisterHandler (command description : list Z) (h : Command) : M ManagementServer unit :=
  modify (fun s => set_handlers (<[ToLower command := mkCommand h description]> (handlers s)) s).

Definition NewManagementServer (dir app password : list Z) (now : Z) (socketFile : bool) : ManagementServer :=
  ((RegisterHandler (str "status") (str "Show daemon status and uptime") handleStatusCommand;;
    RegisterHandler (str "ping") (str "Check if the daemon's management interface is responsive") handlePingCommand;;
    RegisterHandler (str "logs") (str "Get last logs from edge") handleLogsCommand;;
    RegisterHandler (str "help") (str "Show help for commands. Usage: help [command]") handleHelpCommand;;
    RegisterHandler (str "list") (str "Alias for 'help'") handleHelpCommand)
     (mkServer (GetDefaultSocketPath dir app) ∅ now password false false socketFile)).2.

(** [removed] and [bound] are whether the file system removes a socket file
    and lets the listener bind. *)
Definition Start (removed bound : bool) : M ManagementServer unit :=
  modify (fun s => set_socket false (listener s) (socketFile s && negb removed) s);;
  s ← gets id;
  if socketFile s || negb bound then merr errListen
  else modify (set_socket false true true).

(** What the file system answers when the server stops: whether closing the
    listener unlinks its file ([net] ignores the error), and whether a file that
    is still there is removed (the code logs the error and goes on). *)
Class SocketFS := { sock_unlinked : bool; sock_removed : bool }.

(** Closing a closed channel panics. *)
Definition Stop `{SF : SocketFS} : M ManagementServer unit :=
  s ← gets id;
  if quit_closed s then mpanic
  else modify (set_socket true (listener s) (socketFile s && negb (listener s && sock_unlinked)));;
       modify (fun s => set_socket true (listener s) (socketFile s && negb sock_removed) s).

(** *** The commands *)
Definition status_text (s : ManagementServer) (now : Z) : list Z :=
  str "OK: Daemon running. Uptime: " ++ duration_text (round_second (now - startTime s)).

(** The lines the scanner yields: those before one that does not fit. *)
Fixpoint scanned (raw lines : list (list Z)) : list (list Z) :=
  match raw, lines with
  | r :: raw', l :: lines' =>
      if (if HasSuffix r [10] then len r <=? MaxScanTokenSize else len r <? MaxScanTokenSize)
      then l :: scanned raw' lines' else []
  | _, _ => []
  end.

(** [processInput] into the buffer of the console writer; an error of the
    writer skips the line, an end of file the rest. *)
Fixpoint pretty (lines : list (list Z)) : list Z :=
  match lines with
  | [] => []
  | l :: lines' =>
      match console_line l with
      | inl out => out ++ pretty lines'
      | inr e => if errors_is e (ErrNew "EOF") then [] else pretty lines'
      end
  end.

Definition logs_text (args : list (list Z)) (logs : LogState) : outcome (list Z) :=
  entries ← (GetLogsSinceStart logs).1;
  let res := trim_newlines ((LogData <$> entries) ≫= id) in
  match args with
  | a :: _ => if bool_decide (a = str "pretty") then Ok (pretty (scanned (raw_lines res []) (scan_lines res [])))
              else Ok res
  | [] => Ok res
  end.

Definition help_line (maxLen : nat) (cmd : list Z) (info : CommandInfo) : list Z :=
  str "  " ++ cmd ++ replicate (maxLen - length cmd + 2) 32 ++ Description info ++ [10].

Definition help_text (s : ManagementServer) (args : list (list Z)) : list Z :=
  trim_newlines (match args with
  | a :: _ =>
      let cmdName := ToLower a in
      match handlers s !! cmdName with
      | None => str "Error: Unknown command '" ++ cmdName ++ str "'. Try 'help' for a list."
      | Some info => str "OK: Help for '" ++ cmdName ++ str "':" ++ [10] ++ str "  Usage: " ++ cmdName ++
                     str " [args...]" ++ [10] ++ str "  Description: " ++ Description info
      end
  | [] =>
      let cmds := merge_sort str_le (map_to_list (handlers s)).*1 in
      let maxLen := foldr (fun c m => Nat.max (length c) m) O cmds in
      str "OK: Available commands:" ++ [10] ++
      (cmds ≫= fun cmd => match handlers s !! cmd with Some info => help_line maxLen cmd info | None => [] end) ++
      [10] ++ str "Use 'help <command>' for more details on a specific command."
  end).

Definition run_command (s : ManagementServer) (now : Z) (logs : LogState) (h : Command) (args : list (list Z))
  : outcome (list Z) :=
  match h with
  | handleStatusCommand => Ok (status_text s now)
  | handlePingCommand => Ok pongString
  | handleLogsCommand => logs_text args logs
  | handleHelpCommand => Ok (help_text s args)
  | ExternalCommand f => f args
  end.

(** *** [handleConnection] *)

(** A write that is flushed at once. *)
Definition send_bytes (b : list Z) : M Conn unit :=
  c ← gets id;
  if c_failed c || negb (conn_accept (c_out c) b)
  then modify (fun c => mkConn (c_in c) (c_end c) (c_out c) true (c_ran c));; merr errWrite
  else modify (fun c => mkConn (c_in c) (c_end c) (c_out c ++ b) false (c_ran c)).

Definition Fprintln (s : list Z) : M Conn unit := mignore (send_bytes (s ++ [10])).

Definition sendMessage (m : list Z) : M Conn unit := send_bytes (message m).

(** The password line; whether the connection goes on. *)
Definition authenticate (s : ManagementServer) : M Conn bool :=
  if bool_decide (password s = []) then mret true else
  r ← ReadString;
  match r with
  | inr _ => Fprintln nokAuthString;; mret false
  | inl line =>
      if negb (bool_decide (TrimSpace line = password s)) then Fprintln nokAuthString;; mret false
      else Fprintln okAuthString;; mret true
  end.

(** What the server answers to a command at some time. *)
Definition respond (s : ManagementServer) (now : Z) (logs : LogState) (command : list Z) (args : list (list Z))
  : outcome (list Z) :=
  match handlers s !! command with
  | None => Ok (str "Error: Unknown command '" ++ command ++ str "'. Try 'help'.")
  | Some info =>
      match run_command s now logs (Handler info) args with
      | Err e => Ok (str "mgmt: error executing " ++ command ++ str ": " ++ error_text e)
      | r => r
      end
  end.

(** One round of the loop: whether it goes on. *)
Definition serve_line (s : ManagementServer) (env : nat -> Z * LogState) : M Conn bool :=
  r ← ReadString;
  match r with
  | inr ReadTimeout => Fprintln (str "error: Read timeout");; mret false
  | inr _ => mret false
  | inl line =>
      let cmdLine := TrimSpace line in
      if bool_decide (cmdLine = []) then mret true
      else if bool_decide (cmdLine = str "quit") then Fprintln (str "OK: Bye!");; mret false
      else match Fields cmdLine with
      | [] => mpanic
      | part :: args =>
          let command := ToLower part in
          c ← gets id;
          let '(now, logs) := env (length (c_ran c)) in
          response ← mlift (respond s now logs command args);
          modify (fun c => mkConn (c_in c) (c_end c) (c_out c) (c_failed c) (c_ran c ++ [(command, args)]));;
          r ← mtry (sendMessage response);
          mret (match r with inl _ => true | inr _ => false end)
      end
  end.

(** [false] when the fuel has run out before the loop ended. *)
Fixpoint serve (fuel : nat) (s : ManagementServer) (env : nat -> Z * LogState) : M Conn bool :=
  match fuel with
  | O => mret false
  | S f => go_on ← serve_line s env; if (go_on : bool) then serve f s env else mret true
  end.

(** [env n] is the time and the log when the [n]-th command runs. *)
Definition handleConnection (fuel : nat) (s : ManagementServer) (env : nat -> Z * LogState) : M Conn bool :=
  ok ← authenticate s;
  if (ok : bool) then serve fuel s env else mret true.
End Server.

(** ** [client.go] *)
Record ManagementClient := mkClient { cl_socketPath : list Z; cl_password : list Z }.

Definition NewManagementClient (dir app password : list Z) : ManagementClient :=
  mkClient (GetDefaultSocketPath dir app) password.

Definition errConnect : goerr := ErrNew "Error connecting to daemon socket".
Definition errAuthRead : goerr := ErrNew "Error reading auth response".

(** [peer] is all the server has written once it was sent some bytes, [None]
    when nobody listens.  The password's answer is read by a reader of its own,
    whatever that one has buffered is gone. *)
Definition SendCommand (c : ManagementClient) (peer : option (list Z -> list Z)) (command : list Z) : outcome (list Z) :=
  let command := if bool_decide (command = []) then str "help" else command in
  match peer with
  | None => Err errConnect
  | Some peer =>
      '(sent, seen) ←
        (if bool_decide (cl_password c = []) then Ok ([], O) else
         let sent := cl_password c ++ [10] in
         match read_line (peer sent) with
         | None => Err errAuthRead
         | Some (response, _) =>
             if contains response nokAuthString then Err (ErrWrap "auth failure" (ErrNew "unauthenticated"))
             else Ok (sent, length (peer sent))
         end);
      match recvMessage (drop seen (peer (sent ++ command ++ [10]))) with
      | Ok response => Ok (TrimSpace response)
      | Err e => Err (ErrWrap "Error reading response" e)
      | Panic => Panic
      end
  end.

Definition IsManagementServerStarted (c : ManagementClient) (peer : option (list Z -> list Z)) : bool :=
  bool_decide (SendCommand c peer (str "ping") = Ok pongString).
