(* ===== verification/ManagementProps.v ===== *)
(** * The management interface is authenticated, total and answers *)
From S2P Require Import Prelude GoBytes Log Hosts Management.
From stdpp Require Import gmap list strings sorting.
From Stdlib Require Import ZArith Lia.
Open Scope Z_scope.

(** ** Lines, fields and messages *)
Lemma read_line_app p rest : 10 ∉ p -> read_line (p ++ 10 :: rest) = Some (p ++ [10], rest).
Proof.
  induction p as [|b p IH]; intros Hp; [done|]. apply not_elem_of_cons in Hp as [Hb Hp].
  cbn. destruct (Z.eqb_spec b 10); [congruence|]. by rewrite IH.
Qed.

Lemma read_line_shorter s l rest : read_line s = Some (l, rest) -> (length rest < length s)%nat.
Proof.
  revert l. induction s as [|b s IH]; intros l; [done|]. cbn. destruct (b =? 10); [intros [= _ <-]; lia|].
  destruct (read_line s) as [[l' r]|]; [|done]. intros [= _ <-]. specialize (IH l' eq_refl). lia.
Qed.

Lemma no_newline l : forallb (fun b => negb (b =? 10)) l = true -> 10 ∉ l.
Proof. rewrite forallb_forall. intros H Hin. apply list_elem_of_In in Hin. by specialize (H _ Hin). Qed.

(** A rune cut short is an error, which is no space. *)
Lemma decode_rune_prefix t u : t <> [] -> decode_rune t = decode_rune (t ++ u) \/ decode_rune t = (RuneError, 1%nat).
Proof.
  intros Ht. destruct t as [|b0 t]; [done|]. cbn [app]. unfold decode_rune. destruct t as [|b1 [|b2 [|b3 t]]]; cbn [app];
    repeat match goal with |- context [if ?b then _ else _] => destruct b; auto end.
Qed.

Lemma fields_aux_ne l : forall cur, cur <> [] -> fields_aux l cur <> [].
Proof.
  induction l as [|x l IH]; intros cur Hc; cbn; [by destruct cur|]. destruct (space_seg x); [by destruct cur|].
  apply IH. destruct cur; [done|]. done.
Qed.

Lemma Fields_ne t : t <> [] -> IsSpace (decode_rune t).1 = false -> Fields t <> [].
Proof.
  intros Ht Hs. unfold Fields, range_str. pose proof (decode_rune_width t Ht) as Hw. destruct t as [|b t]; [done|].
  cbn [length range_str_aux]. destruct (decode_rune (b :: t)) as [r w]. cbn in Hs, Hw. cbn [fields_aux].
  unfold space_seg at 1. cbn [fst snd]. rewrite Hs. apply fields_aux_ne. destruct w; [lia|]. done.
Qed.

(** Dropping the leading spaces leaves nothing or a text that starts with
    another rune. *)
Lemma drop_spaces f : forall i l, (length l <= f)%nat ->
  let A := drop_while space_seg (range_str_aux f i l) in
  A = [] \/ exists x A', A = x :: A' /\ space_seg x = false /\
    x.1.2 = (decode_rune (segs_bytes A)).1 /\ x.2 <> [].
Proof.
  induction f as [|f IH]; intros i l Hl; [by left|]. destruct l as [|b l]; [by left|].
  pose proof (decode_rune_width (b :: l) ltac:(done)) as Hw.
  pose proof (range_str_aux_bytes (S f) i (b :: l) Hl) as Hb.
  cbn [range_str_aux] in *. destruct (decode_rune (b :: l)) as [r w] eqn:Ed. cbn [fst snd] in Hw. cbn [drop_while].
  destruct (space_seg _) eqn:Es.
  - apply IH. rewrite length_drop. cbn in *. lia.
  - right. eexists _, _. split; [done|]. split; [done|]. rewrite Hb, Ed. split; [done|]. cbn [snd]. destruct w; [lia|]. done.
Qed.

Lemma drop_while_snoc {A} (f : A -> bool) l x : f x = false -> exists l', drop_while f (l ++ [x]) = l' ++ [x] /\ exists p, l = p ++ l'.
Proof.
  intros Hx. induction l as [|y l IH]; cbn; [rewrite Hx; exists []; split; [done|by exists []]|].
  destruct (f y); [|exists (y :: l); split; [done|by exists []]].
  destruct IH as (l' & E & p & ->). exists l'. split; [done|]. by exists (y :: p).
Qed.

Lemma segs_bytes_app a b : segs_bytes (a ++ b) = segs_bytes a ++ segs_bytes b.
Proof. apply bind_app. Qed.

(** A trimmed text is empty or starts with a rune that is no space. *)
Lemma TrimSpace_head s : TrimSpace s = [] \/ IsSpace (decode_rune (TrimSpace s)).1 = false.
Proof.
  unfold TrimSpace. destruct (drop_spaces (length s) 0 s) as [E|(x & A & E & Hs & Hr & Hne)]; [lia| |].
  { left. unfold range_str. by rewrite E. }
  right. unfold range_str. rewrite E in *. rewrite reverse_cons.
  destruct (drop_while_snoc space_seg (reverse A) x Hs) as (l' & El & p & Ep). rewrite El, reverse_app. cbn [reverse app].
  apply (f_equal reverse) in Ep. rewrite reverse_involutive, reverse_app in Ep.
  change (reverse [x] ++ reverse l') with (x :: reverse l').
  rewrite Ep in Hr. change (x :: reverse l' ++ reverse p) with ((x :: reverse l') ++ reverse p) in Hr.
  rewrite segs_bytes_app in Hr.
  assert (segs_bytes (x :: reverse l') <> []) as Hn.
  { unfold segs_bytes. rewrite bind_cons. by destruct x as [? [|]]. }
  destruct (decode_rune_prefix _ (segs_bytes (reverse p)) Hn) as [D|D]; rewrite D; [by rewrite <-Hr|done].
Qed.

Lemma trimmed_fields s : TrimSpace s <> [] -> Fields (TrimSpace s) <> [].
Proof. intros H. apply Fields_ne; [done|]. by destruct (TrimSpace_head s). Qed.

(** A message is read back, unless it is empty. *)
Lemma recv_message m rest : m <> [] -> len m < 2 ^ 32 -> recvMessage (message m ++ rest) = Ok m.
Proof.
  intros Hm Hl. unfold recvMessage, message. rewrite <-app_assoc.
  assert (length (be_put 4 (u32 (len m))) = 4%nat) as H4 by apply length_be_put.
  assert (0 < len m) as Hp by (unfold len; destruct m; [done|cbn; lia]).
  rewrite bool_decide_eq_false_2 by (intros H; apply (f_equal length) in H; rewrite length_app, H4 in H; cbn in H; lia).
  rewrite bool_decide_eq_false_2 by (rewrite length_app, H4; lia).
  rewrite take_app_length', drop_app_length', be_get_put by done.
  unfold u32. rewrite (Z.mod_small (len m)) by lia. change (256 ^ Z.of_nat 4) with (2 ^ 32). rewrite Z.mod_small by lia.
  destruct (Z.eqb_spec (len m) 0); [lia|].
  rewrite bool_decide_eq_false_2 by (by destruct m).
  destruct (Z.ltb_spec (len (m ++ rest)) (len m)) as [H|_]; [unfold len in H; rewrite length_app in H; lia|].
  unfold len. by rewrite Nat2Z.id, take_app_length.
Qed.

Section Serving.
Context `{SQL : SQLite, TP : TimeParse, CW : ConsoleWriter, UL : UnicodeLower, CS : ConnSink}.
Implicit Types (s : ManagementServer) (c : Conn) (env : nat -> Z * LogState).

(** The open log database exists, and no registered function panics. *)
Definition log_wf (l : LogState) : Prop := forall h, dbHandle l = Some h -> is_Some (files l !! h).
Definition handlers_total s : Prop :=
  map_Forall (fun _ i => forall f args, Handler i = ExternalCommand f -> f args <> Panic) (handlers s).

Lemma logs_text_total args l : log_wf l -> logs_text args l <> Panic.
Proof.
  intros Hl. unfold logs_text, GetLogsSinceStart, GetLastNLogs, getHandle. munfold. unfold id.
  destruct (dbHandle l) as [h|] eqn:Eh; [|done]. destruct (_ <=? 0); cbn.
  - destruct args as [|a args]; [done|]. by case_bool_decide.
  - destruct (Hl h Eh) as [d ->]. destruct (sql_last d _); [|done]. cbn. destruct args; [done|]. by case_bool_decide.
Qed.

Lemma respond_total s now l command args : handlers_total s -> log_wf l -> exists r, respond s now l command args = Ok r.
Proof.
  intros Hs Hl. unfold respond. destruct (handlers s !! command) as [i|] eqn:Ei; [|by eexists].
  assert (run_command s now l (Handler i) args <> Panic) as Hp.
  { pose proof (Hs _ _ Ei) as Hx. cbn in Hx. unfold run_command. destruct (Handler i) eqn:Eh; try done.
    - by apply logs_text_total.
    - by apply (Hx f args). }
  destruct (run_command _ _ _ _ _); [by eexists|by eexists|done].
Qed.

Lemma send_bytes_cases b c :
  (send_bytes b c).1 = Ok tt /\ (send_bytes b c).2 = mkConn (c_in c) (c_end c) (c_out c ++ b) false (c_ran c) \/
  (exists e, (send_bytes b c).1 = Err e) /\ (send_bytes b c).2 = mkConn (c_in c) (c_end c) (c_out c) true (c_ran c).
Proof. unfold send_bytes. munfold. unfold id. destruct (c_failed c || _); [right|left]; by eauto. Qed.

Lemma Fprintln_run t c : exists out failed, Fprintln t c = (Ok tt, mkConn (c_in c) (c_end c) out failed (c_ran c)) /\
  (out = c_out c ++ t ++ [10] \/ out = c_out c).
Proof.
  unfold Fprintln. munfold. destruct (send_bytes_cases (t ++ [10]) c) as [[E1 E2]|[[e E1] E2]];
    destruct (send_bytes (t ++ [10]) c) as [r c']; cbn in E1, E2; subst; eexists _, _; split; eauto.
Qed.

(** A round never panics, and consumes input when it goes on. *)
Lemma serve_line_run s env c : handlers_total s -> (forall n, log_wf (env n).2) ->
  exists b c', serve_line s env c = (Ok b, c') /\ (b = true -> (length (c_in c') < length (c_in c))%nat).
Proof.
  intros Hs He. unfold serve_line. unfold ReadString. unfold mbind at 1, M_bind at 1.
  destruct (read_line (c_in c)) as [[line rest]|] eqn:Er.
  - apply read_line_shorter in Er. case_bool_decide as Hc; [eexists _, _; split; [done|]; done|].
    set (c1 := mkConn rest _ _ _ _). case_bool_decide as Hq.
    + destruct (Fprintln_run (str "OK: Bye!") c1) as (out & f & E & _). rewrite (bind_ok _ _ _ _ _ E). by eexists _, _.
    + destruct (Fields (TrimSpace line)) as [|part args] eqn:Ef; [by apply trimmed_fields in Ef|].
      rewrite gets_bind. unfold id. destruct (env (length (c_ran c1))) as [now logs] eqn:En.
      destruct (respond_total s now logs (ToLower part) args Hs) as [r Hr]; [specialize (He (length (c_ran c1))); by rewrite En in He|].
      munfold. rewrite Hr. unfold sendMessage. set (c2 := mkConn _ _ _ _ (_ ++ _)).
      destruct (send_bytes_cases (message r) c2) as [[E1 E2]|[[e E1] E2]];
        destruct (send_bytes (message r) c2) as [o c']; cbn in E1, E2; subst; by eexists _, _.
  - destruct (c_end c); try by eexists _, _.
    set (c1 := mkConn [] _ _ _ _). destruct (Fprintln_run (str "error: Read timeout") c1) as (out & f & E & _).
    rewrite (bind_ok _ _ _ _ _ E). by eexists _, _.
Qed.

Lemma serve_ends s env : handlers_total s -> (forall n, log_wf (env n).2) ->
  forall fuel c, (length (c_in c) < fuel)%nat -> (serve fuel s env c).1 = Ok true.
Proof.
  intros Hs He. induction fuel as [|f IH]; intros c Hf; [lia|]. cbn [serve].
  destruct (serve_line_run s env c Hs He) as (b & c' & E & Hlt). rewrite (bind_ok _ _ _ _ _ E).
  destruct b; [|done]. apply IH. specialize (Hlt eq_refl). lia.
Qed.

Lemma authenticate_run s c : exists b c', authenticate s c = (Ok b, c') /\ (length (c_in c') <= length (c_in c))%nat /\
  c_ran c' = c_ran c.
Proof.
  unfold authenticate. case_bool_decide; [by eexists _, _|]. unfold ReadString. unfold mbind at 1, M_bind at 1.
  destruct (read_line (c_in c)) as [[line rest]|] eqn:Er.
  - apply read_line_shorter in Er. set (c1 := mkConn rest _ _ _ _).
    destruct (Fprintln_run nokAuthString c1) as (out & f & E & _). destruct (Fprintln_run okAuthString c1) as (out' & f' & E' & _).
    destruct (negb _); [rewrite (bind_ok _ _ _ _ _ E)|rewrite (bind_ok _ _ _ _ _ E')];
      eexists _, _; (split; [done|]); cbn; (split; [lia|done]).
  - set (c1 := mkConn [] _ _ _ _). destruct (Fprintln_run nokAuthString c1) as (out & f & E & _).
    rewrite (bind_ok _ _ _ _ _ E). eexists _, _. split; [done|]. cbn. split; [lia|done].
Qed.

(** A refused password. *)
Lemma authenticate_refused s c : password s <> [] ->
  match read_line (c_in c) with Some (line, _) => TrimSpace line <> password s | None => True end ->
  exists c', authenticate s c = (Ok false, c') /\ c_ran c' = c_ran c /\
    (c_out c' = c_out c ++ nokAuthString ++ [10] \/ c_out c' = c_out c).
Proof.
  intros Hp Hr. unfold authenticate. rewrite bool_decide_eq_false_2 by done. unfold ReadString. unfold mbind at 1, M_bind at 1.
  destruct (read_line (c_in c)) as [[line rest]|].
  - rewrite bool_decide_eq_false_2 by done. cbn [negb]. set (c1 := mkConn rest _ _ _ _).
    destruct (Fprintln_run nokAuthString c1) as (out & f & E & Ho). rewrite (bind_ok _ _ _ _ _ E). eexists. split; [done|]. by cbn.
  - set (c1 := mkConn [] _ _ _ _). destruct (Fprintln_run nokAuthString c1) as (out & f & E & Ho).
    rewrite (bind_ok _ _ _ _ _ E). eexists. split; [done|]. by cbn.
Qed.

(** All the server has written to a client that has sent [input]. *)
Definition answers s env (input : list Z) : list Z :=
  c_out (handleConnection (S (length input)) s env (mkConn input ReadEOF [] false [])).2.

Lemma send_open b c : (forall x y, conn_accept x y = true) -> c_failed c = false ->
  send_bytes b c = (Ok tt, mkConn (c_in c) (c_end c) (c_out c ++ b) false (c_ran c)).
Proof. intros Ho Hf. unfold send_bytes. munfold. unfold id. by rewrite Hf, Ho. Qed.

Lemma Fprintln_open t c : (forall x y, conn_accept x y = true) -> c_failed c = false ->
  Fprintln t c = (Ok tt, mkConn (c_in c) (c_end c) (c_out c ++ t ++ [10]) false (c_ran c)).
Proof. intros Ho Hf. unfold Fprintln. munfold. by rewrite send_open. Qed.

(** A password line that is accepted. *)
Lemma authenticate_accepted s rest e out ran : (forall x y, conn_accept x y = true) -> password s <> [] ->
  10 ∉ password s -> TrimSpace (password s ++ [10]) = password s ->
  authenticate s (mkConn (password s ++ 10 :: rest) e out false ran) =
    (Ok true, mkConn rest e (out ++ okAuthString ++ [10]) false ran).
Proof.
  intros Ho Hp Hn Ht. unfold authenticate. rewrite bool_decide_eq_false_2 by done.
  unfold ReadString. unfold mbind at 1, M_bind at 1. cbn [c_in c_end c_out c_failed c_ran]. rewrite read_line_app by done.
  rewrite bool_decide_eq_true_2 by done. cbn [negb].
  by rewrite (bind_ok _ _ _ _ _ (Fprintln_open okAuthString (mkConn rest e out false ran) Ho eq_refl)).
Qed.

(** A command line and its answer, after which the client is waiting. *)
Lemma serve_command fuel s env cmd out ran part args r : (forall x y, conn_accept x y = true) -> 10 ∉ cmd ->
  Fields (TrimSpace (cmd ++ [10])) = part :: args -> TrimSpace (cmd ++ [10]) <> str "quit" ->
  respond s (env (length ran)).1 (env (length ran)).2 (ToLower part) args = Ok r ->
  c_out (serve (S (S fuel)) s env (mkConn (cmd ++ [10]) ReadEOF out false ran)).2 = out ++ message r.
Proof.
  intros Ho Hn Hf Hq Hr. cbn [serve].
  rewrite (bind_ok _ _ _ true (mkConn [] ReadEOF (out ++ message r) false (ran ++ [(ToLower part, args)]))).
  - unfold serve_line, ReadString. unfold mbind at 2, M_bind at 2. cbn [c_in read_line c_end c_out c_failed c_ran]. done.
  - unfold serve_line, ReadString. unfold mbind at 1, M_bind at 1. cbn [c_in c_end c_out c_failed c_ran].
    rewrite read_line_app by done.
    rewrite bool_decide_eq_false_2 by (intros E; by rewrite E in Hf).
    rewrite bool_decide_eq_false_2 by done. rewrite Hf, gets_bind. unfold id. cbn [c_ran].
    destruct (env (length ran)) as [now logs]. cbn [fst snd] in Hr. munfold. rewrite Hr.
    unfold sendMessage. by rewrite send_open.
Qed.

Lemma serve_quit fuel s env cmd out ran : (forall x y, conn_accept x y = true) -> 10 ∉ cmd ->
  TrimSpace (cmd ++ [10]) = str "quit" ->
  c_out (serve (S fuel) s env (mkConn (cmd ++ [10]) ReadEOF out false ran)).2 = out ++ str "OK: Bye!" ++ [10].
Proof.
  intros Ho Hn Hq. cbn [serve].
  rewrite (bind_ok _ _ _ false (mkConn [] ReadEOF (out ++ str "OK: Bye!" ++ [10]) false ran)); [done|].
  unfold serve_line, ReadString. unfold mbind at 1, M_bind at 1. cbn [c_in c_end c_out c_failed c_ran].
  rewrite read_line_app by done. rewrite bool_decide_eq_false_2 by (by rewrite Hq).
  rewrite bool_decide_eq_true_2 by done.
  by rewrite (bind_ok _ _ _ _ _ (Fprintln_open (str "OK: Bye!") (mkConn [] ReadEOF out false ran) Ho eq_refl)).
Qed.

Lemma serve_waiting fuel s env out ran :
  c_out (serve (S fuel) s env (mkConn [] ReadEOF out false ran)).2 = out.
Proof. cbn [serve]. unfold serve_line, ReadString. munfold. done. Qed.

(** A password that can be sent: the server trims the line it comes in. *)
Definition password_ok (pw : list Z) : Prop := pw = [] \/ 10 ∉ pw /\ TrimSpace (pw ++ [10]) = pw.

(** The stream the client reads its answer from. *)
Lemma SendCommand_stream s env path cmd : (forall x y, conn_accept x y = true) -> password_ok (password s) -> cmd <> [] ->
  exists out fuel, 
    SendCommand (mkClient path (password s)) (Some (answers s env)) cmd =
      match recvMessage (drop (length out) (c_out (serve (S (S fuel)) s env (mkConn (cmd ++ [10]) ReadEOF out false [])).2)) with
      | Ok response => Ok (TrimSpace response)
      | Err e => Err (ErrWrap "Error reading response" e)
      | Panic => Panic
      end.
Proof.
  intros Ho Hp Hc. unfold SendCommand. rewrite (bool_decide_eq_false_2 (cmd = [])) by done. cbn [cl_password].
  destruct Hp as [Hp|[Hn Ht]].
  - rewrite Hp, bool_decide_eq_true_2 by done. exists [], (length cmd). cbn [mbind outcome_bind app length].
    unfold answers, handleConnection, authenticate. rewrite Hp, bool_decide_eq_true_2 by done.
    rewrite length_app, Nat.add_1_r. done.
  - destruct (decide (password s = [])) as [E|E].
    { rewrite E, bool_decide_eq_true_2 by done. exists [], (length cmd). cbn [mbind outcome_bind app length].
      unfold answers, handleConnection, authenticate. rewrite E, bool_decide_eq_true_2 by done.
      rewrite length_app, Nat.add_1_r. done. }
    rewrite bool_decide_eq_false_2 by done. exists (okAuthString ++ [10]), (length (password s ++ [10] ++ cmd)).
    assert (forall rest, answers s env (password s ++ 10 :: rest) =
      c_out (serve (S (length (password s ++ 10 :: rest))) s env (mkConn rest ReadEOF (okAuthString ++ [10]) false [])).2) as Ha.
    { intros rest. unfold answers, handleConnection.
      by rewrite (bind_ok _ _ _ _ _ (authenticate_accepted s rest ReadEOF [] [] Ho E Hn Ht)). }
    rewrite Ha, serve_waiting. cbn [mbind outcome_bind].
    change (read_line (okAuthString ++ [10])) with (Some (okAuthString ++ [10], @nil Z)).
    unfold mbind, outcome_bind. cbv beta iota.
    change (contains (okAuthString ++ [10]) nokAuthString) with false. cbv iota.
    rewrite <-app_assoc. cbn [app]. rewrite Ha.
    replace (length (password s ++ 10 :: cmd ++ [10])) with (S (length (password s ++ [10] ++ cmd))); [done|].
    rewrite !length_app. cbn. rewrite !length_app. cbn. lia.
Qed.
End Serving.

(** The handlers a server starts with. *)
Lemma new_server_total `{UL : UnicodeLower} dir app pw now file : handlers_total (NewManagementServer dir app pw now file).
Proof.
  unfold handlers_total, NewManagementServer, RegisterHandler. munfold. cbn [handlers set_handlers snd].
  repeat (apply map_Forall_insert_2; [by intros f args H|]). apply map_Forall_empty.
Qed.

(** *** A server for evaluation *)
Module MgmtSample.
Export LogSample.
#[export] Instance console : ConsoleWriter := fun l => inl (l ++ [10]).
#[export] Instance lower : UnicodeLower := fun s => s.
#[export] Instance open_sink : ConnSink := fun _ _ => true.
Definition server (pw : list Z) : ManagementServer := NewManagementServer defaultSocketDir (str "edge") pw 0 false.
Definition env (n : nat) : Z * LogState := (61 * second, start).
End MgmtSample.
Import MgmtSample.

(** C24. Serving a connection ends: whatever the client sends, however its stream
    ends and whether or not writing fails, the handler returns without a panic
    after at most one round more than there are bytes. *)
Theorem connection_ends `{SQL : SQLite, TP : TimeParse, CW : ConsoleWriter, UL : UnicodeLower, CS : ConnSink}
    (s : ManagementServer) (env : nat -> Z * LogState) c fuel :
  handlers_total s -> (forall n, log_wf (env n).2) -> (length (c_in c) < fuel)%nat ->
  (handleConnection fuel s env c).1 = Ok true.
Proof.
  intros Hs He Hf. unfold handleConnection. destruct (authenticate_run s c) as (b & c' & E & Hl & _).
  rewrite (bind_ok _ _ _ _ _ E). destruct b; [|done]. apply serve_ends; [done|done|lia].
Qed.

Lemma connection_ends_witness :
  (handleConnection 40 (server (str "ab")) env (mkConn (str "ab" ++ [10] ++ str "help" ++ [10; 10]) ReadTimeout [] false [])).1
    = Ok true.
Proof.
  apply connection_ends.
  - exact (new_server_total defaultSocketDir (str "edge") (str "ab") 0 false).
  - intros n h H. discriminate H.
  - apply Nat.ltb_lt. vm_compute. reflexivity.
Defined.

(** Nothing without the password: when the server has one and the first line
    is missing or, trimmed, different, no command runs and the client gets the
    refusal and nothing else, whatever it goes on to send. *)
Theorem unauthenticated_refused `{SQL : SQLite, TP : TimeParse, CW : ConsoleWriter, UL : UnicodeLower, CS : ConnSink}
    (s : ManagementServer) (env : nat -> Z * LogState) c fuel :
  password s <> [] ->
  match read_line (c_in c) with Some (line, _) => TrimSpace line <> password s | None => True end ->
  let c' := (handleConnection fuel s env c).2 in
  c_ran c' = c_ran c /\ (c_out c' = c_out c ++ nokAuthString ++ [10] \/ c_out c' = c_out c).
Proof.
  intros Hp Hr. unfold handleConnection. destruct (authenticate_refused s c Hp Hr) as (c' & E & H).
  by rewrite (bind_ok _ _ _ _ _ E).
Qed.

Lemma unauthenticated_refused_witness :
  let c' := (handleConnection 40 (server (str "ab")) env
    (mkConn (str "x" ++ [10] ++ str "ping" ++ [10]) ReadEOF [] false [])).2 in
  c_ran c' = [] /\ (c_out c' = nokAuthString ++ [10] \/ c_out c' = []).
Proof.
  apply (unauthenticated_refused (server (str "ab")) env (mkConn (str "x" ++ [10] ++ str "ping" ++ [10]) ReadEOF [] false []) 40).
  - vm_compute. discriminate.
  - vm_compute. discriminate.
Defined.

(** C25. A command gets its answer, on a connection that takes what is written.
    The client has the server's password (or both have none), which survives
    being sent as a line: no newline in it, and nothing [TrimSpace] takes away
    at its ends.  The command is not empty, has no newline and is not [quit].
    Then, where the handler returns a text that is not empty and whose length
    fits four bytes, [SendCommand] returns that text, trimmed. *)
Theorem command_answered `{SQL : SQLite, TP : TimeParse, CW : ConsoleWriter, UL : UnicodeLower, CS : ConnSink}
    (s : ManagementServer) (env : nat -> Z * LogState) path cmd part args r :
  (forall x y, conn_accept x y = true) -> password_ok (password s) -> cmd <> [] -> 10 ∉ cmd ->
  Fields (TrimSpace (cmd ++ [10])) = part :: args -> TrimSpace (cmd ++ [10]) <> str "quit" ->
  respond s (env 0%nat).1 (env 0%nat).2 (ToLower part) args = Ok r -> r <> [] -> len r < 2 ^ 32 ->
  SendCommand (mkClient path (password s)) (Some (answers s env)) cmd = Ok (TrimSpace r).
Proof.
  intros Ho Hp Hc Hn Hf Hq Hr Hne Hl. destruct (SendCommand_stream s env path cmd Ho Hp Hc) as (out & fuel & ->).
  rewrite (serve_command fuel s env cmd out [] part args r) by done.
  rewrite drop_app_length, <-(app_nil_r (message r)), recv_message by done. done.
Qed.

Lemma command_answered_witness :
  SendCommand (mkClient [] (str "ab")) (Some (answers (server (str "ab")) env)) (str "Status now") =
    Ok (TrimSpace (str "OK: Daemon running. Uptime: 1m1s")).
Proof.
  apply (command_answered (server (str "ab")) env [] (str "Status now") (str "Status") [str "now"]
    (str "OK: Daemon running. Uptime: 1m1s")).
  - reflexivity.
  - right. split; [apply no_newline; vm_compute; reflexivity|vm_compute; reflexivity].
  - vm_compute. discriminate.
  - apply no_newline. vm_compute. reflexivity.
  - vm_compute. reflexivity.
  - vm_compute. discriminate.
  - vm_compute. reflexivity.
  - vm_compute. discriminate.
  - vm_compute. reflexivity.
Defined.

(** Two answers the client cannot read: the farewell to [quit] has no length
    in front, so its first letters are taken for one, and an empty answer
    (such as the log of a daemon that has logged nothing) has length zero. *)
Theorem unreadable_answers `{SQL : SQLite, TP : TimeParse, CW : ConsoleWriter, UL : UnicodeLower, CS : ConnSink}
    (s : ManagementServer) (env : nat -> Z * LogState) path cmd :
  (forall x y, conn_accept x y = true) -> password_ok (password s) -> cmd <> [] -> 10 ∉ cmd ->
  TrimSpace (cmd ++ [10]) = str "quit" \/
  (TrimSpace (cmd ++ [10]) <> str "quit" /\ exists part args, Fields (TrimSpace (cmd ++ [10])) = part :: args /\
     respond s (env 0%nat).1 (env 0%nat).2 (ToLower part) args = Ok []) ->
  exists e, SendCommand (mkClient path (password s)) (Some (answers s env)) cmd = Err e.
Proof.
  intros Ho Hp Hc Hn H. destruct (SendCommand_stream s env path cmd Ho Hp Hc) as (out & fuel & ->).
  destruct H as [Hq|(Hq & part & args & Hf & Hr)].
  - rewrite serve_quit, drop_app_length by done. by eexists.
  - rewrite (serve_command fuel s env cmd out [] part args []), drop_app_length by done. by eexists.
Qed.

Lemma unreadable_answers_witness :
  (exists e, SendCommand (mkClient [] (str "ab")) (Some (answers (server (str "ab")) env)) (str "quit") = Err e) /\
  let logging := fun _ : nat => (0, (Init (str "/home/u") (str "edge.db") start).2) in
  exists e, SendCommand (mkClient [] (str "ab")) (Some (answers (server (str "ab")) logging)) (str "logs") = Err e.
Proof.
  assert (password_ok (password (server (str "ab")))) as Hp.
  { right. split; [apply no_newline; vm_compute; reflexivity|vm_compute; reflexivity]. }
  split; [|intros logging].
  - apply (unreadable_answers (server (str "ab")) env [] (str "quit") ltac:(reflexivity) Hp).
    + vm_compute. discriminate.
    + apply no_newline. vm_compute. reflexivity.
    + left. vm_compute. reflexivity.
  - apply (unreadable_answers (server (str "ab")) logging [] (str "logs") ltac:(reflexivity) Hp).
    + vm_compute. discriminate.
    + apply no_newline. vm_compute. reflexivity.
    + right. split; [vm_compute; discriminate|]. exists (str "logs"), []. split; vm_compute; reflexivity.
Defined.
