(* ===== verification/MgmtLoop.v ===== *)
(** * The goroutines of the management server

    [Start], [acceptLoop], [handleConnection] and [Stop] of
    [pkg/management/server.go]: the accept loop and each connection are program
    counters, the caller of [Stop] another, and the running server is a step
    relation over them, the wait group and the server of [Management].  What a
    connection does between two reads is [authenticate] and [serve_line] of
    [Management], run on the bytes that have arrived. *)
From S2P Require Import Prelude GoBytes Log Hosts Management ManagementProps.
From stdpp Require Import gmap list strings relations.
From Stdlib Require Import ZArith Lia.
Open Scope Z_scope.

(** A connection: before the password, in the loop, in the pause after a
    refusal, returned. *)
Inductive HandlerPC := HAuth | HServe | HDelay | HGone.

#[export] Instance handler_pc_eq_dec : EqDecision HandlerPC.
Proof. solve_decision. Defined.

(** The caller of [Stop]: not called, [quit] closed, the listener closed and
    waiting, the wait over, returned. *)
Inductive StopPC := NotStopped | QuitClosed | Waiting | WaitOver | StopReturned.

#[export] Instance stop_pc_eq_dec : EqDecision StopPC.
Proof. solve_decision. Defined.

(** [Inside] is what the goroutines do on their own, [Clock] the end of a
    deadline or of a pause, [Outside] the clients, the errors of [Accept] and
    the call of [Stop]. *)
Inductive label := Inside | Clock | Outside.

Section Steps.
Context `{SQL : SQLite, TP : TimeParse, CW : ConsoleWriter, UL : UnicodeLower, CS : ConnSink, SF : SocketFS}.

(** [h_stream] is how the client ended the stream, [h_room] whether the socket
    takes what is written without blocking, [h_sent] what the client has sent
    before the last read, [h_env] the times and logs its commands will see. *)
Record HandlerState := mkHandler {
  h_pc : HandlerPC;
  h_conn : Conn;
  h_stream : option ReadEnd;
  h_room : bool;
  h_sent : list Z;
  h_env : nat -> Z * LogState }.

(** The accept loop: at its [select], in [Accept], with a connection before
    [wg.Add], with an error before the inner [select], in [time.Sleep], returned. *)
Inductive AcceptPC := AccSelect | AccAccept | AccGot (h : HandlerState) | AccError | AccSleep | AccGone.

Record LoopState := mkLoop {
  sv : ManagementServer;
  acceptor : AcceptPC;
  conns : list HandlerState;
  stopper : StopPC;
  wg : Z;
  crashed : bool }.

Definition set_acceptor a s := mkLoop (sv s) a (conns s) (stopper s) (wg s) (crashed s).
Definition set_conns c s := mkLoop (sv s) (acceptor s) c (stopper s) (wg s) (crashed s).
Definition set_stopper p s := mkLoop (sv s) (acceptor s) (conns s) p (wg s) (crashed s).
Definition set_sv x s := mkLoop x (acceptor s) (conns s) (stopper s) (wg s) (crashed s).
Definition crash s := mkLoop (sv s) (acceptor s) (conns s) (stopper s) (wg s) true.

(** [wg.Add(1)] and [wg.Done()]; a negative counter panics. *)
Definition wg_add s := mkLoop (sv s) (acceptor s) (conns s) (stopper s) (wg s + 1) (crashed s).
Definition wg_Done s :=
  if wg s <=? 0 then crash s else mkLoop (sv s) (acceptor s) (conns s) (stopper s) (wg s - 1) (crashed s).

Definition listener_closed (s : LoopState) : bool :=
  match stopper s with NotStopped | QuitClosed => false | _ => true end.

(** ** One connection *)
Definition with_end (e : ReadEnd) (c : Conn) : Conn := mkConn (c_in c) e (c_out c) (c_failed c) (c_ran c).

(** A read returns at once: a whole line has arrived or the stream has ended. *)
Definition ready (h : HandlerState) : bool :=
  bool_decide (is_Some (read_line (c_in (h_conn h)))) || bool_decide (is_Some (h_stream h)).

(** The connection as the next read finds it: one that blocks ends with its deadline. *)
Definition at_read (h : HandlerState) : Conn := with_end (default ReadTimeout (h_stream h)) (h_conn h).

Definition set_round (pc : HandlerPC) (c : Conn) (h : HandlerState) : HandlerState :=
  mkHandler pc c (h_stream h) (h_room h) (h_sent h) (h_env h).

(** A connection the accept loop has got, with what the client has sent by then. *)
Definition new_handler (input : list Z) (room : bool) (env : nat -> Z * LogState) : HandlerState :=
  mkHandler HAuth (mkConn input ReadTimeout [] false []) None room input env.

(** [handleConnection] from one read to the next, the deferred calls apart. *)
Definition round (x : ManagementServer) (h : HandlerState) : M Conn HandlerPC :=
  match h_pc h with
  | HAuth => ok ← authenticate x; mret (if (ok : bool) then HServe else HDelay)
  | HServe => go_on ← serve_line x (h_env h); mret (if (go_on : bool) then HServe else HGone)
  | HDelay | HGone => mret HGone
  end.

(** Whether the round waits for the clock: a read that blocks. *)
Definition blocks (x : ManagementServer) (h : HandlerState) : bool :=
  match h_pc h with
  | HAuth => negb (bool_decide (password x = [])) && negb (ready h)
  | HServe => negb (ready h)
  | HDelay | HGone => true
  end.

Definition finish (pc : HandlerPC) (s : LoopState) : LoopState := if decide (pc = HGone) then wg_Done s else s.

Inductive handler_step : label -> LoopState -> LoopState -> Prop :=
  | handler_round s i h pc c : conns s !! i = Some h -> h_pc h = HAuth \/ h_pc h = HServe ->
      round (sv s) h (at_read h) = (Ok pc, c) -> h_room h = true \/ c_out c = c_out (h_conn h) ->
      handler_step (if blocks (sv s) h then Clock else Inside) s
        (finish pc (set_conns (<[i := set_round pc c h]> (conns s)) s))
  | handler_panic s i h c : conns s !! i = Some h -> h_pc h = HAuth \/ h_pc h = HServe ->
      round (sv s) h (at_read h) = (Panic, c) ->
      handler_step (if blocks (sv s) h then Clock else Inside) s (crash s)
  | handler_wakes s i h : conns s !! i = Some h -> h_pc h = HDelay ->
      handler_step Clock s (finish HGone (set_conns (<[i := set_round HGone (h_conn h) h]> (conns s)) s)).

(** A client sends, ends its stream, reads or stops reading. *)
Inductive client_step : LoopState -> LoopState -> Prop :=
  | client_sends s i h b : conns s !! i = Some h -> h_pc h = HAuth \/ h_pc h = HServe -> h_stream h = None ->
      client_step s (set_conns (<[i := mkHandler (h_pc h)
        (mkConn (c_in (h_conn h) ++ b) (c_end (h_conn h)) (c_out (h_conn h)) (c_failed (h_conn h)) (c_ran (h_conn h)))
        None (h_room h) (h_sent h ++ b) (h_env h)]> (conns s)) s)
  | client_ends s i h e : conns s !! i = Some h -> h_pc h <> HGone -> h_stream h = None -> e <> ReadTimeout ->
      client_step s (set_conns (<[i := mkHandler (h_pc h) (h_conn h) (Some e) (h_room h) (h_sent h) (h_env h)]> (conns s)) s)
  | client_reads s i h r : conns s !! i = Some h -> h_pc h <> HGone ->
      client_step s (set_conns (<[i := mkHandler (h_pc h) (h_conn h) (h_stream h) r (h_sent h) (h_env h)]> (conns s)) s).

Inductive accept_step : label -> LoopState -> LoopState -> Prop :=
  | acc_quit s : acceptor s = AccSelect -> quit_closed (sv s) = true ->
      accept_step Inside s (wg_Done (set_acceptor AccGone s))
  | acc_listen s : acceptor s = AccSelect -> quit_closed (sv s) = false ->
      accept_step Inside s (set_acceptor AccAccept s)
  | acc_got s input room env : acceptor s = AccAccept -> listener_closed s = false -> (forall n, log_wf (env n).2) ->
      accept_step Outside s (set_acceptor (AccGot (new_handler input room env)) s)
  | acc_timeout s : acceptor s = AccAccept -> listener_closed s = false ->
      accept_step Clock s (set_acceptor AccSelect s)
  | acc_fails s : acceptor s = AccAccept -> listener_closed s = false ->
      accept_step Outside s (set_acceptor AccError s)
  | acc_closed s : acceptor s = AccAccept -> listener_closed s = true ->
      accept_step Inside s (set_acceptor AccError s)
  | acc_stop s : acceptor s = AccError -> quit_closed (sv s) = true ->
      accept_step Inside s (wg_Done (set_acceptor AccGone s))
  | acc_pause s : acceptor s = AccError -> quit_closed (sv s) = false ->
      accept_step Inside s (set_acceptor AccSleep s)
  | acc_again s : acceptor s = AccSleep -> accept_step Clock s (set_acceptor AccSelect s)
  | acc_go s h : acceptor s = AccGot h ->
      accept_step Inside s (set_acceptor AccSelect (set_conns (conns s ++ [h]) (wg_add s))).

(** [Stop]; a second call is not made by the edge. *)
Inductive stop_step : label -> LoopState -> LoopState -> Prop :=
  | stop_call s : stopper s = NotStopped ->
      stop_step Outside s (set_stopper QuitClosed (set_sv (set_socket true (listener (sv s)) (socketFile (sv s)) (sv s)) s))
  | stop_close s : stopper s = QuitClosed ->
      stop_step Inside s (set_stopper Waiting
        (set_sv (set_socket true (listener (sv s)) (socketFile (sv s) && negb (listener (sv s) && sock_unlinked)) (sv s)) s))
  | stop_waited s : stopper s = Waiting -> wg s = 0 -> stop_step Inside s (set_stopper WaitOver s)
  | stop_remove s : stopper s = WaitOver ->
      stop_step Inside s (set_stopper StopReturned (set_sv (set_socket true (listener (sv s)) (socketFile (sv s) && negb sock_removed) (sv s)) s)).

Inductive step : label -> LoopState -> LoopState -> Prop :=
  | by_acceptor l s s' : crashed s = false -> accept_step l s s' -> step l s s'
  | by_handler l s s' : crashed s = false -> handler_step l s s' -> step l s s'
  | by_client s s' : crashed s = false -> client_step s s' -> step Outside s s'
  | by_stop l s s' : crashed s = false -> stop_step l s s' -> step l s s'.

(** The server once [Start] has returned: [wg.Add(1)] and the accept loop. *)
Definition started (x : ManagementServer) : LoopState := mkLoop x AccSelect [] NotStopped 1 false.

Inductive reachable (x : ManagementServer) : LoopState -> Prop :=
  | reach_start : reachable x (started x)
  | reach_step l s s' : reachable x s -> step l s s' -> reachable x s'.

Definition quiet (s s' : LoopState) : Prop := step Inside s s' \/ step Clock s s'.
End Steps.

(** ** Bytes that arrive later

    What a connection does with the lines it has does not depend on those that
    are still to come, nor on how the stream will end. *)
Definition later (b : list Z) (e : ReadEnd) (c : Conn) : Conn :=
  mkConn (c_in c ++ b) e (c_out c) (c_failed c) (c_ran c).

Definition framed {A} (m : M Conn A) : Prop := forall b e c, m (later b e c) = ((m c).1, later b e (m c).2).

Lemma framed_ret {A} (a : A) : framed (mret a).
Proof. done. Qed.
Lemma framed_lift {A} (o : outcome A) : framed (mlift o).
Proof. done. Qed.
Lemma framed_panic {A} : framed (mpanic : M Conn A).
Proof. done. Qed.

Lemma framed_bind {A B} (m : M Conn A) (k : A -> M Conn B) : framed m -> (forall a, framed (k a)) -> framed (m ≫= k).
Proof.
  intros Hm Hk b e c. unfold mbind, M_bind. rewrite (Hm b e c). destruct (m c) as [[a|x|] c1]; cbn; [apply Hk|done|done].
Qed.

Lemma framed_try {A} (m : M Conn A) : framed m -> framed (mtry m).
Proof. intros Hm b e c. unfold mtry. rewrite (Hm b e c). by destruct (m c) as [[] ?]. Qed.

Lemma framed_ran : framed (gets (fun c => c_ran c)).
Proof. done. Qed.

Create HintDb framed.
#[export] Hint Resolve framed_ret framed_lift framed_panic framed_bind framed_try framed_ran : framed.

Section Frames.
Context `{SQL : SQLite, TP : TimeParse, CW : ConsoleWriter, UL : UnicodeLower, CS : ConnSink, SF : SocketFS}.
Implicit Types (x : ManagementServer) (c : Conn) (env : nat -> Z * LogState) (h : HandlerState) (s : LoopState).

Lemma framed_send t : framed (send_bytes t).
Proof. intros b e c. unfold send_bytes. munfold. unfold id. cbn. by destruct (c_failed c || _). Qed.

Lemma framed_print t : framed (Fprintln t).
Proof. unfold Fprintln, mignore. auto using framed_send with framed. Qed.

Lemma read_line_later t l r b : read_line t = Some (l, r) -> read_line (t ++ b) = Some (l, r ++ b).
Proof.
  revert l. induction t as [|y t IH]; intros l; [done|]. cbn. destruct (y =? 10); [by intros [= <- <-]|].
  destruct (read_line t) as [[l' r']|]; [|done]. intros [= <- <-]. by rewrite (IH l').
Qed.

(** A line that has arrived is read the same. *)
Lemma framed_line {A} (k : list Z + ReadEnd -> M Conn A) b e c : is_Some (read_line (c_in c)) -> (forall r, framed (k r)) ->
  (ReadString ≫= k) (later b e c) = (((ReadString ≫= k) c).1, later b e ((ReadString ≫= k) c).2).
Proof.
  intros [[l r] E] Hk. unfold mbind, M_bind, ReadString. cbn [later c_in]. rewrite (read_line_later _ _ _ b E), E.
  apply (Hk (inl l) b e (mkConn r (c_end c) (c_out c) (c_failed c) (c_ran c))).
Qed.

Lemma serve_line_later x env b e c : is_Some (read_line (c_in c)) ->
  serve_line x env (later b e c) = ((serve_line x env c).1, later b e (serve_line x env c).2).
Proof.
  intros Hl. apply framed_line; [done|]. intros [line|[]]; [|auto using framed_print with framed..]. cbv beta iota zeta.
  case_bool_decide; [auto with framed|]. case_bool_decide; [auto using framed_print with framed|].
  destruct (Fields (TrimSpace line)) as [|part args]; [auto with framed|]. intros b' e' c'. rewrite !gets_bind. unfold id.
  cbn [later c_ran]. destruct (env (length (c_ran c'))) as [now logs]. revert b' e' c'.
  apply framed_bind; [auto with framed|]. intros r. apply framed_bind; [done|]. intros []. unfold sendMessage.
  auto using framed_send with framed.
Qed.

Lemma authenticate_later x b e c : password x = [] \/ is_Some (read_line (c_in c)) ->
  authenticate x (later b e c) = ((authenticate x c).1, later b e (authenticate x c).2).
Proof.
  intros Hl. unfold authenticate. case_bool_decide as Hp; [done|]. apply framed_line; [by destruct Hl|].
  intros [line|?]; [|auto using framed_print with framed]. cbv beta iota. destruct (negb _); auto using framed_print with framed.
Qed.

(** ** Rounds *)
Lemma serve_line_none x env c : read_line (c_in c) = None -> exists c', serve_line x env c = (Ok false, c').
Proof.
  intros E. unfold serve_line, ReadString. unfold mbind at 1, M_bind at 1. rewrite E. destruct (c_end c); try by eexists.
  set (c1 := mkConn [] _ _ _ _). destruct (Fprintln_run (str "error: Read timeout") c1) as (out & f & E' & _).
  rewrite (bind_ok _ _ _ _ _ E'). by eexists.
Qed.

Lemma authenticate_none x c : password x <> [] -> read_line (c_in c) = None -> exists c', authenticate x c = (Ok false, c').
Proof.
  intros Hp E. destruct (authenticate_refused x c Hp) as (c' & Ea & _); [by rewrite E|]. by exists c'.
Qed.

(** What has happened on a connection is what [handleConnection] does with the
    bytes it was sent: so far, or, once it is over, altogether. *)
Definition served x h : Prop :=
  match h_pc h with
  | HAuth => c_in (h_conn h) = h_sent h /\ c_out (h_conn h) = [] /\ c_failed (h_conn h) = false /\ c_ran (h_conn h) = []
  | HServe => exists k, forall n b e,
      handleConnection (k + n) x (h_env h) (mkConn (h_sent h ++ b) e [] false []) = serve n x (h_env h) (later b e (h_conn h))
  | HDelay | HGone => exists n e, handleConnection n x (h_env h) (mkConn (h_sent h) e [] false []) = (Ok true, h_conn h)
  end.

Lemma later_nil e c : later [] e c = with_end e c.
Proof. unfold later. by rewrite app_nil_r. Qed.

Lemma served_auth x h b : h_pc h = HAuth -> served x h ->
  forall e, mkConn (h_sent h ++ b) e [] false [] = later b e (h_conn h).
Proof. unfold served. intros ->. destruct h as [? [] ? ? ? ?]; cbn. intros (-> & -> & -> & ->) e. done. Qed.

Lemma served_round x h pc c : h_pc h = HAuth \/ h_pc h = HServe -> served x h ->
  round x h (at_read h) = (Ok pc, c) -> served x (set_round pc c h).
Proof.
  intros Hpc Hs. unfold round, at_read. set (e := default ReadTimeout (h_stream h)). destruct Hpc as [Hpc|Hpc]; rewrite Hpc.
  - pose proof (fun b => served_auth x h b Hpc Hs) as Hin. destruct (authenticate_run x (with_end e (h_conn h))) as (ok & c' & E & _).
    rewrite (bind_ok _ _ _ _ _ E). intros [= <- <-]. destruct ok; unfold served; cbn.
    + exists O. intros n b e'. rewrite Hin. unfold handleConnection. cbn [plus].
      assert (password x = [] \/ is_Some (read_line (c_in (h_conn h)))) as Hr.
      { destruct (decide (password x = [])); [by left|right]. destruct (read_line (c_in (h_conn h))) eqn:El; [done|].
        destruct (authenticate_none x (with_end e (h_conn h))) as [c2 E2]; [done|exact El|]. rewrite E in E2. discriminate E2. }
      change (later b e' (h_conn h)) with (later b e' (with_end e (h_conn h))).
      pose proof (authenticate_later x b e' (with_end e (h_conn h)) Hr) as EL. rewrite E in EL. cbn in EL.
      by rewrite (bind_ok _ _ _ _ _ EL).
    + exists O, e. rewrite <-(app_nil_r (h_sent h)), Hin, later_nil. unfold handleConnection. by rewrite (bind_ok _ _ _ _ _ E).
  - unfold served in Hs. rewrite Hpc in Hs. destruct Hs as [k Hk].
    destruct (serve_line x (h_env h) (with_end e (h_conn h))) as [[go_on|err|] c'] eqn:E;
      [rewrite (bind_ok _ _ _ _ _ E)|rewrite (bind_err _ _ _ _ _ E); discriminate|unfold mbind, M_bind; rewrite E; discriminate].
    intros [= <- <-]. destruct go_on; unfold served; cbn [set_round h_pc h_conn h_sent h_env].
    + exists (S k). intros n b e'. rewrite Nat.add_succ_comm, Hk. cbn [serve].
      assert (is_Some (read_line (c_in (h_conn h)))) as Hr.
      { destruct (read_line (c_in (h_conn h))) eqn:El; [done|].
        destruct (serve_line_none x (h_env h) (with_end e (h_conn h)) El) as [c2 E2]. rewrite E in E2. discriminate E2. }
      pose proof (serve_line_later x (h_env h) b e' (with_end e (h_conn h)) Hr) as EL. rewrite E in EL. cbn in EL.
      change (later b e' (h_conn h)) with (later b e' (with_end e (h_conn h))). by rewrite (bind_ok _ _ _ _ _ EL).
    + exists (k + 1)%nat, e. rewrite <-(app_nil_r (h_sent h)), Hk, later_nil. cbn [serve]. by rewrite (bind_ok _ _ _ _ _ E).
Qed.

Lemma served_sends x h b : h_pc h = HAuth \/ h_pc h = HServe -> served x h ->
  served x (mkHandler (h_pc h) (later b (c_end (h_conn h)) (h_conn h)) None (h_room h) (h_sent h ++ b) (h_env h)).
Proof.
  intros [Hpc|Hpc]; unfold served; cbn [h_pc h_conn h_sent h_env]; rewrite Hpc.
  - intros (<- & H). done.
  - intros [k Hk]. exists k. intros n b' e. rewrite <-app_assoc, Hk. unfold later. cbn. by rewrite <-app_assoc.
Qed.

(** ** The invariant *)
Definition alive h : nat := match h_pc h with HGone => 0 | _ => 1 end.

(** The goroutines the wait group counts. *)
Definition live s : Z :=
  match acceptor s with AccGone => 0 | _ => 1 end + Z.of_nat (sum_list (alive <$> conns s)).

(** [Stop] as far as it has got. *)
Definition socket_at x (p : StopPC) : ManagementServer :=
  match p with
  | NotStopped => x
  | QuitClosed => set_socket true (listener x) (socketFile x) x
  | Waiting | WaitOver => set_socket true (listener x) (socketFile x && negb (listener x && sock_unlinked)) x
  | StopReturned => set_socket true (listener x) (socketFile x && negb (listener x && sock_unlinked) && negb sock_removed) x
  end.

Definition handler_ok x h : Prop := served x h /\ forall n, log_wf (h_env h n).2.

Record inv x s : Prop := {
  inv_sv : sv s = socket_at x (stopper s);
  inv_wg : wg s = live s;
  inv_conns : Forall (handler_ok x) (conns s);
  inv_got : forall h, acceptor s = AccGot h -> handler_ok x h /\ h_pc h = HAuth;
  inv_over : stopper s = WaitOver \/ stopper s = StopReturned -> wg s = 0 }.

Lemma same_round x p h c : round (socket_at x p) h c = round x h c.
Proof. by destruct p. Qed.

Lemma same_blocks x p h : blocks (socket_at x p) h = blocks x h.
Proof. by destruct p. Qed.

Lemma live_insert i s h h' : conns s !! i = Some h ->
  live (set_conns (<[i := h']> (conns s)) s) = live s + Z.of_nat (alive h') - Z.of_nat (alive h).
Proof. intros H. unfold live. cbn. pose proof (sum_insert alive (conns s) i h' h H). lia. Qed.

Lemma live_has i s h : conns s !! i = Some h -> h_pc h <> HGone -> 1 <= live s.
Proof.
  intros H Hp. pose proof (live_insert i s h (set_round HGone (h_conn h) h) H) as E. unfold live in *. cbn in E.
  assert (alive h = 1%nat) as Ha by (unfold alive; by destruct (h_pc h)). rewrite Ha in E. destruct (acceptor s); lia.
Qed.

Lemma inv_handlers x s h i : inv x s -> conns s !! i = Some h -> handler_ok x h.
Proof. intros I H. exact (Forall_lookup_1 _ _ _ _ (inv_conns x s I) H). Qed.

(** No connection has a step left when the wait is over. *)
Lemma over_gone x s : inv x s -> stopper s = WaitOver \/ stopper s = StopReturned ->
  acceptor s = AccGone /\ Forall (fun h => h_pc h = HGone) (conns s).
Proof.
  intros I Ho. pose proof (inv_over x s I Ho) as W. pose proof (inv_wg x s I) as E. rewrite W in E. split.
  - unfold live in E. destruct (acceptor s); [lia..|done].
  - apply Forall_lookup. intros i h H. destruct (decide (h_pc h = HGone)) as [|Hn]; [done|].
    pose proof (live_has i s h H Hn). lia.
Qed.

Lemma over_no_handler x s i h : inv x s -> conns s !! i = Some h -> h_pc h <> HGone ->
  stopper s <> WaitOver /\ stopper s <> StopReturned.
Proof.
  intros I H Hp. split; intros E; [destruct (over_gone x s I (or_introl E)) as [_ F]|destruct (over_gone x s I (or_intror E)) as [_ F]];
    by apply Hp, (Forall_lookup_1 _ _ _ _ F H).
Qed.

(** A connection that stays. *)
Lemma inv_update x s i h h' : inv x s -> conns s !! i = Some h -> h_pc h <> HGone -> alive h' = 1%nat -> handler_ok x h' ->
  inv x (set_conns (<[i := h']> (conns s)) s).
Proof.
  intros I H Hp Ha Hok. constructor; cbn.
  - apply I.
  - rewrite (live_insert i s h h' H), Ha, (inv_wg x s I). unfold alive. destruct (h_pc h); [lia..|done].
  - apply Forall_insert; [apply I|done].
  - apply I.
  - apply I.
Qed.

(** A connection that returns. *)
Lemma inv_leave x s i h h' : inv x s -> conns s !! i = Some h -> h_pc h <> HGone -> h_pc h' = HGone -> handler_ok x h' ->
  inv x (finish HGone (set_conns (<[i := h']> (conns s)) s)).
Proof.
  intros I H Hp Hg Hok. pose proof (live_has i s h H Hp) as L. pose proof (live_insert i s h h' H) as E.
  pose proof (inv_wg x s I) as W. destruct (over_no_handler x s i h I H Hp) as [N1 N2].
  unfold finish. rewrite decide_True by done. unfold wg_Done. cbn [wg set_conns].
  destruct (Z.leb_spec (wg s) 0); [lia|]. unfold alive in E. rewrite Hg in E. destruct (h_pc h) eqn:Eh; try done;
    (constructor; cbn; [apply I|change (wg s - 1 = live (set_conns (<[i := h']> (conns s)) s)); lia|by apply Forall_insert; [apply I|]|apply I|by intros [?|?]]).
Qed.

Lemma inv_handler x l s s' : inv x s -> handler_step l s s' -> inv x s'.
Proof.
  intros I H. destruct H as [s i h pc c H Hp Hr _|s i h c H Hp Hr|s i h H Hp].
  - assert (h_pc h <> HGone) as Hg by (destruct Hp as [->| ->]; discriminate).
    destruct (inv_handlers x s h i I H) as [Hs Hl]. rewrite (inv_sv x s I), same_round in Hr.
    assert (handler_ok x (set_round pc c h)) as Hok by (split; [by apply served_round|done]).
    destruct (decide (pc = HGone)) as [->|Hn]; [by eapply inv_leave|].
    unfold finish. rewrite decide_False by done. eapply inv_update; [done..| |done]. cbn. unfold alive. cbn. by destruct pc.
  - destruct I. by constructor.
  - destruct (inv_handlers x s h i I H) as [Hs Hl]. eapply inv_leave; [done..|by rewrite Hp|done|]. split; [|done].
    unfold served in *. rewrite Hp in Hs. done.
Qed.

Lemma inv_client x s s' : inv x s -> client_step s s' -> inv x s'.
Proof.
  assert (forall h, h_pc h = HAuth \/ h_pc h = HServe -> h_pc h <> HGone) as Hpc by (intros h [->| ->]; discriminate).
  intros I H. destruct H as [s i h b H Hp Hst|s i h e H Hp _ _|s i h r H Hp].
  - destruct (inv_handlers x s h i I H) as [Hs Hl]. eapply inv_update; [done|done|by apply Hpc| |].
    + unfold alive. cbn. by destruct Hp as [->| ->].
    + split; [|done]. by apply served_sends.
  - eapply inv_update; [done..| |by apply (inv_handlers x s h i)]. unfold alive. cbn. by destruct (h_pc h).
  - eapply inv_update; [done..| |by apply (inv_handlers x s h i)]. unfold alive. cbn. by destruct (h_pc h).
Qed.

Lemma acceptor_counted x s : inv x s -> acceptor s <> AccGone -> 1 <= wg s /\ stopper s <> WaitOver /\ stopper s <> StopReturned.
Proof.
  intros I H. rewrite (inv_wg x s I). split; [unfold live; by destruct (acceptor s); try lia|].
  split; intros E; apply H; eapply over_gone; eauto.
Qed.

(** The accept loop goes on, or returns. *)
Lemma inv_accepts x s a : inv x s -> acceptor s <> AccGone -> a <> AccGone ->
  (forall h, a = AccGot h -> handler_ok x h /\ h_pc h = HAuth) -> inv x (set_acceptor a s).
Proof.
  intros I H Ha Hg. constructor; cbn; [apply I| |apply I|exact Hg|apply I].
  rewrite (inv_wg x s I). unfold live. cbn. by destruct a, (acceptor s).
Qed.

Lemma inv_accept_done x s : inv x s -> acceptor s <> AccGone -> inv x (wg_Done (set_acceptor AccGone s)).
Proof.
  intros I H. destruct (acceptor_counted x s I H) as (W & N1 & N2). unfold wg_Done. cbn [wg set_acceptor].
  destruct (Z.leb_spec (wg s) 0); [lia|]. constructor; cbn; [apply I| |apply I|done|by intros [?|?]].
  rewrite (inv_wg x s I). unfold live. cbn -[Z.add Z.sub]. destruct (acceptor s); [lia..|done].
Qed.

Lemma inv_accept x l s s' : inv x s -> accept_step l s s' -> inv x s'.
Proof.
  intros I H. destruct H as [s E Q|s E Q|s input room env E L He|s E L|s E L|s E L|s E Q|s E Q|s E|s h E];
    assert (acceptor s <> AccGone) as N by (by rewrite E);
    try (by apply inv_accept_done); try (by apply inv_accepts).
  - apply inv_accepts; [done..|]. by intros h [= <-].
  - destruct (inv_got x s I h E) as [Hok Hpc]. destruct (acceptor_counted x s I N) as (_ & N1 & N2).
    constructor; cbn; [apply I| | |done|by intros [?|?]].
    + rewrite (inv_wg x s I). unfold live. cbn -[Z.add Z.sub]. rewrite E, fmap_app, sum_list_with_app. cbn.
      unfold alive at 3. rewrite Hpc. lia.
    + apply Forall_app. split; [apply I|]. by apply Forall_singleton.
Qed.

Lemma inv_stop x l s s' : inv x s -> stop_step l s s' -> inv x s'.
Proof.
  intros I H. destruct H as [s E|s E|s E W|s E]; pose proof (inv_sv x s I) as Es; rewrite E in Es; cbn [socket_at] in Es;
    (constructor; cbn; [by rewrite ?Es|apply I|apply I|apply I|]); try by intros [?|?].
  intros _. apply I. by left.
Qed.

Lemma loop_inv x s : reachable x s -> inv x s.
Proof.
  induction 1 as [|l s s' R I H]; [constructor; cbn; try done; by intros [?|?]|].
  destruct H; eauto using inv_accept, inv_handler, inv_client, inv_stop.
Qed.

(** ** Progress *)
Definition weight h : nat :=
  match h_pc h with
  | HAuth => length (c_in (h_conn h)) + 3
  | HServe => length (c_in (h_conn h)) + 2
  | HDelay => 1
  | HGone => 0
  end.

Definition accept_weight (a : AcceptPC) : nat :=
  match a with AccGot h => weight h + 2 | AccAccept | AccSleep => 2 | AccSelect | AccError => 1 | AccGone => 0 end.

Definition stop_weight (p : StopPC) : nat :=
  match p with NotStopped => 4 | QuitClosed => 3 | Waiting => 2 | WaitOver => 1 | StopReturned => 0 end.

Definition remaining s : nat := accept_weight (acceptor s) + sum_list (weight <$> conns s) + stop_weight (stopper s).

Lemma round_run x h : handlers_total x -> (forall n, log_wf (h_env h n).2) -> h_pc h = HAuth \/ h_pc h = HServe ->
  exists pc c, round x h (at_read h) = (Ok pc, c) /\ (weight (set_round pc c h) < weight h)%nat.
Proof.
  intros Ht Hl [Hp|Hp]; unfold round, weight; rewrite Hp.
  - destruct (authenticate_run x (at_read h)) as (b & c & E & Hc & _). rewrite (bind_ok _ _ _ _ _ E).
    eexists _, c. split; [done|]. cbn in *. destruct b; cbn; lia.
  - destruct (serve_line_run x (h_env h) (at_read h) Ht Hl) as (b & c & E & Hc). rewrite (bind_ok _ _ _ _ _ E).
    eexists _, c. split; [done|]. cbn in *. destruct b; cbn; [specialize (Hc eq_refl)|]; lia.
Qed.

Lemma wg_Done_fine x s : inv x s -> acceptor s <> AccGone \/ (exists i h, conns s !! i = Some h /\ h_pc h <> HGone) ->
  crashed s = false -> forall s', wg s' = wg s -> crashed s' = crashed s -> crashed (wg_Done s') = false.
Proof.
  intros I H Hc s' E Ec. unfold wg_Done. rewrite E.
  assert (1 <= wg s) as W.
  { destruct H as [H|(i & h & H & Hp)]; [by apply (acceptor_counted x s I)|]. rewrite (inv_wg x s I). by eapply live_has. }
  destruct (Z.leb_spec (wg s) 0); [lia|]. cbn. congruence.
Qed.

(** The wait group never goes below zero and no command panics. *)
Lemma never_crashed x s : handlers_total x -> reachable x s -> crashed s = false.
Proof.
  intros Ht. induction 1 as [|l s s' R IH H]; [done|]. pose proof (loop_inv x s R) as I.
  destruct H as [l s s' _ H|l s s' _ H|s s' _ H|l s s' _ H].
  - destruct H; try done; (eapply (wg_Done_fine x s); [done|left|done..]); by match goal with E : acceptor s = _ |- _ => rewrite E end.
  - destruct H as [s i h pc c H Hp Hr _|s i h c H Hp Hr|s i h H Hp].
    + unfold finish. destruct (decide (pc = HGone)); [|done]. eapply (wg_Done_fine x s); [done|right|done..].
      exists i, h. split; [done|]. destruct Hp as [->| ->]; discriminate.
    + rewrite (inv_sv x s I), same_round in Hr. destruct (inv_handlers x s h i I H) as [_ Hl].
      destruct (round_run x h Ht Hl Hp) as (pc & c' & E & _). congruence.
    + unfold finish. rewrite decide_True by done. eapply (wg_Done_fine x s); [done|right|done..].
      exists i, h. split; [done|]. by rewrite Hp.
  - by destruct H.
  - by destruct H.
Qed.

Lemma remaining_insert s i h h' : conns s !! i = Some h ->
  (remaining (set_conns (<[i := h']> (conns s)) s) + weight h = remaining s + weight h')%nat.
Proof. intros H. unfold remaining. cbn. pose proof (sum_insert weight (conns s) i h' h H). lia. Qed.

Lemma remaining_done s : remaining (wg_Done s) = remaining s.
Proof. unfold wg_Done. by destruct (wg s <=? 0). Qed.

Lemma remaining_finish pc s : remaining (finish pc s) = remaining s.
Proof. unfold finish. destruct (decide _); [apply remaining_done|done]. Qed.

(** Every step of the goroutines takes [Stop] closer to its end. *)
Lemma quiet_decreases x s s' : handlers_total x -> reachable x s -> stopper s <> NotStopped -> quiet s s' ->
  (remaining s' < remaining s)%nat.
Proof.
  intros Ht R Hs H. pose proof (loop_inv x s R) as I.
  assert (quit_closed (sv s) = true) as Hq by (rewrite (inv_sv x s I); by destruct (stopper s)).
  assert (exists l, l <> Outside /\ step l s s') as (l & Hl & H') by (destruct H; eexists; (split; [|done]); discriminate).
  clear H. destruct H' as [l s s' _ H|l s s' _ H|s s' _ H|l s s' _ H].
  - destruct H as [s E Q|s E Q|s input room env E L He|s E L|s E L|s E L|s E Q|s E Q|s E|s h E]; try congruence;
      rewrite ?remaining_done; unfold remaining; cbn; rewrite E; cbn; try lia.
    rewrite fmap_app, sum_list_with_app. cbn. lia.
  - destruct H as [s i h pc c H Hp Hr _|s i h c H Hp Hr|s i h H Hp]; rewrite ?remaining_finish.
    + rewrite (inv_sv x s I), same_round in Hr. destruct (inv_handlers x s h i I H) as [_ Hl'].
      destruct (round_run x h Ht Hl' Hp) as (pc' & c' & E & Hw). rewrite Hr in E. injection E as <- <-.
      pose proof (remaining_insert s i h (set_round pc c h) H). lia.
    + rewrite (inv_sv x s I), same_round in Hr. destruct (inv_handlers x s h i I H) as [_ Hl'].
      destruct (round_run x h Ht Hl' Hp) as (pc' & c' & E & _). congruence.
    + pose proof (remaining_insert s i h (set_round HGone (h_conn h) h) H) as E. unfold weight in E. rewrite Hp in E. cbn in E. lia.
  - done.
  - destruct H as [s E|s E|s E W|s E]; try done; unfold remaining; cbn; rewrite E; cbn; lia.
Qed.

(** Every client reads what it is sent. *)
Definition writable s : Prop :=
  Forall (fun h => h_room h = true) (conns s) /\ forall h, acceptor s = AccGot h -> h_room h = true.

Lemma quiet_reachable x s s' : reachable x s -> quiet s s' -> reachable x s'.
Proof. intros R [H|H]; by eapply reach_step. Qed.

Lemma quiet_stays l s s' : l <> Outside -> step l s s' -> stopper s <> NotStopped -> writable s ->
  stopper s' <> NotStopped /\ writable s'.
Proof.
  assert (forall s, stopper (wg_Done s) = stopper s) as Es by (intros s0; unfold wg_Done; by destruct (_ <=? 0)).
  assert (forall s, conns (wg_Done s) = conns s) as Ec by (intros s0; unfold wg_Done; by destruct (_ <=? 0)).
  assert (forall s, acceptor (wg_Done s) = acceptor s) as Ea by (intros s0; unfold wg_Done; by destruct (_ <=? 0)).
  intros Hl H Hs [Hc Hg]. destruct H as [l s s' _ H|l s s' _ H|s s' _ H|l s s' _ H].
  - destruct H; try done; unfold writable; rewrite ?Es, ?Ec, ?Ea; cbn; repeat (split; try done).
    apply Forall_app. split; [done|]. apply Forall_singleton. by apply Hg.
  - destruct H as [s i h pc c H Hp Hr Hw|s i h c H Hp Hr|s i h H Hp]; [| |]; [unfold finish; destruct (decide _)| |unfold finish; destruct (decide _)];
      unfold writable; rewrite ?Es, ?Ec, ?Ea; cbn; (split; [done|]); (split; [|done]); try done;
      apply Forall_insert; try done; cbn; exact (Forall_lookup_1 _ _ _ _ Hc H).
  - done.
  - destruct H; by split.
Qed.

Lemma quiet_run x s s' : reachable x s -> stopper s <> NotStopped -> writable s -> rtc quiet s s' ->
  reachable x s' /\ stopper s' <> NotStopped /\ writable s'.
Proof.
  intros R Hs Hw H. induction H as [|s s1 s' Hq _ IH]; [done|].
  assert (stopper s1 <> NotStopped /\ writable s1) as [Hs1 Hw1]
    by (destruct Hq as [Hq|Hq]; (eapply quiet_stays; [|exact Hq|done..]); discriminate).
  apply IH; [|done..]. by eapply quiet_reachable.
Qed.

Lemma acceptor_enabled x s : reachable x s -> crashed s = false -> stopper s <> NotStopped -> acceptor s <> AccGone ->
  exists s', quiet s s'.
Proof.
  intros R Hc Hs Ha. pose proof (loop_inv x s R) as I.
  assert (quit_closed (sv s) = true) as Hq by (rewrite (inv_sv x s I); by destruct (stopper s)).
  destruct (acceptor s) as [| |h| | |] eqn:E; [| | | | |done].
  - eexists. left. apply by_acceptor; [done|]. by apply acc_quit.
  - destruct (listener_closed s) eqn:L; eexists; [left|right]; (apply by_acceptor; [done|]); [by apply acc_closed|by apply acc_timeout].
  - eexists. left. apply by_acceptor; [done|]. by apply acc_go.
  - eexists. left. apply by_acceptor; [done|]. by apply acc_stop.
  - eexists. right. apply by_acceptor; [done|]. by apply acc_again.
Qed.

Lemma handler_enabled x s i h : handlers_total x -> reachable x s -> crashed s = false -> writable s ->
  conns s !! i = Some h -> h_pc h <> HGone -> exists s', quiet s s'.
Proof.
  intros Ht R Hc [Hw _] H Hp. pose proof (loop_inv x s R) as I. destruct (inv_handlers x s h i I H) as [_ Hl].
  pose proof (Forall_lookup_1 _ _ _ _ Hw H) as Hr. cbn in Hr.
  destruct (decide (h_pc h = HDelay)) as [Ed|Nd]; [eexists; right; apply by_handler; [done|]; by eapply handler_wakes|].
  assert (h_pc h = HAuth \/ h_pc h = HServe) as Hp' by (destruct (h_pc h); auto; done).
  destruct (round_run x h Ht Hl Hp') as (pc & c & E & _). rewrite <-(same_round x (stopper s)), <-(inv_sv x s I) in E.
  pose proof (handler_round s i h pc c H Hp' E (or_introl Hr)) as St.
  destruct (blocks (sv s) h); eexists; [right|left]; apply by_handler; done.
Qed.

Lemma quiet_enabled x s : handlers_total x -> reachable x s -> stopper s <> NotStopped -> writable s ->
  stopper s <> StopReturned -> exists s', quiet s s'.
Proof.
  intros Ht R Hs Hw Hd. pose proof (never_crashed x s Ht R) as Hc. pose proof (loop_inv x s R) as I.
  destruct (stopper s) eqn:E; try done.
  - eexists. left. apply by_stop; [done|]. by apply stop_close.
  - assert (acceptor s = AccGone \/ acceptor s <> AccGone) as [Ea|Na] by (destruct (acceptor s); auto).
    + destruct (decide (Forall (fun h => h_pc h = HGone) (conns s))) as [F|F].
      * eexists. left. apply by_stop; [done|]. apply stop_waited; [done|]. rewrite (inv_wg x s I). unfold live. rewrite Ea.
        clear -F. induction F as [|h l Hg F IH]; [done|]. cbn. unfold alive at 1. by rewrite Hg.
      * apply not_Forall_Exists in F; [|apply _]. apply Exists_exists in F as (h & Hin & Hp).
        apply list_elem_of_lookup in Hin as [i H]. by eapply handler_enabled.
    + by eapply acceptor_enabled; [..|rewrite E|].
  - eexists. left. apply by_stop; [done|]. by apply stop_remove.
Qed.

Lemma quiet_bounded x n s s' : handlers_total x -> reachable x s -> stopper s <> NotStopped -> writable s ->
  nsteps quiet n s s' -> (n + remaining s' <= remaining s)%nat.
Proof.
  intros Ht R Hs Hw H. induction H as [|n s s1 s' Hq _ IH]; [lia|].
  pose proof (quiet_decreases x s s1 Ht R Hs Hq).
  destruct (quiet_run x s s1 R Hs Hw (rtc_once _ _ Hq)) as (R1 & Hs1 & Hw1). specialize (IH R1 Hs1 Hw1). lia.
Qed.
End Frames.

(** ** What the server promises *)

(** C26. Connections are independent: whatever the interleaving of the accept loop,
    the connections, the clients and [Stop], a connection that is over has
    written the bytes and run the commands that [handleConnection] does on its
    own with the bytes its client sent, one after the other. *)
Theorem connections_refine `{SQL : SQLite, TP : TimeParse, CW : ConsoleWriter, UL : UnicodeLower, CS : ConnSink, SF : SocketFS}
    (x : ManagementServer) (s : LoopState) i h :
  reachable x s -> conns s !! i = Some h -> h_pc h = HGone ->
  exists n e, handleConnection n x (h_env h) (mkConn (h_sent h) e [] false []) = (Ok true, h_conn h).
Proof.
  intros R H Hp. destruct (inv_handlers x s h i (loop_inv x s R) H) as [Hs _]. unfold served in Hs. by rewrite Hp in Hs.
Qed.

(** C27. After [Stop] nothing of the server runs: once its wait is over the accept
    loop and every connection have returned, and when it has returned no step is
    left and the server is as the sequential [Stop] leaves it.  The socket file is
    gone too, unless neither closing the listener unlinked it nor the removal
    worked: that is only logged. *)
Theorem stop_leaves_nothing `{SQL : SQLite, TP : TimeParse, CW : ConsoleWriter, UL : UnicodeLower, CS : ConnSink, SF : SocketFS}
    (x : ManagementServer) (s : LoopState) :
  reachable x s -> quit_closed x = false -> stopper s = WaitOver \/ stopper s = StopReturned ->
  acceptor s = AccGone /\ Forall (fun h => h_pc h = HGone) (conns s) /\
  (stopper s = StopReturned -> Stop x = (Ok tt, sv s) /\ (forall l s', ~ step l s s') /\
     socketFile (sv s) = socketFile x && negb (listener x && sock_unlinked) && negb sock_removed).
Proof.
  intros R Hq Ho. pose proof (loop_inv x s R) as I. destruct (over_gone x s I Ho) as [Ha Hc]. split; [done|]. split; [done|].
  intros Hr. rewrite (inv_sv x s I), Hr. split; [unfold Stop; munfold; unfold id; by rewrite Hq|]. split; [|done].
  assert (forall i h, conns s !! i = Some h -> h_pc h = HGone) as Hg by (intros i h H; exact (Forall_lookup_1 _ _ _ _ Hc H)).
  intros l s' Hst. destruct Hst as [l s s' _ H|l s s' _ H|s s' _ H|l s s' _ H]; destruct H; try congruence;
    match goal with E : conns _ !! _ = Some _ |- _ => apply Hg in E end; intuition congruence.
Qed.

(** C28. [Stop] returns: when it has been called, the registered functions do not
    panic and the clients read what they are sent, the goroutines take at most
    [remaining] steps of their own and of the clock, and where they can take
    none, [Stop] has returned. *)
Theorem stop_returns `{SQL : SQLite, TP : TimeParse, CW : ConsoleWriter, UL : UnicodeLower, CS : ConnSink, SF : SocketFS}
    (x : ManagementServer) (s : LoopState) :
  handlers_total x -> reachable x s -> stopper s <> NotStopped -> writable s ->
  (forall n s', nsteps quiet n s s' -> (n <= remaining s)%nat) /\
  (forall s', rtc quiet s s' -> (forall s'', ~ quiet s' s'') -> stopper s' = StopReturned).
Proof.
  intros Ht R Hs Hw. split.
  - intros n s' H. pose proof (quiet_bounded x n s s' Ht R Hs Hw H). lia.
  - intros s' H Hstuck. destruct (quiet_run x s s' R Hs Hw H) as (R' & Hs' & Hw').
    destruct (decide (stopper s' = StopReturned)) as [|N]; [done|].
    destruct (quiet_enabled x s' Ht R' Hs' Hw' N) as [s'' Hq]. by apply Hstuck in Hq.
Qed.

(** ** A client that goes on *)
Import MgmtSample.

(** A file system that removes what it is asked to. *)
#[export] Instance obedient : SocketFS := {| sock_unlinked := true; sock_removed := true |}.

(** A server without a password once [Start] has returned. *)
Definition running : ManagementServer := (Start true true (server [])).2.

Lemma running_total : handlers_total running.
Proof. exact (new_server_total defaultSocketDir (str "edge") [] 0 false). Qed.

Definition ping_line : list Z := str "ping" ++ [10].

(** A connection of the sample server after [n] commands, [Stop] waiting for it. *)
Definition chatting (s : LoopState) (n : nat) : Prop :=
  exists h, conns s = [h] /\ stopper s = Waiting /\ crashed s = false /\ sv s = socket_at running Waiting /\
    h_pc h = HServe /\ c_in (h_conn h) = [] /\ h_stream h = None /\ h_room h = true /\ c_failed (h_conn h) = false /\
    h_env h = env /\ acceptor s = AccSelect /\ length (c_ran (h_conn h)) = n.

Lemma ping_served e out ran : serve_line running env (mkConn ping_line e out false ran) =
  (Ok true, mkConn [] e (out ++ message pongString) false (ran ++ [(str "ping", [])])).
Proof. vm_compute. reflexivity. Qed.

Lemma ping_again s n : reachable running s -> chatting s n -> exists s', reachable running s' /\ chatting s' (S n).
Proof.
  intros R (h & Ec & Es & Ecr & Esv & Ep & Ei & Est & Er & Ef & Ee & Ea & En).
  assert (conns s !! 0%nat = Some h) as H by (by rewrite Ec).
  pose proof (client_sends s 0 h ping_line H (or_intror Ep) Est) as S1. rewrite Ei, Ef in S1. cbn [app] in S1.
  match type of S1 with client_step _ (set_conns (<[_ := ?t]> _) _) => set (h1 := t) in S1 end.
  match type of S1 with client_step _ ?t => set (s1 := t) in S1 end.
  assert (conns s1 !! 0%nat = Some h1) as H1 by (cbn; by rewrite Ec).
  assert (round (sv s1) h1 (at_read h1) = (Ok HServe, mkConn [] ReadTimeout (c_out (h_conn h) ++ message pongString) false
    (c_ran (h_conn h) ++ [(str "ping", [])]))) as Hr.
  { change (sv s1) with (sv s). rewrite Esv, same_round. unfold round. cbn [h_pc h1]. rewrite Ep. cbn [h_env h1]. rewrite Ee.
    by rewrite (bind_ok _ _ _ _ _ (ping_served ReadTimeout (c_out (h_conn h)) (c_ran (h_conn h)))). }
  pose proof (handler_round s1 0 h1 _ _ H1 (or_intror Ep) Hr (or_introl Er)) as S2.
  eexists. split; [eapply reach_step; [eapply reach_step; [exact R|by apply by_client, S1]|apply by_handler; [done|exact S2]]|].
  unfold finish. rewrite decide_False by done. eexists. split; [cbn; by rewrite Ec|]. cbn. repeat split; try done.
  rewrite length_app. cbn. lia.
Qed.

Lemma stop_waiting : exists s, reachable running s /\ chatting s 0.
Proof.
  set (h := new_handler [] true env).
  assert (forall n, log_wf (env n).2) as Hl by (intros n k H; discriminate H).
  pose proof (reach_start running) as R.
  eapply reach_step in R; [|apply by_acceptor; [done|by apply acc_listen]].
  eapply reach_step in R; [|apply by_acceptor; [done|by apply (acc_got _ [] true env)]].
  eapply reach_step in R; [|apply by_acceptor; [done|by apply acc_go]].
  eapply reach_step in R; [|apply by_handler; [done|by apply (handler_round _ 0 h HServe (h_conn h)); [done|left| |left]]].
  eapply reach_step in R; [|apply by_stop; [done|by apply stop_call]].
  eapply reach_step in R; [|apply by_stop; [done|by apply stop_close]].
  eexists. split; [exact R|]. eexists. split; [reflexivity|]. repeat split.
Qed.

(** The client falls silent, the read of its connection times out, [Stop] returns. *)
Lemma chat_ends s n : reachable running s -> chatting s n ->
  exists s', reachable running s' /\ stopper s' = StopReturned /\ exists h, conns s' = [h] /\ h_pc h = HGone.
Proof.
  intros R (h & Ec & Es & Ecr & Esv & Ep & Ei & Est & Er & Ef & Ee & Ea & En).
  assert (conns s !! 0%nat = Some h) as H by (by rewrite Ec).
  destruct (serve_line_none (sv s) (h_env h) (at_read h)) as [c E]; [cbn; by rewrite Ei|].
  assert (round (sv s) h (at_read h) = (Ok HGone, c)) as Hr by (unfold round; rewrite Ep; by rewrite (bind_ok _ _ _ _ _ E)).
  pose proof (handler_round s 0 h _ _ H (or_intror Ep) Hr (or_introl Er)) as S1.
  match type of S1 with handler_step _ _ ?t => set (s1 := t) in S1 end.
  assert (reachable running s1) as R1 by (eapply reach_step; [exact R|apply by_handler; [done|exact S1]]).
  assert (conns s1 = [set_round HGone c h] /\ acceptor s1 = AccSelect /\ stopper s1 = Waiting /\ sv s1 = sv s) as (C1 & A1 & P1 & V1).
  { unfold s1, finish. rewrite decide_True by done. unfold wg_Done. destruct (_ <=? 0); cbn; by rewrite Ec. }
  pose proof (never_crashed _ s1 running_total R1) as Cr1.
  set (s2 := wg_Done (set_acceptor AccGone s1)).
  assert (reachable running s2) as R2.
  { eapply reach_step; [exact R1|]. apply by_acceptor; [done|]. apply acc_quit; [done|]. by rewrite V1, Esv. }
  assert (conns s2 = conns s1 /\ acceptor s2 = AccGone /\ stopper s2 = Waiting) as (C2 & A2 & P2)
    by (unfold s2, wg_Done; destruct (_ <=? 0); by cbn).
  pose proof (never_crashed _ s2 running_total R2) as Cr2.
  assert (wg s2 = 0) as W by (rewrite (inv_wg _ _ (loop_inv _ _ R2)); unfold live; by rewrite A2, C2, C1).
  eapply reach_step in R2; [|apply by_stop; [done|by apply stop_waited]].
  eapply reach_step in R2; [|apply by_stop; [done|by apply stop_remove]].
  eexists. split; [exact R2|]. split; [done|]. exists (set_round HGone c h). cbn. by rewrite C2.
Qed.

(** [Stop] waits for the connections but does not end them: a client that goes
    on sending commands is answered, and keeps it waiting, for any number of
    commands. *)
Theorem stop_waits_for_clients (n : nat) : exists s, reachable running s /\ stopper s = Waiting /\
  exists h, conns s = [h] /\ h_pc h = HServe /\ length (c_ran (h_conn h)) = n.
Proof.
  assert (exists s, reachable running s /\ chatting s n) as (s & R & h & Ec & Es & _ & _ & Ep & _ & _ & _ & _ & _ & _ & En).
  { induction n as [|n (s & R & H)]; [apply stop_waiting|by eapply ping_again]. }
  exists s. split; [done|]. split; [done|]. by exists h.
Qed.

(** ** Witnesses *)
Lemma connections_refine_witness : exists s h, reachable running s /\ conns s = [h] /\
  exists n e, handleConnection n running (h_env h) (mkConn (h_sent h) e [] false []) = (Ok true, h_conn h).
Proof.
  destruct stop_waiting as (s0 & R0 & C0). destruct (chat_ends s0 0 R0 C0) as (s & R & _ & h & E & Hg). exists s, h.
  split; [exact R|]. split; [exact E|]. apply (connections_refine running s 0 h); [exact R|by rewrite E|exact Hg].
Defined.

Lemma stop_leaves_nothing_witness : exists s, reachable running s /\ stopper s = StopReturned /\ acceptor s = AccGone /\
  (forall l s', ~ step l s s') /\ socketFile (sv s) = false.
Proof.
  destruct stop_waiting as (s0 & R0 & C0). destruct (chat_ends s0 0 R0 C0) as (s & R & Hs & _). exists s.
  split; [exact R|]. split; [exact Hs|].
  destruct (stop_leaves_nothing running s R eq_refl (or_intror Hs)) as (Ha & _ & H). split; [exact Ha|]. destruct (H Hs) as (_ & H1 & H2). split; [exact H1|exact H2].
Defined.

Lemma stop_returns_witness : exists s, reachable running s /\ stopper s = Waiting /\
  forall s', rtc quiet s s' -> (forall s'', ~ quiet s' s'') -> stopper s' = StopReturned.
Proof.
  destruct stop_waiting as (s & R & h & Ec & Es & _ & _ & _ & _ & _ & Er & _ & _ & Ea & _). exists s. split; [exact R|]. split; [exact Es|].
  apply (stop_returns running s).
  - exact running_total.
  - exact R.
  - rewrite Es. discriminate.
  - split; [rewrite Ec; by apply Forall_singleton|]. rewrite Ea. discriminate.
Defined.
