(* ===== verification/Benchmark.v ===== *)
(** * Benchmarks: [pkg/benchmark]

    The echo packets of the TAP benchmark ([tap_benchmark.go]) and the
    statistics over the measured latencies ([latency.go]).  The loops around
    them open devices and read clocks. *)
From S2P Require Import Prelude GoBytes GoNet.
From stdpp Require Import list strings sorting.
From Stdlib Require Import ZArith Lia Permutation Sorted.
Open Scope Z_scope.

(** [buf[i] = v] *)
Definition put (i : nat) (v : Z) (buf : list Z) : outcome (list Z) :=
  if bool_decide (i < length buf)%nat then Ok (<[i := v]> buf) else Panic.

Fixpoint puts (ws : list (Z * Z)) (buf : list Z) : outcome (list Z) :=
  match ws with
  | [] => Ok buf
  | (i, v) :: ws' => buf ← put (Z.to_nat i) v buf; puts ws' buf
  end.

(** [copy(buf[i:j], src)] *)
Definition copy_in (i j : nat) (src buf : list Z) : outcome (list Z) :=
  if bool_decide (j <= length buf)%nat then Ok (copy_at buf i j src) else Panic.

(** ** The Internet checksum *)
Fixpoint sum16 (data : list Z) (sum : Z) : Z :=
  match data with
  | a :: b :: data' => sum16 data' (u32 (sum + Z.lor (Z.shiftl a 8) b))
  | [a] => u32 (sum + Z.shiftl a 8)
  | [] => sum
  end.

(** [for sum>>16 > 0]; of a 32-bit sum two rounds are left at most. *)
Fixpoint fold_carry (fuel : nat) (sum : Z) : Z :=
  match fuel with
  | O => sum
  | S f => if 0 <? Z.shiftr sum 16 then fold_carry f (u32 (Z.land sum 0xFFFF + Z.shiftr sum 16)) else sum
  end.

Definition calculateChecksum (data : list Z) : Z :=
  Z.lxor (u16 (fold_carry 3 (sum16 data 0))) 0xFFFF.

Definition hi (x : Z) : Z := u8 (Z.shiftr x 8).
Definition lo (x : Z) : Z := u8 (Z.land x 0xFF).

(** ** Echo packets *)
Definition ipStart : nat := 14.
Definition icmpStart : nat := 34.

(** Zeroes the two bytes at [i], computes the checksum of [buf[a:b]] and
    stores it there. *)
Definition set_checksum (i : Z) (a b : nat) (buf : list Z) : outcome (list Z) :=
  buf ← puts [(i, 0); (i + 1, 0)] buf;
  data ← slice buf a b;
  let c := calculateChecksum data in
  puts [(i, hi c); (i + 1, lo c)] buf.

(** The program ends when an address is no IPv4 address. *)
Definition createPingPacket (buf srcMAC srcIP dstIP : list Z) (seq : Z) : outcome (list Z) :=
  let to4 s := match ParseIP s with Some ip => To4 ip | None => [] end in
  let srcIPAddr := to4 srcIP in
  let dstIPAddr := to4 dstIP in
  if bool_decide (srcIPAddr = []) || bool_decide (dstIPAddr = []) then Panic else
  buf ← puts [(0, 0xFF); (1, 0xFF); (2, 0xFF); (3, 0xFF); (4, 0xFF); (5, 0xFF)] buf;
  buf ← copy_in 6 12 srcMAC buf;
  let ipTotalLen := len buf - 14 in
  buf ← puts [(12, 0x08); (13, 0x00); (14, 0x45); (15, 0x00); (16, hi ipTotalLen); (17, lo ipTotalLen); (18, 0x12); (19, 0x34);
              (20, 0x00); (21, 0x00); (22, 64); (23, 0x01); (24, 0x00); (25, 0x00)] buf;
  buf ← copy_in 26 30 srcIPAddr buf;
  buf ← copy_in 30 34 dstIPAddr buf;
  buf ← puts [(34, 0x08); (35, 0x00); (36, 0x00); (37, 0x00); (38, 0x42); (39, 0x42); (40, hi seq); (41, lo seq)] buf;
  let buf := take 42 buf ++ imap (fun k _ => Z.of_nat (42 + k) mod 256) (drop 42 buf) in
  ip ← slice buf ipStart (ipStart + 20);
  let ipChecksum := calculateChecksum ip in
  buf ← puts [(24, hi ipChecksum); (25, lo ipChecksum)] buf;
  icmp ← slice buf icmpStart (length buf);
  let icmpChecksum := calculateChecksum icmp in
  puts [(36, hi icmpChecksum); (37, lo icmpChecksum)] buf.

Definition updateICMPSequence (buf : list Z) (seq : Z) : outcome (list Z) :=
  puts [(40, hi seq); (41, lo seq)] buf.

Definition updateICMPChecksum (buf : list Z) : outcome (list Z) := set_checksum 36 icmpStart (length buf) buf.

Definition isICMPEchoRequest (buf : list Z) : bool :=
  if bool_decide (length buf < 42)%nat then false else
  negb (negb (buf !!! 12%nat =? 0x08) || negb (buf !!! 13%nat =? 0x00)) &&
  (buf !!! 23%nat =? 0x01) && (buf !!! 34%nat =? 0x08).

Definition convertToEchoReply (buf : list Z) : outcome (list Z) :=
  srcMAC ← slice buf 6 12;
  dstMAC ← slice buf 0 6;
  srcIP ← slice buf 26 30;
  dstIP ← slice buf 30 34;
  buf ← copy_in 0 6 srcMAC buf;
  buf ← copy_in 6 12 dstMAC buf;
  buf ← copy_in 26 30 dstIP buf;
  buf ← copy_in 30 34 srcIP buf;
  buf ← puts [(34, 0x00); (35, 0x00)] buf;
  buf ← set_checksum 24 ipStart (ipStart + 20) buf;
  set_checksum 36 icmpStart (length buf) buf.

Definition convertToEchoReplyWithMAC (buf ourMAC : list Z) : outcome (list Z) :=
  srcMAC ← slice buf 6 12;
  buf ← copy_in 0 6 srcMAC buf;
  buf ← copy_in 6 12 ourMAC buf;
  srcIP ← slice buf 26 30;
  dstIP ← slice buf 30 34;
  buf ← copy_in 30 34 srcIP buf;
  buf ← copy_in 26 30 dstIP buf;
  buf ← put 34 0x00 buf;
  buf ← set_checksum 24 ipStart (ipStart + 20) buf;
  set_checksum 36 icmpStart (length buf) buf.

Definition be16 (buf : list Z) (i : nat) : Z := Z.lor (Z.shiftl (buf !!! i) 8) (buf !!! S i).

(** The checks of [isICMPEchoReply], in order. *)
Definition isICMPEchoReply (buf : list Z) (expectedSeq : Z) : bool :=
  if bool_decide (length buf < 42)%nat then false
  else if negb (buf !!! 12%nat =? 0x08) || negb (buf !!! 13%nat =? 0x00) then false
  else if negb (buf !!! 23%nat =? 0x01) then false
  else if negb (buf !!! 34%nat =? 0x00) then false
  else if negb (buf !!! 35%nat =? 0x00) then false
  else if negb (be16 buf 38 =? 0x4242) then false
  else be16 buf 40 =? expectedSeq.

(** What the responder sends for a packet it has read, if anything. *)
Definition responder_round (ourMAC packet : list Z) : outcome (option (list Z)) :=
  if bool_decide (14 <= length packet)%nat && (packet !!! 12%nat =? 0x86) && (packet !!! 13%nat =? 0xDD) then Ok None
  else if isICMPEchoRequest packet then reply ← convertToEchoReplyWithMAC packet ourMAC; Ok (Some reply)
  else Ok None.

(** ** [latency.go] *)
Inductive Component := ComponentAll | ComponentUDPOnly | ComponentTAPOnly | ComponentProtocolOnly.

Definition Component_String (c : Component) : list Z :=
  match c with
  | ComponentAll => str "Complete Path"
  | ComponentUDPOnly => str "UDP Socket"
  | ComponentTAPOnly => str "TAP Device"
  | ComponentProtocolOnly => str "Protocol Serialization"
  end.

Record LatencyResults := mkResults {
  MinLatency : Z; MaxLatency : Z; AvgLatency : Z; MedianLatency : Z; P95Latency : Z; P99Latency : Z;
  lr_PacketsSent : Z; lr_PacketsRecv : Z; TotalTime : Z; PacketSize : Z; lr_Component : Component }.

(** [if d[i] > d[j] { d[i], d[j] = d[j], d[i] }] *)
Definition exchange (i : nat) (d : list Z) (j : nat) : list Z :=
  if d !!! j <? d !!! i then <[i := d !!! j]> (<[j := d !!! i]> d) else d.

Definition sort_round (d : list Z) (i : nat) : list Z := foldl (exchange i) d (seq (S i) (length d - S i)).

Definition sortDurations (d : list Z) : list Z := foldl sort_round d (seq 0 (length d)).

(** One round of the loop for the sum, the least and the greatest. *)
Definition scan_step (st : Z * Z * Z) (l : Z) : Z * Z * Z :=
  let '(sum, min, max) := st in (i64 (sum + l), (if l <? min then l else min), (if max <? l then l else max)).

Definition calculateStats (latencies : list Z) (iterations totalTime : Z) : outcome LatencyResults :=
  match latencies with
  | [] => Ok (mkResults 0 0 0 0 0 0 iterations 0 totalTime 0 ComponentAll)
  | _ =>
      let latencies := sortDurations latencies in
      first ← index latencies 0;
      let '(sum, min, max) := foldl scan_step (0, first, first) latencies in
      let n := length latencies in
      let avg := Z.quot sum (Z.of_nat n) in
      median ← index latencies (n / 2);
      p95 ← index latencies (n * 95 / 100);
      p99 ← index latencies (n * 99 / 100);
      Ok (mkResults min max avg median p95 p99 iterations (Z.of_nat n) totalTime 0 ComponentAll)
  end.

(** ** The checksum verifies *)
Fixpoint wsum (l : list Z) : Z :=
  match l with
  | a :: b :: l' => a * 256 + b + wsum l'
  | [a] => a * 256
  | [] => 0
  end.

Lemma pair_ind (P : list Z -> Prop) : P [] -> (forall a, P [a]) -> (forall a b l, P l -> P (a :: b :: l)) -> forall l, P l.
Proof.
  intros H0 H1 H2 l. enough (P l /\ forall a, P (a :: l)) by tauto.
  induction l as [|b l [IH1 IH2]]; [auto|]. split; [auto|]. intros a. by apply H2.
Qed.

Lemma shiftl8 a : Z.shiftl a 8 = a * 256.
Proof. by rewrite Z.shiftl_mul_pow2. Qed.

Lemma word_sum a b : is_byte b -> Z.lor (Z.shiftl a 8) b = a * 256 + b.
Proof. intros Hb. rewrite shiftl8. by apply (lor_disjoint a b 8). Qed.

Lemma wsum_bound l : bytes_ok l -> 0 <= wsum l /\ wsum l <= 65535 * ((len l + 1) / 2).
Proof.
  induction l as [|a|a b l IH] using pair_ind; intros H; [split; [done|change ((len [] + 1) / 2) with 0; done]| |].
  - inversion_clear H as [|? ? Ha]. unfold is_byte in Ha. change (wsum [a]) with (a * 256). change ((len [a] + 1) / 2) with 1. lia.
  - inversion_clear H as [|? ? Ha H']. inversion_clear H' as [|? ? Hb Hl]. specialize (IH Hl). unfold is_byte in *.
    change (wsum (a :: b :: l)) with (a * 256 + b + wsum l).
    replace ((len (a :: b :: l) + 1) / 2) with ((len l + 1) / 2 + 1); [lia|].
    rewrite <-Z.div_add by lia. f_equal. unfold len. cbn [length]. lia.
Qed.

Lemma sum16_wsum l : forall acc, bytes_ok l -> 0 <= acc -> acc + wsum l < 2 ^ 32 -> sum16 l acc = acc + wsum l.
Proof.
  induction l as [|a|a b l IH] using pair_ind; intros acc H Hacc Hb; [cbn; lia| |].
  - inversion_clear H as [|? ? Ha]. unfold is_byte in Ha. cbn [sum16]. cbn in Hb. rewrite shiftl8.
    unfold u32. rewrite Z.mod_small by lia. done.
  - inversion_clear H as [|? ? Ha H']. inversion_clear H' as [|? ? Hbb Hl]. pose proof (wsum_bound l Hl) as [Hw _].
    change (wsum (a :: b :: l)) with (a * 256 + b + wsum l) in *. cbn [sum16]. rewrite word_sum by done.
    unfold is_byte in *. unfold u32. rewrite Z.mod_small by lia. rewrite IH by (done || lia). lia.
Qed.

Lemma wsum_app p l : Nat.even (length p) = true -> wsum (p ++ l) = wsum p + wsum l.
Proof.
  induction p as [|a|a b p IH] using pair_ind; intros H; [done|done|]. cbn [app].
  change (wsum (a :: b :: p ++ l)) with (a * 256 + b + wsum (p ++ l)).
  change (wsum (a :: b :: p)) with (a * 256 + b + wsum p). rewrite IH by done. lia.
Qed.

Lemma carry_step s : 0 <= s < 2 ^ 32 -> u32 (Z.land s 0xFFFF + Z.shiftr s 16) = s mod 65536 + s / 65536.
Proof.
  intros Hs. change 0xFFFF with (Z.ones 16). rewrite Z.land_ones, Z.shiftr_div_pow2 by lia.
  change (2 ^ 16) with 65536. unfold u32. apply Z.mod_small.
  pose proof (Z.mod_pos_bound s 65536). pose proof (Z.div_le_upper_bound s 65536 65536).
  pose proof (Z.div_pos s 65536). lia.
Qed.

(** The folded sum is the sum modulo [2^16 - 1], zero only for zero. *)
Lemma fold_carry_spec s : 0 <= s < 2 ^ 32 ->
  let r := fold_carry 3 s in 0 <= r < 65536 /\ (exists k, 0 <= k /\ s = r + 65535 * k) /\ (0 < s -> 0 < r).
Proof.
  assert (forall t, 0 <= t < 65536 -> 0 <? Z.shiftr t 16 = false) as Hstop.
  { intros t Ht. rewrite Z.shiftr_div_pow2 by lia. by rewrite Z.div_small. }
  assert (forall t, 65536 <= t < 2 ^ 32 -> 0 <? Z.shiftr t 16 = true) as Hgo.
  { intros t Ht. rewrite Z.shiftr_div_pow2 by lia. apply Z.ltb_lt. apply Z.div_str_pos. lia. }
  intros Hs. destruct (Z.lt_ge_cases s 65536) as [H|H].
  { cbn [fold_carry]. rewrite Hstop by lia. split; [lia|]. split; [exists 0; lia|lia]. }
  pose proof (Z.div_mod s 65536 ltac:(lia)) as D. pose proof (Z.mod_pos_bound s 65536 ltac:(lia)) as M.
  pose proof (Z.div_lt_upper_bound s 65536 65536 ltac:(lia) ltac:(lia)) as Q.
  pose proof (Z.div_str_pos s 65536 ltac:(lia)) as Q0.
  cbn [fold_carry]. rewrite Hgo, carry_step by lia. set (t := s mod 65536 + s / 65536) in *.
  destruct (Z.lt_ge_cases t 65536) as [Ht|Ht].
  { rewrite Hstop by lia. split; [lia|]. split; [exists (s / 65536); lia|lia]. }
  rewrite Hgo, carry_step by lia.
  assert (t / 65536 = 1) as E1 by (symmetry; apply (Z.div_unique _ _ _ (t - 65536)); lia).
  assert (t mod 65536 = t - 65536) as E2 by (symmetry; apply (Z.mod_unique _ _ 1); lia).
  rewrite E1, E2, Hstop by lia. split; [lia|]. split; [exists (s / 65536 + 1); lia|lia].
Qed.

Lemma complement16 r : 0 <= r < 65536 -> Z.lxor r 0xFFFF = 65535 - r.
Proof.
  intros Hr. change 0xFFFF with (Z.ones 16).
  assert (Z.land r (Z.lxor r (Z.ones 16)) = 0) as H0.
  { apply Z.bits_inj'. intros i Hi. rewrite Z.land_spec, Z.lxor_spec, Z.bits_0. destruct (Z.lt_ge_cases i 16).
    - rewrite Z.ones_spec_low by lia. by destruct (Z.testbit r i).
    - destruct (Z.eq_dec r 0) as [->|]; [by rewrite Z.bits_0|].
      rewrite (Z.bits_above_log2 r i); [done|lia|]. apply Z.log2_lt_pow2; [lia|]. pose proof (Z.pow_le_mono_r 2 16 i). lia. }
  apply Z.add_nocarry_lxor in H0. rewrite <-Z.lxor_assoc, Z.lxor_nilpotent, Z.lxor_0_l in H0.
  change (Z.ones 16) with 65535 in *. lia.
Qed.

Lemma checksum_value l : bytes_ok l -> len l <= 131072 ->
  exists r, calculateChecksum l = 65535 - r /\ 0 <= r < 65536 /\ (exists k, 0 <= k /\ wsum l = r + 65535 * k) /\ (0 < wsum l -> 0 < r).
Proof.
  intros Hl Hn. destruct (wsum_bound l Hl) as [W0 W1].
  assert (wsum l < 2 ^ 32) as W2.
  { pose proof (Z.div_lt_upper_bound (len l + 1) 2 65537 ltac:(lia) ltac:(lia)). lia. }
  destruct (fold_carry_spec (wsum l)) as (Hr & Hk & Hp); [lia|]. exists (fold_carry 3 (wsum l)).
  split; [|done]. unfold calculateChecksum. rewrite sum16_wsum by (done || lia). rewrite Z.add_0_l.
  unfold u16. rewrite Z.mod_small by (change (2 ^ 16) with 65536; lia). by apply complement16.
Qed.

Lemma hi_lo c : 0 <= c < 65536 -> is_byte (hi c) /\ is_byte (lo c) /\ hi c * 256 + lo c = c.
Proof.
  intros Hc. unfold hi, lo. split; [apply u8_byte|]. split; [apply u8_byte|].
  change 0xFF with (Z.ones 8). rewrite Z.land_ones, Z.shiftr_div_pow2 by lia. change (2 ^ 8) with 256.
  unfold u8. rewrite Z.mod_mod by lia. rewrite (Z.mod_small (c / 256)).
  - pose proof (Z.div_mod c 256). lia.
  - split; [apply Z.div_pos; lia|apply Z.div_lt_upper_bound; lia].
Qed.

(** Data in which the checksum field, at an even offset, was zero when the
    checksum was computed and then got it, has checksum zero. *)
Lemma checksum_verifies pre post : Nat.even (length pre) = true -> bytes_ok (pre ++ post) ->
  len (pre ++ 0 :: 0 :: post) <= 131072 ->
  let c := calculateChecksum (pre ++ 0 :: 0 :: post) in
  0 <= c < 65536 /\ calculateChecksum (pre ++ hi c :: lo c :: post) = 0.
Proof.
  intros He Hb Hl c. apply bytes_ok_app in Hb as [Hp Hq].
  assert (is_byte 0) as B0 by done.
  assert (forall a b, is_byte a -> is_byte b -> bytes_ok (pre ++ a :: b :: post)) as Hok.
  { intros a b Ha Hb. apply bytes_ok_app. split; [done|]. solve_bytes. }
  assert (forall a b, wsum (pre ++ a :: b :: post) = wsum pre + (a * 256 + b) + wsum post) as Hw.
  { intros a b. rewrite wsum_app by done. change (wsum (a :: b :: post)) with (a * 256 + b + wsum post). lia. }
  destruct (checksum_value _ (Hok 0 0 B0 B0) Hl) as (r & Ec & Hr & (k & K0 & Hk) & Hpos). fold c in Ec.
  assert (0 <= c < 65536) as Hc by lia. split; [done|]. destruct (hi_lo c Hc) as (H1 & H2 & H3).
  destruct (checksum_value (pre ++ hi c :: lo c :: post)) as (r' & -> & Hr' & (k' & K0' & Hk') & Hpos').
  { by apply Hok. }
  { unfold len in *. rewrite length_app in *. cbn [length] in *. lia. }
  rewrite Hw in Hk, Hk', Hpos, Hpos'. rewrite H3 in *.
  pose proof (wsum_bound pre Hp) as [P0 _]. pose proof (wsum_bound post Hq) as [Q0 _].
  assert (r' = 65535); [|lia].
  assert (0 < r') by (apply Hpos'; destruct (Z.eq_dec (wsum pre + wsum post) 0); lia).
  assert (r' = 65535 * (k + 1 - k')) by lia. assert (k + 1 - k' = 1) by lia. lia.
Qed.

(** ** Echo packets *)
Lemma put_app pre x post v i : i = length pre -> put i v (pre ++ x :: post) = Ok (pre ++ v :: post).
Proof.
  intros ->. unfold put. rewrite bool_decide_eq_true_2 by (rewrite length_app; cbn; lia).
  rewrite <-(Nat.add_0_r (length pre)) at 1. by rewrite insert_app_r.
Qed.

Lemma puts_two pre x y post u v i : i = Z.of_nat (length pre) ->
  puts [(i, u); (i + 1, v)] (pre ++ x :: y :: post) = Ok (pre ++ u :: v :: post).
Proof.
  intros ->. cbn [puts]. rewrite put_app by lia. cbn [mbind outcome_bind].
  change (pre ++ u :: y :: post) with (pre ++ [u] ++ y :: post). rewrite app_assoc.
  rewrite put_app by (rewrite length_app; cbn; lia). cbn [mbind outcome_bind]. by rewrite <-app_assoc.
Qed.

(** Storing a checksum of the window [pre ++ _ :: _ :: post]. *)
Lemma set_checksum_window pre0 pre x y post suf i a b :
  i = Z.of_nat (length pre0 + length pre) -> a = length pre0 -> b = (length pre0 + length pre + 2 + length post)%nat ->
  let c := calculateChecksum (pre ++ 0 :: 0 :: post) in
  set_checksum i a b (pre0 ++ pre ++ x :: y :: post ++ suf) = Ok (pre0 ++ pre ++ hi c :: lo c :: post ++ suf).
Proof.
  intros Hi -> -> c. unfold set_checksum.
  assert (forall x y u v, puts [(i, u); (i + 1, v)] (pre0 ++ pre ++ x :: y :: post ++ suf)
    = Ok (pre0 ++ pre ++ u :: v :: post ++ suf)) as Hp.
  { intros. rewrite !app_assoc. apply puts_two. by rewrite length_app. }
  rewrite Hp. cbn [mbind outcome_bind]. unfold slice.
  rewrite bool_decide_eq_true_2 by lia. rewrite bool_decide_eq_true_2 by (rewrite !length_app; cbn; rewrite length_app; lia).
  cbn [andb]. unfold mbind, outcome_bind. rewrite drop_app_length.
  change (pre ++ 0 :: 0 :: post ++ suf) with (pre ++ (0 :: 0 :: post) ++ suf). rewrite (app_assoc pre).
  rewrite take_app_length' by (rewrite length_app; cbn; lia). fold c. rewrite <-(app_assoc pre). apply Hp.
Qed.

(** A packet split into its fields. *)
Definition fields (dst src ety ip1 ipck sip dip ty ck ident payload : list Z) : list Z :=
  dst ++ src ++ ety ++ ip1 ++ ipck ++ sip ++ dip ++ ty ++ ck ++ ident ++ payload.

Lemma packet_fields p : (42 <= length p)%nat -> exists dst src ety ip1 ipck sip dip ty ck ident payload,
  p = fields dst src ety ip1 ipck sip dip ty ck ident payload /\
  length dst = 6%nat /\ length src = 6%nat /\ length ety = 2%nat /\ length ip1 = 10%nat /\ length ipck = 2%nat /\
  length sip = 4%nat /\ length dip = 4%nat /\ length ty = 2%nat /\ length ck = 2%nat /\ length ident = 4%nat.
Proof.
  intros Hl. exists (take 6 p), (take 6 (drop 6 p)), (take 2 (drop 12 p)), (take 10 (drop 14 p)), (take 2 (drop 24 p)),
    (take 4 (drop 26 p)), (take 4 (drop 30 p)), (take 2 (drop 34 p)), (take 2 (drop 36 p)), (take 4 (drop 38 p)), (drop 42 p).
  rewrite !length_take, !length_drop. split; [|repeat split; lia]. unfold fields.
  assert (forall n m k, k = (m + n)%nat -> take n (drop m p) ++ drop k p = drop m p) as E.
  { intros n m k ->. rewrite <-(take_drop n (drop m p)) at 2. by rewrite drop_drop. }
  rewrite (E 4 38 42)%nat, (E 2 36 38)%nat, (E 2 34 36)%nat, (E 4 30 34)%nat, (E 4 26 30)%nat, (E 2 24 26)%nat,
    (E 10 14 24)%nat, (E 2 12 14)%nat, (E 6 6 12)%nat by done.
  by rewrite take_drop.
Qed.

(** The checksums of the IPv4 header and of the message verify. *)
Definition checksums_ok (p : list Z) : Prop :=
  calculateChecksum (take 20 (drop 14 p)) = 0 /\ calculateChecksum (drop 34 p) = 0.

Lemma slice_window {A} (pre w post l : list A) i j : l = pre ++ w ++ post -> i = length pre -> j = (length pre + length w)%nat ->
  slice l i j = Ok w.
Proof.
  intros -> -> ->. unfold slice. rewrite bool_decide_eq_true_2 by lia.
  rewrite bool_decide_eq_true_2 by (rewrite !length_app; lia). cbn [andb].
  by rewrite drop_app_length, take_app_length' by lia.
Qed.

Lemma copy_in_window pre w post src l i j : l = pre ++ w ++ post -> i = length pre -> j = (length pre + length w)%nat ->
  length src = length w -> copy_in i j src l = Ok (pre ++ src ++ post).
Proof.
  intros -> Hi Hj Hs. unfold copy_in. rewrite bool_decide_eq_true_2 by (rewrite !length_app; lia).
  by rewrite copy_at_window.
Qed.

Ltac reassoc := unfold fields; rewrite <-?app_assoc; reflexivity.
Ltac lengths := repeat (rewrite ?length_app; cbn [length app]); lia.

Lemma echo_reply_fields dst src ety ip1 ipck sip dip t0 t1 ck ident payload our :
  length dst = 6%nat -> length src = 6%nat -> length ety = 2%nat -> length ip1 = 10%nat -> length ipck = 2%nat ->
  length sip = 4%nat -> length dip = 4%nat -> length ck = 2%nat -> length ident = 4%nat -> length our = 6%nat ->
  let c1 := calculateChecksum (ip1 ++ 0 :: 0 :: dip ++ sip) in
  let c2 := calculateChecksum ([0; t1] ++ 0 :: 0 :: ident ++ payload) in
  convertToEchoReplyWithMAC (fields dst src ety ip1 ipck sip dip [t0; t1] ck ident payload) our =
    Ok (fields src our ety ip1 [hi c1; lo c1] dip sip [0; t1] [hi c2; lo c2] ident payload).
Proof.
  intros Hd Hs He Hi Hic Hsi Hdi Hc Hid Ho c1 c2. unfold convertToEchoReplyWithMAC.
  rewrite (slice_window dst src (ety ++ ip1 ++ ipck ++ sip ++ dip ++ [t0; t1] ++ ck ++ ident ++ payload)) by (reassoc || lia).
  cbn [mbind outcome_bind].
  rewrite (copy_in_window [] dst (src ++ ety ++ ip1 ++ ipck ++ sip ++ dip ++ [t0; t1] ++ ck ++ ident ++ payload)) by (reassoc || (cbn; lia)).
  cbn [mbind outcome_bind app].
  rewrite (copy_in_window src src (ety ++ ip1 ++ ipck ++ sip ++ dip ++ [t0; t1] ++ ck ++ ident ++ payload)) by (reassoc || lia).
  cbn [mbind outcome_bind].
  rewrite (slice_window (src ++ our ++ ety ++ ip1 ++ ipck) sip (dip ++ [t0; t1] ++ ck ++ ident ++ payload) _ 26 30)
    by (reassoc || lengths).
  cbn [mbind outcome_bind].
  rewrite (slice_window (src ++ our ++ ety ++ ip1 ++ ipck ++ sip) dip ([t0; t1] ++ ck ++ ident ++ payload) _ 30 34) by (reassoc || lengths).
  cbn [mbind outcome_bind].
  rewrite (copy_in_window (src ++ our ++ ety ++ ip1 ++ ipck ++ sip) dip ([t0; t1] ++ ck ++ ident ++ payload)) by (reassoc || lengths).
  cbn [mbind outcome_bind].
  rewrite (copy_in_window (src ++ our ++ ety ++ ip1 ++ ipck) sip (sip ++ [t0; t1] ++ ck ++ ident ++ payload)) by (reassoc || lengths).
  cbn [mbind outcome_bind].
  replace ((src ++ our ++ ety ++ ip1 ++ ipck) ++ dip ++ sip ++ [t0; t1] ++ ck ++ ident ++ payload)
    with ((src ++ our ++ ety ++ ip1 ++ ipck ++ dip ++ sip) ++ t0 :: ([t1] ++ ck ++ ident ++ payload)) by reassoc.
  rewrite put_app by lengths. cbn [mbind outcome_bind].
  destruct ipck as [|x [|y [|]]]; try done. destruct ck as [|x' [|y' [|]]]; try done.
  replace ((src ++ our ++ ety ++ ip1 ++ [x; y] ++ dip ++ sip) ++ 0 :: [t1] ++ [x'; y'] ++ ident ++ payload)
    with ((src ++ our ++ ety) ++ ip1 ++ x :: y :: (dip ++ sip) ++ ([0; t1] ++ [x'; y'] ++ ident ++ payload)) by reassoc.
  rewrite set_checksum_window by (unfold ipStart; lengths). fold c1. cbn [mbind outcome_bind].
  match goal with |- set_checksum _ _ ?n ?l = _ =>
    replace l with ((src ++ our ++ ety ++ ip1 ++ [hi c1; lo c1] ++ dip ++ sip) ++ [0; t1] ++ x' :: y' :: (ident ++ payload) ++ [])
      by (rewrite app_nil_r; reassoc) end.
  rewrite set_checksum_window by (unfold icmpStart; lengths). fold c2. f_equal. rewrite app_nil_r. reassoc.
Qed.

(** Splits a list of known length into its elements. *)
Ltac explode l := repeat (destruct l as [|? l]; try (cbn [length] in *; discriminate)).

(** What the responder sends back. *)
Lemma echo_reply p our : bytes_ok p -> bytes_ok our -> length our = 6%nat -> len p <= 131072 -> isICMPEchoRequest p = true ->
  exists r, responder_round our p = Ok (Some r) /\ bytes_ok r /\ length r = length p /\
    take 6 r = take 6 (drop 6 p) /\ take 6 (drop 6 r) = our /\
    take 4 (drop 26 r) = take 4 (drop 30 p) /\ take 4 (drop 30 r) = take 4 (drop 26 p) /\
    drop 38 r = drop 38 p /\ checksums_ok r /\
    (p !!! 35%nat = 0 -> be16 p 38 = 0x4242 -> isICMPEchoReply r (be16 p 40) = true).
Proof.
  intros Hp Ho Hl Hn Hr. assert (42 <= length p)%nat as H42.
  { unfold isICMPEchoRequest in Hr. case_bool_decide; [done|lia]. }
  destruct (packet_fields p H42) as (dst & src & ety & ip1 & ipck & sip & dip & ty & ck & ident & payload & -> &
    Hd & Hs & He & Hi & Hic & Hsi & Hdi & Ht & Hc & Hid).
  destruct ty as [|t0 [|t1 [|]]]; try done.
  pose proof (echo_reply_fields dst src ety ip1 ipck sip dip t0 t1 ck ident payload our Hd Hs He Hi Hic Hsi Hdi Hc Hid Hl) as E.
  unfold fields in Hp. rewrite !bytes_ok_app in Hp. destruct Hp as (B1 & B2 & B3 & B4 & B5 & B6 & B7 & B8 & B9 & B10 & B11).
  destruct (checksum_verifies ip1 (dip ++ sip)) as [C1 V1].
  { by rewrite Hi. } { rewrite !bytes_ok_app. done. } { unfold len. lengths. }
  destruct (checksum_verifies [0; t1] (ident ++ payload)) as [C2 V2]; [done| | |].
  { rewrite !bytes_ok_app. split; [|done]. inversion_clear B8 as [|? ? _ B]. by constructor. }
  { unfold len in *. unfold fields in Hn. revert Hn. lengths. }
  cbv zeta in E. set (c1 := calculateChecksum (ip1 ++ 0 :: 0 :: dip ++ sip)) in *.
  set (c2 := calculateChecksum ([0; t1] ++ 0 :: 0 :: ident ++ payload)) in *.
  destruct (hi_lo c1 C1) as (X1 & X2 & _). destruct (hi_lo c2 C2) as (X3 & X4 & _).
  set (h1 := hi c1) in *. set (l1 := lo c1) in *. set (h2 := hi c2) in *. set (l2 := lo c2) in *.
  clearbody h1 l1 h2 l2. clear C1 C2 c1 c2.
  exists (fields src our ety ip1 [h1; l1] dip sip [0; t1] [h2; l2] ident payload). split.
  { unfold responder_round. rewrite Hr, E. clear - Hr Hd Hs He. unfold isICMPEchoRequest in Hr. case_bool_decide; [done|].
    explode dst. explode src. explode ety. cbn in Hr |- *. destruct (Z.eqb_spec z11 8) as [->|]; [|done]. cbn.
    by rewrite andb_false_r. }
  assert (is_byte 0) as B0 by done. inversion_clear B8 as [|? ? _ B8']. inversion_clear B8' as [|? ? Bt _].
  split; [unfold fields; rewrite !bytes_ok_app; repeat match goal with |- _ /\ _ => split end; try assumption; solve_bytes|].
  unfold checksums_ok, isICMPEchoReply, be16, fields. clear E Hn H42.
  unfold isICMPEchoRequest, fields in Hr. case_bool_decide as H42; [done|]. revert Hr.
  explode dst. explode src. explode ety. explode ip1. explode ipck. explode sip. explode dip. explode ck. explode ident. explode our.
  cbn [app length take drop lookup_total list_lookup_total] in *. rewrite bool_decide_eq_false_2 by exact H42. intros Hr.
  repeat match goal with |- _ /\ _ => split end; try reflexivity; [exact V1|exact V2|].
  intros -> Hident. rewrite Hident, !Z.eqb_refl.
  destruct (_ =? 8); [|done]. destruct (_ =? 0); [|done]. destruct (_ =? 1); done.
Qed.

Lemma puts_ok ws : forall buf, forallb (fun w => Z.to_nat w.1 <? 42)%nat ws = true -> (42 <= length buf)%nat ->
  puts ws buf = Ok (foldl (fun b w => <[Z.to_nat w.1 := w.2]> b) buf ws).
Proof.
  induction ws as [|[i v] ws IH]; intros buf Hw Hb; [done|]. cbn [forallb fst] in Hw. apply andb_true_iff in Hw as [Hi Hw].
  apply Nat.ltb_lt in Hi. cbn [puts foldl fst snd]. unfold put. rewrite bool_decide_eq_true_2 by lia. cbn [mbind outcome_bind].
  apply IH; [done|]. by rewrite length_insert.
Qed.

(** The text of an IPv4 address. *)
Definition v4 (s ip : list Z) : Prop := exists a, ParseIP s = Some a /\ To4 a = ip /\ length ip = 4%nat /\ bytes_ok ip.

Definition ping_header (n : Z) : list Z := [0x45; 0; hi (n - 14); lo (n - 14); 0x12; 0x34; 0; 0; 64; 1].
Definition ping_payload (n : nat) : list Z := (fun k => Z.of_nat (42 + k) mod 256) <$> seq 0 (n - 42).

Lemma imap_seq {A} (f : nat -> Z) (l : list A) : imap (fun k _ => f k) l = f <$> seq 0 (length l).
Proof.
  apply list_eq. intros i. rewrite list_lookup_imap, list_lookup_fmap. destruct (l !! i) as [x|] eqn:E; cbn.
  - apply lookup_lt_Some in E. by rewrite lookup_seq_lt.
  - apply lookup_ge_None in E. by rewrite lookup_seq_ge.
Qed.

Lemma copy_in_ok i j src buf : (j <= 42)%nat -> (42 <= length buf)%nat -> copy_in i j src buf = Ok (copy_at buf i j src).
Proof. intros Hj Hb. unfold copy_in. by rewrite bool_decide_eq_true_2 by lia. Qed.

Lemma slice_in {A} (l : list A) i j : (i <= j)%nat -> (j <= length l)%nat -> slice l i j = Ok (take (j - i) (drop i l)).
Proof. intros Hi Hj. unfold slice. by rewrite !bool_decide_eq_true_2 by lia. Qed.

(** One step of a builder on an explicit packet. *)
Ltac settle :=
  match goal with |- context [mbind _ (Ok ?X)] =>
    let Y := eval cbv -[hi lo calculateChecksum len imap Z.of_nat Z.sub Z.modulo] in X in change X with Y end;
  cbn [mbind outcome_bind].
Ltac build_step :=
  first [rewrite puts_ok by (reflexivity || (cbn [length app]; lia)) | rewrite copy_in_ok by (cbn [length app]; lia)]; settle.

Lemma createPingPacket_fields buf mac srcIP dstIP sip dip sq : (42 <= length buf)%nat -> length mac = 6%nat ->
  v4 srcIP sip -> v4 dstIP dip ->
  exists c1 c2, createPingPacket buf mac srcIP dstIP sq =
    Ok (fields (replicate 6 255) mac [8; 0] (ping_header (len buf)) c1 sip dip [8; 0] c2 [0x42; 0x42; hi sq; lo sq]
          (ping_payload (length buf))) /\
    (let c := calculateChecksum (ping_header (len buf) ++ 0 :: 0 :: sip ++ dip) in c1 = [hi c; lo c]) /\ length c2 = 2%nat.
Proof.
  intros Hb Hm (a & Ea & Ha & Hal & _) (b & Eb & Hbb & Hbl & _). unfold createPingPacket. rewrite Ea, Eb, Ha, Hbb.
  rewrite (bool_decide_eq_false_2 (sip = [])) by (intros ->; done).
  rewrite (bool_decide_eq_false_2 (dip = [])) by (intros ->; done). cbn [orb].
  remember (ping_payload (length buf)) as Q eqn:HQ.
  assert (exists tl, length tl = (length buf - 42)%nat /\ exists z, length z = 42%nat /\ buf = z ++ tl) as (tl & Htl & z & Hz & ->).
  { exists (drop 42 buf). split; [by rewrite length_drop|]. exists (take 42 buf). split; [rewrite length_take; lia|]. by rewrite take_drop. }
  explode mac. explode sip. explode dip. explode z.
  build_step. build_step. build_step. build_step. build_step. build_step.
  cbn [take drop app]. rewrite imap_seq. set (P := (fun k => _) <$> _).
  assert (P = Q) as -> by (rewrite HQ; unfold ping_payload, P; by rewrite <-Htl). clear HQ.
  rewrite slice_in by (unfold ipStart; cbn [length app]; lia). settle. build_step.
  rewrite slice_in by (unfold icmpStart; cbn [length app]; lia). settle.
  rewrite puts_ok by (reflexivity || (cbn [length app]; lia)). eexists [_; _], [_; _]. split; [reflexivity|].
  split; reflexivity.
Qed.

(** The packet of one round of the benchmark, made from that of the last. *)
Definition next_ping (sq : Z) (buf : list Z) : outcome (list Z) :=
  buf ← updateICMPSequence buf sq; updateICMPChecksum buf.

Fixpoint pings (sqs : list Z) (buf : list Z) : outcome (list Z) :=
  match sqs with [] => Ok buf | sq :: sqs' => buf ← next_ping sq buf; pings sqs' buf end.

Lemma next_ping_fields dst src ety ip1 ipck sip dip t0 t1 ck i0 i1 x y payload sq :
  length dst = 6%nat -> length src = 6%nat -> length ety = 2%nat -> length ip1 = 10%nat -> length ipck = 2%nat ->
  length sip = 4%nat -> length dip = 4%nat -> length ck = 2%nat ->
  let c := calculateChecksum ([t0; t1] ++ 0 :: 0 :: [i0; i1; hi sq; lo sq] ++ payload) in
  next_ping sq (fields dst src ety ip1 ipck sip dip [t0; t1] ck [i0; i1; x; y] payload) =
    Ok (fields dst src ety ip1 ipck sip dip [t0; t1] [hi c; lo c] [i0; i1; hi sq; lo sq] payload).
Proof.
  intros Hd Hs He Hi Hic Hsi Hdi Hc c. unfold next_ping, updateICMPSequence, updateICMPChecksum.
  replace (fields dst src ety ip1 ipck sip dip [t0; t1] ck [i0; i1; x; y] payload)
    with ((dst ++ src ++ ety ++ ip1 ++ ipck ++ sip ++ dip ++ [t0; t1] ++ ck ++ [i0; i1]) ++ x :: y :: payload) by reassoc.
  rewrite (puts_two _ _ _ _ _ _ 40) by lengths. cbn [mbind outcome_bind].
  destruct ck as [|k0 [|k1 [|]]]; try done.
  match goal with |- set_checksum _ _ ?n ?l = _ =>
    replace l with ((dst ++ src ++ ety ++ ip1 ++ ipck ++ sip ++ dip) ++ [t0; t1] ++ k0 :: k1 ::
      ([i0; i1; hi sq; lo sq] ++ payload) ++ []) by (rewrite app_nil_r; reassoc) end.
  rewrite set_checksum_window by (unfold icmpStart; lengths). fold c. f_equal. rewrite app_nil_r. reassoc.
Qed.

Section Pinging.
Context (n : nat) (Hn : (42 <= n <= 2048)%nat).

(** The packet with sequence number [sq] and checksum bytes [ck]. *)
Definition ping (mac sip dip ck : list Z) (sq : Z) : list Z :=
  let c := calculateChecksum (ping_header (Z.of_nat n) ++ 0 :: 0 :: sip ++ dip) in
  fields (replicate 6 255) mac [8; 0] (ping_header (Z.of_nat n)) [hi c; lo c] sip dip [8; 0] ck [0x42; 0x42; hi sq; lo sq]
    (ping_payload n).

Definition ping_check (sq : Z) : Z := calculateChecksum ([8; 0] ++ 0 :: 0 :: [0x42; 0x42; hi sq; lo sq] ++ ping_payload n).

Lemma next_ping_ping mac sip dip ck sq sq' : length mac = 6%nat -> length sip = 4%nat -> length dip = 4%nat ->
  length ck = 2%nat -> next_ping sq' (ping mac sip dip ck sq) = Ok (ping mac sip dip [hi (ping_check sq'); lo (ping_check sq')] sq').
Proof. intros Hm Hs Hd Hc. unfold ping. by rewrite next_ping_fields. Qed.

Lemma pings_ping mac sip dip sqs : length mac = 6%nat -> length sip = 4%nat -> length dip = 4%nat ->
  forall ck sq, length ck = 2%nat -> exists ck' sq', length ck' = 2%nat /\
    pings sqs (ping mac sip dip ck sq) = Ok (ping mac sip dip ck' sq').
Proof.
  intros Hm Hs Hd. induction sqs as [|s sqs IH]; intros ck sq Hc; [by exists ck, sq|]. cbn [pings]. rewrite next_ping_ping by done.
  cbn [mbind outcome_bind]. by apply IH.
Qed.

Lemma ping_payload_ok : bytes_ok (ping_payload n) /\ length (ping_payload n) = (n - 42)%nat.
Proof.
  unfold ping_payload. split; [|by rewrite length_fmap, length_seq]. apply Forall_fmap, Forall_true. intros k.
  unfold is_byte. apply Z.mod_pos_bound. lia.
Qed.

Lemma ping_ok mac sip dip sq : length mac = 6%nat -> bytes_ok mac -> length sip = 4%nat -> bytes_ok sip ->
  length dip = 4%nat -> bytes_ok dip -> 0 <= sq < 65536 ->
  let p := ping mac sip dip [hi (ping_check sq); lo (ping_check sq)] sq in
  bytes_ok p /\ length p = n /\ checksums_ok p /\ isICMPEchoRequest p = true /\ p !!! 35%nat = 0 /\ be16 p 38 = 0x4242 /\
  be16 p 40 = sq /\ take 6 (drop 6 p) = mac /\ take 4 (drop 26 p) = sip /\ take 4 (drop 30 p) = dip.
Proof.
  intros Hm Bm Hs Bs Hd Bd Hq. destruct ping_payload_ok as [Bp Lp]. destruct (hi_lo sq Hq) as (Q1 & Q2 & Q3).
  assert (bytes_ok (ping_header (Z.of_nat n))) as Bh.
  { unfold ping_header. repeat (apply Forall_cons_2; [first [apply u8_byte|done]|]). constructor. }
  destruct (checksum_verifies (ping_header (Z.of_nat n)) (sip ++ dip)) as [C1 V1]; [done| | |].
  { by rewrite !bytes_ok_app. } { unfold len, ping_header. lengths. }
  assert (bytes_ok [66; 66; hi sq; lo sq]) as Bi by (repeat (apply Forall_cons_2; [done|]); constructor).
  destruct (checksum_verifies [8; 0] ([66; 66; hi sq; lo sq] ++ ping_payload n)) as [C2 V2]; [done| | |].
  { rewrite !bytes_ok_app. split; [|done]. repeat (apply Forall_cons_2; [done|]). constructor. }
  { unfold len. cbn [app length]. rewrite Lp. lia. }
  unfold ping, ping_check. fold (ping_header (Z.of_nat n)) in V1. cbv zeta in *.
  set (c1 := calculateChecksum (ping_header (Z.of_nat n) ++ 0 :: 0 :: sip ++ dip)) in *.
  set (c2 := calculateChecksum ([8; 0] ++ 0 :: 0 :: [66; 66; hi sq; lo sq] ++ ping_payload n)) in *.
  destruct (hi_lo c1 C1) as (X1 & X2 & _). destruct (hi_lo c2 C2) as (X3 & X4 & _). clearbody c1 c2.
  assert (is_byte 255 /\ is_byte 8 /\ is_byte 0) as (B255 & B8 & B0) by done.
  split.
  { unfold fields. rewrite !bytes_ok_app. repeat match goal with |- _ /\ _ => split end; try assumption;
      try (cbn [replicate]; solve_bytes). }
  unfold checksums_ok, isICMPEchoRequest, be16, fields, ping_header in *. explode mac. explode sip. explode dip.
  cbn [app length take drop lookup_total list_lookup_total replicate] in *. rewrite Lp.
  rewrite bool_decide_eq_false_2 by lia. split; [lia|].
  rewrite !word_sum, Q3 by done. repeat match goal with |- _ /\ _ => split end; try reflexivity; [exact V1|exact V2].
Qed.
End Pinging.

(** Every ping of the benchmark is answered and recognised: whatever sequence
    numbers were sent before from the same buffer, the packet for [sq] has
    valid checksums, the responder answers it with a packet of valid checksums
    addressed to the sender, and the benchmark takes that for the reply with
    sequence number [sq]. *)
Theorem benchmark_answered n mac our srcIP dstIP sip dip sqs sq :
  (42 <= n <= 2048)%nat -> length mac = 6%nat -> bytes_ok mac -> length our = 6%nat -> bytes_ok our ->
  v4 srcIP sip -> v4 dstIP dip -> 0 <= sq < 65536 ->
  exists p r,
    (buf ← createPingPacket (replicate n 0) mac srcIP dstIP 1; buf ← pings sqs buf; next_ping sq buf) = Ok p /\
    checksums_ok p /\ responder_round our p = Ok (Some r) /\ checksums_ok r /\ length r = n /\
    take 6 r = mac /\ take 6 (drop 6 r) = our /\ take 4 (drop 26 r) = dip /\ take 4 (drop 30 r) = sip /\
    isICMPEchoReply r sq = true.
Proof.
  intros Hn Hm Bm Ho Bo V1 V2 Hq. pose proof V1 as (_ & _ & _ & Ls & Bs). pose proof V2 as (_ & _ & _ & Ld & Bd).
  destruct (createPingPacket_fields (replicate n 0) mac srcIP dstIP sip dip 1) as (c1 & c2 & -> & -> & Lc); [rewrite length_replicate; lia|done|done|done|].
  unfold len. rewrite length_replicate. cbn [mbind outcome_bind].
  change (fields _ _ _ _ _ _ _ _ c2 _ _) with (ping n mac sip dip c2 1).
  destruct (pings_ping n mac sip dip sqs Hm Ls Ld c2 1 Lc) as (ck & sq0 & Lk & ->). cbn [mbind outcome_bind].
  rewrite next_ping_ping by done.
  destruct (ping_ok n Hn mac sip dip sq Hm Bm Ls Bs Ld Bd Hq) as (Bp & Lp & Cp & Rp & P35 & P38 & P40 & Pm & Ps & Pd).
  set (p := ping n mac sip dip _ sq) in *. clearbody p.
  destruct (echo_reply p our Bp Bo Ho) as (r & R & _ & Lr & R1 & R2 & R3 & R4 & _ & Cr & Rr); [unfold len; lia|done|].
  exists p, r. split; [done|]. split; [done|]. split; [done|]. split; [done|]. split; [congruence|].
  rewrite R1, R2, R3, R4. do 4 (split; [done|]). rewrite <-P40. by apply Rr.
Qed.

Lemma benchmark_answered_witness : exists p r,
  (buf ← createPingPacket (replicate 64 0) [2; 0; 0; 0; 0; 1] (str "10.0.0.1") (str "10.0.0.2") 1;
   buf ← pings [0; 1] buf; next_ping 2 buf) = Ok p /\
  responder_round [2; 0; 0; 0; 0; 2] p = Ok (Some r) /\ isICMPEchoReply r 2 = true.
Proof.
  destruct (benchmark_answered 64 [2; 0; 0; 0; 0; 1] [2; 0; 0; 0; 0; 2] (str "10.0.0.1") (str "10.0.0.2") [10; 0; 0; 1] [10; 0; 0; 2]
    [0; 1] 2) as (p & r & E & _ & R & _ & _ & _ & _ & _ & _ & I).
  - split; apply Nat.leb_le; reflexivity.
  - reflexivity.
  - apply (bool_decide_unpack _). vm_compute. exact Logic.I.
  - reflexivity.
  - apply (bool_decide_unpack _). vm_compute. exact Logic.I.
  - eexists. split; [vm_compute; reflexivity|]. split; [reflexivity|]. split; [reflexivity|].
    apply (bool_decide_unpack _). vm_compute. exact Logic.I.
  - eexists. split; [vm_compute; reflexivity|]. split; [reflexivity|]. split; [reflexivity|].
    apply (bool_decide_unpack _). vm_compute. exact Logic.I.
  - lia.
  - exists p, r. split; [exact E|]. split; [exact R|exact I].
Defined.

(** ** Sorting *)
Fixpoint bubble (x : Z) (l : list Z) : Z * list Z :=
  match l with
  | [] => (x, [])
  | y :: l' => if y <? x then let '(m, r) := bubble y l' in (m, x :: r) else let '(m, r) := bubble x l' in (m, y :: r)
  end.

Lemma bubble_spec l : forall x m r, bubble x l = (m, r) -> x :: l ≡ₚ m :: r /\ m <= x /\ Forall (Z.le m) r.
Proof.
  induction l as [|y l IH]; intros x m r; cbn; [intros [= <- <-]; by repeat split|].
  destruct (Z.ltb_spec y x).
  - destruct (bubble y l) as [m' r'] eqn:E. intros [= <- <-]. destruct (IH _ _ _ E) as (P & Hm & Hr).
    split; [by rewrite P, Permutation_swap|]. split; [lia|]. constructor; [lia|done].
  - destruct (bubble x l) as [m' r'] eqn:E. intros [= <- <-]. destruct (IH _ _ _ E) as (P & Hm & Hr).
    split; [rewrite Permutation_swap, P; apply Permutation_swap|]. split; [lia|]. constructor; [lia|done].
Qed.

Lemma lookup_total_middle (a : list Z) x b i : i = length a -> (a ++ x :: b) !!! i = x.
Proof. intros ->. apply list_lookup_total_middle. done. Qed.

Lemma insert_middle (a : list Z) x b i v : i = length a -> <[i := v]> (a ++ x :: b) = a ++ v :: b.
Proof. intros ->. rewrite <-(Nat.add_0_r (length a)) at 1. by rewrite insert_app_r. Qed.

(** The inner loop carries the least element to position [i]. *)
Lemma sort_round_bubble todo : forall a x seen m r, bubble x todo = (m, r) ->
  foldl (exchange (length a)) (a ++ x :: seen ++ todo) (seq (S (length a + length seen)) (length todo)) = a ++ m :: seen ++ r.
Proof.
  induction todo as [|y todo IH]; intros a x seen m r; cbn [bubble]; [by intros [= <- <-]|].
  intros E. cbn [length seq foldl].
  assert (exchange (length a) (a ++ x :: seen ++ y :: todo) (S (length a + length seen)) =
    if y <? x then a ++ y :: (seen ++ [x]) ++ todo else a ++ x :: (seen ++ [y]) ++ todo) as ->.
  { unfold exchange. rewrite (lookup_total_middle a x _ (length a)) by done.
    change (a ++ x :: seen ++ y :: todo) with (a ++ (x :: seen) ++ y :: todo). rewrite app_assoc.
    rewrite (lookup_total_middle _ y) by lengths. destruct (y <? x); [|by rewrite <-!app_assoc].
    rewrite insert_middle by lengths. rewrite <-app_assoc. cbn [app]. rewrite insert_middle by done. by rewrite <-app_assoc. }
  destruct (y <? x).
  - destruct (bubble y todo) as [m' r'] eqn:E'. injection E as <- <-.
    specialize (IH a y (seen ++ [x]) m' r' E'). rewrite length_app in IH. cbn [length] in IH.
    replace (S (length a + (length seen + 1))) with (S (S (length a + length seen))) in IH by lia. rewrite IH. by rewrite <-app_assoc.
  - destruct (bubble x todo) as [m' r'] eqn:E'. injection E as <- <-.
    specialize (IH a x (seen ++ [y]) m' r' E'). rewrite length_app in IH. cbn [length] in IH.
    replace (S (length a + (length seen + 1))) with (S (S (length a + length seen))) in IH by lia. rewrite IH. by rewrite <-app_assoc.
Qed.

Lemma sort_rounds k : forall a l, length l = k ->
  exists l', foldl sort_round (a ++ l) (seq (length a) k) = a ++ l' /\ l ≡ₚ l' /\ StronglySorted Z.le l'.
Proof.
  induction k as [|k IH]; intros a l Hl.
  { destruct l; [|done]. exists []. split; [done|]. split; [done|constructor]. }
  destruct l as [|x l]; [done|]. cbn [length] in Hl. injection Hl as Hl. cbn [seq foldl].
  destruct (bubble x l) as [m r] eqn:E. destruct (bubble_spec _ _ _ _ E) as (P & _ & Hr).
  assert (sort_round (a ++ x :: l) (length a) = a ++ m :: r) as ->.
  { unfold sort_round. rewrite length_app. cbn [length].
    replace (length a + S (length l) - S (length a))%nat with (length l) by lia.
    pose proof (sort_round_bubble l a x [] m r E) as H. cbn [app length] in H. by rewrite Nat.add_0_r in H. }
  assert (length r = k) as Hk by (apply Permutation_length in P; cbn [length] in P; lia).
  destruct (IH (a ++ [m]) r Hk) as (l' & El & Pl & Sl). rewrite length_app in El. cbn [length] in El.
  rewrite Nat.add_1_r, <-!app_assoc in El. cbn [app] in El. rewrite El. exists (m :: l'). split; [by rewrite <-?app_assoc|].
  split; [by rewrite P, Pl|]. constructor; [done|]. by rewrite <-Pl.
Qed.

Lemma sortDurations_spec d : d ≡ₚ sortDurations d /\ StronglySorted Z.le (sortDurations d).
Proof. destruct (sort_rounds (length d) [] d eq_refl) as (l & E & P & S). unfold sortDurations. cbn [app length] in E. by rewrite E. Qed.

(** ** Statistics *)
Lemma sorted_lookup_le l i j x y : StronglySorted Z.le l -> l !! i = Some x -> l !! j = Some y -> (i <= j)%nat -> x <= y.
Proof.
  intros Hs. revert i j. induction Hs as [|z l Hs IH Hz]; intros i j Hi Hj Hij; [done|].
  destruct i as [|i], j as [|j]; cbn in *; simplify_eq; [lia| |lia|by apply (IH i j); try lia].
  rewrite Forall_forall in Hz. apply Hz. by eapply list_elem_of_lookup_2.
Qed.

Lemma scan_spec l : forall sum min max, min <= max ->
  let '(s, a, b) := foldl scan_step (sum, min, max) l in
  a <= min /\ max <= b /\ Forall (fun x => a <= x <= b) l /\ (a = min \/ a ∈ l) /\ (b = max \/ b ∈ l) /\
  (- 2 ^ 63 <= sum < 2 ^ 63 -> Forall (fun x => 0 <= x) l -> sum + foldr Z.add 0 l < 2 ^ 63 -> s = sum + foldr Z.add 0 l).
Proof.
  induction l as [|x l IH]; intros sum min max Hm; cbn [foldl scan_step].
  { split; [lia|]. split; [lia|]. split; [constructor|]. split; [by left|]. split; [by left|]. cbn. lia. }
  specialize (IH (i64 (sum + x)) (if x <? min then x else min) (if max <? x then x else max)).
  destruct (foldl scan_step _ l) as [[s a] b]. destruct IH as (Ha & Hb & Hf & Ia & Ib & Hs); [repeat case_match; lia|].
  assert (a <= min /\ a <= x /\ max <= b /\ x <= b) as (? & ? & ? & ?).
  { destruct (Z.ltb_spec x min), (Z.ltb_spec max x); lia. }
  split; [lia|]. split; [lia|]. split; [by constructor|]. rewrite !elem_of_cons. split; [destruct Ia as [->|]; [destruct (x <? min); auto|auto]|].
  split; [destruct Ib as [->|]; [destruct (max <? x); auto|auto]|].
  intros Hsum Hnn Hlt. inversion_clear Hnn as [|? ? Hx Hl]. cbn [foldr] in *.
  assert (0 <= foldr Z.add 0 l) by (clear - Hl; induction Hl; cbn; lia).
  rewrite i64_small in Hs by lia. rewrite Hs by (done || lia). lia.
Qed.

Lemma index_some {A} (l : list A) i x : l !! i = Some x -> index l i = Ok x.
Proof. intros H. unfold index. by rewrite H. Qed.

Lemma sum_bounds l a b : Forall (fun x => a <= x <= b) l ->
  a * Z.of_nat (length l) <= foldr Z.add 0 l <= b * Z.of_nat (length l).
Proof. induction 1 as [|x l Hx _ IH]; cbn [foldr length]; lia. Qed.

Lemma sum_perm l l' : l ≡ₚ l' -> foldr Z.add 0 l = foldr Z.add 0 l'.
Proof. induction 1; cbn; lia. Qed.

(** Of a sorted list of [n] values the middle and the percentiles, in order. *)
Lemma percentiles d : StronglySorted Z.le d -> d <> [] -> exists m p q,
  d !! (length d / 2)%nat = Some m /\ d !! (length d * 95 / 100)%nat = Some p /\ d !! (length d * 99 / 100)%nat = Some q /\
  m <= p <= q.
Proof.
  intros Hs Hne. set (n := length d). assert (0 < n)%nat as Hn by (unfold n; destruct d; [done|cbn; lia]).
  assert (n / 2 < n /\ n * 95 / 100 < n /\ n * 99 / 100 < n)%nat as (L1 & L2 & L3).
  { split; [apply Nat.div_lt; lia|]. split; apply Nat.Div0.div_lt_upper_bound; lia. }
  destruct (lookup_lt_is_Some_2 d _ L1) as [m Em]. destruct (lookup_lt_is_Some_2 d _ L2) as [p Ep].
  destruct (lookup_lt_is_Some_2 d _ L3) as [q Eq]. exists m, p, q. do 3 (split; [done|]).
  assert (n / 2 <= n * 95 / 100)%nat.
  { apply Nat.div_le_lower_bound; [lia|]. pose proof (Nat.Div0.mul_div_le n 2). lia. }
  assert (n * 95 / 100 <= n * 99 / 100)%nat by (apply Nat.Div0.div_le_mono; lia).
  split; eapply sorted_lookup_le; eauto.
Qed.

(** The statistics are those of the measured values: the least and greatest
    bound all of them, median and percentiles are measured values in order
    between them, and so is the average when the sum fits 64 bits; no index is
    out of range. *)
Theorem stats_sound latencies iterations totalTime : latencies <> [] ->
  exists r, calculateStats latencies iterations totalTime = Ok r /\
    Forall (fun x => MinLatency r <= x <= MaxLatency r) latencies /\
    MinLatency r ∈ latencies /\ MaxLatency r ∈ latencies /\ MedianLatency r ∈ latencies /\
    MinLatency r <= MedianLatency r <= P95Latency r /\ P95Latency r <= P99Latency r <= MaxLatency r /\
    lr_PacketsRecv r = Z.of_nat (length latencies) /\
    (Forall (fun x => 0 <= x) latencies -> foldr Z.add 0 latencies < 2 ^ 63 -> MinLatency r <= AvgLatency r <= MaxLatency r).
Proof.
  intros Hne. destruct (sortDurations_spec latencies) as [P S].
  assert (calculateStats latencies iterations totalTime = calculateStats latencies iterations totalTime) as E by done.
  unfold calculateStats in E at 2. destruct latencies as [|x0 l0]; [done|]. set (l := x0 :: l0) in *. rewrite E. clear E.
  clearbody l. clear x0 l0.
  set (d := sortDurations l) in *. clearbody d. assert (d <> []) as Hd by (intros ->; by apply Permutation_sym, Permutation_nil in P).
  destruct (percentiles d S Hd) as (m & p & q & Em & Ep & Eq & Hmp & Hpq).
  destruct d as [|z d'] eqn:Ed; [done|]. rewrite <-Ed in *. assert (d !! 0%nat = Some z) as Ez by (by rewrite Ed). clear Ed d'.
  rewrite (index_some d 0 z) by done. unfold mbind, outcome_bind.
  pose proof (scan_spec d 0 z z ltac:(lia)) as H. destruct (foldl scan_step (0, z, z) d) as [[s a] b].
  destruct H as (Ha & Hb & Hf & Ia & Ib & Hs). rewrite (index_some d _ _ Em), (index_some d _ _ Ep), (index_some d _ _ Eq).
  eexists. split; [done|]. cbn [MinLatency MaxLatency AvgLatency MedianLatency P95Latency P99Latency lr_PacketsRecv].
  assert (forall i x, d !! i = Some x -> a <= x <= b) as Hin.
  { intros i x Hx. rewrite Forall_forall in Hf. apply Hf. by eapply list_elem_of_lookup_2. }
  pose proof (Hin _ _ Em). pose proof (Hin _ _ Eq).
  assert (forall x, x ∈ d -> x ∈ l) as Hl by (intros x; by rewrite P).
  assert (z ∈ d) by (by eapply list_elem_of_lookup_2).
  split; [by rewrite P|]. split; [apply Hl; by destruct Ia as [->|]|]. split; [apply Hl; by destruct Ib as [->|]|].
  split; [apply Hl; by eapply list_elem_of_lookup_2|]. split; [lia|]. split; [lia|].
  split; [by rewrite (Permutation_length P)|].
  intros Hp Hsum. assert (Forall (fun x => 0 <= x) d) as Hp' by (by rewrite <-P).
  rewrite (sum_perm _ _ P) in Hsum. rewrite Hs by (done || lia). rewrite Z.add_0_l.
  assert (0 <= foldr Z.add 0 d) by (clear - Hp'; induction Hp'; cbn; lia).
  assert (0 < Z.of_nat (length d)) by (destruct d; [done|cbn; lia]).
  destruct (sum_bounds d a b Hf). rewrite Z.quot_div_nonneg by lia.
  split; [apply Z.div_le_lower_bound; lia|apply Z.div_le_upper_bound; lia].
Qed.

Lemma stats_sound_witness : exists r, calculateStats [30; 10; 20] 3 100 = Ok r /\ MedianLatency r ∈ [30; 10; 20].
Proof.
  destruct (stats_sound [30; 10; 20] 3 100) as (r & E & _ & _ & _ & M & _).
  - discriminate.
  - exists r. split; [exact E|exact M].
Defined.
