(* ===== verification/NAT.v ===== *)
(** * Port mappings on the gateway: [pkg/natclient]

    An edge behind a NAT asks the gateway to map its UDP port, by UPnP
    ([upnp_impl.go]) or else by NAT-PMP/PCP ([natpmp_impl.go]); both implement
    the interface [NATClient] ([client.go]), here a class with the promise
    [NATClientSpec] that the theorems of [SetupNAT] and [Cleanup] rest on.
    The gateways and the host's network are parameters. *)
From S2P Require Import Prelude GoBytes GoNet.
From stdpp Require Import gmap list strings fin_maps sets.
From Stdlib Require Import ZArith Lia.
Open Scope Z_scope.

(** ** The host, the gateways *)

(** The addresses of the interfaces ([None] where an address is no [*IPNet])
    and the local IP of a socket dialled to an address, at the n-th look. *)
Class HostNet := {
  host_addrs : nat -> list (option (list Z)) + goerr;
  host_dial : nat -> list Z -> list Z + goerr;
}.

Inductive GatewayKind := WANIPConnection2 | WANPPPConnection1_v2 | WANIPConnection1 | WANPPPConnection1_v1.

(** The name [discoverIGD] gives a kind. *)
Definition kind_name (g : GatewayKind) : list Z :=
  match g with
  | WANIPConnection2 => str "IGDv2-IP2"
  | WANPPPConnection1_v2 => str "IGDv2-PPP1"
  | WANIPConnection1 => str "IGDv1-IP1"
  | WANPPPConnection1_v1 => str "IGDv1-PPP1"
  end.

(** goupnp: the number of clients a probe finds, and the calls of the first. *)
Class UPnPLib := {
  igd_state : Type;
  igd_probe : igd_state -> GatewayKind -> Z + goerr;
  GetExternalIPAddress : igd_state -> GatewayKind -> list Z + goerr;
  igd_AddPortMapping : igd_state -> GatewayKind -> list Z -> Z -> list Z -> Z -> list Z -> bool -> list Z -> Z -> igd_state * option goerr;
  igd_DeletePortMapping : igd_state -> GatewayKind -> list Z -> Z -> list Z -> igd_state * option goerr;
}.

(** go-nat-pmp and gateway: the default gateway, and of a client for a gateway
    the external address and the port and lifetime granted to a request
    (protocol, internal port, external port, lifetime). *)
Class PMPLib := {
  pmp_state : Type;
  DiscoverGateway : pmp_state -> option (list Z) + goerr;
  GetExternalAddress : pmp_state -> list Z -> list Z + goerr;
  pmp_AddPortMapping : pmp_state -> list Z -> list Z -> Z -> Z -> Z -> pmp_state * (Z * Z + goerr);
}.

Record NatWorld `{UPnPLib, PMPLib} := mkWorld { w_looks : nat; w_igd : igd_state; w_pmp : pmp_state }.

(** ** Addresses *)
Definition v6loopback : list Z := replicate 15 0 ++ [1].

Definition IsLoopback (ip : list Z) : bool :=
  match To4 ip with a :: _ => a =? 127 | [] => bool_decide (ip = v6loopback) end.

Definition IsLinkLocalUnicast (ip : list Z) : bool :=
  match To4 ip with
  | a :: b :: _ => (a =? 169) && (b =? 254)
  | _ => match ip with a :: b :: _ => bool_decide (length ip = 16)%nat && (a =? 0xfe) && (Z.land b 0xc0 =? 0x80) | _ => false end
  end.

Definition IsPrivate (ip : list Z) : bool :=
  match To4 ip with
  | a :: b :: _ => (a =? 10) || ((a =? 172) && (Z.land b 0xf0 =? 16)) || ((a =? 192) && (b =? 168))
  | _ => match ip with a :: _ => bool_decide (length ip = 16)%nat && (Z.land a 0xfe =? 0xfc) | [] => false end
  end.

Definition standardizeProtocol `{UnicodeUpper} (protocol : list Z) : list Z :=
  if bool_decide (ToUpper protocol = str "UDP") then str "UDP" else str "TCP".

Section Addresses.
Context `{UP : UPnPLib, PL : PMPLib, HN : HostNet}.

Definition look : M NatWorld nat := fun w =>
  (Ok (w_looks w), mkWorld _ _ (S (w_looks w)) (w_igd w) (w_pmp w)).

(** The first interface address that serves. *)
Fixpoint first_suitable (addrs : list (option (list Z))) : option (list Z) :=
  match addrs with
  | [] => None
  | Some ip :: rest =>
      if negb (IsLoopback ip) && negb (bool_decide (To4 ip = [])) && negb (IsLinkLocalUnicast (To4 ip))
      then Some (To4 ip) else first_suitable rest
  | None :: rest => first_suitable rest
  end.

Definition errNoLocalIP : goerr := ErrNew "no suitable local IPv4 address found".

Definition getLocalIP (dialAddr : list Z) : M NatWorld (list Z) :=
  n ← look;
  let dial :=
    let dialto := if bool_decide (dialAddr = []) then str "8.8.8.8:53" else dialAddr in
    match host_dial n dialto with
    | inl ip =>
        if negb (bool_decide (To4 ip = [])) && negb (IsLoopback (To4 ip)) && negb (IsLinkLocalUnicast (To4 ip))
        then mret (IP_String (To4 ip)) else merr errNoLocalIP
    | inr _ => merr errNoLocalIP
    end in
  if bool_decide (dialAddr = []) then
    match host_addrs n with
    | inr e => merr (ErrWrap "failed to get interface addresses" e)
    | inl addrs => match first_suitable addrs with Some ip => mret (IP_String ip) | None => dial end
    end
  else dial.
End Addresses.

(** ** The interface *)
Class NATClient `{UPnPLib, PMPLib} (C : Type) := {
  AddPortMapping : list Z -> Z -> Z -> list Z -> Z -> M (C * NatWorld) unit;
  DeletePortMapping : list Z -> Z -> M (C * NatWorld) unit;
  CleanupAllMappings : M (C * NatWorld) unit;
  GetExternalIP : C -> list Z;
  GetLocalIP : C -> list Z;
  GetType : C -> list Z;
}.

(** ** UPnP *)
Record UPnPClient := mkUPnP {
  u_gateway : option GatewayKind; u_GatewayType : list Z; u_LocalIP : list Z; u_ExternalIP : list Z;
  u_MappedPorts : gmap Z (list Z) }.

Section UPnP.
Context `{UP : UPnPLib, PL : PMPLib, HN : HostNet, UU : UnicodeUpper} {MR : MapRange Z}.

Definition on_igd {C A} (f : igd_state -> igd_state * A) : M (C * NatWorld) A := fun '(c, w) =>
  let '(g, a) := f (w_igd w) in (Ok a, (c, mkWorld _ _ (w_looks w) g (w_pmp w))).

Definition set_mapped (f : gmap Z (list Z) -> gmap Z (list Z)) : M (UPnPClient * NatWorld) unit :=
  modify (fun '(c, w) => (mkUPnP (u_gateway c) (u_GatewayType c) (u_LocalIP c) (u_ExternalIP c) (f (u_MappedPorts c)), w)).

Definition probes (s : igd_state) (k : GatewayKind) : bool :=
  match igd_probe s k with inl n => 0 <? n | inr _ => false end.

Definition discoverIGD (s : igd_state) : outcome (GatewayKind * list Z) :=
  let found g := Ok (g, kind_name g) in
  if probes s WANIPConnection2 then found WANIPConnection2
  else if probes s WANPPPConnection1_v2 then found WANPPPConnection1_v2
  else if probes s WANIPConnection1 then found WANIPConnection1
  else if probes s WANPPPConnection1_v1 then found WANPPPConnection1_v1
  else Err (ErrNew "no compatible UPnP IGD found after checking all types").

Definition fetchExternalIP (s : igd_state) (gateway : option GatewayKind) : outcome (list Z) :=
  match gateway with
  | None => Err (ErrNew "UPnP: unknown gateway type")
  | Some g => match GetExternalIPAddress s g with
              | inl ip => Ok ip
              | inr e => Err (ErrWrap "UPnP: GetExternalIPAddress failed" e)
              end
  end.

Definition newUPnPClient (dialAddr : list Z) : M NatWorld UPnPClient :=
  r ← mtry (getLocalIP dialAddr);
  match r with
  | inr e => merr (ErrWrap "UPnP: failed to get local IP" e)
  | inl localIP =>
      s ← gets w_igd;
      match discoverIGD s with
      | Ok (igd, gwType) =>
          let ext := match fetchExternalIP s (Some igd) with Ok ip => ip | _ => [] end in
          mret (mkUPnP (Some igd) gwType localIP ext ∅)
      | Err e => merr (ErrWrap "UPnP: failed to discover IGD" e)
      | Panic => mpanic
      end
  end.

(** One call; [again] is the recursive call with another lease. *)
Definition upnp_add (again : Z -> M (UPnPClient * NatWorld) unit) (protocol : list Z) (externalPort internalPort : Z)
    (description : list Z) (leaseDuration : Z) : M (UPnPClient * NatWorld) unit :=
  let protocolUpper := standardizeProtocol protocol in
  c ← gets fst;
  match u_gateway c with
  | None => merr (ErrNew "UPnP: unknown gateway type for AddPortMapping")
  | Some g =>
      err ← on_igd (fun s => igd_AddPortMapping s g [] externalPort protocolUpper internalPort (u_LocalIP c) true description leaseDuration);
      match err with
      | Some e =>
          if contains (error_text e) (str "ConflictInMappingEntry")
          then merr (ErrWrap "UPnP: AddPortMapping failed - port may already be mapped" e)
          else if contains (error_text e) (str "OnlyPermanentLeasesSupported") && negb (leaseDuration =? 0) then again 0
          else merr (ErrWrap "UPnP: AddPortMapping failed" e)
      | None => set_mapped <[externalPort := protocolUpper]>
      end
  end.

(** The recursive call has lease 0 and calls no further ([upnp_add_unfold]). *)
Definition UPnP_AddPortMapping (protocol : list Z) (externalPort internalPort : Z) (description : list Z) : Z -> M (UPnPClient * NatWorld) unit :=
  upnp_add (upnp_add (fun _ => mpanic) protocol externalPort internalPort description) protocol externalPort internalPort description.

Definition UPnP_DeletePortMapping (protocol : list Z) (externalPort : Z) : M (UPnPClient * NatWorld) unit :=
  let protocolUpper := standardizeProtocol protocol in
  c ← gets fst;
  match u_gateway c with
  | None => merr (ErrNew "UPnP: unknown gateway type for DeletePortMapping")
  | Some g =>
      err ← on_igd (fun s => igd_DeletePortMapping s g [] externalPort protocolUpper);
      match err with
      | Some e =>
          if contains (error_text e) (str "NoSuchEntryInArray") then set_mapped (delete externalPort)
          else merr (ErrWrap "UPnP: DeletePortMapping failed" e)
      | None => set_mapped (delete externalPort)
      end
  end.

Definition UPnP_CleanupAllMappings : M (UPnPClient * NatWorld) unit :=
  c ← gets fst;
  match u_gateway c with
  | None => mret tt
  | Some _ => mfor (map_range (u_MappedPorts c)) (fun '(port, protocol) => mignore (UPnP_DeletePortMapping protocol port))
  end.

#[export] Instance UPnP_NATClient : NATClient UPnPClient := {|
  AddPortMapping := UPnP_AddPortMapping; DeletePortMapping := UPnP_DeletePortMapping;
  CleanupAllMappings := UPnP_CleanupAllMappings;
  GetExternalIP := u_ExternalIP; GetLocalIP := u_LocalIP; GetType := u_GatewayType |}.
End UPnP.

(** ** NAT-PMP *)
Record natPMPPortMappingInfo := mkInfo { pi_Protocol : list Z; pi_InternalPort : Z; pi_ExternalPort : Z }.

Record NATPMPClient := mkPMP {
  p_client : option (list Z); p_gatewayIP : list Z; p_LocalIP : list Z; p_ExternalIP : list Z;
  p_MappedPorts : gmap Z natPMPPortMappingInfo }.

Section PMP.
Context `{UP : UPnPLib, PL : PMPLib, HN : HostNet, UL : UnicodeLower} {MR : MapRange Z}.

Definition on_pmp {C A} (f : pmp_state -> pmp_state * A) : M (C * NatWorld) A := fun '(c, w) =>
  let '(g, a) := f (w_pmp w) in (Ok a, (c, mkWorld _ _ (w_looks w) (w_igd w) g)).

Definition set_infos (f : gmap Z natPMPPortMappingInfo -> gmap Z natPMPPortMappingInfo) : M (NATPMPClient * NatWorld) unit :=
  modify (fun '(c, w) => (mkPMP (p_client c) (p_gatewayIP c) (p_LocalIP c) (p_ExternalIP c) (f (p_MappedPorts c)), w)).

Definition discoverGatewayIP (s : pmp_state) : outcome (list Z) :=
  match DiscoverGateway s with
  | inr e => Err (ErrWrap "gateway.DiscoverGateway failed" e)
  | inl None => Err (ErrNew "gateway.DiscoverGateway returned nil IP without error")
  | inl (Some gw) => Ok gw
  end.

(** [net.IPv4] *)
Definition net_IPv4 (a b c d : Z) : list Z := v4InV6Prefix ++ [a; b; c; d].

(** The first address of the local network, where discovery fails. *)
Definition guessed_gateway (localIP : list Z) : option (list Z) :=
  match ParseIP localIP with
  | Some ip => match To4 ip with a :: b :: c :: _ => Some (net_IPv4 a b c 1) | _ => None end
  | None => None
  end.

Definition newNATPMPClient (dialAddr : list Z) : M NatWorld NATPMPClient :=
  r ← mtry (getLocalIP dialAddr);
  match r with
  | inr e => merr (ErrWrap "NAT-PMP/PCP: failed to get local IP" e)
  | inl localIP =>
      s ← gets w_pmp;
      gatewayIP ←
        (match discoverGatewayIP s with
         | Ok gw => mret gw
         | Err e => match guessed_gateway localIP with
                    | Some gw => mret gw
                    | None => merr (ErrWrap "NAT-PMP/PCP: failed to determine gateway IP automatically or by guessing" e)
                    end
         | Panic => mpanic
         end);
      let ext := match GetExternalAddress s gatewayIP with inl ip => IP_String ip | inr _ => [] end in
      mret (mkPMP (Some gatewayIP) gatewayIP localIP ext ∅)
  end.

Definition PMP_AddPortMapping (protocol : list Z) (externalPort internalPort : Z) (description : list Z) (leaseDuration : Z)
    : M (NATPMPClient * NatWorld) unit :=
  let protoLower := ToLower protocol in
  if negb (bool_decide (protoLower = str "udp")) && negb (bool_decide (protoLower = str "tcp"))
  then merr (ErrNew "NAT-PMP/PCP: invalid protocol") else
  let lifetimeSeconds := if leaseDuration <=? 0 then 3600 else leaseDuration in
  c ← gets fst;
  client ← mderef (p_client c);
  res ← on_pmp (fun s => pmp_AddPortMapping s client protoLower internalPort externalPort lifetimeSeconds);
  match res with
  | inr e => merr (ErrWrap "NAT-PMP/PCP: AddPortMapping failed" e)
  | inl (mapped, _) =>
      let actualExternalPort := u16 mapped in
      set_infos <[actualExternalPort := mkInfo protoLower internalPort actualExternalPort]>
  end.

Definition PMP_DeletePortMapping (protocol : list Z) (externalPort : Z) : M (NATPMPClient * NatWorld) unit :=
  c ← gets fst;
  match p_MappedPorts c !! externalPort with
  | None => mret tt
  | Some mappingInfo =>
      let protoLower := if bool_decide (ToLower protocol = pi_Protocol mappingInfo) then ToLower protocol else pi_Protocol mappingInfo in
      client ← mderef (p_client c);
      res ← on_pmp (fun s => pmp_AddPortMapping s client protoLower (pi_InternalPort mappingInfo) 0 0);
      match res with
      | inr e => merr (ErrWrap "NAT-PMP/PCP: DeletePortMapping failed" e)
      | inl _ => set_infos (delete externalPort)
      end
  end.

Definition PMP_CleanupAllMappings : M (NATPMPClient * NatWorld) unit :=
  c ← gets fst;
  match p_client c with
  | None => mret tt
  | Some _ => mfor (map_range (p_MappedPorts c)) (fun '(extPort, info) => mignore (PMP_DeletePortMapping (pi_Protocol info) extPort))
  end.

#[export] Instance PMP_NATClient : NATClient NATPMPClient := {|
  AddPortMapping := PMP_AddPortMapping; DeletePortMapping := PMP_DeletePortMapping;
  CleanupAllMappings := PMP_CleanupAllMappings;
  GetExternalIP := p_ExternalIP; GetLocalIP := p_LocalIP; GetType := fun _ => str "NAT-PMP/PCP" |}.
End PMP.

(** ** Setup and cleanup *)
Section Setup.
Context `{UP : UPnPLib, PL : PMPLib, HN : HostNet, UU : UnicodeUpper, UL : UnicodeLower} {MR : MapRange Z}.

(** A method called through the pointer; the error is a value. *)
Definition call {C A} (c : C) (m : M (C * NatWorld) A) : M NatWorld (C * (A + goerr)) := fun w =>
  match m (c, w) with
  | (Ok a, (c', w')) => (Ok (c', inl a), w')
  | (Err e, (c', w')) => (Ok (c', inr e), w')
  | (Panic, (_, w')) => (Panic, w')
  end.

Definition nat_description {C} `{!NATClient C} (edgeID : list Z) (c : C) : list Z :=
  str "n2n-go/" ++ edgeID ++ str "/" ++ GetType c.

(** One of the two attempts: construct the client, request the mapping. *)
Definition attempt {C} `{!NATClient C} (new : M NatWorld C) (edgeID : list Z) (udpPort lease : Z) : M NatWorld (option C) :=
  r ← mtry new;
  match r with
  | inr _ => mret None
  | inl c =>
      '(c, errMap) ← call c (AddPortMapping (str "udp") udpPort udpPort (nat_description edgeID c) lease);
      mret (match errMap with inl _ => Some c | inr _ => None end)
  end.

Definition SetupNAT (conn : option netAddr) (edgeID dialAddr : list Z) : M NatWorld (option (UPnPClient + NATPMPClient)) :=
  match conn with
  | Some (UDPAddr _ port) =>
      r ← mtry (getLocalIP dialAddr);
      match r with
      | inr _ => mret None
      | inl localIP =>
          if negb (IsPrivate (default [] (ParseIP localIP))) then mret None else
          let udpPort := u16 port in
          upnp ← attempt (newUPnPClient dialAddr) edgeID udpPort 0;
          match upnp with
          | Some c => mret (Some (inl c))
          | None =>
              pmp ← attempt (newNATPMPClient dialAddr) edgeID udpPort (3600 * 24);
              mret (inr <$> pmp)
          end
      end
  | _ => mret None
  end.

Definition Cleanup (client : option (UPnPClient + NATPMPClient)) : M NatWorld unit :=
  match client with
  | Some (inl c) => mignore (call c CleanupAllMappings)
  | Some (inr c) => mignore (call c CleanupAllMappings)
  | None => mret tt
  end.
End Setup.

(** ** What the gateways document *)

(** A mapping at a gateway: the gateway, the protocol and a port (the external
    one for UPnP, the internal one of this host for NAT-PMP). *)
Definition natKey : Type := list Z * list Z * Z.

(** A gateway whose answer is an error has done nothing, or has done what was
    asked and its answer was lost (a timeout, a broken connection). *)
Definition perhaps {A} (done before after : A) : Prop := after = before \/ after = done.

(** Over UPnP a successful request enters the mapping of its external port and
    protocol, a successful deletion removes it, an error tells neither, and "no
    such entry" is true. *)
Class UPnPLaws `{UPnPLib} := {
  igd_table : igd_state -> gmap natKey (list Z * Z);
  igd_add_law s g ext p int cl d l :
    match igd_AddPortMapping s g [] ext p int cl true d l with
    | (s', None) => igd_table s' = <[(kind_name g, p, ext) := (cl, int)]> (igd_table s)
    | (s', Some _) => perhaps (<[(kind_name g, p, ext) := (cl, int)]> (igd_table s)) (igd_table s) (igd_table s')
    end;
  igd_delete_law s g ext p :
    match igd_DeletePortMapping s g [] ext p with
    | (s', None) => igd_table s' = delete (kind_name g, p, ext) (igd_table s)
    | (s', Some e) => perhaps (delete (kind_name g, p, ext) (igd_table s)) (igd_table s) (igd_table s') /\
        (contains (error_text e) (str "NoSuchEntryInArray") = true -> igd_table s !! (kind_name g, p, ext) = None)
    end;
}.

(** RFC 6886: a granted request maps the internal port, lifetime 0 removes the
    mapping of the internal port; after an error (a refusal, or no answer at
    all) either may have happened. *)
Class PMPLaws `{PMPLib} := {
  pmp_table : pmp_state -> gmap natKey Z;
  pmp_law s gw p int ext l :
    match pmp_AddPortMapping s gw p int ext l with
    | (s', inl (m, _)) => pmp_table s' = if l =? 0 then delete (gw, p, int) (pmp_table s) else <[(gw, p, int) := m]> (pmp_table s)
    | (s', inr _) => exists m,
        perhaps (if l =? 0 then delete (gw, p, int) (pmp_table s) else <[(gw, p, int) := m]> (pmp_table s)) (pmp_table s) (pmp_table s')
    end;
}.

(** The gateways that grant every deletion. *)
Definition igd_willing `{UPnPLib} : Prop := forall s g ext p, (igd_DeletePortMapping s g [] ext p).2 = None.
Definition pmp_willing `{PMPLib} : Prop := forall s gw p int, exists r, (pmp_AddPortMapping s gw p int 0 0).2 = inl r.

(** ** What a client promises

    [nat_table] are the mappings at its gateway, [nat_tracked] those it knows
    to have made, [nat_asked] the one a request asks for and [nat_entry] the one
    it made. *)
Class NATClientSpec `{UPnPLib, PMPLib} (C : Type) `{!NATClient C} := {
  nat_val : Type;
  nat_rest : Type;
  nat_table : NatWorld -> gmap natKey nat_val;
  nat_other : NatWorld -> nat_rest;
  nat_tracked : C -> gset natKey;
  nat_ready : C -> Prop;
  nat_willing : Prop;
  nat_asked : C -> list Z -> Z -> Z -> natKey -> nat_val -> Prop;
  nat_entry : C -> list Z -> Z -> Z -> natKey -> nat_val -> Prop;
  nat_add_spec c w p e i d l : nat_ready c ->
    match AddPortMapping p e i d l (c, w) with
    | (Ok _, (c', w')) => nat_ready c' /\ nat_other w' = nat_other w /\ exists k v, nat_entry c' p e i k v /\
        nat_table w' = <[k := v]> (nat_table w) /\ k ∈ nat_tracked c' /\ nat_tracked c' ⊆ {[k]} ∪ nat_tracked c
    | (Err _, (c', w')) => c' = c /\ nat_other w' = nat_other w /\
        (nat_table w' = nat_table w \/ exists k v, nat_asked c p e i k v /\ nat_table w' = <[k := v]> (nat_table w))
    | (Panic, _) => False
    end;
  nat_cleanup_spec c w : nat_ready c ->
    exists c' w' (D : gset natKey), CleanupAllMappings (c, w) = (Ok tt, (c', w')) /\ nat_other w' = nat_other w /\
      D ⊆ nat_tracked c /\ (nat_willing -> D = nat_tracked c) /\
      forall k, nat_table w' !! k = if decide (k ∈ D) then None else nat_table w !! k;
}.

(** ** Both clients keep it *)
Definition keys_of {I} (key : Z * I -> natKey) (m : gmap Z I) : gset natKey := list_to_set (key <$> map_to_list m).

Lemma elem_of_keys_of {I} (key : Z * I -> natKey) m k :
  k ∈ keys_of key m <-> exists port i, m !! port = Some i /\ k = key (port, i).
Proof.
  unfold keys_of. rewrite elem_of_list_to_set, list_elem_of_fmap. split.
  - intros ([port i] & -> & H). apply elem_of_map_to_list in H. eauto.
  - intros (port & i & H & ->). exists (port, i). split; [done|]. by apply elem_of_map_to_list.
Qed.

Lemma keys_of_range {I} {MR : MapRange Z} (key : Z * I -> natKey) (m : gmap Z I) :
  keys_of key m = list_to_set (key <$> map_range m).
Proof.
  apply set_eq. intros k. rewrite elem_of_keys_of, elem_of_list_to_set, list_elem_of_fmap. split.
  - intros (port & i & H1 & ->). exists (port, i). split; [done|]. by apply elem_of_map_range.
  - intros ([port i] & -> & H1). apply elem_of_map_range in H1. eauto.
Qed.

Lemma keys_of_insert {I} (key : Z * I -> natKey) m port i :
  key (port, i) ∈ keys_of key (<[port := i]> m) /\ keys_of key (<[port := i]> m) ⊆ {[key (port, i)]} ∪ keys_of key m.
Proof.
  split.
  - apply elem_of_keys_of. exists port, i. by rewrite lookup_insert_eq.
  - intros k (q & j & H & ->)%elem_of_keys_of. apply elem_of_union.
    destruct (decide (q = port)) as [->|Hq].
    + rewrite lookup_insert_eq in H. simplify_eq. left. by apply elem_of_singleton.
    + rewrite lookup_insert_ne in H by done. right. apply elem_of_keys_of. eauto.
Qed.

(** Cleaning up one port after the other: each deletion works or is without
    effect at the gateway, and is or is not noted in the map. *)
Section CleanupLoop.
Context `{UP : UPnPLib, PL : PMPLib} {C I V R : Type}.
Variables (table : NatWorld -> gmap natKey V) (other : NatWorld -> R) (mapped : C -> gmap Z I) (ready : C -> Prop)
  (willing : Prop) (key : Z * I -> natKey) (body : Z * I -> M (C * NatWorld) unit).
Hypothesis body_spec : forall c w x, ready c -> mapped c !! x.1 = Some x.2 ->
  exists c' w', body x (c, w) = (Ok tt, (c', w')) /\ ready c' /\ other w' = other w /\
    (table w' = delete (key x) (table w) \/ table w' = table w /\ (willing -> False)) /\
    (mapped c' = delete x.1 (mapped c) \/ mapped c' = mapped c).

Lemma cleanup_loop l : forall c w, NoDup l.*1 -> (forall x, x ∈ l -> mapped c !! x.1 = Some x.2) -> ready c ->
  exists c' w' (D : gset natKey), mfor l body (c, w) = (Ok tt, (c', w')) /\ other w' = other w /\
    D ⊆ list_to_set (key <$> l) /\ (willing -> D = list_to_set (key <$> l)) /\
    forall k, table w' !! k = if decide (k ∈ D) then None else table w !! k.
Proof.
  induction l as [|x l IH]; intros c w Hn Hm Hr.
  - exists c, w, (∅ : gset natKey). do 4 (split; [done|]). intros k. rewrite decide_False; [done|]. apply not_elem_of_empty.
  - cbn in Hn. apply NoDup_cons in Hn as [Hx Hn].
    destruct (body_spec c w x Hr) as (c1 & w1 & E1 & R1 & O1 & H1 & H2); [apply Hm; left|].
    destruct (IH c1 w1) as (c2 & w2 & D & E2 & O2 & S2 & W2 & T2); [done| |done|].
    { intros y Hy. assert (x.1 <> y.1) by (intros He; apply Hx; rewrite He; by apply (list_elem_of_fmap_2 fst)).
      specialize (Hm y ltac:(by right)). destruct H2 as [-> | ->]; [by rewrite lookup_delete_ne|done]. }
    exists c2, w2. cbn [mfor]. rewrite (bind_ok _ _ _ _ _ E1), E2, O2. cbn [fmap list_fmap list_to_set].
    destruct H1 as [T1|(T1 & Hw)].
    + exists ({[key x]} ∪ D). split; [done|]. split; [done|]. split; [by apply union_mono_l|]. split; [by intros ->%W2|].
      intros k. rewrite T2, T1. destruct (decide (k = key x)) as [->|Hk].
      * rewrite lookup_delete_eq, (decide_True (P := key x ∈ {[key x]} ∪ D)); [by case_decide|].
        apply elem_of_union. left. by apply elem_of_singleton.
      * rewrite lookup_delete_ne by done. destruct (decide (k ∈ D)) as [Hd|Hd].
        -- by rewrite decide_True by (apply elem_of_union; by right).
        -- rewrite decide_False; [done|]. by intros [->%elem_of_singleton|?]%elem_of_union.
    + exists D. split; [done|]. split; [done|]. split; [etrans; [exact S2|apply union_subseteq_r]|]. split; [by intros W; destruct (Hw W)|]. by rewrite T1 in T2.
Qed.
End CleanupLoop.

Section UPnPSpec.
Context `{UP : UPnPLib, PL : PMPLib, UU : UnicodeUpper, UW : !UPnPLaws} {MR : MapRange Z}.

Lemma standardize_cases p : standardizeProtocol p = str "UDP" \/ standardizeProtocol p = str "TCP".
Proof. unfold standardizeProtocol. case_bool_decide; auto. Qed.

Lemma standardize_idem p : standardizeProtocol (standardizeProtocol p) = standardizeProtocol p.
Proof. destruct (standardize_cases p) as [-> | ->]; reflexivity. Qed.

Definition upnp_key (g : GatewayKind) (x : Z * list Z) : natKey := (kind_name g, standardizeProtocol x.2, x.1).
Definition upnp_tracked (c : UPnPClient) : gset natKey :=
  match u_gateway c with Some g => keys_of (upnp_key g) (u_MappedPorts c) | None => ∅ end.
Definition upnp_entry (c : UPnPClient) (p : list Z) (e i : Z) (k : natKey) (v : list Z * Z) : Prop :=
  exists g, u_gateway c = Some g /\ k = (kind_name g, standardizeProtocol p, e) /\ v = (u_LocalIP c, i).

(** What a request may do. *)
Definition upnp_added (c : UPnPClient) (w : NatWorld) (p : list Z) (e i : Z) (r : outcome unit * (UPnPClient * NatWorld)) : Prop :=
  match r with
  | (Ok _, (c', w')) => (u_gateway c' = u_gateway c /\ u_LocalIP c' = u_LocalIP c /\ u_MappedPorts c' = <[e := standardizeProtocol p]> (u_MappedPorts c)) /\
      is_Some (u_gateway c') /\ w_pmp w' = w_pmp w /\ exists k v, upnp_entry c' p e i k v /\
      igd_table (w_igd w') = <[k := v]> (igd_table (w_igd w)) /\ k ∈ upnp_tracked c' /\ upnp_tracked c' ⊆ {[k]} ∪ upnp_tracked c
  | (Err _, (c', w')) => c' = c /\ w_pmp w' = w_pmp w /\ (igd_table (w_igd w') = igd_table (w_igd w) \/
      exists k v, upnp_entry c p e i k v /\ igd_table (w_igd w') = <[k := v]> (igd_table (w_igd w)))
  | (Panic, _) => False
  end.

Lemma upnp_entry_unique c c' p e i k v k' v' : u_gateway c' = u_gateway c -> u_LocalIP c' = u_LocalIP c ->
  upnp_entry c p e i k v -> upnp_entry c' p e i k' v' -> k' = k /\ v' = v.
Proof. intros G L (g & Hg & -> & ->) (g' & Hg' & -> & ->). rewrite L. assert (g' = g) as -> by congruence. done. Qed.

(** A request that follows a failed one for the same mapping. *)
Lemma upnp_added_from c w w1 p e i k v r : upnp_entry c p e i k v -> w_pmp w1 = w_pmp w ->
  perhaps (<[k := v]> (igd_table (w_igd w))) (igd_table (w_igd w)) (igd_table (w_igd w1)) ->
  upnp_added c w1 p e i r -> upnp_added c w p e i r.
Proof.
  intros He Ew [T|T]; unfold upnp_added; rewrite Ew, T; [done|]. destruct r as [[u|err|] [c' w']]; cbn; [| |done].
  - intros ((G & L & M) & R & P & k' & v' & E & T' & H). split; [done|]. split; [done|]. split; [done|]. exists k', v'. split; [done|].
    split; [|exact H]. destruct (upnp_entry_unique c c' p e i k v k' v') as [-> ->]; [done..|]. by rewrite T', insert_insert_eq.
  - intros (-> & P & [T'|(k' & v' & E & T')]); (split; [done|]); (split; [done|]); right.
    + by exists k, v.
    + destruct (upnp_entry_unique c c p e i k v k' v') as [-> ->]; [done..|]. exists k, v. split; [done|]. by rewrite T', insert_insert_eq.
Qed.

Lemma upnp_add_spec again p e i d l c w : is_Some (u_gateway c) ->
  (l <> 0 -> forall w1, upnp_added c w1 p e i (again 0 (c, w1))) ->
  upnp_added c w p e i (upnp_add again p e i d l (c, w)).
Proof.
  intros [g Hg] Ha. unfold upnp_add. rewrite gets_bind. cbn [fst]. rewrite Hg.
  unfold on_igd. unfold mbind at 1, M_bind at 1.
  pose proof (igd_add_law (w_igd w) g e (standardizeProtocol p) i (u_LocalIP c) d l) as L.
  destruct (igd_AddPortMapping _ _ _ _ _ _ _ _ _ _) as [s' [err|]].
  - set (k := (kind_name g, standardizeProtocol p, e)) in L. assert (upnp_entry c p e i k (u_LocalIP c, i)) as He by (by exists g).
    assert (forall err', upnp_added c w p e i (Err err', (c, mkWorld _ _ (w_looks w) s' (w_pmp w)))) as Hf.
    { intros err'. split; [done|]. split; [done|]. destruct L as [L|L]; [by left|right; eauto]. }
    destruct (contains _ (str "ConflictInMappingEntry")); [apply Hf|].
    destruct (contains _ _) eqn:Eo; [|apply Hf]. destruct (Z.eqb_spec l 0); [apply Hf|].
    eapply upnp_added_from; [exact He| | |apply (Ha n)]; done.
  - cbn. split; [done|]. split; [by rewrite Hg|]. split; [done|]. eexists _, _. split; [exists g; cbn; eauto|].
    split; [exact L|]. unfold upnp_tracked. cbn. rewrite Hg.
    destruct (keys_of_insert (upnp_key g) (u_MappedPorts c) e (standardizeProtocol p)) as [H1 H2].
    unfold upnp_key in H1 at 1, H2 at 2. cbn [fst snd] in H1, H2. rewrite standardize_idem in H1, H2. done.
Qed.

Lemma UPnP_add_spec p e i d l c w : is_Some (u_gateway c) ->
  upnp_added c w p e i (UPnP_AddPortMapping p e i d l (c, w)).
Proof. intros Hg. apply upnp_add_spec; [done|]. intros _ w1. by apply upnp_add_spec. Qed.

Lemma UPnP_add_promise p e i d l c w : is_Some (u_gateway c) ->
  match UPnP_AddPortMapping p e i d l (c, w) with
  | (Ok _, (c', w')) => is_Some (u_gateway c') /\ w_pmp w' = w_pmp w /\ exists k v, upnp_entry c' p e i k v /\
      igd_table (w_igd w') = <[k := v]> (igd_table (w_igd w)) /\ k ∈ upnp_tracked c' /\ upnp_tracked c' ⊆ {[k]} ∪ upnp_tracked c
  | (Err _, (c', w')) => c' = c /\ w_pmp w' = w_pmp w /\ (igd_table (w_igd w') = igd_table (w_igd w) \/
      exists k v, upnp_entry c p e i k v /\ igd_table (w_igd w') = <[k := v]> (igd_table (w_igd w)))
  | (Panic, _) => False
  end.
Proof.
  intros Hg. pose proof (UPnP_add_spec p e i d l c w Hg) as A.
  destruct (UPnP_AddPortMapping p e i d l (c, w)) as [[|e'|] [c' w']]; [by destruct A|done..].
Qed.

(** The retry of the code is a recursive call, and this is its equation. *)
Lemma upnp_add_ext again again' p e i d l s : (l <> 0 -> forall s', again 0 s' = again' 0 s') ->
  upnp_add again p e i d l s = upnp_add again' p e i d l s.
Proof.
  destruct s as [c w]. intros H. unfold upnp_add. rewrite !gets_bind. cbn [fst]. destruct (u_gateway c) as [g|]; [|done].
  unfold on_igd. unfold mbind, M_bind. destruct (igd_AddPortMapping _ _ _ _ _ _ _ _ _ _) as [s' [err|]]; [|done].
  destruct (contains _ (str "ConflictInMappingEntry")); [done|]. destruct (contains _ _); [|done].
  destruct (Z.eqb_spec l 0); [done|]. by apply H.
Qed.

Lemma upnp_add_unfold p e i d l s :
  UPnP_AddPortMapping p e i d l s = upnp_add (UPnP_AddPortMapping p e i d) p e i d l s.
Proof. apply upnp_add_ext. intros _ s'. apply upnp_add_ext. done. Qed.

Lemma UPnP_delete_spec g c w x : u_gateway c = Some g -> u_MappedPorts c !! x.1 = Some x.2 ->
  exists c' w', mignore (UPnP_DeletePortMapping x.2 x.1) (c, w) = (Ok tt, (c', w')) /\ u_gateway c' = Some g /\
    w_pmp w' = w_pmp w /\
    (igd_table (w_igd w') = delete (upnp_key g x) (igd_table (w_igd w)) \/
     igd_table (w_igd w') = igd_table (w_igd w) /\ (igd_willing -> False)) /\
    (u_MappedPorts c' = delete x.1 (u_MappedPorts c) \/ u_MappedPorts c' = u_MappedPorts c).
Proof.
  intros Hg Hm. unfold mignore, mtry, UPnP_DeletePortMapping. unfold mbind at 1, M_bind at 1. rewrite gets_bind. cbn [fst]. rewrite Hg.
  unfold on_igd. unfold mbind, M_bind. pose proof (igd_delete_law (w_igd w) g x.1 (standardizeProtocol x.2)) as L.
  pose proof (fun W : igd_willing => W (w_igd w) g x.1 (standardizeProtocol x.2)) as W.
  destruct (igd_DeletePortMapping _ _ _ _ _) as [s' [err|]]; cbn in W |- *.
  - destruct L as [L1 L2]. destruct (contains _ _); eexists _, _; (split; [done|]); cbn; (split; [done|]); (split; [done|]).
    + split; [|by left]. left. destruct L1 as [-> | ->]; [|done]. symmetry. apply delete_id. by apply L2.
    + split; [|by right]. destruct L1 as [L1|L1]; [right|by left]. split; [done|]. intros Hw. by specialize (W Hw).
  - eexists _, _. split; [done|]. cbn. do 2 (split; [done|]). split; by left.
Qed.

Lemma UPnP_cleanup_spec c w : is_Some (u_gateway c) ->
  exists c' w' (D : gset natKey), UPnP_CleanupAllMappings (c, w) = (Ok tt, (c', w')) /\ w_pmp w' = w_pmp w /\
    D ⊆ upnp_tracked c /\ (igd_willing -> D = upnp_tracked c) /\
    forall k, igd_table (w_igd w') !! k = if decide (k ∈ D) then None else igd_table (w_igd w) !! k.
Proof.
  intros [g Hg]. unfold UPnP_CleanupAllMappings, upnp_tracked. rewrite gets_bind. cbn [fst]. rewrite Hg, keys_of_range.
  apply (cleanup_loop (fun w => igd_table (w_igd w)) w_pmp u_MappedPorts (fun c => u_gateway c = Some g) igd_willing (upnp_key g)); [| | |done].
  - intros c1 w1 [port proto]. apply (UPnP_delete_spec g c1 w1 (port, proto)).
  - apply NoDup_map_range.
  - intros [port proto] H. by apply elem_of_map_range in H.
Qed.

#[export] Instance UPnP_Spec : NATClientSpec UPnPClient := {|
  nat_table w := igd_table (w_igd w); nat_other := w_pmp; nat_tracked := upnp_tracked;
  nat_ready c := is_Some (u_gateway c); nat_willing := igd_willing; nat_asked := upnp_entry; nat_entry := upnp_entry;
  nat_add_spec c w p e i d l := UPnP_add_promise p e i d l c w; nat_cleanup_spec := UPnP_cleanup_spec |}.
End UPnPSpec.

Section PMPSpec.
Context `{UP : UPnPLib, PL : PMPLib, UL : UnicodeLower, PW : !PMPLaws} {MR : MapRange Z}.

Definition pmp_key (gw : list Z) (x : Z * natPMPPortMappingInfo) : natKey := (gw, pi_Protocol x.2, pi_InternalPort x.2).
Definition pmp_tracked (c : NATPMPClient) : gset natKey :=
  match p_client c with Some gw => keys_of (pmp_key gw) (p_MappedPorts c) | None => ∅ end.
Definition pmp_asked (c : NATPMPClient) (p : list Z) (e i : Z) (k : natKey) (v : Z) : Prop :=
  exists gw, p_client c = Some gw /\ k = (gw, ToLower p, i).
Definition pmp_entry (c : NATPMPClient) (p : list Z) (e i : Z) (k : natKey) (v : Z) : Prop :=
  exists gw, p_client c = Some gw /\ k = (gw, ToLower p, i) /\ is_Some (p_MappedPorts c !! u16 v).

Lemma PMP_add_spec p e i d l c w : is_Some (p_client c) ->
  match PMP_AddPortMapping p e i d l (c, w) with
  | (Ok _, (c', w')) => is_Some (p_client c') /\ w_igd w' = w_igd w /\ exists k v, pmp_entry c' p e i k v /\
      pmp_table (w_pmp w') = <[k := v]> (pmp_table (w_pmp w)) /\ k ∈ pmp_tracked c' /\ pmp_tracked c' ⊆ {[k]} ∪ pmp_tracked c
  | (Err _, (c', w')) => c' = c /\ w_igd w' = w_igd w /\ (pmp_table (w_pmp w') = pmp_table (w_pmp w) \/
      exists k v, pmp_asked c p e i k v /\ pmp_table (w_pmp w') = <[k := v]> (pmp_table (w_pmp w)))
  | (Panic, _) => False
  end.
Proof.
  intros [gw Hg]. unfold PMP_AddPortMapping. destruct (negb _ && negb _); [split; [done|]; split; [done|]; by left|].
  rewrite gets_bind. cbn [fst]. rewrite Hg.
  set (lt := if l <=? 0 then 3600 else l). assert (lt =? 0 = false) as Hl by (unfold lt; destruct (Z.leb_spec l 0); lia).
  unfold mderef, on_pmp. unfold mbind, M_bind, mret, M_ret. pose proof (pmp_law (w_pmp w) gw (ToLower p) i e lt) as L. rewrite Hl in L.
  destruct (pmp_AddPortMapping _ _ _ _ _ _) as [s' [[m lf]|err]].
  2: { cbn. split; [done|]. split; [done|]. destruct L as [m [L|L]]; [by left|]. right. exists (gw, ToLower p, i), m. split; [by exists gw|done]. }
  cbn. split; [by rewrite Hg|]. split; [done|].
  eexists _, _. split; [exists gw; cbn; split; [done|]; split; [done|]; rewrite lookup_insert_eq; done|]. split; [exact L|].
  unfold pmp_tracked. cbn. rewrite Hg. apply (keys_of_insert (pmp_key gw) _ _ (mkInfo (ToLower p) i (u16 m))).
Qed.

Lemma PMP_delete_spec gw c w x : p_client c = Some gw -> p_MappedPorts c !! x.1 = Some x.2 ->
  exists c' w', mignore (PMP_DeletePortMapping (pi_Protocol x.2) x.1) (c, w) = (Ok tt, (c', w')) /\ p_client c' = Some gw /\
    w_igd w' = w_igd w /\
    (pmp_table (w_pmp w') = delete (pmp_key gw x) (pmp_table (w_pmp w)) \/
     pmp_table (w_pmp w') = pmp_table (w_pmp w) /\ (pmp_willing -> False)) /\
    (p_MappedPorts c' = delete x.1 (p_MappedPorts c) \/ p_MappedPorts c' = p_MappedPorts c).
Proof.
  intros Hg Hm. unfold mignore, mtry, PMP_DeletePortMapping. unfold mbind at 1, M_bind at 1. rewrite gets_bind. cbn [fst]. rewrite Hm, Hg.
  set (proto := if bool_decide _ then _ else _). assert (proto = pi_Protocol x.2) as -> by (unfold proto; by case_bool_decide).
  unfold mderef, on_pmp. unfold mbind, M_bind, mret, M_ret. pose proof (pmp_law (w_pmp w) gw (pi_Protocol x.2) (pi_InternalPort x.2) 0 0) as L.
  pose proof (fun W : pmp_willing => W (w_pmp w) gw (pi_Protocol x.2) (pi_InternalPort x.2)) as W.
  destruct (pmp_AddPortMapping _ _ _ _ _ _) as [s' [[m lf]|err]]; cbn in W |- *; eexists _, _; (split; [done|]); cbn; do 2 (split; [done|]).
  - split; left; [exact L|done].
  - split; [|by right]. destruct L as (? & [L|L]); [right|by left]. split; [done|]. intros Hw. destruct (W Hw) as [? ?]. discriminate.
Qed.

Lemma PMP_cleanup_spec c w : is_Some (p_client c) ->
  exists c' w' (D : gset natKey), PMP_CleanupAllMappings (c, w) = (Ok tt, (c', w')) /\ w_igd w' = w_igd w /\
    D ⊆ pmp_tracked c /\ (pmp_willing -> D = pmp_tracked c) /\
    forall k, pmp_table (w_pmp w') !! k = if decide (k ∈ D) then None else pmp_table (w_pmp w) !! k.
Proof.
  intros [gw Hg]. unfold PMP_CleanupAllMappings, pmp_tracked. rewrite gets_bind. cbn [fst]. rewrite Hg, keys_of_range.
  apply (cleanup_loop (fun w => pmp_table (w_pmp w)) w_igd p_MappedPorts (fun c => p_client c = Some gw) pmp_willing (pmp_key gw)); [| | |done].
  - intros c1 w1 [port info]. apply (PMP_delete_spec gw c1 w1 (port, info)).
  - apply NoDup_map_range.
  - intros [port info] H. by apply elem_of_map_range in H.
Qed.

#[export] Instance PMP_Spec : NATClientSpec NATPMPClient := {|
  nat_table w := pmp_table (w_pmp w); nat_other := w_igd; nat_tracked := pmp_tracked;
  nat_ready c := is_Some (p_client c); nat_willing := pmp_willing; nat_asked := pmp_asked; nat_entry := pmp_entry;
  nat_add_spec c w p e i d l := PMP_add_spec p e i d l c w; nat_cleanup_spec := PMP_cleanup_spec |}.
End PMPSpec.

(** ** A session, from the promise alone *)
Section Session.
Context `{UP : UPnPLib, PL : PMPLib} {C : Type} `{NC : !NATClient C, SP : !NATClientSpec C}.

(** A constructor that makes a client without mappings and leaves the gateways alone. *)
Definition fresh (new : M NatWorld C) : Prop := forall w,
  match new w with
  | (Ok c, w') => nat_ready c /\ nat_tracked c = ∅ /\ nat_table w' = nat_table w /\ nat_other w' = nat_other w
  | (Err _, w') => nat_table w' = nat_table w /\ nat_other w' = nat_other w
  | (Panic, _) => False
  end.

Lemma attempt_spec new id port lease w : fresh new ->
  match attempt new id port lease w with
  | (Ok (Some c), w') => nat_ready c /\ nat_other w' = nat_other w /\
      exists k v, nat_entry c (str "udp") port port k v /\ nat_table w' = <[k := v]> (nat_table w) /\ nat_tracked c = {[k]}
  | (Ok None, w') => nat_other w' = nat_other w /\ (nat_table w' = nat_table w \/
      exists c k v, nat_asked c (str "udp") port port k v /\ nat_table w' = <[k := v]> (nat_table w))
  | _ => False
  end.
Proof.
  intros Hf. specialize (Hf w). unfold attempt, mtry. unfold mbind, M_bind. destruct (new w) as [[c|e|] w1]; [| |done].
  2: { destruct Hf as [T O]. split; [done|]. by left. }
  destruct Hf as (Hr & Ht & T1 & O1). unfold call.
  pose proof (nat_add_spec c w1 (str "udp") port port (nat_description id c) lease Hr) as A.
  destruct (AddPortMapping _ _ _ _ _ _) as [[[]|e|] [c' w']]; [| |done].
  - cbn. destruct A as (R & O & k & v & A1 & A2 & A3 & A4). split; [done|]. split; [by rewrite O|].
    exists k, v. split; [done|]. split; [by rewrite A2, T1|]. rewrite Ht, union_empty_r_L in A4.
    apply set_eq. intros q. split; [apply A4|]. by intros ->%elem_of_singleton.
  - cbn. destruct A as (-> & O & T). rewrite O, <- T1. split; [done|]. destruct T as [T|(k & v & H & T)]; [by left|right; eauto].
Qed.

Lemma cleanup_spec c k w : nat_ready c -> nat_tracked c = {[k]} ->
  exists w', mignore (call c CleanupAllMappings) w = (Ok tt, w') /\ nat_other w' = nat_other w /\
    (nat_table w' = delete k (nat_table w) \/ nat_table w' = nat_table w /\ (nat_willing -> False)).
Proof.
  intros Hr Ht. destruct (nat_cleanup_spec c w Hr) as (c' & w' & D & E & O & S1 & S2 & T). exists w'.
  unfold mignore, mtry, call. unfold mbind, M_bind. rewrite E. split; [done|]. split; [done|]. rewrite Ht in S1, S2.
  destruct (decide (k ∈ D)) as [Hk|Hk].
  - left. apply map_eq. intros q. rewrite T. destruct (decide (q = k)) as [->|Hq].
    + by rewrite lookup_delete_eq, decide_True.
    + rewrite lookup_delete_ne by done. rewrite decide_False; [done|]. by intros ->%S1%elem_of_singleton.
  - right. split; [|intros W; apply Hk; rewrite (S2 W); by apply elem_of_singleton]. apply map_eq. intros q.
    rewrite T, decide_False; [done|]. intros Hq. by pose proof (S1 _ Hq) as ->%elem_of_singleton.
Qed.
End Session.

Section NatTheorems.
Context `{UP : UPnPLib, PL : PMPLib, HN : HostNet, UU : UnicodeUpper, UL : UnicodeLower, UW : !UPnPLaws, PW : !PMPLaws} {MR : MapRange Z}.

Lemma first_suitable_spec addrs ip : first_suitable addrs = Some ip ->
  exists a, Some a ∈ addrs /\ ip = To4 a /\ ip <> [] /\ IsLinkLocalUnicast ip = false /\ IsLoopback a = false.
Proof.
  induction addrs as [|[a|] rest IH]; [done| |]; cbn.
  - destruct (IsLoopback a) eqn:E1; cbn; [intros (x & ? & ?)%IH; exists x; split; [by right|done]|].
    destruct (bool_decide_reflect (To4 a = [])); cbn; [intros (x & ? & ?)%IH; exists x; split; [by right|done]|].
    destruct (IsLinkLocalUnicast (To4 a)) eqn:E2; cbn; [intros (x & ? & ?)%IH; exists x; split; [by right|done]|].
    intros [= <-]. exists a. split; [left|done].
  - intros (x & ? & ?)%IH. exists x. split; [by right|done].
Qed.

Lemma getLocalIP_frame dial w : let r := getLocalIP dial w in
  w_igd r.2 = w_igd w /\ w_pmp r.2 = w_pmp w /\ r.1 <> Panic.
Proof.
  cbn. unfold getLocalIP, look, mbind, M_bind, merr, mret, M_ret. case_bool_decide.
  - destruct (host_addrs _) as [addrs|]; [|done]. destruct (first_suitable addrs); [done|].
    destruct (host_dial _ _); [|done]. by destruct (_ && _).
  - destruct (host_dial _ _); [|done]. by destruct (_ && _).
Qed.

Lemma newUPnPClient_fresh dial : fresh (newUPnPClient dial).
Proof.
  intros w. unfold newUPnPClient, mtry. unfold mbind, M_bind. destruct (getLocalIP_frame dial w) as (H1 & H2 & H3).
  destruct (getLocalIP dial w) as [[ip|e|] w']; cbn in *; [|by rewrite H1, H2|done].
  unfold discoverIGD. repeat (destruct (probes _ _); [cbn; rewrite H1, H2; split; [done|]; split; [|done]; by apply set_eq|]).
  cbn. by rewrite H1, H2.
Qed.

Lemma newNATPMPClient_fresh dial : fresh (newNATPMPClient dial).
Proof.
  intros w. unfold newNATPMPClient, mtry. unfold mbind, M_bind. destruct (getLocalIP_frame dial w) as (H1 & H2 & H3).
  destruct (getLocalIP dial w) as [[ip|e|] w']; cbn in *; [|by rewrite H1, H2|done].
  unfold discoverGatewayIP. destruct (DiscoverGateway (w_pmp w')) as [[gw|]|e]; cbn.
  1: rewrite H1, H2; split; [done|]; split; [|done]; by apply set_eq.
  all: destruct (guessed_gateway ip); cbn; rewrite H1, H2; [|done]; split; [done|]; split; [|done]; by apply set_eq.
Qed.

(** What became of the mappings of the gateways, over setup and cleanup. *)
Definition session_ok {V R : Type} (table : NatWorld -> gmap natKey V) (other : NatWorld -> R) (willing : Prop)
    (w w1 : NatWorld) client (k : natKey) (v : V) : Prop :=
  table w1 = <[k := v]> (table w) /\
  exists w2, Cleanup client w1 = (Ok tt, w2) /\ other w2 = other w1 /\
    (table w2 = delete k (table w) \/ table w2 = table w1 /\ (willing -> False)).

(** What an attempt that failed may have left: nothing, or one mapping of the
    port it asked for. *)
Definition left_over {V : Type} (proto : list Z) (port : Z) (t t' : gmap natKey V) : Prop :=
  t' = t \/ exists g v, t' = <[(g, proto, port) := v]> t.

Lemma upnp_left_over (port : Z) (t t' : gmap natKey (list Z * Z)) :
  t' = t \/ (exists (c : UPnPClient) (k : natKey) (v : list Z * Z), upnp_entry c (str "udp") port port k v /\ t' = <[k := v]> t) -> left_over (str "UDP") port t t'.
Proof. intros [->|(c & k & v & (g & _ & -> & ->) & ->)]; [by left|right]. by eexists _, _. Qed.

Lemma pmp_left_over (port : Z) (t t' : gmap natKey Z) :
  t' = t \/ (exists (c : NATPMPClient) (k : natKey) (v : Z), pmp_asked c (str "udp") port port k v /\ t' = <[k := v]> t) -> left_over (str "udp") port t t'.
Proof. intros [->|(c & k & v & (g & _ & ->) & ->)]; [by left|right]. by eexists _, _. Qed.

(** What [SetupNAT] returns and leaves. *)
Lemma nat_session_facts conn id dial w :
  let igd w := igd_table (w_igd w) in let pmp w := pmp_table (w_pmp w) in
  match SetupNAT conn id dial w with
  | (Ok None, w1) =>
      match conn with
      | Some (UDPAddr _ port) => left_over (str "UDP") (u16 port) (igd w) (igd w1) /\ left_over (str "udp") (u16 port) (pmp w) (pmp w1)
      | _ => w1 = w
      end
  | (Ok (Some (inl c)), w1) => exists ip port g, conn = Some (UDPAddr ip port) /\ u_gateway c = Some g /\ pmp w1 = pmp w /\
      session_ok igd w_pmp igd_willing w w1 (Some (inl c)) (kind_name g, str "UDP", u16 port) (u_LocalIP c, u16 port)
  | (Ok (Some (inr c)), w1) => exists ip port gw ext, conn = Some (UDPAddr ip port) /\ p_client c = Some gw /\
      left_over (str "UDP") (u16 port) (igd w) (igd w1) /\ is_Some (p_MappedPorts c !! u16 ext) /\
      session_ok pmp w_igd pmp_willing w w1 (Some (inr c)) (gw, str "udp", u16 port) ext
  | _ => False
  end.
Proof.
  cbn zeta. unfold SetupNAT. destruct conn as [[ip port|ip port|cid|txt]|]; [|done..].
  unfold mtry. unfold mbind, M_bind. destruct (getLocalIP_frame dial w) as (H1 & H2 & H3).
  destruct (getLocalIP dial w) as [[lip|e|] w0]; cbn in *; [|by rewrite H1, H2; split; left|done].
  destruct (negb _); [by cbn; rewrite H1, H2; split; left|].
  pose proof (attempt_spec (newUPnPClient dial) id (u16 port) 0 w0 (newUPnPClient_fresh dial)) as A.
  destruct (attempt (newUPnPClient dial) id (u16 port) 0 w0) as [[[c|]|e|] w1]; [| |done..];
    cbn [nat_ready nat_other nat_table nat_tracked nat_asked nat_entry UPnP_Spec] in A.
  - destruct A as (R & O & k & v & (g & Hg & -> & ->) & T & K). change (standardizeProtocol (str "udp")) with (str "UDP") in T, K.
    exists ip, port, g.
    split; [done|]. split; [done|]. split; [by rewrite O, H2|]. split; [by rewrite T, H1|].
    destruct (cleanup_spec (SP := UPnP_Spec) c _ w1 R K) as (w2 & E & O2 & T2). exists w2. split; [done|]. split; [exact O2|].
    destruct T2 as [T2|T2]; [left|right; exact T2]. cbn [nat_table UPnP_Spec] in T2. by rewrite T2, T, H1, delete_insert_eq.
  - destruct A as [A2 A1%upnp_left_over]. rewrite H1 in A1.
    pose proof (attempt_spec (newNATPMPClient dial) id (u16 port) (3600 * 24) w1 (newNATPMPClient_fresh dial)) as B.
    destruct (attempt (newNATPMPClient dial) id (u16 port) (3600 * 24) w1) as [[[c|]|e|] w2]; [| |done..];
      cbn [nat_ready nat_other nat_table nat_tracked nat_asked nat_entry PMP_Spec] in B.
    + destruct B as (R & O & k & v & (gw & Hg & -> & Hv) & T & K). change (ToLower (str "udp")) with (str "udp") in T, K. exists ip, port, gw, v.
      split; [done|]. split; [done|]. split; [by rewrite O|]. split; [done|]. split; [by rewrite T, A2, H2|].
      destruct (cleanup_spec (SP := PMP_Spec) c _ w2 R K) as (w3 & E & O2 & T2). exists w3. split; [done|]. split; [exact O2|].
      destruct T2 as [T2|T2]; [left|right; exact T2]. cbn [nat_table PMP_Spec] in T2. by rewrite T2, T, A2, H2, delete_insert_eq.
    + destruct B as [B1 B2%pmp_left_over]. rewrite A2, H2 in B2. cbn. by rewrite B1.
Qed.

(** C22. A mapping is set up at one gateway and taken down again. When
    [SetupNAT] returns a client, the gateway of that client has entered the
    mapping of the UDP port (to the same port of this host), and [Cleanup]
    leaves the other gateway alone and removes that mapping, and nothing else,
    or, only where that gateway does not grant every deletion, nothing. An
    attempt that failed may have been carried out although its answer was an
    error or was lost: then that attempt's mapping of this port, and nothing
    else, is left at its gateway, over UPnP before a NAT-PMP client is returned
    and at either gateway when there is no client. A connection that is not
    UDP changes nothing. *)
Theorem nat_session conn id dial w :
  let igd w := igd_table (w_igd w) in let pmp w := pmp_table (w_pmp w) in
  match SetupNAT conn id dial w with
  | (Ok None, w1) =>
      match conn with
      | Some (UDPAddr _ port) => left_over (str "UDP") (u16 port) (igd w) (igd w1) /\ left_over (str "udp") (u16 port) (pmp w) (pmp w1)
      | _ => w1 = w
      end
  | (Ok (Some (inl c)), w1) => exists ip port g, conn = Some (UDPAddr ip port) /\ u_gateway c = Some g /\ pmp w1 = pmp w /\
      session_ok igd w_pmp igd_willing w w1 (Some (inl c)) (kind_name g, str "UDP", u16 port) (u_LocalIP c, u16 port)
  | (Ok (Some (inr c)), w1) => exists ip port gw ext, conn = Some (UDPAddr ip port) /\ p_client c = Some gw /\
      left_over (str "UDP") (u16 port) (igd w) (igd w1) /\ is_Some (p_MappedPorts c !! u16 ext) /\
      session_ok pmp w_igd pmp_willing w w1 (Some (inr c)) (gw, str "udp", u16 port) ext
  | _ => False
  end.
Proof. exact (nat_session_facts conn id dial w). Qed.

(** A mapping is forgotten: the UPnP client keeps one protocol per external
    port, so that after mapping a port for TCP and for UDP the cleanup leaves
    the TCP mapping at the gateway. *)
Theorem mapping_leak c w e i1 i2 d1 d2 l1 l2 :
  let r1 := UPnP_AddPortMapping (str "tcp") e i1 d1 l1 (c, w) in
  let r2 := UPnP_AddPortMapping (str "udp") e i2 d2 l2 r1.2 in
  r1.1 = Ok tt -> r2.1 = Ok tt ->
  exists g c3 w3, u_gateway r2.2.1 = Some g /\ UPnP_CleanupAllMappings r2.2 = (Ok tt, (c3, w3)) /\
    is_Some (igd_table (w_igd w3) !! (kind_name g, str "TCP", e)).
Proof.
  destruct (UPnP_AddPortMapping (str "tcp") e i1 d1 l1 (c, w)) as [o1 [c1 w1]] eqn:E1. cbn [fst snd]. cbv zeta.
  destruct (UPnP_AddPortMapping (str "udp") e i2 d2 l2 (c1, w1)) as [o2 [c2 w2]] eqn:E2. cbn [fst snd]. intros -> ->.
  destruct (u_gateway c) as [g|] eqn:Hg; [|unfold UPnP_AddPortMapping, upnp_add in E1; rewrite gets_bind in E1; cbn in E1; by rewrite Hg in E1].
  pose proof (UPnP_add_spec (str "tcp") e i1 d1 l1 c w ltac:(by rewrite Hg)) as A. rewrite E1 in A.
  destruct A as ((G1 & _ & M1) & R1 & _ & k1 & v1 & (g1 & Hg1 & -> & ->) & T1 & _).
  pose proof (UPnP_add_spec (str "udp") e i2 d2 l2 c1 w1 R1) as A. rewrite E2 in A.
  destruct A as ((G2 & _ & M2) & R2 & _ & k2 & v2 & (g2 & Hg2 & -> & ->) & T2 & _).
  assert (g2 = g1) as -> by congruence.
  destruct (UPnP_cleanup_spec c2 w2 R2) as (c3 & w3 & D & E3 & _ & S3 & _ & T3).
  exists g1, c3, w3. split; [done|]. split; [done|]. rewrite T3, decide_False.
  - rewrite T2, lookup_insert_ne, T1 by (intros [=]). change (standardizeProtocol (str "tcp")) with (str "TCP"). rewrite lookup_insert_eq. done.
  - intros Hk. apply S3 in Hk. unfold upnp_tracked in Hk. rewrite Hg2 in Hk. apply elem_of_keys_of in Hk as (q & pr & Hq & [= Hp ->]).
    rewrite M2, lookup_insert_eq in Hq. simplify_eq.
Qed.
End NatTheorems.

(** ** Gateways for evaluation *)
Module NatSample.
#[export] Instance igd : UPnPLib := {|
  igd_state := gmap natKey (list Z * Z);
  igd_probe := fun _ g => match g with WANIPConnection1 => inl 1 | _ => inr (ErrNew "context deadline exceeded") end;
  GetExternalIPAddress := fun _ _ => inl (str "198.51.100.7");
  igd_AddPortMapping := fun s g _ ext p int cl _ _ l =>
    if l =? 0 then (<[(kind_name g, p, ext) := (cl, int)]> s, None) else (s, Some (ErrNew "OnlyPermanentLeasesSupported"));
  igd_DeletePortMapping := fun s g _ ext p => (delete (kind_name g, p, ext) s, None) |}.

#[export] Instance pmp : PMPLib := {|
  pmp_state := gmap natKey Z;
  DiscoverGateway := fun _ => inl (Some [192; 168; 1; 1]);
  GetExternalAddress := fun _ _ => inl [198; 51; 100; 7];
  pmp_AddPortMapping := fun s gw p int ext l =>
    if l =? 0 then (delete (gw, p, int) s, inl (0, 0)) else (<[(gw, p, int) := ext]> s, inl (ext, l)) |}.

#[export, refine] Instance igd_laws : UPnPLaws := {| igd_table := fun s : @igd_state igd => s |}.
Proof.
  - intros. cbn. destruct (l =? 0); [done|by left].
  - intros. reflexivity.
Defined.

#[export, refine] Instance pmp_laws : PMPLaws := {| pmp_table := fun s : @pmp_state pmp => s |}.
Proof. intros. cbn. by destruct (l =? 0). Defined.

#[export] Instance host : HostNet := {|
  host_addrs := fun _ => inl [Some [127; 0; 0; 1]; None; Some [169; 254; 3; 4]; Some [192; 168; 1; 20]];
  host_dial := fun _ _ => inl [192; 168; 1; 20] |}.

#[export] Instance upper : UnicodeUpper := fun s => s.
#[export] Instance lower : UnicodeLower := fun s => s.
#[export] Instance range : MapRange Z := default_range Z.

Definition start : NatWorld := mkWorld _ _ 0 ∅ ∅.
Definition client : UPnPClient := mkUPnP (Some WANIPConnection1) (str "IGDv1-IP1") (str "192.168.1.20") [] ∅.
End NatSample.
Import NatSample.

Definition by_upnp (r : outcome (option (UPnPClient + NATPMPClient)) * NatWorld) : bool :=
  match r with (Ok (Some (inl _)), _) => true | _ => false end.

Lemma nat_session_witness : exists c g w1 w2,
  SetupNAT (Some (UDPAddr [0; 0; 0; 0] 5000)) (str "e1") [] start = (Ok (Some (inl c)), w1) /\ u_gateway c = Some g /\
  w_igd w1 = {[ (kind_name g, str "UDP", 5000) := (u_LocalIP c, 5000) ]} /\
  Cleanup (Some (inl c)) w1 = (Ok tt, w2) /\ w_igd w2 = ∅.
Proof.
  pose proof (nat_session (Some (UDPAddr [0; 0; 0; 0] 5000)) (str "e1") [] start) as H.
  assert (by_upnp (SetupNAT (Some (UDPAddr [0; 0; 0; 0] 5000)) (str "e1") [] start) = true) as B by (vm_compute; reflexivity).
  destruct (SetupNAT (Some (UDPAddr [0; 0; 0; 0] 5000)) (str "e1") [] start) as [[[[c|c]|]|e|] w1]; try discriminate B.
  destruct H as (ip & port & g & E & Hg & _ & T1 & w2 & E2 & _ & T2). injection E as <- <-. exists c, g, w1, w2.
  split; [reflexivity|]. split; [exact Hg|]. split; [exact T1|]. split; [exact E2|].
  destruct T2 as [T2|[_ F]]; [exact T2|]. destruct F. intros s g' ext p. reflexivity.
Defined.

Lemma mapping_leak_witness :
  let s1 := (UPnP_AddPortMapping (str "tcp") 80 80 [] 0 (client, start)).2 in
  let s2 := (UPnP_AddPortMapping (str "udp") 80 80 [] 60 s1).2 in
  exists g c3 w3, u_gateway s2.1 = Some g /\ UPnP_CleanupAllMappings s2 = (Ok tt, (c3, w3)) /\
    is_Some (igd_table (w_igd w3) !! (kind_name g, str "TCP", 80)).
Proof. apply mapping_leak; vm_compute; reflexivity. Defined.
