(* ===== verification/Transport.v ===== *)
(** * The websocket transport: [pkg/transport]

    The client transport of an edge ([wss.go]): the choice of dialer and proxy,
    the SOCKS5 handshake and the CONNECT request that it speaks itself, and the
    packets on an open connection.  A connection to a proxy is the chunks its
    reads return and the bytes written to it; dialling, TLS, name resolution
    and the websocket library are parameters. *)
From S2P Require Import Prelude GoBytes GoNet.
From stdpp Require Import gmap list strings.
From Stdlib Require Import ZArith Lia.
Open Scope Z_scope.

(** ** Streams *)

(** What the next reads return, at most; the end is an EOF. *)
Record Stream := mkStream { st_in : list (list Z); st_out : list Z; st_closed : bool }.

(** Whether the other side takes a write, given what it took before. *)
Class StreamSink := stream_accept : list Z -> list Z -> option goerr.

(** [net.ResolveTCPAddr] *)
Class TCPResolver := ResolveTCPAddr : list Z -> (list Z * Z) + goerr.

(** [conn.Read(buf)] of a buffer of [n] zero bytes: the buffer afterwards; the
    number of bytes read is not used here. *)
Definition stream_Read (n : nat) : M Stream (list Z) := fun s =>
  match st_in s with
  | [] => (Err io_EOF, s)
  | chunk :: rest =>
      let got := take n chunk in
      let left := drop n chunk in
      (Ok (got ++ replicate (n - length got) 0),
       mkStream (if bool_decide (left = []) then rest else left :: rest) (st_out s) (st_closed s))
  end.

Definition stream_Close : M Stream unit := modify (fun s => mkStream (st_in s) (st_out s) true).

Section Proxy.
Context `{SS : StreamSink, TR : TCPResolver}.

Definition stream_Write (b : list Z) : M Stream unit := fun s =>
  match stream_accept (st_out s) b with
  | Some e => (Err e, s)
  | None => (Ok tt, mkStream (st_in s) (st_out s ++ b) (st_closed s))
  end.

(** An error of [m], wrapped. *)
Definition mwrap {S A} (msg : string) (m : M S A) : M S A :=
  r ← mtry m;
  match r with inl a => mret a | inr e => merr (ErrWrap msg e) end.

(** ** SOCKS5 *)
Definition socks5_request (ip : list Z) (port : Z) : list Z :=
  (if bool_decide (To4 ip <> []) then [5; 1; 0; 1] ++ To4 ip
   else if bool_decide (length ip = 16)%nat then [5; 1; 0; 4] ++ ip
   else let host := IP_String ip in [5; 1; 0; 3; u8 (len host)] ++ host)
  ++ [u8 (Z.shiftr port 8); u8 (Z.land port 0xFF)].

Definition socks5Handshake (targetAddr : list Z) : M Stream unit :=
  mwrap "failed to send SOCKS5 version/methods" (stream_Write [5; 1; 0]);;
  response ← mwrap "failed to read SOCKS5 method selection" (stream_Read 2);
  v ← mlift (index response 0);
  if negb (v =? 5) then merr (ErrNew "invalid SOCKS5 version") else
  m ← mlift (index response 1);
  if m =? 0xFF then merr (ErrNew "no acceptable authentication methods") else
  match ResolveTCPAddr targetAddr with
  | inr e => merr (ErrWrap "failed to resolve target address" e)
  | inl (ip, port) =>
      mwrap "failed to send SOCKS5 connect request" (stream_Write (socks5_request ip port));;
      resp ← mwrap "failed to read SOCKS5 connect response" (stream_Read 10);
      v ← mlift (index resp 0);
      if negb (v =? 5) then merr (ErrNew "invalid SOCKS5 version in response") else
      code ← mlift (index resp 1);
      if negb (code =? 0) then merr (ErrNew "SOCKS5 connection failed with code") else mret tt
  end.

(** ** CONNECT *)
Definition crlf : list Z := [13; 10].
Definition connect_request (addr : list Z) : list Z :=
  str "CONNECT " ++ addr ++ str " HTTP/1.1" ++ crlf ++ str "Host: " ++ addr ++ crlf
  ++ str "Proxy-Connection: Keep-Alive" ++ crlf ++ crlf.

(** [bufio.ScanLines] drops one carriage return. *)
Definition drop_cr (line : list Z) : list Z :=
  match reverse line with 13 :: l => reverse l | _ => line end.

Definition errTooLong : goerr := ErrNew "bufio.Scanner: token too long".

(** The next line from the buffer [buf] and the chunks [ins], [None] at the
    end, with the buffer and the chunks then left. *)
Fixpoint scan_line (ins : list (list Z)) (buf : list Z) : outcome (option (list Z)) * (list Z * list (list Z)) :=
  match index_byte 10 buf with
  | Some i => (Ok (Some (drop_cr (take i buf))), (drop (S i) buf, ins))
  | None =>
      if 65536 <=? len buf then (Err errTooLong, (buf, ins)) else
      match ins with
      | chunk :: rest => scan_line rest (buf ++ chunk)
      | [] => (match buf with [] => Ok None | _ => Ok (Some (drop_cr buf)) end, ([], []))
      end
  end.

(** The status line: lines are read up to the first empty one. *)
Fixpoint read_header (fuel : nat) (ins : list (list Z)) (buf : list Z) (status : option (list Z))
    : outcome (list Z) * list (list Z) :=
  match fuel with
  | O => (Ok (default [] status), ins)
  | S fuel =>
      match scan_line ins buf with
      | (Ok (Some []), (_, ins')) => (Ok (default [] status), ins')
      | (Ok (Some line), (buf', ins')) => read_header fuel ins' buf' (Some (default line status))
      | (Ok None, (_, ins')) => (Ok (default [] status), ins')
      | (Err e, (_, ins')) => (Err e, ins')
      | (Panic, (_, ins')) => (Panic, ins')
      end
  end.

(** Each line takes a byte at least. *)
Definition header_fuel (ins : list (list Z)) : nat := S (length (concat ins)).

Definition read_status : M Stream (list Z) := fun s =>
  let '(r, ins) := read_header (header_fuel (st_in s)) (st_in s) [] None in (r, mkStream ins (st_out s) (st_closed s)).

(** The connection is closed and the error returned. *)
Definition give_back {A} (e : goerr) : M Stream A := stream_Close;; merr e.

Definition https_connect (addr : list Z) : M Stream unit :=
  r ← mtry (stream_Write (connect_request addr));
  match r with
  | inr e => give_back (ErrWrap "failed to send CONNECT request to proxy" e)
  | inl _ =>
      r ← mtry read_status;
      match r with
      | inr e => give_back (ErrWrap "failed to read proxy response" e)
      | inl statusLine =>
          if HasPrefix statusLine (str "HTTP/1.1 2") then mret tt
          else give_back (ErrNew "proxy returned non-200 status")
      end
  end.

Definition socks5s_connect (addr : list Z) : M Stream unit :=
  r ← mtry (socks5Handshake addr);
  match r with
  | inr e => give_back (ErrWrap "SOCKS5 TLS handshake failed" e)
  | inl _ => mret tt
  end.

(** The two dial functions: a TLS connection to the proxy, then its protocol. *)
Definition dial_through (tls_Dial : list Z -> Stream + goerr) (proxyHost : list Z) (m : M Stream unit) : outcome unit * option Stream :=
  match tls_Dial proxyHost with
  | inr e => (Err (ErrWrap "failed to connect to proxy" e), None)
  | inl s => let '(r, s') := m s in (r, Some s')
  end.

(** ** The dialer *)
Inductive ProxyDial :=
  | DialDirect
  | DialSocks5 (addr : list Z)
  | DialSocks5TLS (host : list Z)
  | DialHTTP (url : list Z)
  | DialHTTPS (host : list Z).

(** The TLS configuration is whether verification is skipped and the certificate. *)
Record Dialer := mkDialer { d_tls : option (bool * option (list Z)); d_proxy : ProxyDial }.

Definition TrimPrefix (s p : list Z) : list Z := if HasPrefix s p then drop (length p) s else s.

(** [proxy.SOCKS5] with no authentication has no error. *)
Definition configureProxy (dialer : Dialer) (proxyURL : list Z) : Dialer :=
  mkDialer (d_tls dialer)
    (if HasPrefix proxyURL (str "socks5://") then DialSocks5 (TrimPrefix proxyURL (str "socks5://"))
     else if HasPrefix proxyURL (str "socks5s://") then DialSocks5TLS (TrimPrefix proxyURL (str "socks5s://"))
     else if HasPrefix proxyURL (str "http://") then DialHTTP proxyURL
     else if HasPrefix proxyURL (str "https://") then DialHTTPS (TrimPrefix proxyURL (str "https://"))
     else if negb (bool_decide (proxyURL = [])) then DialHTTP proxyURL
     else d_proxy dialer).
End Proxy.

Record WSSTransportConfig := mkWSSConfig { wc_URL : list Z; CertFile : list Z; KeyFile : list Z; SkipVerify : bool; wc_ProxyURL : list Z }.

(** ** Connections of the websocket library *)

(** What a read of the library yields next; it panics when an application
    reads a failed connection again and again. *)
Inductive WSEvent := WSMessage (type_ : Z) (data : list Z) | WSFailure (e : goerr) | WSPanic.

Record WSConn := mkWSConn { ws_events : list WSEvent; ws_sent : list (list Z); ws_closed : bool }.

(** Key pairs, dialling (with the status of the response), writing. *)
Class WSLib := {
  LoadX509KeyPair : list Z -> list Z -> option goerr;
  ws_dial : Dialer -> list Z -> (WSConn * Z) + goerr;
  ws_accept : list (list Z) -> list Z -> option goerr;
}.

Record WSSTransport := mkWSS { ws_conn : WSConn; isServer : bool; closeCh_closed : bool }.

Definition BinaryMessage : Z := 2.
Definition StatusSwitchingProtocols : Z := 101.

Section Transport.
Context `{WL : WSLib}.

Definition NewWSSTransport (config : WSSTransportConfig) : outcome WSSTransport :=
  if negb (HasPrefix (wc_URL config) (str "ws://")) && negb (HasPrefix (wc_URL config) (str "wss://"))
  then Err (ErrNew "invalid WS/WSS URL") else
  tls ← (if HasPrefix (wc_URL config) (str "wss://") then
           if negb (bool_decide (CertFile config = [])) && negb (bool_decide (KeyFile config = [])) then
             match LoadX509KeyPair (CertFile config) (KeyFile config) with
             | Some e => Err (ErrWrap "failed to load cert/key" e)
             | None => Ok (Some (SkipVerify config, Some (CertFile config)))
             end
           else Ok (Some (SkipVerify config, None))
         else Ok None);
  let dialer := mkDialer tls DialDirect in
  let dialer := if bool_decide (wc_ProxyURL config = []) then dialer else configureProxy dialer (wc_ProxyURL config) in
  match ws_dial dialer (wc_URL config) with
  | inr e => Err (ErrWrap "WS/WSS dial failed" e)
  | inl (conn, status) =>
      if negb (status =? StatusSwitchingProtocols) then Err (ErrNew "unexpected status")
      else Ok (mkWSS conn false false)
  end.

Definition NewWSSTransportFromConn (conn : WSConn) : WSSTransport := mkWSS conn true false.

Definition set_conn (f : WSConn -> WSConn) (t : WSSTransport) : WSSTransport := mkWSS (f (ws_conn t)) (isServer t) (closeCh_closed t).

(** A closed connection fails its reads. *)
Definition ReadMessage : M WSSTransport (Z * list Z) := fun t =>
  if ws_closed (ws_conn t) then (Err (ErrNew "use of closed network connection"), t) else
  match ws_events (ws_conn t) with
  | [] => (Err io_EOF, t)
  | e :: rest =>
      let t' := set_conn (fun c => mkWSConn rest (ws_sent c) (ws_closed c)) t in
      match e with
      | WSMessage ty data => (Ok (ty, data), t')
      | WSFailure e => (Err e, t')
      | WSPanic => (Panic, t')
      end
  end.

(** A deferred [recover] turns a panic into an error. *)
Definition mrecover {S A} (e : goerr) (m : M S A) : M S A := fun s =>
  match m s with (Panic, s') => (Err e, s') | r => r end.

(** The buffer and the number of bytes. *)
Definition wss_Read (pkt : list Z) : M WSSTransport (list Z * nat) :=
  mrecover (ErrNew "websocket panic")
    ('(msgType, data) ← ReadMessage;
     if negb (msgType =? BinaryMessage) then merr (ErrNew "unexpected message type") else
     mret (copy_at pkt 0 (length pkt) data, Nat.min (length pkt) (length data))).

Definition wss_Write (pkt : list Z) : M WSSTransport nat := fun t =>
  match ws_accept (ws_sent (ws_conn t)) pkt with
  | Some e => (Err e, t)
  | None => (Ok (length pkt), set_conn (fun c => mkWSConn (ws_events c) (ws_sent c ++ [pkt]) (ws_closed c)) t)
  end.

(** Closing twice is safe: the channel is closed once. *)
Definition wss_Close : M WSSTransport unit :=
  modify (fun t => mkWSS (mkWSConn (ws_events (ws_conn t)) (ws_sent (ws_conn t)) true) (isServer t) true).
End Transport.

(** ** The SOCKS5 handshake *)

(** How a proxy reads a request (RFC 1928, section 4). *)
Definition socks_target (req : list Z) : option (list Z * Z) :=
  match req with
  | 5 :: 1 :: 0 :: ty :: r =>
      if (ty =? 1) && bool_decide (length r = 6)%nat then Some (take 4 r, be_get (drop 4 r))
      else if (ty =? 4) && bool_decide (length r = 18)%nat then Some (take 16 r, be_get (drop 16 r))
      else None
  | _ => None
  end.

Lemma port_bytes port : 0 <= port < 65536 -> be_get [u8 (Z.shiftr port 8); u8 (Z.land port 0xFF)] = port.
Proof.
  intros H. rewrite Z.shiftr_div_pow2 by lia. change 0xFF with (Z.ones 8). rewrite Z.land_ones by lia.
  unfold u8. change (2 ^ 8) with 256. rewrite Z.mod_mod by lia.
  rewrite (Z.mod_small (port / 256)) by (split; [apply Z.div_pos; lia|apply Z.div_lt_upper_bound; lia]).
  cbn. rewrite (Z.div_mod port 256) at 3 by lia. lia.
Qed.

Lemma To4_cases ip : To4 ip = [] \/ length ip = 4%nat /\ To4 ip = ip \/ length ip = 16%nat /\ length (To4 ip) = 4%nat.
Proof.
  unfold To4. case_bool_decide as H4; [auto|]. case_bool_decide as H16; [|auto]. cbn. case_bool_decide; [|auto].
  right. right. split; [done|]. rewrite length_drop. lia.
Qed.

Lemma request_target ip port : (length ip = 4 \/ length ip = 16)%nat -> 0 <= port < 65536 ->
  socks_target (socks5_request ip port) = Some (if bool_decide (To4 ip <> []) then To4 ip else ip, port).
Proof.
  intros Hl Hp. unfold socks5_request. destruct (bool_decide_reflect (To4 ip <> [])) as [H4|H4].
  - assert (length (To4 ip) = 4%nat) as L.
    { destruct (To4_cases ip) as [?|[[L ->]|[_ L]]]; [done|exact L|exact L]. }
    destruct (To4 ip) as [|a [|b [|c [|d []]]]]; try discriminate L. cbn [app socks_target].
    rewrite Z.eqb_refl. cbn [andb]. rewrite bool_decide_eq_true_2 by done. cbn [take drop]. by rewrite port_bytes.
  - assert (length ip = 16)%nat as L.
    { destruct Hl as [L|L]; [|exact L]. destruct H4. unfold To4. rewrite bool_decide_eq_true_2 by done. by destruct ip. }
    rewrite bool_decide_eq_true_2 by done. cbn [app socks_target]. change (4 =? 1) with false. change (4 =? 4) with true. cbn [andb].
    rewrite bool_decide_eq_true_2 by (rewrite length_app, L; reflexivity).
    rewrite (take_app_length' ip) by done. rewrite (drop_app_length' ip) by done. by rewrite port_bytes.
Qed.

Section Handshake.
Context `{SS : StreamSink, TR : TCPResolver}.
Hypothesis accepts : forall out b, stream_accept out b = None.

Lemma write_ok b s : stream_Write b s = (Ok tt, mkStream (st_in s) (st_out s ++ b) (st_closed s)).
Proof. unfold stream_Write. by rewrite accepts. Qed.

(** The chunks left by a read of [n] bytes from the first. *)
Definition residue (n : nat) (chunk : list Z) (rest : list (list Z)) : list (list Z) :=
  if bool_decide (drop n chunk = []) then rest else drop n chunk :: rest.

Local Ltac accepted s' := split; [|intros []; cbn; tauto]; intros _; unfold s', residue; cbn; by rewrite <-app_assoc.
Local Ltac request_phase Hr b0 b s' :=
    rewrite Hr, write_ok; unfold stream_Read; cbn;
    destruct (Z.eqb_spec b0 5) as [->|?]; [|split; [by intros (_ & _ & [= ->] & _)|by eexists _, _]]; cbn;
    destruct b as [|b1 b]; cbn; [accepted s'|];
    destruct (Z.eqb_spec b1 0) as [->|?]; cbn; [accepted s'|];
    split; [intros (_ & _ & _ & [[= ->]|[=]]); done|by eexists _, _].

(** What the handshake makes of the answers, read by read. *)
Lemma handshake_eval addr ip port a b rest s : ResolveTCPAddr addr = inl (ip, port) ->
  st_in s = a :: b :: rest -> (0 < length a <= 2)%nat -> b <> [] ->
  let s' := mkStream (residue 10 b rest) (st_out s ++ [5; 1; 0] ++ socks5_request ip port) (st_closed s) in
  let good := a !! 0%nat = Some 5 /\ a !! 1%nat <> Some 255 /\ b !! 0%nat = Some 5 /\ (b !! 1%nat = Some 0 \/ b !! 1%nat = None) in
  (good -> socks5Handshake addr s = (Ok tt, s')) /\
  (~ good -> exists e s1, socks5Handshake addr s = (Err e, s1)).
Proof.
  intros Hr Hs Ha Hb s' good. subst good. unfold socks5Handshake, mwrap, mtry, mlift, merr. unfold mbind, M_bind, mret, M_ret.
  rewrite write_ok. unfold stream_Read at 1 2. cbn [st_in]. rewrite Hs.
  destruct b as [|b0 b]; [done|]. clear Hb. destruct a as [|a0 [|a1 [|]]]; cbn in Ha; [lia| | |lia].
  - cbn. destruct (Z.eqb_spec a0 5) as [->|H0]; [|split; [intros ([= ->] & _); done|by eexists _, _]]. cbn.
    assert ((None : option Z) <> Some 255) by done. request_phase Hr b0 b s'.
  - cbn. destruct (Z.eqb_spec a0 5) as [->|H0]; [|split; [intros ([= ->] & _); done|by eexists _, _]]. cbn.
    destruct (Z.eqb_spec a1 255) as [->|H3]; cbn; [split; [by intros (_ & [] & _)|by eexists _, _]|].
    assert (Some a1 <> Some 255) by congruence. request_phase Hr b0 b s'.
Qed.
End Handshake.

(** ** The CONNECT request *)
Lemma index_byte_app b l r : b ∉ l -> index_byte b (l ++ b :: r) = Some (length l).
Proof.
  induction l as [|c l IH]; intros H; cbn; [by rewrite Z.eqb_refl|].
  apply not_elem_of_cons in H as [Hc Hl]. rewrite IH by done. by destruct (Z.eqb_spec c b).
Qed.

Lemma index_byte_lt b l i : index_byte b l = Some i -> (i < length l)%nat.
Proof.
  revert i. induction l as [|c l IH]; intros i; cbn; [done|]. destruct (c =? b); [intros [= <-]; lia|].
  destruct (index_byte b l); [|done]. intros [= <-]. specialize (IH _ eq_refl). lia.
Qed.

Lemma drop_cr_line l : drop_cr (l ++ [13]) = l.
Proof. unfold drop_cr. rewrite reverse_app. exact (reverse_involutive l). Qed.

Lemma scan_line_in ins l r : 10 ∉ l -> scan_line ins (l ++ crlf ++ r) = (Ok (Some l), (r, ins)).
Proof.
  intros H. replace (l ++ crlf ++ r) with ((l ++ [13]) ++ 10 :: r) by (by rewrite <-app_assoc).
  assert (10 ∉ l ++ [13]) by (rewrite elem_of_app; intros [?|[=]%list_elem_of_singleton]; done).
  assert (index_byte 10 ((l ++ [13]) ++ 10 :: r) = Some (length (l ++ [13]))) as E by by apply index_byte_app.
  assert (drop (S (length (l ++ [13]))) ((l ++ [13]) ++ 10 :: r) = r) as D.
  { change (S ?n) with (1 + n)%nat. rewrite Nat.add_comm, <-drop_drop, drop_app_length. done. }
  destruct ins; cbn [scan_line]; by rewrite E, D, take_app_length, drop_cr_line.
Qed.

(** The scanner goes on with the next chunk. *)
Lemma scan_line_read chunk rest : scan_line (chunk :: rest) [] = scan_line rest chunk.
Proof. reflexivity. Qed.

Definition header_text (lines : list (list Z)) : list Z := concat ((fun l => l ++ crlf) <$> lines).
Definition header_line (l : list Z) : Prop := l <> [] /\ 10 ∉ l.

Lemma read_header_lines lines : forall fuel ins status extra, (length lines < fuel)%nat -> Forall header_line lines ->
  read_header fuel ins (header_text lines ++ crlf ++ extra) status = (Ok (default (default [] (head lines)) status), ins).
Proof.
  induction lines as [|l lines IH]; intros fuel ins status extra Hf Hl; (destruct fuel as [|fuel]; [cbn in Hf; lia|]).
  - change (header_text [] ++ crlf ++ extra) with ([] ++ crlf ++ extra). cbn [read_header].
    rewrite (scan_line_in ins [] extra) by (by intros ?%not_elem_of_nil). by destruct status.
  - apply Forall_cons in Hl as [[Hne Hnl] Hl]. cbn [read_header].
    replace (header_text (l :: lines) ++ crlf ++ extra) with (l ++ crlf ++ header_text lines ++ crlf ++ extra)
      by (unfold header_text; cbn; by rewrite <-!app_assoc).
    rewrite scan_line_in by done. destruct l as [|c l]; [done|]. rewrite IH by (cbn in Hf; done || lia). by destruct status.
Qed.

(** The loop over the lines ends: every line takes a byte, so that more fuel
    than there are bytes changes nothing. *)
Lemma scan_line_consumes ins : forall buf line buf' ins', scan_line ins buf = (Ok (Some line), (buf', ins')) ->
  (length buf' + length (concat ins') < length buf + length (concat ins))%nat.
Proof.
  induction ins as [|chunk rest IH]; intros buf line buf' ins'; cbn [scan_line];
    (destruct (index_byte 10 buf) as [i|] eqn:Ei;
      [intros [= _ <- <-]; apply index_byte_lt in Ei; rewrite length_drop; lia|]);
    (destruct (65536 <=? len buf); [discriminate|]).
  - destruct buf; [done|]. intros [= _ <- <-]. cbn. lia.
  - intros H%IH. cbn. rewrite length_app in *. lia.
Qed.

Lemma read_header_fuel fuel : forall fuel' ins buf status, (length buf + length (concat ins) < fuel)%nat ->
  (length buf + length (concat ins) < fuel')%nat -> read_header fuel ins buf status = read_header fuel' ins buf status.
Proof.
  induction fuel as [|fuel IH]; intros fuel' ins buf status H H'; [lia|]. destruct fuel' as [|fuel']; [lia|].
  cbn [read_header]. destruct (scan_line ins buf) as [[[[|c line]|]|e|] [buf' ins']] eqn:E; [done| |done..].
  apply scan_line_consumes in E. apply IH; lia.
Qed.

Section Proxies.
Context `{SS : StreamSink, TR : TCPResolver}.

(** The SOCKS5 handshake, with a proxy whose first answer fits the two bytes
    read for it: it succeeds exactly when both answers begin with version 5,
    the second byte of the first is not 255 and that of the second is 0 or has
    not arrived yet; then the proxy has been sent the greeting and a request
    that reads as the resolved address, and all that came of the second answer
    after ten bytes is left on the connection. *)
Theorem socks5_exact addr ip port a b rest s : (forall out b, stream_accept out b = None) ->
  ResolveTCPAddr addr = inl (ip, port) -> (length ip = 4 \/ length ip = 16)%nat -> 0 <= port < 65536 ->
  st_in s = a :: b :: rest -> (0 < length a <= 2)%nat -> b <> [] ->
  let good := a !! 0%nat = Some 5 /\ a !! 1%nat <> Some 255 /\ b !! 0%nat = Some 5 /\ (b !! 1%nat = Some 0 \/ b !! 1%nat = None) in
  (good -> exists req, socks5Handshake addr s = (Ok tt, mkStream (residue 10 b rest) (st_out s ++ [5; 1; 0] ++ req) (st_closed s)) /\
     socks_target req = Some (if bool_decide (To4 ip <> []) then To4 ip else ip, port)) /\
  (~ good -> exists e s1, socks5Handshake addr s = (Err e, s1)).
Proof.
  intros Ha Hr Hl Hp Hs La Hb good. destruct (handshake_eval Ha addr ip port a b rest s Hr Hs La Hb) as [H1 H2].
  split; [|exact H2]. intros G. exists (socks5_request ip port). split; [by apply H1|by apply request_target].
Qed.

(** A refusal is missed: when the first byte of the proxy's second answer
    comes alone, the handshake succeeds, whatever code follows; the code is
    left to be read as the first byte of the tunnel. *)
Theorem socks5_refusal_missed addr ip port code tail rest s : (forall out b, stream_accept out b = None) ->
  ResolveTCPAddr addr = inl (ip, port) -> st_in s = [5; 0] :: [5] :: (code :: tail) :: rest ->
  exists s', socks5s_connect addr s = (Ok tt, s') /\ st_in s' = (code :: tail) :: rest.
Proof.
  intros Ha Hr Hs. destruct (handshake_eval Ha addr ip port [5; 0] [5] ((code :: tail) :: rest) s Hr Hs) as [H _]; [cbn; lia|done|].
  unfold socks5s_connect, mtry. unfold mbind, M_bind. rewrite H by (cbn; auto). by eexists.
Qed.

(** The CONNECT request to an HTTPS proxy whose header comes in one piece: the
    connection is given out exactly when the status line says HTTP/1.1 with a
    code of class 2, and is closed otherwise.  What the proxy sent in the same
    piece after the header is lost. *)
Theorem connect_exact addr status lines extra rest s : (forall out b, stream_accept out b = None) ->
  Forall header_line (status :: lines) -> st_in s = (header_text (status :: lines) ++ crlf ++ extra) :: rest ->
  https_connect addr s =
    if HasPrefix status (str "HTTP/1.1 2") then (Ok tt, mkStream rest (st_out s ++ connect_request addr) (st_closed s))
    else (Err (ErrNew "proxy returned non-200 status"), mkStream rest (st_out s ++ connect_request addr) true).
Proof.
  intros Ha Hl Hs. unfold https_connect, mtry. unfold mbind, M_bind. rewrite write_ok by done.
  unfold read_status. cbn [st_in st_out st_closed]. rewrite Hs. unfold header_fuel.
  set (text := header_text (status :: lines) ++ crlf ++ extra).
  assert (length (status :: lines) < S (length (concat (text :: rest))))%nat as Hf.
  { cbn [concat]. rewrite length_app. unfold text. rewrite length_app.
    enough (length (status :: lines) <= length (header_text (status :: lines)))%nat by lia.
    clear. induction (status :: lines) as [|l ls IH]; [done|]. unfold header_text in *. cbn. rewrite !length_app. cbn. lia. }
  cbn [read_header]. rewrite scan_line_read.
  pose proof (read_header_lines (status :: lines) (S (length (concat (text :: rest)))) rest None extra Hf Hl) as R.
  cbn [read_header] in R. fold text in R. rewrite R. change (default (default [] (head (status :: lines))) None) with status.
  unfold give_back, stream_Close, modify, merr. unfold mbind, M_bind, mret, M_ret. by destruct (HasPrefix status _).
Qed.
End Proxies.

Module ProxySample.
#[export] Instance sink : StreamSink := fun _ _ => None.
#[export] Instance resolver : TCPResolver := fun _ => inl ([192; 0; 2; 1], 443).
End ProxySample.
Import ProxySample.

Lemma socks5_exact_witness :
  exists req, socks5Handshake (str "sn:443") (mkStream [[5; 0]; [5; 0; 0; 1; 0; 0; 0; 0; 0; 0]; [22; 3]] [] false)
    = (Ok tt, mkStream [[22; 3]] ([5; 1; 0] ++ req) false) /\ socks_target req = Some ([192; 0; 2; 1], 443).
Proof.
  destruct (socks5_exact (str "sn:443") [192; 0; 2; 1] 443 [5; 0] [5; 0; 0; 1; 0; 0; 0; 0; 0; 0] [[22; 3]]
    (mkStream [[5; 0]; [5; 0; 0; 1; 0; 0; 0; 0; 0; 0]; [22; 3]] [] false)) as [H _].
  - reflexivity.
  - reflexivity.
  - left. reflexivity.
  - lia.
  - reflexivity.
  - cbn. lia.
  - discriminate.
  - apply H. split; [reflexivity|]. split; [discriminate|]. split; [reflexivity|]. left. reflexivity.
Defined.

Lemma socks5_refusal_missed_witness :
  exists s', socks5s_connect (str "sn:443") (mkStream [[5; 0]; [5]; [5; 0; 1]] [] false) = (Ok tt, s') /\ st_in s' = [[5; 0; 1]].
Proof.
  apply (socks5_refusal_missed (str "sn:443") [192; 0; 2; 1] 443 5 [0; 1] [] (mkStream [[5; 0]; [5]; [5; 0; 1]] [] false)); reflexivity.
Defined.

Lemma connect_exact_witness : exists s',
  https_connect (str "sn:443") (mkStream [str "HTTP/1.1 200 OK" ++ crlf ++ crlf ++ [7]; [8]] [] false) = (Ok tt, s') /\ st_in s' = [[8]].
Proof.
  eexists. split.
  - refine (connect_exact (str "sn:443") (str "HTTP/1.1 200 OK") [] [7] [[8]] _ _ _ _).
    + reflexivity.
    + constructor; [|constructor]. split; [discriminate|]. apply (bool_decide_unpack _). vm_compute. exact I.
    + reflexivity.
  - reflexivity.
Defined.
