(* ===== verification/EdgeRun.v ===== *)
(** * Running and closing an edge: [Run], [Close] and the loops they start

    [EdgeClient.Run] starts five goroutines, [EdgeClient.Close] stops them
    ([client.go], [routines.go]).  What one turn of each loop does to the client
    is in [Edge]; here the turns are the steps of a relation, with the places
    where a goroutine waits: for its ticker, in a read, in the pause before a
    reconnection.  The reads of the network end by a deadline or a closed
    connection, the read of the TAP device by a frame. *)
From S2P Require Import Prelude.
From stdpp Require Import base list relations.
From Stdlib Require Import Lia.

Inductive Routine := HeartbeatLoop | TapLoop | NetLoop | P2PUpdatesLoop | P2PInfosLoop.

#[export] Instance routine_eq_dec : EqDecision Routine.
Proof. solve_decision. Defined.

Definition routines : list Routine := [HeartbeatLoop; TapLoop; NetLoop; P2PUpdatesLoop; P2PInfosLoop].

Lemma elem_of_routines r : r ∈ routines.
Proof. unfold routines. destruct r; apply list_elem_of_In; cbn; tauto. Qed.

(** Where a goroutine is: started by [go] but not yet counted by the wait
    group, at the [select] of its loop, in a read, in the pause before a
    reconnection, returned. *)
Inductive RStatus := NotStarted | Spawned | Selecting | Reading | Sleeping | Gone.

(** How far [Run] is: both [go] blocks ahead, one, none, returned. *)
Inductive RunPC := NotRun | HalfStarted | Blocked | RunReturned.

(** How far [Close] is, by the last thing it did. *)
Inductive ClosePC :=
  | NotClosed | CloseCalled | Unregistered | NatCleaned | MgmtStopped | CtxCancelled | WSSClosed | DeadlineSet
  | Waited | TAPClosed | WSSClosedAgain | ConnClosed | ShutDown.

#[export] Instance close_pc_eq_dec : EqDecision ClosePC.
Proof. solve_decision. Defined.

Definition rank (p : ClosePC) : nat :=
  match p with
  | NotClosed => 0 | CloseCalled => 1 | Unregistered => 2 | NatCleaned => 3
  | MgmtStopped => 4 | CtxCancelled => 5 | WSSClosed => 6 | DeadlineSet => 7
  | Waited => 8 | TAPClosed => 9 | WSSClosedAgain => 10 | ConnClosed => 11 | ShutDown => 12
  end.

(** The field [WSSTransport]. *)
Inductive WSStatus := WSNone | WSOpen | WSShut.

Record RunState := mkRun { status : Routine -> RStatus; run_pc : RunPC; close_pc : ClosePC; wss : WSStatus }.

(** [Frame] is what ends a read of the TAP device, a frame or an error;
    [Service] is the return of a call that waits for others: [natclient.Cleanup]
    for the gateway, [Mgmt.Stop] for the clients of the management server (its
    own steps are in [MgmtLoop]).  The other outside steps are a tick, a packet, a
    failure of the connection, the call of [Close] and the end of a pause while
    the edge is running. *)
Inductive label := Inside | Frame | Service | Outside.

Definition set_status (r : Routine) (x : RStatus) (s : RunState) : RunState :=
  mkRun (fun q => if decide (q = r) then x else status s q) (run_pc s) (close_pc s) (wss s).
Definition set_run (p : RunPC) (s : RunState) : RunState := mkRun (status s) p (close_pc s) (wss s).
Definition set_close (p : ClosePC) (s : RunState) : RunState := mkRun (status s) (run_pc s) p (wss s).
Definition set_wss (w : WSStatus) (s : RunState) : RunState := mkRun (status s) (run_pc s) (close_pc s) w.

Definition ctx_done (s : RunState) : bool := 5 <=? rank (close_pc s).
Definition deadline_set (s : RunState) : bool := 7 <=? rank (close_pc s).
Definition tap_closed (s : RunState) : bool := 9 <=? rank (close_pc s).
Definition conn_closed (s : RunState) : bool := 11 <=? rank (close_pc s).

(** [wg.Add(1)] done, [wg.Done()] not yet. *)
Definition counted (x : RStatus) : bool :=
  match x with Selecting | Reading | Sleeping => true | _ => false end.

Definition close_transport (w : WSStatus) : WSStatus := match w with WSOpen => WSShut | w => w end.

Definition spawn (rs : list Routine) (s : RunState) : RunState := foldl (fun s r => set_status r Spawned s) s rs.

(** Whether the edge uses a websocket, has the configuration to connect it
    again, and has a port mapping at a gateway. *)
Section Running.
Context (wsMode wssConfig natClient : bool).

Definition ticking (r : Routine) : bool :=
  match r with HeartbeatLoop | P2PUpdatesLoop | P2PInfosLoop => true | _ => false end.

(** [Run] *)
Inductive run_step : RunState -> RunState -> Prop :=
  | run_first s : run_pc s = NotRun -> run_step s (set_run HalfStarted (spawn [HeartbeatLoop; TapLoop; NetLoop] s))
  | run_second s : run_pc s = HalfStarted -> run_step s (set_run Blocked (spawn [P2PUpdatesLoop; P2PInfosLoop] s))
  | run_return s : run_pc s = Blocked -> ctx_done s = true -> run_step s (set_run RunReturned s).

(** Every loop: it is counted and begins, it returns when the context is done. *)
Inductive loop_step : RunState -> RunState -> Prop :=
  | enter r s : status s r = Spawned -> loop_step s (set_status r Selecting s)
  | leave r s : status s r = Selecting -> ctx_done s = true -> loop_step s (set_status r Gone s).

(** A turn of [handleHeartbeat], [handleP2PUpdates] or [handleP2PInfos]. *)
Inductive ticker_step : RunState -> RunState -> Prop :=
  | tick r s : ticking r = true -> status s r = Selecting -> ticker_step s s.

(** [handleTAP] *)
Inductive tap_step : label -> RunState -> RunState -> Prop :=
  | tap_read s : status s TapLoop = Selecting -> ctx_done s = false -> tap_step Inside s (set_status TapLoop Reading s)
  | tap_frame s : status s TapLoop = Reading -> tap_step Frame s (set_status TapLoop Selecting s)
  | tap_error s : status s TapLoop = Reading -> tap_step Frame s (set_status TapLoop Selecting s)
  | tap_gone s : status s TapLoop = Reading -> tap_closed s = true -> tap_step Inside s (set_status TapLoop Gone s).

(** [handleUDP] *)
Inductive udp_step : label -> RunState -> RunState -> Prop :=
  | udp_read s : status s NetLoop = Selecting -> ctx_done s = false -> udp_step Inside s (set_status NetLoop Reading s)
  | udp_packet s : status s NetLoop = Reading -> udp_step Outside s (set_status NetLoop Selecting s)
  | udp_timeout s : status s NetLoop = Reading -> deadline_set s = true -> udp_step Inside s (set_status NetLoop Selecting s)
  | udp_gone s : status s NetLoop = Reading -> conn_closed s = true -> udp_step Inside s (set_status NetLoop Gone s)
  | udp_tap_gone s : status s NetLoop = Reading -> tap_closed s = true -> udp_step Outside s (set_status NetLoop Gone s).

(** [handleWSS] *)
Inductive wss_step : label -> RunState -> RunState -> Prop :=
  | wss_read s : status s NetLoop = Selecting -> ctx_done s = false -> wss s <> WSNone ->
      wss_step Inside s (set_status NetLoop Reading s)
  | wss_packet s : status s NetLoop = Reading -> wss s = WSOpen -> wss_step Outside s (set_status NetLoop Selecting s)
  | wss_failure s : status s NetLoop = Reading -> wss s = WSOpen ->
      wss_step Outside s (set_status NetLoop Selecting (set_wss WSNone s))
  | wss_shut s : status s NetLoop = Reading -> wss s = WSShut -> wss_step Inside s (set_status NetLoop Gone s)
  | wss_tap_gone s : status s NetLoop = Reading -> tap_closed s = true -> wss_step Outside s (set_status NetLoop Gone s)
  | wss_give_up s : status s NetLoop = Selecting -> ctx_done s = false -> wss s = WSNone -> wssConfig = false ->
      wss_step Inside s (set_status NetLoop Gone s)
  | wss_pause s : status s NetLoop = Selecting -> ctx_done s = false -> wss s = WSNone -> wssConfig = true ->
      wss_step Inside s (set_status NetLoop Sleeping s)
  | wss_connected s : status s NetLoop = Sleeping ->
      wss_step (if ctx_done s then Inside else Outside) s (set_status NetLoop Selecting (set_wss WSOpen s))
  | wss_refused s : status s NetLoop = Sleeping ->
      wss_step (if ctx_done s then Inside else Outside) s (set_status NetLoop Selecting s).

(** [Close] *)
Inductive close_step : label -> RunState -> RunState -> Prop :=
  | close_call s : close_pc s = NotClosed -> close_step Outside s (set_close CloseCalled s)
  | close_unregister s : close_pc s = CloseCalled -> close_step Inside s (set_close Unregistered s)
  | close_nat s : close_pc s = Unregistered ->
      close_step (if natClient then Service else Inside) s (set_close NatCleaned s)
  | close_mgmt s : close_pc s = NatCleaned -> close_step Service s (set_close MgmtStopped s)
  | close_cancel s : close_pc s = MgmtStopped -> close_step Inside s (set_close CtxCancelled s)
  | close_wss s : close_pc s = CtxCancelled -> close_step Inside s (set_close WSSClosed (set_wss (close_transport (wss s)) s))
  | close_deadline s : close_pc s = WSSClosed -> close_step Inside s (set_close DeadlineSet s)
  | close_wait s : close_pc s = DeadlineSet -> (forall r, counted (status s r) = false) -> close_step Inside s (set_close Waited s)
  | close_tap s : close_pc s = Waited -> close_step Inside s (set_close TAPClosed s)
  | close_wss_again s : close_pc s = TAPClosed -> close_step Inside s (set_close WSSClosedAgain (set_wss (close_transport (wss s)) s))
  | close_conn s : close_pc s = WSSClosedAgain -> close_step Inside s (set_close ConnClosed s)
  | close_done s : close_pc s = ConnClosed -> close_step Inside s (set_close ShutDown s).

Inductive step : label -> RunState -> RunState -> Prop :=
  | by_run s s' : run_step s s' -> step Inside s s'
  | by_loop s s' : loop_step s s' -> step Inside s s'
  | by_ticker s s' : ticker_step s s' -> step Outside s s'
  | by_tap l s s' : tap_step l s s' -> step l s s'
  | by_udp l s s' : wsMode = false -> udp_step l s s' -> step l s s'
  | by_wss l s s' : wsMode = true -> wss_step l s s' -> step l s s'
  | by_close l s s' : close_step l s s' -> step l s s'.

Definition fresh_edge : RunState := mkRun (fun _ => NotStarted) NotRun NotClosed (if wsMode then WSOpen else WSNone).

Inductive reachable : RunState -> Prop :=
  | reach_start : reachable fresh_edge
  | reach_step l s s' : reachable s -> step l s s' -> reachable s'.
End Running.

(** Case analysis on a step. *)
Ltac step_cases H :=
  destruct H as [? ? H|? ? H|? ? H|? ? ? H|? ? ? ? H|? ? ? ? H|? ? ? H]; destruct H.

(** ** Invariant *)
Section Shutdown.
Context (wsMode wssConfig natClient : bool).
Abbreviation stp := (step wsMode wssConfig natClient).

Record run_inv (s : RunState) : Prop := {
  inv_first : run_pc s = NotRun -> forall r, status s r = NotStarted;
  inv_second : run_pc s = HalfStarted -> status s P2PUpdatesLoop = NotStarted /\ status s P2PInfosLoop = NotStarted;
  inv_udp : wsMode = false -> status s NetLoop <> Sleeping;
  inv_wss : wsMode = true -> status s NetLoop = Reading -> wss s <> WSNone /\ (6 <= rank (close_pc s) -> wss s = WSShut);
  inv_tickers : forall r, ticking r = true -> status s r <> Reading /\ status s r <> Sleeping;
  inv_tap : status s TapLoop <> Sleeping;
  inv_waited : 8 <= rank (close_pc s) -> forall r, status s r <> Reading /\ status s r <> Sleeping;
  inv_shut : 10 <= rank (close_pc s) -> wss s <> WSOpen;
}.

Lemma fresh_inv : run_inv (fresh_edge wsMode).
Proof. by constructor; try done; cbn; intros; lia. Qed.

Local Ltac ranks :=
  unfold ctx_done, deadline_set, tap_closed, conn_closed in *;
  repeat match goal with
  | H : (_ <=? _) = true |- _ => apply Nat.leb_le in H
  | H : (_ <=? _) = false |- _ => apply Nat.leb_gt in H
  end.

Lemma status_inv r x s : run_inv s -> status s r <> NotStarted -> x <> NotStarted ->
  (x = Reading -> ctx_done s = false /\ ticking r = false /\ (r = NetLoop -> wsMode = true -> wss s <> WSNone)) ->
  (x = Sleeping -> ctx_done s = false /\ r = NetLoop /\ wsMode = true) -> run_inv (set_status r x s).
Proof.
  intros [I1 I2 I3 I4 I5 I6 I7 I8] Hr Hx HR HS. ranks. constructor; cbn.
  - intros E. by destruct Hr; apply I1.
  - intros E. destruct (I2 E) as [E1 E2]. repeat case_decide; subst; done.
  - intros E. case_decide; subst; [|by apply I3]. intros ->. destruct (HS eq_refl) as (_ & _ & ?). congruence.
  - intros Hw. case_decide; subst; [|by apply I4]. intros ->. destruct (HR eq_refl) as (? & _ & Hn). split; [by apply Hn|ranks; lia].
  - intros q Hq. case_decide; subst; [|by apply I5]. split.
    + intros ->. destruct (HR eq_refl) as (_ & ? & _). congruence.
    + intros ->. by destruct (HS eq_refl) as (_ & -> & _).
  - case_decide; subst; [|done]. intros ->. by destruct (HS eq_refl) as (_ & ? & _).
  - intros Hk q. case_decide; subst; [|by apply I7].
    split; intros ->; [destruct (HR eq_refl)|destruct (HS eq_refl)]; ranks; lia.
  - exact I8.
Qed.

(** Going back to the select or returning. *)
Lemma quiet_inv r x s : run_inv s -> status s r <> NotStarted -> x = Selecting \/ x = Gone -> run_inv (set_status r x s).
Proof. intros I Hr Hx. apply status_inv; destruct Hx as [-> | ->]; done. Qed.

Lemma wss_inv w s : run_inv s -> status s NetLoop <> Reading -> (10 <= rank (close_pc s) -> w <> WSOpen) -> run_inv (set_wss w s).
Proof. intros [] ? ?. by constructor. Qed.

(** The steps of [Close]. *)
Lemma close_inv p w s : run_inv s -> rank p = S (rank (close_pc s)) ->
  (p = Waited -> forall r, counted (status s r) = false) ->
  w = wss s /\ p <> WSSClosed /\ p <> WSSClosedAgain \/ w = close_transport (wss s) -> run_inv (set_close p (set_wss w s)).
Proof.
  intros [I1 I2 I3 I4 I5 I6 I7 I8] Hp Hc Hw. constructor; cbn; try done.
  - intros M R. destruct (I4 M R) as [N1 N2]. destruct Hw as [(-> & N & _)| ->].
    + split; [done|]. intros Hk. apply N2. destruct p, (close_pc s); cbn in *; try lia; done.
    + destruct (wss s); cbn; [done| |done]. split; [done|]. done.
  - intros Hk r. destruct (decide (p = Waited)) as [->|Hn].
    + specialize (Hc eq_refl r). by destruct (status s r).
    + apply I7. destruct p, (close_pc s); cbn in *; try lia; done.
  - intros Hk. destruct Hw as [(-> & _ & N)| ->].
    + apply I8. destruct p, (close_pc s); cbn in *; try lia; done.
    + by destruct (wss s).
Qed.

Lemma close_plain p s : run_inv s -> rank p = S (rank (close_pc s)) -> p <> WSSClosed -> p <> WSSClosedAgain ->
  (p = Waited -> forall r, counted (status s r) = false) -> run_inv (set_close p s).
Proof.
  intros I Hp H1 H2 Hc. replace (set_close p s) with (set_close p (set_wss (wss s) s)) by (by destruct s).
  apply close_inv; auto.
Qed.

Lemma step_inv l s s' : run_inv s -> stp l s s' -> run_inv s'.
Proof.
  intros I H. pose proof I as [I1 I2 I3 I4 I5 I6 I7 I8].
  destruct H as [? ? [s Hp|s Hp|s Hp _]|? ? [r s E|r s E _]|? ? [r s _ _]|? ? ? [s E D|s E|s E|s E _]
    |? ? ? M [s E D|s E|s E _|s E _|s E _]|? ? ? M [s E D W|s E W|s E W|s E W|s E _|s E D W _|s E D W _|s E|s E]
    |? ? ? [s E|s E|s E|s E|s E|s E|s E|s E Hw|s E|s E|s E|s E]].
  all: try (apply quiet_inv; [done|congruence|by auto]).
  - specialize (I1 Hp). constructor; cbn; try done; intros; repeat case_decide; subst; rewrite ?I1 in *; try done; by rewrite ?I1.
  - constructor; cbn; try done; intros; repeat case_decide; subst; try done; eauto.
  - by constructor.
  - done.
  - apply status_inv; [done|congruence|done| |done]. by intros _.
  - apply status_inv; [done|congruence|done| |done]. intros _. do 2 (split; [done|]). congruence.
  - apply status_inv; [done|congruence|done| |done]. done.
  - replace (set_status NetLoop Selecting (set_wss WSNone s)) with (set_wss WSNone (set_status NetLoop Selecting s)) by (by destruct s).
    apply wss_inv; [apply quiet_inv; [done|congruence|auto]|done|done].
  - apply status_inv; [done|congruence|done|done|done].
  - apply quiet_inv; [|cbn; congruence|auto]. apply wss_inv; [done|congruence|].
    intros Hk. exfalso. destruct (I7 ltac:(lia) NetLoop). congruence.
  - apply close_plain; [done|by rewrite E|done..].
  - apply close_plain; [done|by rewrite E|done..].
  - apply close_plain; [done|by rewrite E|done..].
  - apply close_plain; [done|by rewrite E|done..].
  - apply close_plain; [done|by rewrite E|done..].
  - apply close_inv; [done|by rewrite E|done|auto].
  - apply close_plain; [done|by rewrite E|done..].
  - apply close_plain; [done|by rewrite E|done..].
  - apply close_plain; [done|by rewrite E|done..].
  - apply close_inv; [done|by rewrite E|done|auto].
  - apply close_plain; [done|by rewrite E|done..].
  - apply close_plain; [done|by rewrite E|done..].
Qed.

Lemma reachable_inv s : reachable wsMode wssConfig natClient s -> run_inv s.
Proof. induction 1; [apply fresh_inv|eauto using step_inv]. Qed.

(** ** Progress *)

(** The steps an edge can still make on its own. *)
Definition weight (done : bool) (x : RStatus) : nat :=
  match x with
  | NotStarted => 6
  | Spawned => 5
  | Selecting => if done then 1 else 4
  | Reading | Sleeping => if done then 2 else 3
  | Gone => 0
  end.
Definition run_weight (p : RunPC) : nat := match p with NotRun => 3 | HalfStarted => 2 | Blocked => 1 | RunReturned => 0 end.
Definition remaining (s : RunState) : nat :=
  sum_list (weight (ctx_done s) ∘ status s <$> routines) + run_weight (run_pc s) + (12 - rank (close_pc s)).

Lemma weight_done x : weight true x <= weight false x.
Proof. destruct x; cbn; lia. Qed.

Lemma remaining_status r x s : weight (ctx_done s) x < weight (ctx_done s) (status s r) -> remaining (set_status r x s) < remaining s.
Proof.
  intros H. unfold remaining. change (ctx_done (set_status r x s)) with (ctx_done s). cbn -[weight rank].
  destruct r; repeat (case_decide; [|congruence || idtac]); try congruence; cbn -[weight rank] in *; lia.
Qed.

Lemma remaining_close p w s : rank p = S (rank (close_pc s)) -> remaining (set_close p (set_wss w s)) < remaining s.
Proof.
  intros Hp. unfold remaining, ctx_done. cbn -[weight rank Nat.leb].
  assert (forall x, weight (5 <=? rank p) x <= weight (5 <=? rank (close_pc s)) x) as W.
  { intros x. destruct (Nat.leb_spec 5 (rank p)), (Nat.leb_spec 5 (rank (close_pc s))); try lia. apply weight_done. }
  pose proof (W (status s HeartbeatLoop)). pose proof (W (status s TapLoop)). pose proof (W (status s NetLoop)).
  pose proof (W (status s P2PUpdatesLoop)). pose proof (W (status s P2PInfosLoop)).
  assert (rank p <= 12) by (destruct p; cbn; lia). lia.
Qed.

Lemma remaining_plain p s : rank p = S (rank (close_pc s)) -> remaining (set_close p s) < remaining s.
Proof. intros Hp. replace (set_close p s) with (set_close p (set_wss (wss s) s)) by (by destruct s). by apply remaining_close. Qed.

Lemma deadline_done s : deadline_set s = true -> ctx_done s = true.
Proof. ranks. intros. apply Nat.leb_le in H. apply Nat.leb_le. lia. Qed.

Lemma late_done s n : 5 <= n -> (n <=? rank (close_pc s)) = true -> ctx_done s = true.
Proof. intros Hn H. apply Nat.leb_le in H. apply Nat.leb_le. lia. Qed.

Lemma inside_label s : (if ctx_done s then Inside else Outside) = Inside -> ctx_done s = true.
Proof. by destruct (ctx_done s). Qed.

Local Ltac lighter := apply remaining_status;
  repeat match goal with
  | E : status _ _ = _ |- _ => rewrite E; clear E
  | D : ctx_done _ = _ |- _ => rewrite D; clear D
  end; first [cbn; lia | match goal with |- context [ctx_done ?s] => destruct (ctx_done s) end; cbn; lia].

Lemma inside_decreases l s s' : l = Inside -> run_inv s -> stp l s s' -> remaining s' < remaining s.
Proof.
  intros Hl I H. destruct I as [I1 I2 _ _ _ _ _ _].
  destruct H as [? ? [s Hp|s Hp|s Hp D]|? ? [r s E|r s E D]|? ? [r s _ _]|? ? ? [s E D|s E|s E|s E D]
    |? ? ? M [s E D|s E|s E D|s E D|s E D]|? ? ? M [s E D W|s E W|s E W|s E W|s E D|s E D W _|s E D W _|s E|s E]
    |? ? ? [s E|s E|s E|s E|s E|s E|s E|s E Hw|s E|s E|s E|s E]]; try discriminate Hl.
  all: try (apply remaining_plain; by rewrite E); try (apply remaining_close; by rewrite E).
  - unfold remaining, ctx_done. cbn -[weight rank Nat.leb]. rewrite Hp, !(I1 Hp).
    repeat case_decide; try discriminate; cbn [weight run_weight]; lia.
  - destruct (I2 Hp) as [E1 E2]. unfold remaining, ctx_done. cbn -[weight rank Nat.leb].
    rewrite Hp, E1, E2. repeat case_decide; try discriminate; cbn [weight run_weight]; lia.
  - unfold remaining, ctx_done. cbn -[weight rank Nat.leb]. rewrite Hp. cbn [run_weight]. lia.
  - lighter.
  - lighter.
  - lighter.
  - apply (late_done s 9) in D; [|lia]. lighter.
  - lighter.
  - apply deadline_done in D. lighter.
  - apply (late_done s 11) in D; [|lia]. lighter.
  - lighter.
  - lighter.
  - lighter.
  - lighter.
  - apply inside_label in Hl. change (set_status NetLoop Selecting (set_wss WSOpen s)) with (set_wss WSOpen (set_status NetLoop Selecting s)).
    change (remaining (set_wss WSOpen ?x)) with (remaining x). lighter.
  - apply inside_label in Hl. lighter.
Qed.

(** [Close] can go on, or waits for nothing but the read of the TAP device. *)
Definition waits_for_tap (s : RunState) : Prop := close_pc s = DeadlineSet /\ status s TapLoop = Reading.

(** [Close] is in [natclient.Cleanup] or in [Mgmt.Stop]. *)
Definition waits_for_service (s : RunState) : Prop := close_pc s = Unregistered /\ natClient = true \/ close_pc s = NatCleaned.

Lemma close_progress s : run_inv s -> close_pc s <> NotClosed -> close_pc s <> ShutDown ->
  (exists s', stp Inside s s') \/ waits_for_tap s \/ waits_for_service s.
Proof.
  intros [I1 I2 I3 I4 I5 I6 I7 I8] Hn Hs. destruct (decide (close_pc s = DeadlineSet)) as [Hd|Hd].
  - assert (ctx_done s = true) as D by (unfold ctx_done; by rewrite Hd).
    destruct (decide (Forall (fun r => counted (status s r) = false) routines)) as [Hc|Hc].
    { left. eexists. apply by_close, close_wait; [done|]. intros r. rewrite Forall_forall in Hc. apply Hc. apply elem_of_routines. }
    apply not_Forall_Exists in Hc; [|intros r; apply _]. apply Exists_exists in Hc as (r & _ & Hr). cbn in Hr.
    destruct (status s r) eqn:E; try by destruct Hr.
    + left. eexists. by apply by_loop, (leave r).
    + destruct (ticking r) eqn:T; [exfalso; by destruct (I5 r T)|]. destruct r; try discriminate T; [by right; left|].
      left. destruct wsMode eqn:M.
      * destruct (I4 eq_refl E) as [_ W]. eexists. apply by_wss; [done|]. apply wss_shut; [done|]. apply W. rewrite Hd. cbn. lia.
      * eexists. apply by_udp; [done|]. apply udp_timeout; [done|]. unfold deadline_set. by rewrite Hd.
    + destruct (ticking r) eqn:T; [exfalso; by destruct (I5 r T)|]. destruct r; try discriminate T; [done|].
      left. destruct wsMode eqn:M; [|by destruct (I3 eq_refl)]. eexists. apply by_wss; [done|].
      pose proof (wss_refused wssConfig s E) as R. rewrite D in R. exact R.
  - destruct (decide (close_pc s = NatCleaned)) as [|Nm]; [by right; right; right|].
    destruct (decide (close_pc s = Unregistered)) as [E|Nu].
    { destruct natClient eqn:Nat; [by right; right; left|]. left. eexists. pose proof (close_nat false s E) as Hc. by apply by_close, Hc. }
    left. destruct (close_pc s) eqn:E; try done; eexists; [by apply by_close, close_unregister|by apply by_close, close_cancel|by apply by_close, close_wss|by apply by_close, close_deadline
      |by apply by_close, close_tap|by apply by_close, close_wss_again|by apply by_close, close_conn|by apply by_close, close_done].
Qed.

Definition any (s s' : RunState) : Prop := exists l, stp l s s'.
Definition frameless (s s' : RunState) : Prop := exists l, l <> Frame /\ stp l s s'.

(** After the context is done no read of the TAP device begins. *)
Lemma tap_quiet_step s s' : ctx_done s = true /\ status s TapLoop <> Reading -> any s s' ->
  ctx_done s' = true /\ status s' TapLoop <> Reading.
Proof.
  intros [D T] [l H]. split.
  - step_cases H; cbn in *; try done; unfold ctx_done in *; cbn; match goal with E : close_pc _ = _ |- _ => rewrite E in D; done end.
  - step_cases H; cbn in *; try done; repeat case_decide; subst; try done; congruence.
Qed.

Lemma tap_quiet s s' : rtc any s s' -> ctx_done s = true -> status s TapLoop <> Reading -> ~ waits_for_tap s'.
Proof. induction 1 as [s|s s1 s' H _ IH]; intros D T; [by intros [_ ?]|]. destruct (tap_quiet_step s s1 (conj D T) H). by apply IH. Qed.

Lemma frame_step l s s' : l = Frame -> stp l s s' -> s' = set_status TapLoop Selecting s.
Proof. intros Hl H. step_cases H; try discriminate Hl; try done; first [by destruct (ctx_done s)|by destruct natClient]. Qed.

(** [Close] only goes on. *)
Lemma rank_step s s' : any s s' -> rank (close_pc s) <= rank (close_pc s').
Proof.
  intros [l H]. step_cases H; cbn; try done; match goal with E : close_pc _ = _ |- _ => rewrite E; cbn; lia end.
Qed.

Lemma rank_run s s' : rtc any s s' -> rank (close_pc s) <= rank (close_pc s').
Proof. induction 1 as [|s s1 s' H _ IH]; [done|]. pose proof (rank_step s s1 H). lia. Qed.

Lemma service_step l s s' : l = Service -> stp l s s' -> rank (close_pc s) < rank (close_pc s').
Proof.
  intros Hl H. step_cases H; try discriminate Hl; try (by destruct (ctx_done s));
    cbn; match goal with E : close_pc _ = _ |- _ => rewrite E; cbn; lia end.
Qed.

Lemma tap_reading_step s s' : run_inv s -> status s TapLoop = Reading /\ rank (close_pc s) <= 7 -> frameless s s' ->
  status s' TapLoop = Reading /\ rank (close_pc s') <= 7.
Proof.
  intros [I1 _ _ _ _ _ _ _] [T R] (l & Hl & H). step_cases H; cbn in *; try done; repeat case_decide; subst; try congruence; try done;
    try (split; [done|]; match goal with E : close_pc _ = _ |- _ => rewrite E in R; cbn in *; lia end).
  - match goal with E : run_pc _ = NotRun |- _ => specialize (I1 E TapLoop); congruence end.
  - destruct (close_pc s); cbn in *; try discriminate; lia.
  - match goal with W : forall r, counted _ = false |- _ => specialize (W TapLoop); by rewrite T in W end.
Qed.

Lemma inside_run n : forall s s', run_inv s -> close_pc s <> NotClosed -> nsteps (stp Inside) n s s' ->
  run_inv s' /\ close_pc s' <> NotClosed /\ n + remaining s' <= remaining s.
Proof.
  induction n as [|n IH]; intros s s' I C H; inversion H as [|? ? s1 ? H1 H2]; subst; [by split_and!|].
  assert (close_pc s1 <> NotClosed) as C1 by (clear -C H1; step_cases H1; cbn in *; congruence).
  pose proof (inside_decreases _ _ _ eq_refl I H1). destruct (IH s1 s') as (? & ? & ?); [by eapply step_inv|done|done|].
  split_and!; [done|done|lia].
Qed.

(** C21. Whatever the goroutines of [Run] and the call of [Close] do in whichever
    order: no loop is in a read of the TAP device or of the UDP socket once that
    is closed; a read of the websocket that [Close] has closed to end it does end
    by a step of the loop itself; once the wait of [Close] is over no loop is in
    any read; and when [Close] has returned no websocket is left open. *)
Theorem no_read_after_close s : reachable wsMode wssConfig natClient s ->
  (tap_closed s = true -> status s TapLoop <> Reading) /\
  (conn_closed s = true -> status s NetLoop <> Reading) /\
  (wsMode = true -> status s NetLoop = Reading -> wss s = WSShut -> stp Inside s (set_status NetLoop Gone s)) /\
  (rank Waited <= rank (close_pc s) -> forall r, status s r <> Reading) /\
  (close_pc s = ShutDown -> wss s <> WSOpen).
Proof.
  intros R. apply reachable_inv in R as [_ _ _ _ _ _ I7 I8]. split_and!.
  - intros H%Nat.leb_le. apply I7. lia.
  - intros H%Nat.leb_le. apply I7. lia.
  - intros M E W. apply by_wss; [done|]. by apply wss_shut.
  - intros H r. by apply I7.
  - intros E. apply I8. rewrite E. cbn. lia.
Qed.

(** C20. [Close] completes: from any reachable state in which it was called, the
    goroutines make no more than [remaining] further steps on their own, and
    where they can make none, [Close] has returned, or waits for a read of the
    TAP device, or is in the call of the gateway or of [Mgmt.Stop], which wait for
    others.  The return of such a call is a step, after which that call is never
    waited for again; so is the frame (or error) that ends the read, after which
    no read of the TAP device is. *)
Theorem shutdown_completes s n s' : reachable wsMode wssConfig natClient s -> close_pc s <> NotClosed -> nsteps (stp Inside) n s s' ->
  n <= remaining s /\ (close_pc s' = ShutDown \/ waits_for_tap s' \/ waits_for_service s' \/ exists s2, stp Inside s' s2) /\
  (waits_for_tap s' -> (exists s2, stp Frame s' s2) /\ forall s2 s3, stp Frame s' s2 -> rtc any s2 s3 -> ~ waits_for_tap s3) /\
  (waits_for_service s' -> (exists s2, stp Service s' s2) /\
    forall s2 s3, stp Service s' s2 -> rtc any s2 s3 -> rank (close_pc s') < rank (close_pc s3)).
Proof.
  intros R C H. apply reachable_inv in R. destruct (inside_run n s s' R C H) as (I & C' & L). split; [lia|]. split; [|split].
  - destruct (decide (close_pc s' = ShutDown)); [by left|]. destruct (close_progress s' I C') as [?|[?|?]]; auto.
  - intros [Hd Ht]. split; [eexists; by apply by_tap, tap_frame|]. intros s2 s3 F Hs.
    assert (ctx_done s' = true) as D by (unfold ctx_done; by rewrite Hd).
    rewrite (frame_step Frame s' s2 eq_refl F) in Hs. by apply (tap_quiet _ s3 Hs).
  - intros W. split.
    + destruct W as [[E Hn]|E]; eexists; apply by_close; [|by apply close_mgmt].
      replace Service with (if natClient then Service else Inside) by (by rewrite Hn). by apply close_nat.
    + intros s2 s3 F Hs. pose proof (service_step Service s' s2 eq_refl F). pose proof (rank_run s2 s3 Hs). lia.
Qed.

(** Shutting down waits for a frame: while the TAP loop is in a read and no
    frame comes, [Close] does not get past its wait, whatever else happens;
    the device that would end the read is closed only after it. *)
Theorem shutdown_waits_for_frame s s' : reachable wsMode wssConfig natClient s -> status s TapLoop = Reading -> rank (close_pc s) <= 7 ->
  rtc frameless s s' -> status s' TapLoop = Reading /\ rank (close_pc s') <= 7.
Proof.
  intros I%reachable_inv T R H. induction H as [s|s s1 s' H _ IH]; [done|].
  destruct (tap_reading_step s s1 I (conj T R) H). destruct H as (l & _ & H). apply IH; [by eapply step_inv|done..].
Qed.
End Shutdown.

(** An edge that was closed before it ran, an edge that runs. *)
Definition closed_early : RunState := set_close ShutDown (fresh_edge false).
Definition running_edge : RunState := set_status TapLoop Reading (set_status TapLoop Selecting (set_run HalfStarted (spawn [HeartbeatLoop; TapLoop; NetLoop] (fresh_edge false)))).

Lemma closed_early_run : nsteps (step false false false Inside) 8 (set_close MgmtStopped (fresh_edge false)) closed_early.
Proof.
  econstructor; [by apply by_close, close_cancel|]. econstructor; [by apply by_close, close_wss|]. econstructor; [by apply by_close, close_deadline|].
  econstructor; [by apply by_close, close_wait|]. econstructor; [by apply by_close, close_tap|]. econstructor; [by apply by_close, close_wss_again|].
  econstructor; [by apply by_close, close_conn|]. econstructor; [by apply by_close, close_done|]. constructor.
Qed.

Lemma called : reachable false false false (set_close MgmtStopped (fresh_edge false)).
Proof.
  pose proof (reach_start false false false) as R.
  eapply reach_step in R; [|by apply by_close, close_call]. eapply reach_step in R; [|by apply by_close, close_unregister].
  eapply reach_step in R; [|by apply by_close, (close_nat false)]. eapply reach_step in R; [|by apply by_close, close_mgmt]. exact R.
Qed.

Lemma inside_reachable n : forall s s', reachable false false false s -> nsteps (step false false false Inside) n s s' -> reachable false false false s'.
Proof. induction n; intros s s' R H; inversion H; subst; [done|]. eauto using reach_step. Qed.

Lemma running : reachable false false false running_edge.
Proof.
  eapply reach_step; [eapply reach_step; [eapply reach_step; [apply reach_start|by apply by_run, run_first]|by apply by_loop, (enter TapLoop)]|].
  by apply by_tap, tap_read.
Qed.

Lemma no_read_after_close_witness : status closed_early TapLoop <> Reading /\ wss closed_early <> WSOpen.
Proof.
  destruct (no_read_after_close false false false closed_early) as (H1 & _ & _ & _ & H2).
  - exact (inside_reachable 8 _ _ called closed_early_run).
  - split; [apply H1; reflexivity|apply H2; reflexivity].
Defined.

Lemma shutdown_completes_witness : 8 <= remaining (set_close MgmtStopped (fresh_edge false)).
Proof.
  apply (shutdown_completes false false false (set_close MgmtStopped (fresh_edge false)) 8 closed_early).
  - exact called.
  - discriminate.
  - exact closed_early_run.
Defined.

Lemma shutdown_waits_for_frame_witness : rank (close_pc (set_close CloseCalled running_edge)) <= 7.
Proof.
  apply (shutdown_waits_for_frame false false false running_edge (set_close CloseCalled running_edge)).
  - exact running.
  - reflexivity.
  - cbn. lia.
  - eapply rtc_l; [|reflexivity]. exists Outside. split; [discriminate|]. apply by_close, close_call. reflexivity.
Defined.
