(* ===== verification/EdgeSetup.v ===== *)
(** * Setting up an edge: [pkg/edge/config.go], [setup.go]

    The configuration, and [setupNetworkComponents], which opens a websocket
    or a UDP socket and a TAP device.  Opening is a parameter that succeeds or
    fails; which of the three is open is the state. *)
From S2P Require Import Prelude GoBytes GoNet Protocol Transport EdgeRun.
From stdpp Require Import gmap list strings relations.
From Stdlib Require Import ZArith Lia.
Open Scope Z_scope.

Record EdgeConfig := mkEdgeConfig {
  cfg_UDPBufferSize : Z; cfg_EdgeID : list Z; cfg_Community : list Z; cfg_TapName : list Z; cfg_LocalPort : Z;
  cfg_SupernodeAddr : list Z; cfg_HeartbeatInterval : Z; cfg_ProtocolVersion : Z; cfg_VerifyHash : bool; cfg_EnableVFuze : bool;
  cfg_ConfigFile : list Z; cfg_APIListenAddr : list Z; cfg_EncryptionPassphrase : list Z; cfg_CompressPayload : bool;
  cfg_WSEnabled : bool; cfg_SupernodeURL : list Z; cfg_WSSCert : list Z; cfg_WSSKey : list Z; cfg_WSSEnabled : bool;
  cfg_ProxyURL : list Z }.

Definition DefaultEdgeConfig : EdgeConfig :=
  mkEdgeConfig 8388608 [] [] (str "n2n_tap0") 0 [] (30 * 10 ^ 9) VersionV true true
    (str "edge.yaml") (str ":7778") [] false false [] [] [] false [].

(** Name resolution, the UDP socket and the TAP device. *)
Class SetupEnv := {
  ResolveUDPAddr : list Z -> netAddr + goerr;
  ListenUDP : netAddr -> option goerr;
  NewInterface : list Z -> option goerr;
}.

(** What is open. *)
Record Opened := mkOpened { o_ws : bool; o_udp : bool; o_tap : bool }.

(** The components returned: whether there is a UDP connection, the transport,
    the address of the supernode and the configuration to connect again with. *)
Record Components := mkComponents {
  sc_conn : bool; sc_transport : option WSSTransport; sc_snAddr : netAddr; sc_wssConfig : option WSSTransportConfig }.

(** The text before the first slash. *)
Definition before_slash (s : list Z) : list Z :=
  match index_byte 47 s with Some i => take i s | None => s end.

(** The address to resolve: the configured one, or host and port of the URL. *)
Definition supernode_host (scheme defaultPort : list Z) (cfg : EdgeConfig) : list Z :=
  if negb (bool_decide (cfg_SupernodeAddr cfg = [])) then cfg_SupernodeAddr cfg else
  let host := before_slash (TrimPrefix (cfg_SupernodeURL cfg) scheme) in
  if contains host (str ":") then host else host ++ defaultPort.

Section Setup.
Context `{WL : WSLib, SE : SetupEnv}.

Definition open_ws : M Opened unit := modify (fun o => mkOpened true (o_udp o) (o_tap o)).
Definition close_ws : M Opened unit := modify (fun o => mkOpened false (o_udp o) (o_tap o)).
Definition open_udp : M Opened unit := modify (fun o => mkOpened (o_ws o) true (o_tap o)).
Definition close_udp : M Opened unit := modify (fun o => mkOpened (o_ws o) false (o_tap o)).
Definition open_tap : M Opened unit := modify (fun o => mkOpened (o_ws o) (o_udp o) true).

(** [transport.NewWSSTransport] and [tuntap.NewInterface], with what they open. *)
Definition new_transport (c : WSSTransportConfig) : M Opened WSSTransport :=
  t ← mlift (NewWSSTransport c);
  open_ws;; mret t.
Definition new_tap (name : list Z) : M Opened unit :=
  match NewInterface name with Some e => merr e | None => open_tap end.

(** The buffer sizes are set as well as the system allows. *)
Definition setupUDPConnection (localPort : Z) : M Opened unit :=
  match ResolveUDPAddr (str ":" ++ itoa localPort) with
  | inr e => merr (ErrWrap "failed to resolve local UDP address" e)
  | inl localAddr =>
      match ListenUDP localAddr with
      | Some e => merr (ErrWrap "failed to open UDP connection" e)
      | None => open_udp
      end
  end.

(** Both websocket branches, from the connection on. *)
Definition setup_websocket (msg : string) (scheme defaultPort : list Z) (wsConfig : WSSTransportConfig)
    (keep : option WSSTransportConfig) (cfg : EdgeConfig) : M Opened Components :=
  t ← mwrap msg (new_transport wsConfig);
  match ResolveUDPAddr (supernode_host scheme defaultPort cfg) with
  | inr e => close_ws;; merr (ErrWrap "failed to resolve supernode address" e)
  | inl snAddr =>
      r ← mtry (new_tap (cfg_TapName cfg));
      match r with
      | inr e => close_ws;; merr (ErrWrap "failed to create TAP interface" e)
      | inl _ => mret (mkComponents false (Some t) snAddr keep)
      end
  end.

Definition ws_config (cert key : list Z) (cfg : EdgeConfig) : WSSTransportConfig :=
  mkWSSConfig (cfg_SupernodeURL cfg) cert key true (cfg_ProxyURL cfg).

Definition wss_config (cfg : EdgeConfig) : WSSTransportConfig :=
  if negb (bool_decide (cfg_WSSCert cfg = [])) && negb (bool_decide (cfg_WSSKey cfg = []))
  then ws_config (cfg_WSSCert cfg) (cfg_WSSKey cfg) cfg else ws_config [] [] cfg.

Definition setupNetworkComponents (cfg : EdgeConfig) : M Opened Components :=
  let url := cfg_SupernodeURL cfg in
  if (cfg_WSEnabled cfg || HasPrefix url (str "ws://")) && negb (bool_decide (url = [])) then
    setup_websocket "failed to establish WS connection" (str "ws://") (str ":8080") (ws_config [] [] cfg) None cfg
  else if (cfg_WSSEnabled cfg || HasPrefix url (str "wss://")) && negb (bool_decide (url = [])) then
    setup_websocket "failed to establish WSS connection" (str "wss://") (str ":443") (wss_config cfg) (Some (wss_config cfg)) cfg
  else
    match ResolveUDPAddr (cfg_SupernodeAddr cfg) with
    | inr e => merr (ErrWrap " failed to resolve supernode address" e)
    | inl snAddr =>
        mwrap " " (setupUDPConnection (cfg_LocalPort cfg));;
        r ← mtry (new_tap (cfg_TapName cfg));
        match r with
        | inr e => close_udp;; merr (ErrWrap " failed to create TAP interface" e)
        | inl _ => mret (mkComponents true None snAddr None)
        end
    end.
End Setup.

(** The pause before the next attempt to connect, in seconds ([handleWSS]). *)
Definition first_delay : Z := 3.
Definition next_delay (connected : bool) (reconnectDelay : Z) : Z :=
  if connected then 3 else
  let d := reconnectDelay * 2 in if 60 <? d then 60 else d.

(** The pauses stay between three seconds and a minute. *)
Lemma delay_bounds outcomes : 3 <= foldl (fun d c => next_delay c d) first_delay outcomes <= 60.
Proof.
  enough (forall d, 3 <= d <= 60 -> 3 <= foldl (fun d c => next_delay c d) d outcomes <= 60) by (by apply H).
  induction outcomes as [|c l IH]; intros d Hd; [done|]. cbn. apply IH. unfold next_delay. destruct c; [lia|].
  destruct (Z.ltb_spec 60 (d * 2)); lia.
Qed.

(** With [ws_enabled] set a [wss://] URL is cut at its first slash. *)
Lemma wss_url_as_ws cfg rest : cfg_SupernodeAddr cfg = [] -> cfg_SupernodeURL cfg = str "wss://" ++ rest ->
  supernode_host (str "ws://") (str ":8080") cfg = str "wss:".
Proof. intros Ha Hu. unfold supernode_host. rewrite Ha, Hu. reflexivity. Qed.

Section SetupTheorems.
Context `{WL : WSLib, SE : SetupEnv}.

Lemma NewWSSTransport_no_panic c : NewWSSTransport c <> Panic.
Proof.
  unfold NewWSSTransport. destruct (negb _ && negb _); [done|]. unfold mbind, outcome_bind.
  destruct (HasPrefix _ _); [destruct (negb _ && negb _); [destruct (LoadX509KeyPair _ _); [done|]|]|].
  all: destruct (ws_dial _ _) as [[conn st]|]; [|done]; by destruct (negb _).
Qed.

Lemma setup_websocket_balanced msg scheme port wsConfig keep cfg :
  match setup_websocket msg scheme port wsConfig keep cfg (mkOpened false false false) with
  | (Ok c, o) => o = mkOpened true false true /\ sc_conn c = false /\ is_Some (sc_transport c) /\ sc_wssConfig c = keep
  | (Err _, o) => o = mkOpened false false false
  | (Panic, _) => False
  end.
Proof.
  unfold setup_websocket, mwrap, mtry, new_transport, mlift. unfold mbind, M_bind, outcome_bind.
  pose proof (NewWSSTransport_no_panic wsConfig). destruct (NewWSSTransport wsConfig) as [t|e|]; [|done|done]. cbn.
  destruct (ResolveUDPAddr _) as [sn|e]; [|done]. unfold new_tap. by destruct (NewInterface _).
Qed.

Lemma setup_shape cfg :
  match setupNetworkComponents cfg (mkOpened false false false) with
  | (Ok c, o) => o = mkOpened (negb (sc_conn c)) (sc_conn c) true /\
      (is_Some (sc_transport c) <-> sc_conn c = false) /\
      (HasPrefix (cfg_SupernodeURL cfg) (str "ws://") = true -> sc_conn c = false /\ sc_wssConfig c = None)
  | (Err _, o) => o = mkOpened false false false
  | (Panic, _) => False
  end.
Proof.
  unfold setupNetworkComponents. destruct (HasPrefix (cfg_SupernodeURL cfg) (str "ws://")) eqn:P.
  - assert (cfg_SupernodeURL cfg <> []) by (intros E; by rewrite E in P).
    rewrite orb_true_r, bool_decide_eq_false_2 by done. cbn [negb andb].
    pose proof (setup_websocket_balanced "failed to establish WS connection" (str "ws://") (str ":8080") (ws_config [] [] cfg) None cfg) as B.
    destruct (setup_websocket _ _ _ _ _ _ _) as [[c|e|] o]; [|done..]. destruct B as (-> & -> & ? & ->). done.
  - destruct (_ && negb _); [|destruct (_ && negb _)].
    1: pose proof (setup_websocket_balanced "failed to establish WS connection" (str "ws://") (str ":8080") (ws_config [] [] cfg) None cfg) as B.
    2: pose proof (setup_websocket_balanced "failed to establish WSS connection" (str "wss://") (str ":443") (wss_config cfg) (Some (wss_config cfg)) cfg) as B.
    1, 2: destruct (setup_websocket _ _ _ _ _ _ _) as [[c|e|] o]; [|done..]; destruct B as (-> & -> & ? & _); done.
    destruct (ResolveUDPAddr (cfg_SupernodeAddr cfg)) as [sn|e]; [|done].
    unfold mwrap, mtry, setupUDPConnection. unfold mbind, M_bind.
    destruct (ResolveUDPAddr (str ":" ++ _)) as [la|]; [|done]. destruct (ListenUDP la); [done|]. cbn.
    unfold new_tap. destruct (NewInterface _); cbn; [done|]. split; [done|]. split; [|done]. split; [by intros []|done].
Qed.

(** Setting up either leaves the edge with exactly one connection to the
    supernode (a UDP socket or a websocket) and a TAP device, or, when any
    part of it fails, with everything closed that had been opened. *)
Theorem setup_balanced cfg :
  match setupNetworkComponents cfg (mkOpened false false false) with
  | (Ok c, o) => o = mkOpened (negb (sc_conn c)) (sc_conn c) true /\ (is_Some (sc_transport c) <-> sc_conn c = false)
  | (Err _, o) => o = mkOpened false false false
  | (Panic, _) => False
  end.
Proof.
  pose proof (setup_shape cfg) as S. destruct (setupNetworkComponents _ _) as [[c|e|] o]; [|done..].
  by destruct S as (? & ? & _).
Qed.
End SetupTheorems.

(** Without the configuration the loop never pauses to connect. *)
Lemma never_sleeps nat s : reachable true false nat s -> status s NetLoop <> Sleeping.
Proof.
  induction 1 as [|l s s' _ IH H]; [done|].
  step_cases H; cbn in *; try done; repeat case_decide; simplify_eq; try done.
Qed.

Lemma lost_step nat s s' : status s NetLoop <> Sleeping -> any true false nat s s' -> wss s = WSNone -> wss s' = WSNone.
Proof. intros Hs [l H] W. step_cases H; cbn in *; try done; try congruence; by rewrite W. Qed.

(** A plain websocket is not connected again: the set up of a [ws://] URL
    returns no configuration to connect with, and an edge without one whose
    connection is lost is without a connection from then on. *)
Theorem lost_ws_stays_lost `{WL : WSLib, SE : SetupEnv} cfg c o :
  HasPrefix (cfg_SupernodeURL cfg) (str "ws://") = true ->
  setupNetworkComponents cfg (mkOpened false false false) = (Ok c, o) ->
  forall nat s s', reachable (negb (sc_conn c)) (bool_decide (sc_wssConfig c <> None)) nat s -> wss s = WSNone ->
    rtc (any (negb (sc_conn c)) (bool_decide (sc_wssConfig c <> None)) nat) s s' -> wss s' = WSNone.
Proof.
  intros P E. pose proof (setup_shape cfg) as S. rewrite E in S. destruct S as (_ & _ & S). destruct (S P) as [-> ->].
  rewrite bool_decide_eq_false_2 by (intros H; by apply H). cbn [negb].
  intros nat s s' R W H. induction H as [|s s1 s' H _ IH]; [done|].
  apply IH; [|by eapply (lost_step nat); [by apply (never_sleeps nat)| |]]. destruct H as [l H]. by eapply reach_step.
Qed.

Module SetupSample.
#[export] Instance wslib : WSLib := {|
  LoadX509KeyPair := fun _ _ => None; ws_dial := fun _ _ => inl (mkWSConn [] [] false, 101); ws_accept := fun _ _ => None |}.
#[export] Instance env : SetupEnv := {|
  ResolveUDPAddr := fun _ => inl (UDPAddr [192; 0; 2; 1] 7777); ListenUDP := fun _ => None; NewInterface := fun _ => None |}.
Definition cfg : EdgeConfig :=
  mkEdgeConfig 8388608 (str "e1") (str "c") (str "n2n_tap0") 0 [] (30 * 10 ^ 9) VersionV true true
    (str "edge.yaml") (str ":7778") [] false false (str "ws://sn.example/ws") [] [] false [].
(** The connection of a running edge fails. *)
Definition lost : RunState := set_status NetLoop Selecting (set_wss WSNone (set_status NetLoop Reading (set_status NetLoop Selecting
  (set_run HalfStarted (spawn [HeartbeatLoop; TapLoop; NetLoop] (fresh_edge true)))))).
End SetupSample.
Import SetupSample.

Lemma lost_reachable : reachable true false false lost.
Proof.
  eapply reach_step; [eapply reach_step; [eapply reach_step; [eapply reach_step; [apply reach_start|by apply by_run, run_first]
    |by apply by_loop, (enter NetLoop)]|by apply by_wss, wss_read]|]. by apply by_wss, wss_failure.
Qed.

Lemma lost_ws_stays_lost_witness : wss (set_status NetLoop Gone lost) = WSNone.
Proof.
  destruct (setupNetworkComponents cfg (mkOpened false false false)) as [r o] eqn:E.
  assert (r = Ok (mkComponents false (Some (mkWSS (mkWSConn [] [] false) false false)) (UDPAddr [192; 0; 2; 1] 7777) None)) as ->
    by (injection E as <- _; vm_compute; reflexivity).
  apply (lost_ws_stays_lost cfg _ o eq_refl E false lost (set_status NetLoop Gone lost)).
  - exact lost_reachable.
  - reflexivity.
  - eapply rtc_l; [|reflexivity]. exists Inside. by apply by_wss, wss_give_up.
Defined.
