(* ===== verification/EdgeNew.v ===== *)
(** * Creating an edge: [NewEdgeClient] ([pkg/edge/client.go])

    The constructor of the edge as a whole: machine id and MAC ([Machine]), the
    hosts file ([Hosts]), connection and TAP device ([EdgeSetup]), port mapping
    ([NAT]), hardware address, payload pipeline ([Transform]) and management
    server ([Management]), in the order of the code, down to the struct of
    [Edge].  The answers of the system are a parameter; [log.Fatalf] ends the
    process. *)
From S2P Require Import Prelude GoBytes GoNet Netstruct Protocol Machine Transform P2P Crypto Hosts Log Management NAT Transport EdgeSetup.
From S2P Require Import Edge EdgeProps.
From stdpp Require Import gmap list strings.
From Stdlib Require Import ZArith Lia.
Open Scope Z_scope.

(** The machine an edge is created on: the system, what it answers for the
    machine id, the hosts file, what opening it for writing answers ([Some b]: an error, [b] when
    permission is denied), the TAP device's answers, the constructor of zstd,
    the local address of the UDP socket, and the directory of the management
    socket. *)
Class EdgeHost := {
  eh_windows : bool;
  eh_id : IdHost;
  eh_hostsFile : option (list Z);
  eh_hostsOpen : option bool;
  eh_IfMac : list Z -> option goerr;
  eh_HardwareAddr : option (list Z);
  eh_zstd : option goerr;
  eh_udpLocal : netAddr;
  eh_socketDir : list Z; eh_socketFile : bool; eh_removed : bool; eh_bound : bool;
  eh_now : Z }.

(** [os.IsPermission(err) == false]: other errors count as writable. *)
Definition IsWritable (err : option bool) : bool :=
  match err with None => true | Some permission => negb permission end.

Section Create.
Context `{RSA : RSALib, CL : CryptoLib, WL : WSLib, SE : SetupEnv, UP : UPnPLib, PL : PMPLib, HN : HostNet,
  UU : UnicodeUpper, UL : UnicodeLower, EH : EdgeHost} {MR : MapRange Z}.

(** What the constructor leaves outside the struct. *)
Record Host := mkHost {
  hs_machine : MachineState;
  hs_open : Opened;
  hs_nat : NatWorld;
  hs_mgmt : option ManagementServer }.

Definition on_machine {A} (m : M MachineState A) : M Host A :=
  zoom hs_machine (fun x h => mkHost x (hs_open h) (hs_nat h) (hs_mgmt h)) m.
Definition on_open {A} (m : M Opened A) : M Host A :=
  zoom hs_open (fun x h => mkHost (hs_machine h) x (hs_nat h) (hs_mgmt h)) m.
Definition on_nat {A} (m : M NatWorld A) : M Host A :=
  zoom hs_nat (fun x h => mkHost (hs_machine h) (hs_open h) x (hs_mgmt h)) m.

Definition fatal {A} : M Host A := mpanic.

(** The struct with the parts [Edge] does not keep. *)
Record NewEdge := mkNewEdge { ne_edge : EdgeClient; ne_nat : option (UPnPClient + NATPMPClient); ne_hosts : Hosts }.

(** The MAC the edge goes by once [IfMac] was called. *)
Definition take_mac (predictableMac : list Z) : M Host (list Z) :=
  match eh_IfMac (HardwareAddr_String predictableMac) with
  | None => mret predictableMac
  | Some _ => if eh_windows then mret (default predictableMac eh_HardwareAddr) else fatal
  end.

Definition make_processor (cfg : EdgeConfig) : M Host (list Transform) :=
  if cfg_CompressPayload cfg && bool_decide (is_Some eh_zstd) then fatal else
  match NewPayloadProcessor (edge_transforms (cfg_CompressPayload cfg) (cfg_EncryptionPassphrase cfg)) with
  | Ok p => mret p
  | _ => fatal
  end.

Definition start_management (cfg : EdgeConfig) : M Host unit :=
  let mgmtServer := NewManagementServer eh_socketDir (str "edge") (cfg_Community cfg) eh_now eh_socketFile in
  match Start eh_removed eh_bound mgmtServer with
  | (Ok _, started) => modify (fun h => mkHost (hs_machine h) (hs_open h) (hs_nat h) (Some started))
  | _ => fatal
  end.

Definition newEdgeClient (cfg : EdgeConfig) : M Host NewEdge :=
  machineId ← on_machine (GetMachineID eh_id);
  predictableMac ← on_machine (GenerateMac eh_id (cfg_Community cfg));
  match NewHosts eh_hostsFile with
  | Ok hosts =>
      if negb (IsWritable eh_hostsOpen) then fatal else
      c ← on_open (setupNetworkComponents cfg);
      natClient ← on_nat (SetupNAT (if sc_conn c then Some eh_udpLocal else None) (cfg_EdgeID cfg) (cfg_SupernodeAddr cfg));
      mac ← take_mac predictableMac;
      make_processor cfg;;
      start_management cfg;;
      let edge := NewEdgeClient (cfg_EdgeID cfg) (cfg_Community cfg) (cfg_EnableVFuze cfg) (cfg_CompressPayload cfg)
        (cfg_EncryptionPassphrase cfg) (sc_snAddr c) (sc_conn c) ((fun _ => O) <$> sc_transport c) machineId mac eh_now in
      mret (mkNewEdge edge natClient hosts)
  | _ => fatal
  end.
End Create.

(** ** Reading, whichever the transport

    [wss] and [udp] are the answers of the two. *)
Definition errNoTransport : goerr := ErrNew "no transport available".

Definition setReadDeadline `{RSA : RSALib} (wss udp : outcome unit) (e : EdgeClient) : outcome unit :=
  if bool_decide (is_Some (WSSTransport e)) then wss else if Conn e then udp else Err errNoTransport.

Definition readPacket `{RSA : RSALib} (wss udp : outcome (list Z * netAddr)) (e : EdgeClient) : outcome (list Z * netAddr) :=
  if bool_decide (is_Some (WSSTransport e)) then wss else if Conn e then udp else Err errNoTransport.

(** ** The pieces *)
(** The edge derives its address from the id it has just read. *)
Lemma GenerateMac_cached x s mid community : ms_cache s = Some mid -> is_Some (ms_file s) -> ms_dir s = true ->
  GenerateMac x community s = (Ok (ExtGenerateMac community mid), s).
Proof.
  intros Hc Hf Hd. unfold GenerateMac, netGenerateMac, mtry. unfold mbind at 1, M_bind at 1.
  by rewrite (bind_ok _ _ _ _ _ (GetMachineID_cached x s mid Hc Hf Hd)).
Qed.

Lemma Start_new `{UL : UnicodeLower} dir app pw now file removed bound :
  Start removed bound (NewManagementServer dir app pw now file) =
    if (file && negb removed) || negb bound
    then (Err errListen, set_socket false false (file && negb removed) (NewManagementServer dir app pw now file))
    else (Ok tt, set_socket false true true (NewManagementServer dir app pw now file)).
Proof. unfold Start. munfold. unfold id. cbn. by destruct (_ || _). Qed.

Section NewEdge.
Context `{RSA : RSALib, CL : CryptoLib, WL : WSLib, SE : SetupEnv, UP : UPnPLib, PL : PMPLib, HN : HostNet,
  UU : UnicodeUpper, UL : UnicodeLower, EH : EdgeHost, UW : !UPnPLaws, PW : !PMPLaws} {MR : MapRange Z}.

Lemma SetupNAT_ok conn id dial w : exists c w', SetupNAT conn id dial w = (Ok c, w').
Proof.
  pose proof (nat_session_facts conn id dial w) as H. cbn zeta in H.
  destruct (SetupNAT conn id dial w) as [[c|e|] w']; [by eexists _, _|done..].
Qed.

(** The reasons to give up with a fatal message. *)
Definition gives_up (cfg : EdgeConfig) (mac : list Z) : Prop :=
  (forall hosts, NewHosts eh_hostsFile <> Ok hosts) \/ IsWritable eh_hostsOpen = false \/
  eh_windows = false /\ eh_IfMac (HardwareAddr_String mac) <> None \/
  cfg_CompressPayload cfg = true /\ eh_zstd <> None \/ (eh_socketFile && negb eh_removed) || negb eh_bound = true.

(** From the hardware address on: everything is there, or the process ends. *)
Lemma finish_edge cfg mac (h : Host) {A} (k : list Z -> M Host A) :
  let m := (mac' ← take_mac mac; make_processor cfg;; start_management cfg;; k mac') in
  (exists mac' srv, (eh_IfMac (HardwareAddr_String mac) = None -> mac' = mac) /\ listener srv = true /\ password srv = cfg_Community cfg /\
     m h = k mac' (mkHost (hs_machine h) (hs_open h) (hs_nat h) (Some srv))) \/
  m h = (Panic, h) /\ gives_up cfg mac.
Proof.
  intros m. unfold m, gives_up, take_mac, make_processor, start_management.
  destruct (eh_IfMac (HardwareAddr_String mac)) as [err|] eqn:Em; [destruct eh_windows eqn:Ew; [|by right; split; [|right; right; left]]|];
    cbn; unfold mbind at 1, M_bind at 1; cbn;
    (destruct (cfg_CompressPayload cfg && bool_decide (is_Some eh_zstd)) eqn:Ez;
      [apply andb_true_iff in Ez as [Ez [z Ez']%bool_decide_eq_true]; right; split; [done|]; right; right; right; left; split; [done|]; by rewrite Ez'|]);
    rewrite (proj2 (edge_pipeline_accepted _ _)); unfold mbind at 1, M_bind at 1; cbn;
    rewrite Start_new; (destruct ((eh_socketFile && negb eh_removed) || negb eh_bound) eqn:Eb; [right; split; [done|by auto 6]|]);
    left; eexists _, _; (split; [|split; [|split; [|reflexivity]]]); done.
Qed.

(** What a call leaves, in all its outcomes. *)
Lemma new_edge_facts (cfg : EdgeConfig) (h : Host) :
  hs_open h = mkOpened false false false -> hs_mgmt h = None ->
  match newEdgeClient cfg h with
  | (Ok r, h') => let e := ne_edge r in let mac := ExtGenerateMac (cfg_Community cfg) (machineId e) in
      ec_Community e = cfg_Community cfg /\ (eh_IfMac (HardwareAddr_String mac) = None -> ec_MACAddr e = mac) /\
      ms_cache (hs_machine h') = Some (machineId e) /\
      hs_open h' = mkOpened (negb (Conn e)) (Conn e) true /\ (Conn e = true -> udp_ready e) /\ (Conn e = false -> is_Some (WSSTransport e)) /\
      (exists srv, hs_mgmt h' = Some srv /\ listener srv = true /\ password srv = cfg_Community cfg) /\
      SetupNAT (if Conn e then Some eh_udpLocal else None) (cfg_EdgeID cfg) (cfg_SupernodeAddr cfg) (hs_nat h) = (Ok (ne_nat r), hs_nat h')
  | (Err _, h') => hs_open h' = mkOpened false false false /\ hs_nat h' = hs_nat h /\ hs_mgmt h' = None
  | (Panic, h') =>
      no_identity eh_id (hs_machine h) /\ hs_open h' = mkOpened false false false /\ hs_nat h' = hs_nat h /\ hs_mgmt h' = None \/
      exists id, ms_cache (hs_machine h') = Some id /\ gives_up cfg (ExtGenerateMac (cfg_Community cfg) id)
  end.
Proof.
  intros Ho Hm. unfold newEdgeClient, on_machine, on_open, on_nat.
  pose proof (GetMachineID_cases eh_id (hs_machine h)) as Hid.
  destruct (GetMachineID eh_id (hs_machine h)) as [[mid|err|] ms] eqn:Eid;
    [|unfold mbind, M_bind; rewrite (zoom_eq _ _ _ _ _ _ Eid); by try left..].
  rewrite (bind_ok _ _ _ _ _ (zoom_eq _ _ _ _ _ _ Eid)). destruct Hid as (Hc & Hf & Hd).
  erewrite (bind_ok _ _ _ _ _ (zoom_eq _ _ _ _ _ _ (GenerateMac_cached eh_id _ mid (cfg_Community cfg) _ _ _))). cbn [hs_machine hs_open hs_nat hs_mgmt].
  Unshelve. 2, 3, 4: done. set (mac := ExtGenerateMac (cfg_Community cfg) mid).
  destruct (NewHosts eh_hostsFile) as [hosts|herr|] eqn:Eh; [|right; exists mid; split; [done|left]; by rewrite Eh..].
  destruct (IsWritable eh_hostsOpen) eqn:Ew; cbn [negb]; [|right; exists mid; split; [done|by right; left]].
  pose proof (setup_shape cfg) as S. destruct (setupNetworkComponents cfg (mkOpened false false false)) as [[c|serr|] o] eqn:Es; [| |done].
  2:{ unfold mbind, M_bind. rewrite <-Ho in Es. rewrite (zoom_eq _ _ _ (mkHost ms (hs_open h) (hs_nat h) (hs_mgmt h)) _ _ Es). by subst. }
  rewrite <-Ho in Es. rewrite (bind_ok _ _ _ _ _ (zoom_eq _ _ _ (mkHost ms (hs_open h) (hs_nat h) (hs_mgmt h)) _ _ Es)).
  destruct S as (-> & St & _). cbn [hs_machine hs_open hs_nat hs_mgmt].
  destruct (SetupNAT_ok (if sc_conn c then Some eh_udpLocal else None) (cfg_EdgeID cfg) (cfg_SupernodeAddr cfg) (hs_nat h)) as (nc & w & En).
  set (h1 := mkHost ms _ (hs_nat h) (hs_mgmt h)). rewrite (bind_ok _ _ _ _ _ (zoom_eq hs_nat _ _ h1 _ _ En)).
  cbn [hs_machine hs_open hs_nat hs_mgmt h1]. set (h2 := mkHost ms _ w (hs_mgmt h)).
  match goal with |- context [mbind ?k (take_mac mac) h2] => set (kk := k) end.
  destruct (finish_edge cfg mac h2 (fun mac' => mret (mkNewEdge (NewEdgeClient (cfg_EdgeID cfg) (cfg_Community cfg) (cfg_EnableVFuze cfg)
    (cfg_CompressPayload cfg) (cfg_EncryptionPassphrase cfg) (sc_snAddr c) (sc_conn c) ((fun _ => O) <$> sc_transport c) mid mac' eh_now) nc hosts)))
    as [(mac' & srv & Hmac & Hl & Hp & E)|[E G]]; unfold kk; rewrite E; [|by right; exists mid].
  cbn -[Z.add]. split_and!; try done.
  - intros Et. split; [|done]. destruct (sc_transport c); [|done]. rewrite Et in St. discriminate (proj1 St (mk_is_Some _ _ eq_refl)).
  - intros Et. apply St in Et. by destruct (sc_transport c).
  - by exists srv.
Qed.

(** C23. Creating an edge gives a whole edge or nothing.  On success the struct has
    the configured community and, unless Windows refuses it, the MAC derived
    from community and machine id (what the supernode recomputes and [edge_joins]
    asks for); the machine id is kept for the process; exactly one connection and
    the TAP device are open, the management server listens under the community
    as password, and the port mapping is that of [SetupNAT].  On an error nothing
    is left open and no gateway was asked.  A fatal exit has one of eight
    reasons: there is no machine id to be had (the home directory is unknown, or
    there is no id file yet and the random reader fails or the file cannot be
    written), and then nothing was opened and no gateway asked; or one of the
    five of [gives_up]: the hosts file cannot be read, or cannot be written, the
    MAC address is refused (other than on Windows), zstd cannot be set up, or the
    management socket cannot be bound. *)
Theorem new_edge_whole (cfg : EdgeConfig) (h : Host) :
  hs_open h = mkOpened false false false -> hs_mgmt h = None ->
  match newEdgeClient cfg h with
  | (Ok r, h') => let e := ne_edge r in let mac := ExtGenerateMac (cfg_Community cfg) (machineId e) in
      ec_Community e = cfg_Community cfg /\ (eh_IfMac (HardwareAddr_String mac) = None -> ec_MACAddr e = mac) /\
      ms_cache (hs_machine h') = Some (machineId e) /\
      hs_open h' = mkOpened (negb (Conn e)) (Conn e) true /\ (Conn e = true -> udp_ready e) /\ (Conn e = false -> is_Some (WSSTransport e)) /\
      (exists srv, hs_mgmt h' = Some srv /\ listener srv = true /\ password srv = cfg_Community cfg) /\
      SetupNAT (if Conn e then Some eh_udpLocal else None) (cfg_EdgeID cfg) (cfg_SupernodeAddr cfg) (hs_nat h) = (Ok (ne_nat r), hs_nat h')
  | (Err _, h') => hs_open h' = mkOpened false false false /\ hs_nat h' = hs_nat h /\ hs_mgmt h' = None
  | (Panic, h') =>
      no_identity eh_id (hs_machine h) /\ hs_open h' = mkOpened false false false /\ hs_nat h' = hs_nat h /\ hs_mgmt h' = None \/
      exists id, ms_cache (hs_machine h') = Some id /\ gives_up cfg (ExtGenerateMac (cfg_Community cfg) id)
  end.
Proof. exact (new_edge_facts cfg h). Qed.
End NewEdge.

(** An edge that was created always has a connection to read from, the one that
    is open. *)
Theorem new_edge_reads `{RSA : RSALib, CL : CryptoLib, WL : WSLib, SE : SetupEnv, UP : UPnPLib, PL : PMPLib, HN : HostNet,
  UU : UnicodeUpper, UL : UnicodeLower, EH : EdgeHost, UW : !UPnPLaws, PW : !PMPLaws} {MR : MapRange Z} cfg (h : Host) r h' wss udp :
  hs_open h = mkOpened false false false -> hs_mgmt h = None -> newEdgeClient cfg h = (Ok r, h') ->
  readPacket wss udp (ne_edge r) = (if o_udp (hs_open h') then udp else wss) /\ o_udp (hs_open h') = negb (o_ws (hs_open h')).
Proof.
  intros Ho Hm E. pose proof (new_edge_facts cfg h Ho Hm) as H. rewrite E in H.
  destruct H as (_ & _ & _ & Hop & Hu & Hw & _). rewrite Hop. cbn. unfold readPacket. destruct (Conn (ne_edge r)).
  - destruct (Hu eq_refl) as [-> _]. done.
  - by rewrite bool_decide_eq_true_2 by (by apply Hw).
Qed.

(** ** A host for evaluation *)
Module NewSample.
Export SetupSample NatSample.
#[export] Instance nobody : EdgeHost := {|
  eh_windows := false; eh_id := sample_host; eh_hostsFile := Some (str "127.0.0.1 localhost" ++ [10]); eh_hostsOpen := None;
  eh_IfMac := fun _ => None; eh_HardwareAddr := None; eh_zstd := None; eh_udpLocal := UDPAddr [0; 0; 0; 0] 5000;
  eh_socketDir := defaultSocketDir; eh_socketFile := false; eh_removed := true; eh_bound := true; eh_now := 0 |}.
(** The same, with a file in the place of the socket that cannot be removed. *)
Definition occupied : EdgeHost := {|
  eh_windows := false; eh_id := sample_host; eh_hostsFile := Some (str "127.0.0.1 localhost" ++ [10]); eh_hostsOpen := None;
  eh_IfMac := fun _ => None; eh_HardwareAddr := None; eh_zstd := None; eh_udpLocal := UDPAddr [0; 0; 0; 0] 5000;
  eh_socketDir := defaultSocketDir; eh_socketFile := true; eh_removed := false; eh_bound := true; eh_now := 0 |}.
Definition udp_cfg : EdgeConfig :=
  mkEdgeConfig 8388608 (str "e1") (str "c") (str "n2n_tap0") 0 (str "sn.example:7777") (30 * 10 ^ 9) VersionV true true
    (str "edge.yaml") (str ":7778") [] false false [] [] [] false [].
Definition blank : Host := mkHost (mkMachine None None false) (mkOpened false false false) NatSample.start None.
End NewSample.
Import NewSample.

(** A fatal exit after [SetupNAT] leaves the port mapping at the gateway, with
    no lease to end it: here the management socket cannot be bound. *)
Theorem fatal_leaves_mapping :
  let r := newEdgeClient (EH := occupied) udp_cfg blank in
  r.1 = Panic /\ w_igd (hs_nat r.2) !! (kind_name WANIPConnection1, str "UDP", 5000) = Some (str "192.168.1.20", 5000).
Proof. vm_compute. split; reflexivity. Qed.

Definition made (r : outcome NewEdge * Host) : bool := match r.1 with Ok _ => true | _ => false end.

Lemma new_edge_whole_witness : exists r h', newEdgeClient udp_cfg blank = (Ok r, h') /\
  ec_MACAddr (ne_edge r) = ExtGenerateMac (str "c") (machineId (ne_edge r)) /\
  exists srv, hs_mgmt h' = Some srv /\ listener srv = true /\ password srv = str "c".
Proof.
  pose proof (new_edge_whole udp_cfg blank eq_refl eq_refl) as H.
  assert (made (newEdgeClient udp_cfg blank) = true) as B by (vm_compute; reflexivity).
  destruct (newEdgeClient udp_cfg blank) as [[r|e|] h']; try discriminate B. exists r, h'. split; [reflexivity|].
  destruct H as (_ & Hm & _ & _ & _ & _ & Hs & _). split; [exact (Hm eq_refl)|exact Hs].
Defined.

Lemma new_edge_reads_witness : exists r h', newEdgeClient udp_cfg blank = (Ok r, h') /\
  readPacket (Err errNoTransport) (Ok ([1], eh_udpLocal)) (ne_edge r) = Ok ([1], eh_udpLocal).
Proof.
  assert (o_udp (hs_open (newEdgeClient udp_cfg blank).2) = true) as U by (vm_compute; reflexivity).
  assert (made (newEdgeClient udp_cfg blank) = true) as B by (vm_compute; reflexivity).
  destruct (newEdgeClient udp_cfg blank) as [[r|e|] h'] eqn:E; try discriminate B. exists r, h'. split; [reflexivity|].
  destruct (new_edge_reads udp_cfg blank r h' (Err errNoTransport) (Ok ([1], eh_udpLocal)) eq_refl eq_refl E) as [-> _].
  cbn [snd] in U. by rewrite U.
Defined.
