(* ===== verification/Overlapped.v ===== *)
(** * Overlapped I/O: [pkg/tuntap/overlapped_windows.go]

    The handle of a TAP device on Windows: reads and writes with a timeout or a
    deadline, the pool of event objects they use, and the handle with a
    position.  The system calls are a parameter, a function of the state of the
    system each. *)
From S2P Require Import Prelude GoBytes.
From stdpp Require Import gmap list strings relations.
From Stdlib Require Import ZArith Lia.
Open Scope Z_scope.

(** ** The system *)
Definition ERROR_IO_PENDING : goerr := ErrNew "Overlapped I/O operation is in progress.".
Definition ERROR_HANDLE_EOF : goerr := ErrNew "Reached the end of the file.".
Definition ERROR_OPERATION_ABORTED : goerr := ErrNew "The I/O operation has been aborted because of either a thread exit or an application request.".
Definition ErrDeadlineExceeded : goerr := ErrNew "i/o timeout".
Definition ERROR_WAIT_ABANDONED : goerr := ErrNew "WAIT_ABANDONED".

Definition WAIT_OBJECT_0 : Z := 0.
Definition WAIT_ABANDONED : Z := 0x80.
Definition WAIT_TIMEOUT : Z := 258.
Definition WAIT_FAILED : Z := 0xFFFFFFFF.
Definition INFINITE : Z := 0xFFFFFFFF.
Definition InvalidHandle : Z := 2 ^ 64 - 1.

(** The count and error a call sets, and the bytes it has read. *)
Record IORes := mkIO { io_n : Z; io_data : list Z; io_err : option goerr }.

(** What an operation is for: reading so many bytes, writing these. *)
Inductive IOReq := ReadReq (n : nat) | WriteReq (b : list Z).

Class WinAPI := {
  win : Type;
  time_Now : win -> Z;
  CreateEvent : win -> win * (Z + goerr);
  ResetEvent : win -> Z -> win * option goerr;
  CloseHandle : win -> Z -> win * option goerr;
  CancelIoEx : win -> Z -> option Z -> win * option goerr;
  (** [ReadFile] or [WriteFile]: handle, both halves of the offset, event. *)
  StartIO : win -> IOReq -> Z -> Z -> Z -> Z -> win * IORes;
  WaitForSingleObject : win -> Z -> Z -> win * (Z + goerr);
  GetOverlappedResult : win -> Z -> Z -> win * IORes;
  (** None for [ERROR_SUCCESS]. *)
  GetLastError : win -> option goerr;
}.

Record Handle := mkHandle {
  h : Z; h_events : list Z; defaultTimeout : Z; readDeadline : option Z; writeDeadline : option Z }.

Definition OverlappedBlocking : Z := -1.
Definition OverlappedNonBlocking : Z := 0.

Definition NewOverlapped (handle timeout : Z) : Handle := mkHandle handle [] timeout None None.

Section Overlapped.
Context `{W : WinAPI}.

Definition sys {S A} (f : win -> win * A) : M (S * win) A := fun '(s, w) => let '(w', a) := f w in (Ok a, (s, w')).
Definition set_events (f : list Z -> list Z) : M (Handle * win) unit :=
  modify (fun '(x, w) => (mkHandle (h x) (f (h_events x)) (defaultTimeout x) (readDeadline x) (writeDeadline x), w)).

(** The pool is a stack. *)
Definition getEvent : M (Handle * win) Z :=
  x ← gets fst;
  match reverse (h_events x) with
  | e :: rest => set_events (fun _ => reverse rest);; mret e
  | [] =>
      r ← sys CreateEvent;
      match r with
      | inr err => merr (ErrWrap "CreateEvent failed" err)
      | inl e =>
          err ← sys (fun w => ResetEvent w e);
          match err with
          | Some err => sys (fun w => CloseHandle w e);; merr (ErrWrap "ResetEvent failed after create" err)
          | None => mret e
          end
      end
  end.

Definition putEvent (e : Z) : M (Handle * win) unit :=
  sys (fun w => ResetEvent w e);; set_events (fun pool => pool ++ [e]).

(** The bytes read, the count and the error: Go returns them together. *)
Definition IOResult : Type := list Z * Z * option goerr.

Definition RGetLastError : M (Handle * win) (option goerr) := gets (fun '(_, w) => GetLastError w).

(** The result of an operation that was pending; the call waits for it. *)
Definition final_result (k event : Z) : M (Handle * win) IOResult :=
  r ← sys (fun w => GetOverlappedResult w k event);
  mret (match io_err r with
        | None => (io_data r, io_n r, None)
        | Some e =>
            if errors_is e ERROR_HANDLE_EOF then (io_data r, io_n r, Some io_EOF)
            else if errors_is e ERROR_OPERATION_ABORTED then ([], 0, Some ErrDeadlineExceeded)
            else ([], 0, Some (ErrWrap "GetOverlappedResult" e))
        end).

Definition asyncIo (req : IOReq) (milliseconds off offHigh event : Z) : M (Handle * win) IOResult :=
  x ← gets fst;
  r ← sys (fun w => StartIO w req (h x) off offHigh event);
  match io_err r with
  | Some err =>
      if errors_is err ERROR_IO_PENDING then
        let waitTimeout := if milliseconds <? 0 then INFINITE else u32 milliseconds in
        ev ← sys (fun w => WaitForSingleObject w event waitTimeout);
        match ev with
        | inr e => mret ([], 0, Some (ErrWrap "WaitForSingleObject failed directly" e))
        | inl v =>
            if v =? WAIT_OBJECT_0 then final_result (h x) event
            else if v =? WAIT_TIMEOUT then
              if milliseconds =? 0 then final_result (h x) event
              else sys (fun w => CancelIoEx w (h x) (Some event));; mret ([], 0, Some ErrDeadlineExceeded)
            else if v =? WAIT_ABANDONED then mret ([], 0, Some (ErrWrap "WaitForSingleObject" ERROR_WAIT_ABANDONED))
            else if v =? WAIT_FAILED then
              e ← RGetLastError;
              mret ([], 0, Some (match e with
                                 | Some e => ErrWrap "WaitForSingleObject returned WAIT_FAILED" e
                                 | None => ErrNew "WaitForSingleObject returned WAIT_FAILED: %!w(<nil>)"
                                 end))
            else mret ([], 0, Some (ErrNew "WaitForSingleObject returned unexpected status"))
        end
      else if errors_is err ERROR_HANDLE_EOF then mret (io_data r, io_n r, Some io_EOF)
      else mret ([], 0, Some (ErrWrap "synchronous operation failed" err))
  | None => mret (io_data r, io_n r, None)
  end.

Definition maxInt32 : Z := 2 ^ 31 - 1.

Definition calculateTimeoutMillis (deadline : option Z) (dflt : Z) : M (Handle * win) Z :=
  match deadline with
  | None => mret dflt
  | Some d =>
      now ← gets (fun '(_, w) => time_Now w);
      let timeoutDuration := d - now in
      if timeoutDuration <=? 0 then merr ErrDeadlineExceeded else
      let millis := timeoutDuration / 10 ^ 6 in
      if millis <=? 0 then mret 0 else if maxInt32 <? millis then mret maxInt32 else mret millis
  end.

Definition SetReadDeadline (t : option Z) : M (Handle * win) unit :=
  modify (fun '(x, w) => (mkHandle (h x) (h_events x) (defaultTimeout x) t (writeDeadline x), w)).
Definition SetWriteDeadline (t : option Z) : M (Handle * win) unit :=
  modify (fun '(x, w) => (mkHandle (h x) (h_events x) (defaultTimeout x) (readDeadline x) t, w)).

Definition is_err (o : option goerr) (e : goerr) : bool := match o with Some x => errors_is x e | None => false end.

(** What [ReadAt] and [ReadTimeout] make of the result. *)
Definition read_result (name : string) (len : nat) (r : IOResult) : IOResult :=
  let '(data, n, opErr) := r in
  let isStdEOF := bool_decide (opErr = None) && (n =? 0) && (0 <? Z.of_nat len) in
  let isExplicitEOF := is_err opErr io_EOF in
  let isDeadline := is_err opErr ErrDeadlineExceeded in
  if isStdEOF || (isExplicitEOF && negb isDeadline) then (data, n, Some io_EOF)
  else match opErr with
       | Some e => if negb isExplicitEOF && negb isDeadline then (data, n, Some (ErrWrap name e)) else (data, n, opErr)
       | None => (data, n, None)
       end.

(** What the writes make of it: errors other than those given are wrapped. *)
Definition wrap_unless (name : string) (plain : list goerr) (r : IOResult) : IOResult :=
  let '(data, n, err) := r in
  match err with
  | Some e => (data, n, Some (if existsb (errors_is e) plain then e else ErrWrap name e))
  | None => (data, n, None)
  end.

(** An operation with an event of the pool, which is put back at the end, and
    what is made of its result. *)
Definition with_event (name : string) (io : Z -> M (Handle * win) IOResult) (post : IOResult -> IOResult) : M (Handle * win) IOResult :=
  r ← mtry getEvent;
  match r with
  | inr e => mret ([], 0, Some (ErrWrap name e))
  | inl e => res ← io e; putEvent e;; mret (post res)
  end.

(** With the deadline checked first. *)
Definition with_timeout (deadline : Handle -> option Z) (millis : Z) (io : Z -> M (Handle * win) IOResult) : M (Handle * win) IOResult :=
  x ← gets fst;
  r ← mtry (calculateTimeoutMillis (deadline x) millis);
  match r with
  | inr e => mret ([], 0, Some e)
  | inl m => io m
  end.

Definition off_low (off : Z) : Z := u32 (Z.land off 0xFFFFFFFF).
Definition off_high (off : Z) : Z := u32 (Z.shiftr off 32).

Definition Custom (req : IOReq) (milliseconds : Z) : M (Handle * win) IOResult :=
  with_event "custom" (asyncIo req milliseconds 0 0) (wrap_unless "custom" [io_EOF]).

Definition ReadAt (n : nat) (off : Z) : M (Handle * win) IOResult :=
  x ← gets fst;
  with_timeout readDeadline (defaultTimeout x) (fun m =>
    with_event "readAt" (asyncIo (ReadReq n) m (off_low off) (off_high off)) (read_result "readAt" n)).

Definition WriteAt (b : list Z) (off : Z) : M (Handle * win) IOResult :=
  x ← gets fst;
  with_timeout writeDeadline (defaultTimeout x) (fun m =>
    with_event "writeAt" (asyncIo (WriteReq b) m (off_low off) (off_high off)) (wrap_unless "writeAt" [ErrDeadlineExceeded])).

Definition ReadTimeout (n : nat) (milliseconds : Z) : M (Handle * win) IOResult :=
  with_timeout readDeadline milliseconds (fun m =>
    with_event "read" (asyncIo (ReadReq n) m 0 0) (read_result "read" n)).

Definition WriteTimeout (b : list Z) (milliseconds : Z) : M (Handle * win) IOResult :=
  with_timeout writeDeadline milliseconds (fun m =>
    with_event "write" (asyncIo (WriteReq b) m 0 0) (wrap_unless "write" [ErrDeadlineExceeded; ERROR_IO_PENDING])).

Definition handle_Read (n : nat) : M (Handle * win) IOResult := x ← gets fst; ReadTimeout n (defaultTimeout x).
Definition handle_Write (b : list Z) : M (Handle * win) IOResult := x ← gets fst; WriteTimeout b (defaultTimeout x).

Definition handle_Close : M (Handle * win) unit :=
  x ← gets fst;
  if (h x =? 0) || (h x =? InvalidHandle) then mret tt else
  sys (fun w => CancelIoEx w (h x) None);;
  err ← sys (fun w => CloseHandle w (h x));
  modify (fun '(x, w) => (mkHandle 0 (h_events x) (defaultTimeout x) (readDeadline x) (writeDeadline x), w));;
  y ← gets fst;
  mfor (h_events y) (fun e => mignore (sys (fun w => CloseHandle w e)));;
  set_events (fun _ => []);;
  match err with Some e => merr (ErrWrap "CloseHandle" e) | None => mret tt end.

(** ** The handle with a position *)
Record PositionHandle := mkPosition { ph_Handle : Handle; position : Z }.

Definition NewPositionHandle (handle timeout : Z) : PositionHandle := mkPosition (NewOverlapped handle timeout) 0.

(** A method of the embedded handle. *)
Definition embedded {A} (m : M (Handle * win) A) : M (PositionHandle * win) A := fun '(p, w) =>
  let '(r, (x, w')) := m (ph_Handle p, w) in (r, (mkPosition x (position p), w')).

Definition advance (currentPos n : Z) : M (PositionHandle * win) unit :=
  if 0 <? n then modify (fun '(p, w) => (mkPosition (ph_Handle p) (i64 (currentPos + n)), w)) else mret tt.

Definition position_Read (len : nat) : M (PositionHandle * win) IOResult :=
  p ← gets fst;
  '(data, n, err) ← embedded (ReadAt len (position p));
  advance (position p) n;; mret (data, n, err).

Definition position_Write (b : list Z) : M (PositionHandle * win) IOResult :=
  p ← gets fst;
  '(data, n, err) ← embedded (WriteAt b (position p));
  advance (position p) n;; mret (data, n, err).

Definition position_Close : M (PositionHandle * win) unit := embedded handle_Close.
End Overlapped.

(** ** Timeouts *)

(** C36. The timeout of an operation: without a deadline the given one; a deadline
    that has passed fails the operation at once; otherwise the milliseconds
    left, rounded down, at most what a 32-bit integer holds. *)
Theorem timeout_exact `{W : WinAPI} deadline dflt x w :
  match calculateTimeoutMillis deadline dflt (x, w), deadline with
  | (Ok m, s'), None => m = dflt /\ s' = (x, w)
  | (Ok m, s'), Some d => time_Now w < d /\ 0 <= m <= maxInt32 /\ m * 10 ^ 6 <= d - time_Now w /\
      (d - time_Now w < (m + 1) * 10 ^ 6 \/ m = maxInt32) /\ s' = (x, w)
  | (Err e, s'), Some d => d <= time_Now w /\ e = ErrDeadlineExceeded /\ s' = (x, w)
  | _, _ => False
  end.
Proof.
  unfold calculateTimeoutMillis. destruct deadline as [d|]; [|done]. rewrite gets_bind. unfold merr, mret, M_ret.
  destruct (Z.leb_spec (d - time_Now w) 0); [by split_and!; [lia|..]|].
  pose proof (Z.div_mod (d - time_Now w) (10 ^ 6) ltac:(lia)). pose proof (Z.mod_pos_bound (d - time_Now w) (10 ^ 6) ltac:(lia)).
  assert (0 <= (d - time_Now w) / 10 ^ 6) by (apply Z.div_pos; lia). unfold maxInt32 in *.
  destruct (Z.leb_spec ((d - time_Now w) / 10 ^ 6) 0); [split_and!; [lia..|left; lia|done]|].
  destruct (Z.ltb_spec (2 ^ 31 - 1) ((d - time_Now w) / 10 ^ 6)); split_and!; try lia; done.
Qed.

(** ** Events *)
Class EventLaws `{W : WinAPI} := {
  handles : win -> gset Z;
  create_law w : match CreateEvent w with
    | (w', inl e) => e <> 0 /\ e ∉ handles w /\ handles w' = {[e]} ∪ handles w
    | (w', inr _) => handles w' = handles w
    end;
  close_law w k : k ∈ handles w -> match CloseHandle w k with (w', r) => r = None /\ handles w' = handles w ∖ {[k]} end;
  reset_law w e : handles (ResetEvent w e).1 = handles w;
  cancel_law w k o : handles (CancelIoEx w k o).1 = handles w;
  start_law w req k lo hi e : handles (StartIO w req k lo hi e).1 = handles w;
  wait_law w e t : handles (WaitForSingleObject w e t).1 = handles w;
  result_law w k e : handles (GetOverlappedResult w k e).1 = handles w;
}.

Section Events.
Context `{EL : EventLaws}.

(** Operations in flight, the calls between [getEvent] and [putEvent], are the
    events they hold.  Any may begin, do its I/O and end, and the handle may be
    closed at any time.  A call that timed out ends as any other, as in the code,
    although the system may still refer to its event ([timeout_pools_event]). *)
Inductive op_step : (Handle * win) * list Z -> (Handle * win) * list Z -> Prop :=
  | op_begin s U e s' : getEvent s = (Ok e, s') -> op_step (s, U) (s', e :: U)
  | op_fail s U err s' : getEvent s = (Err err, s') -> op_step (s, U) (s', U)
  | op_io s U e req m lo hi r s' : e ∈ U -> asyncIo req m lo hi e s = (r, s') -> op_step (s, U) (s', U)
  | op_end s U1 e U2 r s' : putEvent e s = (r, s') -> op_step (s, U1 ++ e :: U2) (s', U1 ++ U2)
  | op_deadline s U t r s' : SetReadDeadline t s = (r, s') \/ SetWriteDeadline t s = (r, s') -> op_step (s, U) (s', U)
  | op_close s U r s' : handle_Close s = (r, s') -> op_step (s, U) (s', U).

(** The device handle while it is open. *)
Definition device (x : Handle) : gset Z := if (h x =? 0) || (h x =? InvalidHandle) then ∅ else {[h x]}.

(** Every event is in the pool or held by one operation; [R] are the handles
    of others. *)
Record events_ok (R : gset Z) (c : (Handle * win) * list Z) : Prop := {
  ev_exclusive : NoDup (h_events c.1.1 ++ c.2);
  ev_device : device c.1.1 ## list_to_set (h_events c.1.1 ++ c.2);
  ev_rest : R ## list_to_set (h_events c.1.1 ++ c.2) ∪ device c.1.1;
  ev_handles : handles c.1.2 = list_to_set (h_events c.1.1 ++ c.2) ∪ device c.1.1 ∪ R;
}.

(** A step that at most moves events between pool and operations. *)
Lemma events_move R x w U x' w' U' : events_ok R ((x, w), U) -> h x' = h x -> h_events x' ++ U' ≡ₚ h_events x ++ U ->
  handles w' = handles w -> events_ok R ((x', w'), U').
Proof.
  intros [H1 H2 H3 H4] Hh Hp Hw. cbn in *. unfold device in *. rewrite <-Hh in *.
  assert (list_to_set (h_events x' ++ U') = (list_to_set (h_events x ++ U) : gset Z)) as E by (apply list_to_set_perm_L, Hp).
  constructor; cbn; unfold device; rewrite ?E, ?Hw; try done. by rewrite Hp.
Qed.

(** An event that was created. *)
Lemma events_new R x w U w' e : events_ok R ((x, w), U) -> e ∉ handles w -> handles w' = {[e]} ∪ handles w ->
  events_ok R ((x, w'), e :: U).
Proof.
  intros [H1 H2 H3 H4] Hn Hw. cbn in *. rewrite H4 in Hn. rewrite !not_elem_of_union in Hn. destruct Hn as [[N1 N2] N3].
  assert (list_to_set (h_events x ++ e :: U) = ({[e]} ∪ list_to_set (h_events x ++ U) : gset Z)) as E.
  { rewrite <-Permutation_middle. done. }
  constructor; cbn; rewrite ?E, ?Hw, ?H4; [|set_solver..].
  rewrite <-Permutation_middle. constructor; [|done]. by rewrite <-(elem_of_list_to_set (C := gset Z)).
Qed.

Lemma sys_eq {S A} (f : win -> win * A) (s : S) w w' a : f w = (w', a) -> sys f (s, w) = (Ok a, (s, w')).
Proof. unfold sys. by intros ->. Qed.

Definition unmoved (x : Handle) (H : gset Z) (s : Handle * win) : Prop := s.1 = x /\ handles s.2 = H.

Lemma unmoved_sys x H {A} (f : win -> win * A) : (forall w, handles (f w).1 = handles w) -> preserves (unmoved x H) (sys f).
Proof. intros Hf [y w] [E1 E2]. unfold sys. specialize (Hf w). destruct (f w) as [w' a]. cbn in *. split; cbn; congruence. Qed.

Lemma asyncIo_unmoved x H req m lo hi e : preserves (unmoved x H) (asyncIo req m lo hi e).
Proof.
  unfold asyncIo, final_result, RGetLastError. repeat preserve_step; apply unmoved_sys; intros w; auto using start_law, wait_law, result_law, cancel_law.
Qed.

Lemma getEvent_cases x w :
  match getEvent (x, w) with
  | (Ok e, (x', w')) => h x' = h x /\
      ((exists pool, h_events x = pool ++ [e] /\ h_events x' = pool /\ w' = w) \/
       (x' = x /\ h_events x = [] /\ e ∉ handles w /\ handles w' = {[e]} ∪ handles w))
  | (Err _, (x', w')) => x' = x /\ handles w' = handles w
  | (Panic, _) => False
  end.
Proof.
  unfold getEvent. rewrite gets_bind. cbn [fst]. destruct (reverse (h_events x)) as [|e rest] eqn:E.
  - assert (h_events x = []) as Ex by (rewrite <-(reverse_involutive (h_events x)), E; done).
    unfold sys. unfold mbind, M_bind. pose proof (create_law w) as C. destruct (CreateEvent w) as [w1 [e|err]]; [|done].
    destruct C as (Hz & Hn & Hc). pose proof (reset_law w1 e) as Rs. destruct (ResetEvent w1 e) as [w2 [err|]]; cbn in Rs.
    + pose proof (close_law w2 e) as Cl. destruct (CloseHandle w2 e) as [w3 r]. destruct Cl as [_ Cl]; [rewrite Rs, Hc; set_solver|].
      cbn. split; [done|]. rewrite Cl, Rs, Hc. set_solver.
    + cbn. split; [done|]. right. by rewrite Rs.
  - cbn. split; [done|]. left. exists (reverse rest). split; [|done].
    rewrite <-(reverse_involutive (h_events x)), E. by rewrite reverse_cons.
Qed.

Lemma close_events l : forall (x : Handle) w, NoDup l -> list_to_set l ⊆ handles w ->
  exists w', mfor l (fun e => mignore (sys (fun w => CloseHandle w e))) (x, w) = (Ok tt, (x, w')) /\ handles w' = handles w ∖ list_to_set l.
Proof.
  induction l as [|e l IH]; intros x w Hn Hl.
  - exists w. split; [done|]. set_solver.
  - apply NoDup_cons in Hn as [He Hn]. cbn in Hl. pose proof (close_law w e ltac:(set_solver)) as C.
    destruct (CloseHandle w e) as [w1 r] eqn:E. destruct C as [-> C].
    destruct (IH x w1 Hn) as (w2 & E2 & H2); [rewrite C; intros k Hk; rewrite elem_of_list_to_set in Hk; set_solver|].
    exists w2. cbn [mfor]. rewrite (bind_ok _ _ _ tt (x, w1)); [|unfold mignore, mtry, sys; unfold mbind, M_bind; by rewrite E].
    split; [done|]. rewrite H2, C. cbn. set_solver.
Qed.

Lemma close_ok R x w U : events_ok R ((x, w), U) ->
  match handle_Close (x, w) with
  | (Panic, _) => False
  | (_, s') => events_ok R (s', U) /\ (device x <> ∅ -> h_events s'.1 = [] /\ device s'.1 = ∅)
  end.
Proof.
  intros I. unfold handle_Close. rewrite gets_bind. cbn [fst]. unfold device at 1. destruct (_ || _) eqn:Hh; [by split|].
  destruct I as [H1 H2 H3 H4]. cbn in *. assert (device x = {[h x]}) as D by (unfold device; by rewrite Hh). rewrite D in *.
  pose proof (cancel_law w (h x) None) as C. destruct (CancelIoEx w (h x) None) as [w1 r1] eqn:E1. cbn in C.
  pose proof (close_law w1 (h x) ltac:(rewrite C, H4; set_solver)) as L. destruct (CloseHandle w1 (h x)) as [w2 r2] eqn:E2. destruct L as [-> L].
  rewrite (bind_ok _ _ _ r1 (x, w1)) by (by apply sys_eq). rewrite (bind_ok _ _ _ None (x, w2)) by (by apply sys_eq).
  erewrite bind_ok; [|reflexivity]. rewrite gets_bind. cbn [fst h_events].
  apply NoDup_app in H1 as (N1 & N2 & N3). rewrite list_to_set_app_L in *.
  destruct (close_events (h_events x) (mkHandle 0 (h_events x) (defaultTimeout x) (readDeadline x) (writeDeadline x)) w2 N1) as (w3 & E3 & L3).
  { rewrite L, C, H4. set_solver. }
  rewrite (bind_ok _ _ _ _ _ E3). cbn. split; [|done].
  assert (list_to_set (h_events x) ## (list_to_set U : gset Z)) as Dj.
  { intros k K1 K2. rewrite elem_of_list_to_set in K1, K2. by apply (N2 k). }
  constructor; cbn; unfold device; cbn; [done|set_solver..|]. rewrite L3, L, C, H4. set_solver.
Qed.

Lemma op_step_ok R c c' : events_ok R c -> op_step c c' -> events_ok R c'.
Proof.
  intros I H. destruct H as [[x w] U e [x' w'] E|[x w] U err [x' w'] E|[x w] U e req m lo hi r [x' w'] He E
    |[x w] U1 e U2 r [x' w'] E|[x w] U t r [x' w'] E|[x w] U r s' E].
  - pose proof (getEvent_cases x w) as G. rewrite E in G. destruct G as [Hh [(pool & E1 & E2 & ->)|(-> & _ & Hn & Hw)]].
    + eapply events_move; [done|done| |done]. rewrite E1, E2. by rewrite <-app_assoc.
    + by eapply events_new.
  - pose proof (getEvent_cases x w) as G. rewrite E in G. destruct G as [-> Hw]. by eapply events_move.
  - pose proof (asyncIo_unmoved x (handles w) req m lo hi e (x, w) (conj eq_refl eq_refl)) as P. rewrite E in P. destruct P as [P1 P2].
    cbn in P1, P2. subst x'. by eapply events_move.
  - unfold putEvent, sys, set_events, modify in E. unfold mbind, M_bind in E. pose proof (reset_law w e) as Rs.
    destruct (ResetEvent w e) as [w1 q]. cbn in Rs. injection E as <- <- <-. eapply events_move; [done|done| |done]. cbn.
    rewrite <-app_assoc. apply Permutation_app_head. cbn. by rewrite Permutation_middle.
  - destruct E as [E|E]; injection E as <- <- <-; by eapply events_move.
  - pose proof (close_ok R x w U I) as C. rewrite E in C. by destruct r; [destruct C|destruct C|].
Qed.

(** C35. No two calls hold the same event and none is lost: whatever operations
    begin, run, end and close the handle in whichever order, an event is in the
    pool or held by one call, never both nor by two, and the open handles are
    exactly these events, the device while it is open and what was open before.
    The first [Close], when no call is in flight, leaves only the latter.  A
    [Close] of a handle that is closed changes nothing: the events of calls that
    ended after the first one stay open in the pool.  (This is about the calls;
    the system may go on using an event after a timeout.) *)
Theorem events_exclusive R k t w c : k <> 0 -> k <> InvalidHandle -> k ∉ R -> handles w = {[k]} ∪ R ->
  rtc op_step ((NewOverlapped k t, w), []) c ->
  NoDup (h_events c.1.1 ++ c.2) /\
  handles c.1.2 = list_to_set (h_events c.1.1 ++ c.2) ∪ device c.1.1 ∪ R /\
  (device c.1.1 <> ∅ -> c.2 = [] -> handles (handle_Close c.1).2.2 = R) /\
  (device c.1.1 = ∅ -> (handle_Close c.1).2 = c.1).
Proof.
  intros K0 Ki KR Hw H. assert (events_ok R ((NewOverlapped k t, w), [])) as I0.
  { assert (device (NewOverlapped k t) = {[k]}) as D.
    { unfold device. cbn [h NewOverlapped]. destruct (Z.eqb_spec k 0); [done|]. by destruct (Z.eqb_spec k InvalidHandle). }
    constructor; cbn [fst snd]; rewrite ?D; cbn; [constructor|set_solver..|]. rewrite Hw. set_solver. }
  assert (events_ok R c) as I by (clear -I0 H EL; induction H; eauto using op_step_ok).
  destruct c as [[x w'] U]. cbn. split; [apply I|]. split; [apply I|]. split.
  2: { intros Hd. unfold handle_Close. rewrite gets_bind. cbn [fst]. unfold device in Hd. destruct (_ || _); [done|].
    exfalso. set_solver. }
  intros Hd ->.
  pose proof (close_ok R x w' [] I) as C. destruct (handle_Close (x, w')) as [[u|e|] [x2 w2]]; [| |done];
    destruct C as [I2 C2]; destruct (C2 Hd) as [P D]; destruct I2 as [_ _ _ H4]; cbn in *; rewrite H4, P, D; set_solver.
Qed.
End Events.

(** ** Reading in sequence *)

(** A file: a read at an offset returns, at once or when it completes, bytes
    from there on; an error comes with none.  [pending] is what an operation in
    progress will have read. *)
Class FileLaws `{W : WinAPI} := {
  content : win -> list Z;
  pending : win -> Z -> list Z;
  file_read w n k lo hi e :
    let '(w', r) := StartIO w (ReadReq n) k lo hi e in
    content w' = content w /\
    match io_err r with
    | None => io_data r `prefix_of` take n (drop (Z.to_nat (lo + hi * 2 ^ 32)) (content w)) /\ io_n r = len (io_data r)
    | Some err => io_data r = [] /\ io_n r = 0 /\
        pending w' e `prefix_of` take n (drop (Z.to_nat (lo + hi * 2 ^ 32)) (content w))
    end;
  file_wait w e t : content (WaitForSingleObject w e t).1 = content w /\ pending (WaitForSingleObject w e t).1 e = pending w e;
  file_result w k e :
    let '(w', r) := GetOverlappedResult w k e in
    content w' = content w /\ io_n r = len (io_data r) /\ match io_err r with None => io_data r = pending w e | Some _ => io_data r = [] end;
  file_cancel w k o : content (CancelIoEx w k o).1 = content w;
  file_create w : content (CreateEvent w).1 = content w;
  file_reset w e : content (ResetEvent w e).1 = content w;
  file_close w k : content (CloseHandle w k).1 = content w;
}.

Section Reading.
Context `{FL : FileLaws}.

Lemma offset_halves off : 0 <= off < 2 ^ 63 -> off_low off + off_high off * 2 ^ 32 = off.
Proof.
  intros H. unfold off_low, off_high, u32. change 0xFFFFFFFF with (Z.ones 32). rewrite Z.land_ones, Z.shiftr_div_pow2 by lia.
  rewrite Z.mod_mod by lia. rewrite (Z.mod_small (off / 2 ^ 32)).
  - rewrite (Z.div_mod off (2 ^ 32)) at 3 by lia. lia.
  - split; [apply Z.div_pos; lia|apply Z.div_lt_upper_bound; lia].
Qed.

(** What reading [n] bytes at [off] of [C] may return. *)
Definition read_of (C : list Z) (n : nat) (off : Z) (r : IOResult) : Prop :=
  r.1.1 `prefix_of` take n (drop (Z.to_nat off) C) /\ r.1.2 = len r.1.1.

Definition reads_from (C : list Z) (n : nat) (off : Z) (m : M (Handle * win) IOResult) : Prop := forall x w, content w = C ->
  exists r x' w', m (x, w) = (Ok r, (x', w')) /\ content w' = C /\ read_of C n off r.

Lemma read_of_nil C n off err : read_of C n off ([], 0, err).
Proof. split; [apply prefix_nil|done]. Qed.

Lemma final_reads C n off k e x w : content w = C -> pending w e `prefix_of` take n (drop (Z.to_nat off) C) ->
  exists r x' w', final_result k e (x, w) = (Ok r, (x', w')) /\ content w' = C /\ read_of C n off r.
Proof.
  intros Hc Hp. unfold final_result. pose proof (file_result w k e) as F. destruct (GetOverlappedResult w k e) as [w1 r] eqn:E.
  destruct F as (F1 & F2 & F3). rewrite (bind_ok _ _ _ r (x, w1)) by (unfold sys; by rewrite E).
  eexists _, x, w1. split; [done|]. split; [congruence|]. destruct (io_err r) as [err|].
  - rewrite F3 in *. destruct (errors_is err ERROR_HANDLE_EOF); [rewrite F2; apply read_of_nil|].
    destruct (errors_is err ERROR_OPERATION_ABORTED); apply read_of_nil.
  - split; cbn; [by rewrite F3|done].
Qed.

Lemma asyncIo_reads C n off m e : 0 <= off < 2 ^ 63 -> reads_from C n off (asyncIo (ReadReq n) m (off_low off) (off_high off) e).
Proof.
  intros Ho x w Hc. unfold asyncIo. rewrite gets_bind. cbn [fst]. pose proof (file_read w n (h x) (off_low off) (off_high off) e) as F.
  destruct (StartIO w (ReadReq n) (h x) (off_low off) (off_high off) e) as [w1 r] eqn:E. destruct F as [F1 F2].
  rewrite offset_halves in F2 by done. rewrite Hc in *. rewrite (bind_ok _ _ _ r (x, w1)) by (unfold sys; by rewrite E).
  destruct (io_err r) as [err|]; [|eexists _, x, w1; split; [done|]; split; [done|]; exact F2].
  destruct F2 as (D0 & N0 & P). destruct (errors_is err ERROR_IO_PENDING).
  - set (tmo := if m <? 0 then INFINITE else u32 m). pose proof (file_wait w1 e tmo) as [W1 W2].
    destruct (WaitForSingleObject w1 e tmo) as [w2 v] eqn:Ew. cbn in W1, W2. rewrite <-W2 in P. rewrite F1 in W1.
    rewrite (bind_ok _ _ _ v (x, w2)) by (unfold sys; by rewrite Ew).
    destruct v as [v|ew]; [|eexists _, x, w2; split; [done|]; split; [done|]; apply read_of_nil].
    destruct (v =? WAIT_OBJECT_0); [by apply final_reads|].
    destruct (v =? WAIT_TIMEOUT); [destruct (m =? 0); [by apply final_reads|]|].
    + pose proof (file_cancel w2 (h x) (Some e)) as K. destruct (CancelIoEx w2 (h x) (Some e)) as [w3 q] eqn:Ec. cbn in K.
      rewrite (bind_ok _ _ _ q (x, w3)) by (unfold sys; by rewrite Ec).
      eexists _, x, w3. split; [done|]. split; [congruence|]. apply read_of_nil.
    + destruct (v =? WAIT_ABANDONED); [|destruct (v =? WAIT_FAILED)];
        (eexists _, x, w2; split; [reflexivity|]; split; [done|]; apply read_of_nil).
  - destruct (errors_is err ERROR_HANDLE_EOF); eexists _, x, w1; (split; [reflexivity|]); (split; [done|]);
      rewrite ?D0, ?N0; apply read_of_nil.
Qed.

Lemma read_result_of C n off name r : read_of C n off r -> read_of C n off (read_result name n r).
Proof.
  destruct r as [[d k] err]. unfold read_of. cbn. intros H. destruct (_ || _); [done|]. destruct err as [e|]; [|done]. by destruct (_ && _).
Qed.

Lemma getEvent_content x w : content (getEvent (x, w)).2.2 = content w /\ (getEvent (x, w)).1 <> Panic.
Proof.
  unfold getEvent. rewrite gets_bind. cbn [fst]. destruct (reverse (h_events x)); [|done].
  unfold sys. unfold mbind, M_bind. pose proof (file_create w) as F. destruct (CreateEvent w) as [w1 [e|err]]; cbn in *; [|done].
  pose proof (file_reset w1 e) as F1. destruct (ResetEvent w1 e) as [w2 [err|]]; cbn in *; [|split; [congruence|done]].
  pose proof (file_close w2 e) as F2. destruct (CloseHandle w2 e) as [w3 q]; cbn in *. split; [congruence|done].
Qed.

Lemma with_event_reads C n off name io post : (forall e, reads_from C n off (io e)) ->
  (forall r, read_of C n off r -> read_of C n off (post r)) -> reads_from C n off (with_event name io post).
Proof.
  intros Hio Hp x w Hc. unfold with_event, mtry. unfold mbind at 1, M_bind at 1. destruct (getEvent_content x w) as [G1 G2].
  destruct (getEvent (x, w)) as [[e|err|] [x1 w1]]; cbn in G1, G2; [| |done].
  - destruct (Hio e x1 w1) as (r & x2 & w2 & E & Hc2 & R); [congruence|]. rewrite (bind_ok _ _ _ _ _ E).
    unfold putEvent, sys, set_events, modify. unfold mbind, M_bind, mret, M_ret. pose proof (file_reset w2 e) as F.
    destruct (ResetEvent w2 e) as [w3 q]. cbn in F. eexists _, _, w3. split; [reflexivity|]. split; [congruence|]. by apply Hp.
  - eexists _, x1, w1. split; [reflexivity|]. split; [congruence|]. apply read_of_nil.
Qed.

Lemma ReadAt_reads C n off : 0 <= off < 2 ^ 63 -> reads_from C n off (ReadAt n off).
Proof.
  intros Ho x w Hc. unfold ReadAt, with_timeout, mtry. rewrite !gets_bind. cbn [fst]. unfold mbind at 1, M_bind at 1.
  assert (exists r, calculateTimeoutMillis (readDeadline x) (defaultTimeout x) (x, w) = (r, (x, w)) /\ r <> Panic) as (r & -> & Hr).
  { unfold calculateTimeoutMillis. destruct (readDeadline x) as [d|]; [|by eexists]. rewrite gets_bind.
    destruct (_ <=? _); [by eexists|]. destruct (_ <=? _); [by eexists|]. destruct (_ <? _); by eexists. }
  destruct r as [m|e|]; [|eexists _, x, w; split; [reflexivity|]; split; [done|]; apply read_of_nil|done].
  apply with_event_reads; [|apply read_result_of|done]. intros e. by apply asyncIo_reads.
Qed.

(** The reads of a sequence of sizes, all their bytes. *)
Fixpoint reads (ns : list nat) : M (PositionHandle * win) (list Z) :=
  match ns with
  | [] => mret []
  | n :: ns => '(data, _, _) ← position_Read n; rest ← reads ns; mret (data ++ rest)
  end.

Lemma reads_run C ns : forall p w, content w = C -> len C < 2 ^ 63 -> 0 <= position p <= len C ->
  exists acc p' w', reads ns (p, w) = (Ok acc, (p', w')) /\ content w' = C /\
    acc `prefix_of` drop (Z.to_nat (position p)) C /\ position p' = position p + len acc.
Proof.
  induction ns as [|n ns IH]; intros p w Hc Hl Hp.
  { exists [], p, w. split; [done|]. split; [done|]. split; [apply prefix_nil|]. unfold len. cbn. lia. }
  destruct (ReadAt_reads C n (position p) ltac:(lia) (ph_Handle p) w Hc) as ([[d k] err] & x1 & w1 & E & Hc1 & [R1 R2]). cbn in R1, R2. subst k.
  assert (len d <= len C - position p) as Hd.
  { apply prefix_length in R1. rewrite length_take, length_drop in R1. unfold len in *. lia. }
  assert (d `prefix_of` drop (Z.to_nat (position p)) C) as Rd by (etrans; [exact R1|apply prefix_take]).
  set (p1 := mkPosition x1 (position p + len d)).
  assert (position_Read n (p, w) = (Ok (d, len d, err), (p1, w1))) as Er.
  { unfold position_Read. rewrite gets_bind. cbn [fst]. rewrite (bind_ok _ _ _ (d, len d, err) (mkPosition x1 (position p), w1)).
    2: { unfold embedded. cbn [ph_Handle]. by rewrite E. }
    unfold advance. destruct (Z.ltb_spec 0 (len d)).
    - rewrite (bind_ok _ _ _ tt (mkPosition x1 (i64 (position p + len d)), w1)) by done. by rewrite i64_small by (unfold len in *; lia).
    - assert (p1 = mkPosition x1 (position p)) as -> by (unfold p1; f_equal; unfold len in *; lia). reflexivity. }
  destruct (IH p1 w1 Hc1 Hl) as (acc & p' & w' & E2 & Hc2 & Ra & Rp); [cbn; unfold len in *; lia|].
  exists (d ++ acc), p', w'. cbn [reads]. rewrite (bind_ok _ _ _ _ _ Er), (bind_ok _ _ _ _ _ E2). split; [done|]. split; [done|].
  cbn [position p1] in Ra, Rp. split; [|rewrite Rp; unfold len; rewrite length_app; lia].
  destruct Rd as [t Et]. destruct Ra as [u Eu]. exists u. rewrite Et, <-app_assoc. f_equal. rewrite <-Eu.
  replace (Z.to_nat (position p + len d)) with (Z.to_nat (position p) + length d)%nat by (unfold len in *; lia).
  rewrite <-drop_drop, Et. by rewrite drop_app_length.
Qed.

(** Reading with a position: whatever the sizes of the reads, whether they
    complete at once, later, partly, with an error or not in time, the bytes
    returned are, one after the other, those of the file from its beginning,
    and the position is their number; files may exceed 4 GiB. *)
Theorem sequential_reads k t w ns : len (content w) < 2 ^ 63 ->
  exists acc p w', reads ns (NewPositionHandle k t, w) = (Ok acc, (p, w')) /\ content w' = content w /\
    acc `prefix_of` content w /\ position p = len acc.
Proof.
  intros Hl. destruct (reads_run (content w) ns (NewPositionHandle k t) w eq_refl Hl) as (acc & p & w' & E & Hc & Hp & Hq).
  { cbn. unfold len. lia. }
  exists acc, p, w'. by split_and!.
Qed.
End Reading.

(** A call that should not block waits: when the operation is pending the
    timeout of zero, that of a non-blocking call and of a deadline less than a
    millisecond away, is over at once, and the result is then waited for. *)
Lemma nonblocking_waits `{W : WinAPI} req lo hi e x w w1 r w2 : StartIO w req (h x) lo hi e = (w1, r) ->
  io_err r = Some ERROR_IO_PENDING -> WaitForSingleObject w1 e 0 = (w2, inl WAIT_TIMEOUT) ->
  asyncIo req 0 lo hi e (x, w) = final_result (h x) e (x, w2).
Proof.
  intros E1 E2 E3. unfold asyncIo. rewrite gets_bind. cbn [fst]. rewrite (bind_ok _ _ _ r (x, w1)) by (unfold sys; by rewrite E1).
  rewrite E2. change (errors_is ERROR_IO_PENDING ERROR_IO_PENDING) with true. cbv iota zeta.
  change (if 0 <? 0 then INFINITE else u32 0) with 0. rewrite (bind_ok _ _ _ (inl WAIT_TIMEOUT) (x, w2)) by (unfold sys; by rewrite E3). reflexivity.
Qed.

(** A call that times out cancels its I/O and does not wait for it to end: its
    event is back in the pool with the last word of the system unheard. *)
Theorem timeout_pools_event `{W : WinAPI} req ms lo hi e x w w1 r w2 :
  0 < ms < 2 ^ 32 -> StartIO w req (h x) lo hi e = (w1, r) -> io_err r = Some ERROR_IO_PENDING ->
  WaitForSingleObject w1 e ms = (w2, inl WAIT_TIMEOUT) ->
  let w3 := (CancelIoEx w2 (h x) (Some e)).1 in
  asyncIo req ms lo hi e (x, w) = (Ok ([], 0, Some ErrDeadlineExceeded), (x, w3)) /\
  (putEvent e (x, w3)).2 = (mkHandle (h x) (h_events x ++ [e]) (defaultTimeout x) (readDeadline x) (writeDeadline x), (ResetEvent w3 e).1).
Proof.
  intros Hm E1 E2 E3 w3. split.
  - unfold asyncIo. rewrite gets_bind. cbn [fst]. rewrite (bind_ok _ _ _ r (x, w1)) by (unfold sys; by rewrite E1).
    rewrite E2. change (errors_is ERROR_IO_PENDING ERROR_IO_PENDING) with true. cbv iota zeta.
    destruct (Z.ltb_spec ms 0); [lia|]. assert (u32 ms = ms) as -> by (unfold u32; apply Z.mod_small; lia).
    rewrite (bind_ok _ _ _ (inl WAIT_TIMEOUT) (x, w2)) by (unfold sys; by rewrite E3). cbv iota.
    change (WAIT_TIMEOUT =? WAIT_OBJECT_0) with false. change (WAIT_TIMEOUT =? WAIT_TIMEOUT) with true. cbv iota.
    destruct (Z.eqb_spec ms 0); [lia|]. unfold w3, sys. unfold mbind, M_bind. by destruct (CancelIoEx w2 (h x) (Some e)).
  - unfold putEvent, sys, set_events, modify. unfold mbind, M_bind. by destruct (ResetEvent w3 e).
Qed.

(** ** A system for evaluation: a file that completes reads at odd offsets later *)
Module WinSample.
Record sys_state := mkSys { s_content : list Z; s_handles : gset Z; s_pending : list Z }.

#[export] Instance api : WinAPI := {|
  win := sys_state;
  time_Now := fun _ => 0;
  CreateEvent := fun w => let e := fresh ({[0]} ∪ s_handles w) in (mkSys (s_content w) ({[e]} ∪ s_handles w) (s_pending w), inl e);
  ResetEvent := fun w _ => (w, None);
  CloseHandle := fun w k => (mkSys (s_content w) (s_handles w ∖ {[k]}) (s_pending w), None);
  CancelIoEx := fun w _ _ => (w, None);
  StartIO := fun w req _ lo hi _ =>
    match req with
    | WriteReq b => (w, mkIO (len b) [] None)
    | ReadReq n =>
        let d := take n (drop (Z.to_nat (lo + hi * 2 ^ 32)) (s_content w)) in
        if Z.even lo then (w, mkIO (len d) d None)
        else (mkSys (s_content w) (s_handles w) d, mkIO 0 [] (Some ERROR_IO_PENDING))
    end;
  WaitForSingleObject := fun w _ _ => (w, inl WAIT_OBJECT_0);
  GetOverlappedResult := fun w _ _ => (w, mkIO (len (s_pending w)) (s_pending w) None);
  GetLastError := fun _ => Some (ErrNew "The handle is invalid.") |}.

#[export, refine] Instance event_laws : EventLaws := {| handles := s_handles |}.
Proof.
  - intros w. cbn. pose proof (is_fresh ({[0]} ∪ s_handles w)) as F. split; [|split]; [set_solver..|done].
  - intros w k _. cbn. done.
  - done.
  - done.
  - intros w [n|b] k lo hi e; cbn; [|done]. by destruct (Z.even lo).
  - done.
  - done.
Defined.

#[export, refine] Instance file_laws : FileLaws := {| content := s_content; pending := fun w _ => s_pending w |}.
Proof.
  - intros w n k lo hi e. cbn. destruct (Z.even lo); cbn; done.
  - done.
  - done.
  - done.
  - done.
  - done.
  - done.
Defined.

Definition disk : win := mkSys [1; 2; 3; 4; 5] {[7]} [].
End WinSample.
Import WinSample.

Lemma sequential_reads_witness : exists acc p w',
  reads [3; 1; 9]%nat (NewPositionHandle 7 (-1), disk) = (Ok acc, (p, w')) /\ s_content w' = [1; 2; 3; 4; 5] /\
    acc `prefix_of` [1; 2; 3; 4; 5] /\ position p = len acc.
Proof. exact (sequential_reads 7 (-1) disk [3; 1; 9]%nat eq_refl). Defined.

Lemma events_exclusive_witness : exists c, rtc op_step ((NewOverlapped 7 (-1), disk), []) c /\ length c.2 = 2%nat /\
  NoDup (h_events c.1.1 ++ c.2).
Proof.
  destruct (getEvent (NewOverlapped 7 (-1), disk)) as [r1 s1] eqn:E1. destruct (getEvent s1) as [r2 s2] eqn:E2.
  assert (exists e, r1 = Ok e) as [e1 ->] by (injection E1 as <- _; eexists; reflexivity).
  assert (exists e, r2 = Ok e) as [e2 ->] by (injection E1 as _ <-; injection E2 as <- _; eexists; reflexivity).
  assert (rtc op_step ((NewOverlapped 7 (-1), disk), []) (s2, [e2; e1])) as Hr.
  { eapply rtc_l; [by apply op_begin|]. eapply rtc_l; [by apply op_begin|]. reflexivity. }
  exists (s2, [e2; e1]). split; [exact Hr|]. split; [reflexivity|].
  refine (proj1 (events_exclusive ∅ 7 (-1) disk (s2, [e2; e1]) _ _ _ _ Hr)).
  - discriminate.
  - discriminate.
  - apply not_elem_of_empty.
  - vm_compute. reflexivity.
Defined.
