(* ===== verification/TapDevice.v ===== *)
(** * TAP devices: [pkg/tuntap/types.go], [tuntap.go], and the Unix platforms

    The device and the interface around it, against two interfaces: the I/O
    object of a device ([DeviceIO]: an [os.File] on Unix, an overlapped handle
    on Windows) and what each platform implements ([Platform]).  Then creation
    and configuration on Linux ([device_linux.go], [link_linux.go]), macOS and
    NetBSD ([device_darwin.go], [link_darwin.go] and their copies).  System
    calls, netlink and the commands run are parameters. *)
From S2P Require Import Prelude GoBytes GoNet Log Frame Overlapped.
From stdpp Require Import gmap list strings relations.
From Stdlib Require Import ZArith Lia.
Open Scope Z_scope.

(** ** The standard library *)
Definition ErrInvalid : goerr := ErrNew "invalid argument".
Definition ErrClosed : goerr := ErrNew "file already closed".
Definition ErrShortWrite : goerr := ErrNew "short write".
Definition EEXIST : goerr := ErrNew "file exists".
Definition EOPNOTSUPP : goerr := ErrNew "operation not supported".

(** [filepath.Dir] on Unix. *)
Definition filepath_Dir (p : list Z) : list Z :=
  path_Clean (reverse (drop_while (fun c => negb (c =? 47)) (reverse p))).

(** [net.dtoi] on a text that must be consumed whole. *)
Definition dtoi (s : list Z) : option Z :=
  if bool_decide (s = []) then None else
  foldl (fun acc c => n ← acc; if (48 <=? c) && (c <=? 57) then
           let n' := n * 10 + (c - 48) in if 0xFFFFFF <=? n' then None else Some n' else None) (Some 0) s.

(** [net.CIDRMask] with [ones] bits set of [n] bytes. *)
Fixpoint CIDRMask (ones : Z) (n : nat) : list Z :=
  match n with
  | O => []
  | S n' => (256 - 2 ^ (8 - Z.min 8 (Z.max 0 ones))) :: CIDRMask (ones - 8) n'
  end.

(** [net.ParseCIDR]: the 16-byte address, the prefix length and the mask. *)
Definition ParseCIDR (s : list Z) : option (list Z * (Z * list Z)) :=
  i ← index_byte 47 s;
  ip ← ParseAddr (take i s);
  n ← dtoi (drop (S i) s);
  if n <=? 8 * len ip then
    Some (if bool_decide (length ip = 4)%nat then v4InV6Prefix ++ ip else ip, (n, CIDRMask n (length ip)))
  else None.

(** ** [types.go] *)
Inductive DeviceType := TUN | TAP.

#[export] Instance DeviceType_eq_dec : EqDecision DeviceType.
Proof. solve_decision. Defined.

Record Config := mkConfig {
  c_Name : list Z; c_DevType : DeviceType; c_MACAddress : list Z; Persist : bool; Owner : Z; Group_ : Z; Permissions : Z }.

(** The I/O object of a device: its methods, on the object and the system. *)
Class DeviceIO (sys D : Type) := {
  io_Close : M (D * sys) unit;
  io_Fd : D -> Z;
  io_Read : nat -> M (D * sys) IOResult;
  io_SetReadDeadline : option Z -> M (D * sys) unit;
  io_SetWriteDeadline : option Z -> M (D * sys) unit;
  io_Write : list Z -> M (D * sys) IOResult }.

Record Device (D : Type) := mkDevice {
  d_Name : list Z; d_DevType : DeviceType; d_Config : Config; devIo : option D;
  handle : Z; ifIndex : Z; macAddr : option (list Z) }.
Arguments mkDevice {D} _ _ _ _ _ _ _.
Arguments d_Name {D} _.
Arguments d_DevType {D} _.
Arguments d_Config {D} _.
Arguments devIo {D} _.
Arguments handle {D} _.
Arguments ifIndex {D} _.
Arguments macAddr {D} _.

Definition set_devIo {D} (x : option D) (d : Device D) : Device D :=
  mkDevice (d_Name d) (d_DevType d) (d_Config d) x (handle d) (ifIndex d) (macAddr d).

Section Device.
Context {sys D : Type} `{IO : DeviceIO sys D}.

(** A call on the I/O object, or what the method does without one. *)
Definition with_io {A} (none : outcome A) (m : M (D * sys) A) : M (Device D * sys) A := fun '(d, w) =>
  match devIo d with
  | None => (none, (d, w))
  | Some x => let '(r, (x', w')) := m (x, w) in (r, (set_devIo (Some x') d, w'))
  end.

Definition device_Read (n : nat) : M (Device D * sys) IOResult := with_io (Ok ([], 0, Some ErrInvalid)) (io_Read n).
Definition device_Write (b : list Z) : M (Device D * sys) IOResult := with_io (Ok ([], 0, Some ErrInvalid)) (io_Write b).

Definition device_Close : M (Device D * sys) unit :=
  d ← gets fst;
  match devIo d with
  | None => mret tt
  | Some _ =>
      r ← mtry (with_io (Ok tt) io_Close);
      modify (fun '(d, w) => (set_devIo None d, w));;
      match r with inl _ => mret tt | inr e => merr e end
  end.

Definition device_Fd (d : Device D) : Z := match devIo d with None => -1 | Some x => io_Fd x end.
Definition IsTUN (d : Device D) : bool := bool_decide (d_DevType d = TUN).
Definition IsTAP (d : Device D) : bool := bool_decide (d_DevType d = TAP).

Definition device_SetReadDeadline (t : option Z) : M (Device D * sys) unit := with_io (Err ErrInvalid) (io_SetReadDeadline t).
Definition device_SetWriteDeadline (t : option Z) : M (Device D * sys) unit := with_io (Err ErrInvalid) (io_SetWriteDeadline t).
Definition device_SetDeadline (t : option Z) : M (Device D * sys) unit :=
  d ← gets fst;
  match devIo d with
  | None => merr ErrInvalid
  | Some _ => device_SetReadDeadline t;; device_SetWriteDeadline t
  end.
End Device.

(** ** [tuntap.go] *)
Record Interface (D : Type) := mkInterface { Iface : option (Device D); configuredIP : list Z }.
Arguments mkInterface {D} _ _.
Arguments Iface {D} _.
Arguments configuredIP {D} _.

Definition ethernetHeaderSize : nat := 14.

(** What each platform implements: [device_*.go] and [close_*.go]. *)
Class Platform (sys D : Type) := {
  GOOS_windows : bool;
  Create : Config -> M sys (Device D);
  GetIfIndex : Device D -> sys -> Z;
  GetMACAddress : Device D -> sys -> option (list Z);
  closePlatform : M (Interface D * sys) unit }.

Section Interface.
Context {sys D : Type} `{IO : DeviceIO sys D} `{PL : !Platform sys D}.

(** A call on the device, or what the method does without one. *)
Definition on_device {A} (none : outcome A) (m : M (Device D * sys) A) : M (Interface D * sys) A := fun '(i, w) =>
  match Iface i with
  | None => (none, (i, w))
  | Some d => let '(r, (d', w')) := m (d, w) in (r, (mkInterface (Some d') (configuredIP i), w'))
  end.

Definition NewInterface (c : Config) : M sys (Interface D) :=
  if negb (bool_decide (c_DevType c = TAP)) then merr (ErrNew "unsupported device type") else
  r ← mtry (Create c);
  match r with
  | inr e => merr (ErrWrap "failed to create interface" e)
  | inl d => mret (mkInterface (Some d) [])
  end.

Definition iface_Read (n : nat) : M (Interface D * sys) IOResult := on_device (Ok ([], 0, Some ErrInvalid)) (device_Read n).

(** The caller's buffer after the call comes with the result: on Windows the
    destination address is overwritten in it. *)
Definition iface_Write (b : list Z) : M (Interface D * sys) (list Z * (Z * option goerr)) :=
  '(i, w) ← gets id;
  match Iface i with
  | None => mret (b, (0, Some ErrInvalid))
  | Some d =>
      let b' :=
        if GOOS_windows && (ethernetHeaderSize <=? length b)%nat then
          match GetMACAddress d w with
          | Some m => if (length m =? 6)%nat then copy_at b 0 6 m else b
          | None => b
          end
        else b in
      '(_, n, err) ← on_device (Ok ([], 0, Some ErrInvalid)) (device_Write b');
      mret (b', (n, err))
  end.

Definition iface_Close : M (Interface D * sys) unit :=
  '(i, _) ← gets id;
  match Iface i with
  | None => mret tt
  | Some _ =>
      closePlatform;;
      r ← mtry (on_device (Ok tt) device_Close);
      modify (fun '(i, w) => (mkInterface None (configuredIP i), w));;
      match r with inl _ => mret tt | inr e => merr e end
  end.

Definition iface_Name (i : Interface D) : list Z := match Iface i with None => [] | Some d => d_Name d end.
Definition HardwareAddr (i : Interface D) (w : sys) : option (list Z) := Iface i ≫= fun d => GetMACAddress d w.
Definition iface_GetIfIndex (i : Interface D) (w : sys) : Z := match Iface i with None => 0 | Some d => GetIfIndex d w end.
Definition iface_SetReadDeadline (t : option Z) : M (Interface D * sys) unit := on_device (Err ErrInvalid) (device_SetReadDeadline t).
Definition iface_SetWriteDeadline (t : option Z) : M (Interface D * sys) unit := on_device (Err ErrInvalid) (device_SetWriteDeadline t).
Definition iface_SetDeadline (t : option Z) : M (Interface D * sys) unit := on_device (Err ErrInvalid) (device_SetDeadline t).

(** [arp.go]: the frame is built from the interface's address and handed to
    the platform's [sendRawFrame]. *)
Definition iface_SendGratuitousARP (sendRawFrame : list Z -> M (Interface D * sys) unit) (vip : list Z) : M (Interface D * sys) unit :=
  '(i, w) ← gets id;
  frame ← mlift (SendGratuitousARP (HardwareAddr i w) vip);
  sendRawFrame frame.

(** [arp_darwin.go], [arp_netbsd.go], [arp_windows.go]: the frame is written to
    the device. *)
Definition sendRawFrame_write (os : string) (frame : list Z) : M (Interface D * sys) unit :=
  '(_, (n, err)) ← iface_Write frame;
  match err with
  | Some e => merr (ErrWrap (os +:+ ": failed to write frame to TAP device") e)
  | None => if n =? len frame then mret tt else merr (ErrNew (os +:+ ": short write sending frame to TAP device"))
  end.

Definition sendRawFrame_bsd (os : string) (frame : list Z) : M (Interface D * sys) unit :=
  '(i, _) ← gets id;
  match Iface i ≫= devIo with
  | None => merr (ErrNew (os +:+ ": interface or underlying device IO is nil"))
  | Some _ => sendRawFrame_write os frame
  end.
End Interface.

(** ** Unix *)
Class Unix := {
  ux : Type;
  unix_Open : ux -> list Z -> ux * (Z + goerr);
  unix_Close : ux -> Z -> ux * option goerr;
  SetNonblock : ux -> Z -> ux * option goerr;
  fd_read : ux -> Z -> nat -> ux * IORes;
  fd_write : ux -> Z -> list Z -> ux * IORes;
  fd_deadline : ux -> Z -> bool -> option Z -> ux * option goerr;
  (** [unix.NewIfreq] and the [TUNSETIFF] request, which gives the name back. *)
  NewIfreq : list Z -> option goerr;
  IoctlTUNSETIFF : ux -> Z -> list Z -> Z -> ux * (list Z + goerr);
  (** Index and hardware address. *)
  InterfaceByName : ux -> list Z -> (Z * list Z) + goerr }.

(** [os.File]: a descriptor, closed at most once. *)
Record File := mkFile { fd : Z; file_open : bool }.

Section Unix.
Context `{U : Unix}.

Definition usys {S A} (f : ux -> ux * A) : M (S * ux) A := fun '(s, w) => let '(w', a) := f w in (Ok a, (s, w')).
Definition ucall {A} (f : ux -> ux * A) : M ux A := fun w => let '(w', a) := f w in (Ok a, w').

Definition on_file {A} (closed : outcome A) (m : Z -> M (File * ux) A) : M (File * ux) A :=
  f ← gets fst; if file_open f then m (fd f) else mlift closed.

Definition file_Read (n : nat) : M (File * ux) IOResult :=
  on_file (Ok ([], 0, Some (ErrWrap "read" ErrClosed))) (fun k =>
    r ← usys (fun w => fd_read w k n);
    mret (io_data r, Z.max 0 (io_n r),
          match io_err r with
          | Some e => Some (ErrWrap "read" e)
          | None => if (io_n r =? 0) && (0 <? Z.of_nat n) then Some io_EOF else None
          end)).

Definition file_Write (b : list Z) : M (File * ux) IOResult :=
  on_file (Ok ([], 0, Some (ErrWrap "write" ErrClosed))) (fun k =>
    r ← usys (fun w => fd_write w k b);
    mret ([], Z.max 0 (io_n r),
          match io_err r with
          | Some e => Some (ErrWrap "write" e)
          | None => if io_n r =? len b then None else Some (ErrWrap "write" ErrShortWrite)
          end)).

Definition file_Close : M (File * ux) unit :=
  on_file (Err (ErrWrap "close" ErrClosed)) (fun k =>
    err ← usys (fun w => unix_Close w k);
    modify (fun '(f, w) => (mkFile (fd f) false, w));;
    match err with Some e => merr (ErrWrap "close" e) | None => mret tt end).

Definition file_SetDeadline (read : bool) (t : option Z) : M (File * ux) unit :=
  on_file (Err ErrClosed) (fun k =>
    err ← usys (fun w => fd_deadline w k read t);
    match err with Some e => merr e | None => mret tt end).

#[export] Instance file_io : DeviceIO ux File := {|
  io_Close := file_Close; io_Fd := fd; io_Read := file_Read; io_Write := file_Write;
  io_SetReadDeadline := file_SetDeadline true; io_SetWriteDeadline := file_SetDeadline false |}.

(** [handle_unix.go]. *)
Definition GetHandle (d : Device File) : Z := match devIo d with None => 0 | Some f => fd f end.

(** ** [device_linux.go] *)
Definition IFF_TAP : Z := 0x0002.
Definition IFF_NO_PI : Z := 0x1000.

(** The descriptor is closed and the error returned. *)
Definition fail_closing {A} (k : Z) (msg : string) (e : goerr) : M ux A := ucall (fun w => unix_Close w k);; merr (ErrWrap msg e).

Definition file_device (k : Z) (name : list Z) (c : Config) : Device File :=
  mkDevice name (c_DevType c) c (Some (mkFile k true)) 0 0 None.

Definition Create_linux (c : Config) : M ux (Device File) :=
  if negb (bool_decide (c_DevType c = TAP)) then merr (ErrNew "only TAP supported") else
  r ← ucall (fun w => unix_Open w (str "/dev/net/tun"));
  match r with
  | inr e => merr (ErrWrap "linux: open /dev/net/tun" e)
  | inl k =>
      match NewIfreq (c_Name c) with
      | Some e => fail_closing k "linux: create ifreq" e
      | None =>
          r ← ucall (fun w => IoctlTUNSETIFF w k (c_Name c) (u16 (Z.lor IFF_TAP IFF_NO_PI)));
          match r with
          | inr e => fail_closing k "linux: ioctl TUNSETIFF" e
          | inl actualName =>
              err ← ucall (fun w => SetNonblock w k);
              match err with
              | Some e => fail_closing k "linux: set nonblock" e
              | None => mret (file_device k actualName c)
              end
          end
      end
  end.

Definition GetIfIndex_unix (d : Device File) (w : ux) : Z :=
  if bool_decide (d_Name d = []) then 0 else
  match InterfaceByName w (d_Name d) with inr _ => 0 | inl (idx, _) => u32 idx end.

(** On Linux at most six bytes of the address are returned. *)
Definition GetMACAddress_linux (d : Device File) (w : ux) : option (list Z) :=
  if bool_decide (d_Name d = []) then None else
  match InterfaceByName w (d_Name d) with
  | inr _ => None
  | inl (_, hw) => if (6 <=? length hw)%nat then Some (take 6 hw) else if bool_decide (hw = []) then None else Some hw
  end.

Definition GetMACAddress_bsd (d : Device File) (w : ux) : option (list Z) :=
  if bool_decide (d_Name d = []) then None else
  match InterfaceByName w (d_Name d) with
  | inr _ => None
  | inl (_, hw) => if (0 <? length hw)%nat then Some hw else None
  end.

(** ** [device_darwin.go], [device_netbsd.go] *)

(** The scan: the first of the devices that opens, or the last error. *)
Fixpoint scan_taps (idx : list nat) (err : option goerr) : M ux (option (Z * list Z) * option goerr) :=
  match idx with
  | [] => mret (None, err)
  | i :: idx' =>
      let name := str "tap" ++ itoa (Z.of_nat i) in
      r ← ucall (fun w => unix_Open w (str "/dev/" ++ name));
      match r with
      | inl k => mret (Some (k, name), None)
      | inr e => scan_taps idx' (Some e)
      end
  end.

Definition Create_bsd (os : string) (c : Config) : M ux (Device File) :=
  if negb (bool_decide (c_DevType c = TAP)) then merr (ErrNew (os +:+ ": only TAP devices are supported")) else
  named ←
    (if negb (bool_decide (c_Name c = [])) && bool_decide (filepath_Dir (c_Name c) = [46]) && HasPrefix (c_Name c) (str "tap") then
       r ← ucall (fun w => unix_Open w (path_Join [str "/dev"; c_Name c]));
       mret (match r with inl k => (Some (k, c_Name c), None) | inr e => (None, Some e) end)
     else mret (None, None));
  '(found, err) ← (match named with (Some x, _) => mret named | (None, e) => scan_taps (seq 0 16) e end);
  match found, err with
  | Some (k, devName), None =>
      err ← ucall (fun w => SetNonblock w k);
      match err with
      | Some e => fail_closing k (os +:+ ": failed to set non-blocking mode") e
      | None => mret (file_device k devName c)
      end
  | _, _ => merr (ErrWrap (os +:+ ": could not open any /dev/tap[0-15] device") (default (ErrNew "<nil>") err))
  end.

Definition Create_darwin : Config -> M ux (Device File) := Create_bsd "darwin".
Definition Create_netbsd : Config -> M ux (Device File) := Create_bsd "netbsd".

(** [close_unix.go]: nothing to clean up. *)
Definition closePlatform_unix : M (Interface File * ux) unit := mret tt.

Definition linux : Platform ux File := {|
  GOOS_windows := false; Create := Create_linux; GetIfIndex := GetIfIndex_unix; GetMACAddress := GetMACAddress_linux;
  closePlatform := closePlatform_unix |}.
Definition darwin : Platform ux File := {|
  GOOS_windows := false; Create := Create_darwin; GetIfIndex := GetIfIndex_unix; GetMACAddress := GetMACAddress_bsd;
  closePlatform := closePlatform_unix |}.
Definition netbsd : Platform ux File := {|
  GOOS_windows := false; Create := Create_netbsd; GetIfIndex := GetIfIndex_unix; GetMACAddress := GetMACAddress_bsd;
  closePlatform := closePlatform_unix |}.
End Unix.

(** ** [arp_linux.go] *)
Definition htons (i : Z) : Z := Z.lor (Z.land (u16 (Z.shiftl i 8)) 0xff00) (Z.shiftr i 8).
Definition ETH_P_ARP : Z := 0x0806.

Record SockaddrLinklayer := mkSll { sll_Protocol : Z; sll_Ifindex : Z; sll_Halen : Z; sll_Addr : list Z }.

Class RawSockets `{U : Unix} := {
  raw_Socket : ux -> Z -> ux * (Z + goerr);
  raw_Sendto : ux -> Z -> list Z -> SockaddrLinklayer -> ux * option goerr }.

Section RawFrame.
Context `{RAW : RawSockets}.

(** What is done with the open socket. *)
Definition send_on (k : Z) (frame : list Z) : M (Interface File * ux) unit :=
  '(i, w) ← gets id;
  match InterfaceByName w (iface_Name i) with
  | inr e => merr (ErrWrap "linux: failed to get interface details" e)
  | inl (idx, _) =>
      if (6 <=? length frame)%nat then
        let destMAC := take 6 frame in
        let sll := mkSll (htons ETH_P_ARP) idx (u8 (len destMAC)) (copy_at (replicate 8 0) 0 8 destMAC) in
        err ← usys (fun w => raw_Sendto w k frame sll);
        match err with
        | Some e => merr (ErrWrap "linux: failed to send frame via AF_PACKET" e)
        | None => mret tt
        end
      else merr (ErrNew "linux: frame too short to extract destination MAC")
  end.

(** The socket is closed on every return after it was opened. *)
Definition sendRawFrame_linux (frame : list Z) : M (Interface File * ux) unit :=
  r ← usys (fun w => raw_Socket w (htons ETH_P_ARP));
  match r with
  | inr e => merr (ErrWrap "linux: failed to open raw socket (AF_PACKET)" e)
  | inl k =>
      r ← mtry (send_on k frame);
      usys (fun w => unix_Close w k);;
      match r with inl _ => mret tt | inr e => merr e end
  end.
End RawFrame.

(** ** [link_linux.go] *)
Definition DefaultMTU : Z := 1420.

Class Netlink `{U : Unix} := {
  Link : Type;
  NLAddr : Type;
  LinkByName : ux -> list Z -> Link + goerr;
  LinkSetHardwareAddr : ux -> Link -> list Z -> ux * option goerr;
  nl_ParseAddr : list Z -> NLAddr + goerr;
  AddrAdd : ux -> Link -> NLAddr -> ux * option goerr;
  LinkSetMTU : ux -> Link -> Z -> ux * option goerr;
  LinkSetUp : ux -> Link -> ux * option goerr }.

Section LinuxLink.
Context `{NL : Netlink}.

(** An error is returned unless it is the one that is only logged. *)
Definition check_except {S} (plain : option goerr) (msg : string) (err : option goerr) : M S unit :=
  match err with
  | Some e => if match plain with Some p => errors_is e p | None => false end then mret tt else merr (ErrWrap msg e)
  | None => mret tt
  end.

Definition find_link : M (Interface File * ux) Link :=
  '(i, w) ← gets id;
  match LinkByName w (iface_Name i) with
  | inr e => merr (ErrWrap "failed to find interface" e)
  | inl l => mret l
  end.

Definition set_mac (l : Link) (mac : list Z) : M (Interface File * ux) unit :=
  match ParseMAC mac with
  | None => merr (ErrNew "failed to parse MAC address")
  | Some hw => err ← usys (fun w => LinkSetHardwareAddr w l hw); check_except (Some EOPNOTSUPP) "failed to set MAC address" err
  end.

Definition ConfigureInterface_linux (mac ipCIDR : list Z) (mtu : Z) : M (Interface File * ux) unit :=
  l ← find_link;
  (if bool_decide (mac = []) then mret tt else set_mac l mac);;
  match nl_ParseAddr ipCIDR with
  | inr e => merr (ErrWrap "failed to parse IP address" e)
  | inl addr =>
      err ← usys (fun w => AddrAdd w l addr);
      check_except (Some EEXIST) "failed to add IP address" err;;
      let mtu := if mtu <=? 0 then DefaultMTU else mtu in
      err ← usys (fun w => LinkSetMTU w l mtu);
      check_except None "failed to set MTU" err;;
      err ← usys (fun w => LinkSetUp w l);
      check_except None "failed to bring up interface" err
  end.

Definition IfUp_linux (ipCIDR : list Z) : M (Interface File * ux) unit := ConfigureInterface_linux [] ipCIDR DefaultMTU.

Definition IfMac_linux (mac : list Z) : M (Interface File * ux) unit := l ← find_link; set_mac l mac.
End LinuxLink.

(** ** [link_darwin.go], [link_netbsd.go] *)
Class Commands `{U : Unix} := CombinedOutput : ux -> list (list Z) -> ux * (list Z * option goerr).

Section BSDLink.
Context `{CMD : Commands}.

Definition runCommand (argv : list (list Z)) : M (Interface File * ux) unit :=
  '(_, err) ← usys (fun w => CombinedOutput w argv);
  match err with Some e => merr (ErrWrap "command failed" e) | None => mret tt end.

(** The keywords the two systems' [ifconfig] takes for a hardware address and
    for an address. *)
Record Dialect := mkDialect {
  os_name : string; mac_keyword : list Z; addr_args : list Z -> list Z -> list (list Z) }.
Definition darwin_dialect : Dialect := mkDialect "darwin" (str "ether") (fun ip mask => [ip; str "netmask"; mask; str "alias"]).
Definition netbsd_dialect : Dialect := mkDialect "netbsd" (str "link") (fun ip mask => [str "inet"; ip; str "netmask"; mask]).

Definition ifconfig_mac (x : Dialect) (ifName mac : list Z) : M (Interface File * ux) unit :=
  match ParseMAC mac with
  | None => merr (ErrNew "failed to parse MAC address")
  | Some hw => mignore (runCommand [str "ifconfig"; ifName; mac_keyword x; HardwareAddr_String hw])
  end.

Definition ConfigureInterface_bsd (x : Dialect) (mac ipCIDR : list Z) (mtu : Z) : M (Interface File * ux) unit :=
  '(i, _) ← gets id;
  match Iface i with
  | None => merr (ErrNew "underlying device is nil")
  | Some _ =>
      let ifName := iface_Name i in
      (if bool_decide (mac = []) then mret tt else ifconfig_mac x ifName mac);;
      match ParseCIDR ipCIDR with
      | None => merr (ErrNew "failed to parse IP CIDR")
      | Some (ip, (_, netmask)) =>
          if bool_decide (To4 ip = []) then merr (ErrNew (os_name x +:+ ": ConfigureInterface currently only supports IPv4 addresses")) else
          m ← mlift (slice netmask 0 4);
          let mtu := if mtu <=? 0 then DefaultMTU else mtu in
          let run msg args := (r ← mtry (runCommand (str "ifconfig" :: ifName :: args));
                               match r with inl _ => mret tt | inr e => merr (ErrWrap msg e) end) in
          run "failed to add IP address" (addr_args x (IP_String ip) (strings_Join (itoa <$> m) [46]));;
          run "failed to set MTU" [str "mtu"; itoa mtu];;
          run "failed to bring up interface" [str "up"]
      end
  end.

Definition ConfigureInterface_darwin := ConfigureInterface_bsd darwin_dialect.
Definition ConfigureInterface_netbsd := ConfigureInterface_bsd netbsd_dialect.
Definition IfUp_bsd (x : Dialect) (ipCIDR : list Z) : M (Interface File * ux) unit := ConfigureInterface_bsd x [] ipCIDR DefaultMTU.

Definition IfMac_bsd (x : Dialect) (mac : list Z) : M (Interface File * ux) unit :=
  '(i, _) ← gets id;
  match Iface i with
  | None => merr (ErrNew "underlying device is nil")
  | Some _ => ifconfig_mac x (iface_Name i) mac
  end.
End BSDLink.

(** ** Descriptors *)

(** What opening and closing do to the descriptors of the process. *)
Class FdLaws `{U : Unix} := {
  open_fds : ux -> gset Z;
  open_ok : forall w p w' k, unix_Open w p = (w', inl k) -> k ∉ open_fds w /\ open_fds w' = {[k]} ∪ open_fds w;
  open_err : forall w p w' e, unix_Open w p = (w', inr e) -> open_fds w' = open_fds w;
  close_fds : forall w k, open_fds (unix_Close w k).1 = open_fds w ∖ {[k]};
  nonblock_fds : forall w k, open_fds (SetNonblock w k).1 = open_fds w;
  ioctl_fds : forall w k n f, open_fds (IoctlTUNSETIFF w k n f).1 = open_fds w;
  read_fds : forall w k n, open_fds (fd_read w k n).1 = open_fds w;
  write_fds : forall w k b, open_fds (fd_write w k b).1 = open_fds w;
  deadline_fds : forall w k r t, open_fds (fd_deadline w k r t).1 = open_fds w }.

Class RawLaws `{FL : FdLaws} `{RAW : !RawSockets} := {
  socket_ok : forall w p w' k, raw_Socket w p = (w', inl k) -> k ∉ open_fds w /\ open_fds w' = {[k]} ∪ open_fds w;
  socket_err : forall w p w' e, raw_Socket w p = (w', inr e) -> open_fds w' = open_fds w;
  sendto_fds : forall w k b a, open_fds (raw_Sendto w k b a).1 = open_fds w }.

Section Descriptors.
Context `{FL : FdLaws}.

(** What a creation leaves open: the device's descriptor when it succeeds,
    nothing when it fails. *)
Definition opens_one (c : Config) (w : ux) (r : outcome (Device File) * ux) : Prop :=
  match r with
  | (Ok d, w') => exists k, k ∉ open_fds w /\ devIo d = Some (mkFile k true) /\ d_DevType d = TAP /\ d_Config d = c /\
      open_fds w' = {[k]} ∪ open_fds w
  | (Err _, w') => open_fds w' = open_fds w
  | (Panic, _) => False
  end.

Lemma ucall_eq {A} (f : ux -> ux * A) w w' a : f w = (w', a) -> ucall f w = (Ok a, w').
Proof. intros E. unfold ucall. by rewrite E. Qed.

Lemma fail_closing_ok {A} B k msg e w : k ∉ B -> open_fds w = {[k]} ∪ B ->
  exists w', fail_closing (A := A) k msg e w = (Err (ErrWrap msg e), w') /\ open_fds w' = B.
Proof.
  intros Hk Hw. unfold fail_closing. destruct (unix_Close w k) as [w' r] eqn:E.
  rewrite (bind_ok _ _ _ _ _ (ucall_eq _ _ _ _ E)). eexists. split; [done|].
  pose proof (close_fds w k) as C. rewrite E in C. cbn in C. rewrite C, Hw. set_solver.
Qed.

Ltac failing Hk Hw := match goal with
  |- context [fail_closing ?k ?m ?e ?w] => destruct (fail_closing_ok (A := Device File) _ k m e w Hk Hw) as (? & -> & ?); done end.

Lemma Create_linux_opens c w : opens_one c w (Create_linux c w).
Proof.
  unfold Create_linux. case_bool_decide as Ht; [|done]. cbn [negb].
  destruct (unix_Open w (str "/dev/net/tun")) as [w1 [k|e]] eqn:E; rewrite (bind_ok _ _ _ _ _ (ucall_eq _ _ _ _ E));
    [|exact (open_err _ _ _ _ E)].
  destruct (open_ok _ _ _ _ E) as [Hk H1].
  destruct (NewIfreq (c_Name c)); [failing Hk H1|].
  destruct (IoctlTUNSETIFF w1 k (c_Name c) (u16 (Z.lor IFF_TAP IFF_NO_PI))) as [w2 r2] eqn:E2.
  pose proof (ioctl_fds w1 k (c_Name c) (u16 (Z.lor IFF_TAP IFF_NO_PI))) as H2. rewrite E2 in H2. cbn in H2. rewrite H1 in H2.
  rewrite (bind_ok _ _ _ _ _ (ucall_eq _ _ _ _ E2)). destruct r2 as [name|e]; [|failing Hk H2].
  destruct (SetNonblock w2 k) as [w3 r3] eqn:E3. pose proof (nonblock_fds w2 k) as H3. rewrite E3 in H3. cbn in H3. rewrite H2 in H3.
  rewrite (bind_ok _ _ _ _ _ (ucall_eq _ _ _ _ E3)). destruct r3 as [e|]; [failing Hk H3|]. by exists k.
Qed.

(** The scan keeps at most one descriptor, and no error with it. *)
Lemma scan_opens l : forall err w,
  match scan_taps l err w with
  | (Ok (Some (k, _), None), w') => k ∉ open_fds w /\ open_fds w' = {[k]} ∪ open_fds w
  | (Ok (None, _), w') => open_fds w' = open_fds w
  | _ => False
  end.
Proof.
  induction l as [|i l IH]; intros err w; [done|]. cbn [scan_taps].
  destruct (unix_Open w (str "/dev/" ++ str "tap" ++ itoa (Z.of_nat i))) as [w1 [k|e]] eqn:E;
    rewrite (bind_ok _ _ _ _ _ (ucall_eq _ _ _ _ E)).
  - exact (open_ok _ _ _ _ E).
  - specialize (IH (Some e) w1). apply open_err in E. by rewrite E in IH.
Qed.

Lemma Create_bsd_opens os c w : opens_one c w (Create_bsd os c w).
Proof.
  unfold Create_bsd. case_bool_decide as Ht; [|done]. cbn [negb].
  match goal with |- context [mbind ?k (if ?b then ?m else ?m')] => set (rest := k); set (first := if b then m else m') end.
  assert (match first w with
          | (Ok (Some (k, _), None), w') => k ∉ open_fds w /\ open_fds w' = {[k]} ∪ open_fds w
          | (Ok (None, _), w') => open_fds w' = open_fds w
          | _ => False
          end) as Hfirst.
  { unfold first. destruct (_ && _ && _); [|done].
    destruct (unix_Open w (path_Join [str "/dev"; c_Name c])) as [w1 [k|e]] eqn:E; rewrite (bind_ok _ _ _ _ _ (ucall_eq _ _ _ _ E));
      [exact (open_ok _ _ _ _ E)|exact (open_err _ _ _ _ E)]. }
  assert (forall k name w1, k ∉ open_fds w -> open_fds w1 = {[k]} ∪ open_fds w -> opens_one c w
    ((err ← ucall (fun w => SetNonblock w k);
      match err with
      | Some e => fail_closing k (os +:+ ": failed to set non-blocking mode") e
      | None => mret (file_device k name c)
      end) w1)) as Hlast.
  { intros k name w1 Hk H1. destruct (SetNonblock w1 k) as [w2 r2] eqn:E2. pose proof (nonblock_fds w1 k) as H2.
    rewrite E2 in H2. cbn in H2. rewrite H1 in H2.
    rewrite (bind_ok _ _ _ _ _ (ucall_eq _ _ _ _ E2)). destruct r2 as [e|]; [failing Hk H2|]. by exists k. }
  destruct (first w) as [[named|e|] w1] eqn:E; [|done|done]. rewrite (bind_ok _ _ _ _ _ E).
  destruct named as [[[k name]|] err]; unfold rest.
  - destruct err; [done|]. apply Hlast; apply Hfirst.
  - pose proof (scan_opens (seq 0 16) err w1) as Hs. destruct (scan_taps (seq 0 16) err w1) as [[[[[k name]|] err']|e|] w2] eqn:Es; [| |done|done];
      rewrite (bind_ok _ _ _ _ _ Es); rewrite Hfirst in Hs.
    + destruct err'; [done|]. apply Hlast; apply Hs.
    + exact Hs.
Qed.
End Descriptors.

(** ** The life of an interface *)
Section Life.
Context `{RL : RawLaws}.

(** The operations of an interface on a Unix platform. *)
Inductive unix_op (P : Platform ux File) : Interface File * ux -> Interface File * ux -> Prop :=
  | op_read n s : unix_op P s (iface_Read n s).2
  | op_write b s : unix_op P s (iface_Write b s).2
  | op_read_deadline t s : unix_op P s (iface_SetReadDeadline t s).2
  | op_write_deadline t s : unix_op P s (iface_SetWriteDeadline t s).2
  | op_deadline t s : unix_op P s (iface_SetDeadline t s).2
  | op_announce_linux vip s : unix_op P s (iface_SendGratuitousARP sendRawFrame_linux vip s).2
  | op_announce_bsd os vip s : unix_op P s (iface_SendGratuitousARP (sendRawFrame_bsd os) vip s).2
  | op_close s : unix_op P s (iface_Close s).2.

(** The interface holds descriptor [k] until it is closed, and nothing else. *)
Definition holds (k : Z) (B : gset Z) (s : Interface File * ux) : Prop :=
  match Iface s.1 with
  | Some d => devIo d = Some (mkFile k true) /\ open_fds s.2 = {[k]} ∪ B
  | None => open_fds s.2 = B
  end.

(** The same of the device and of its file. *)
Definition dev_holds (k : Z) (X : gset Z) (s : Device File * ux) : Prop := devIo s.1 = Some (mkFile k true) /\ open_fds s.2 = X.
Definition file_holds (k : Z) (X : gset Z) (s : File * ux) : Prop := s.1 = mkFile k true /\ open_fds s.2 = X.

Lemma usys_fds {S A} (I : S -> Prop) X (f : ux -> ux * A) : (forall w, open_fds (f w).1 = open_fds w) ->
  preserves (fun s : S * ux => I s.1 /\ open_fds s.2 = X) (usys f).
Proof. intros H [s w] [H1 H2]. unfold usys. specialize (H w). destruct (f w); cbn in *. by rewrite H. Qed.

Lemma usys_file {A} k X (f : ux -> ux * A) : (forall w, open_fds (f w).1 = open_fds w) -> preserves (file_holds k X) (usys f).
Proof. intros H. exact (usys_fds (fun x => x = mkFile k true) X f H). Qed.

Lemma on_file_holds {A} k X (c : outcome A) m : (forall j, preserves (file_holds k X) (m j)) -> preserves (file_holds k X) (on_file c m).
Proof. intros H. unfold on_file. preserve. Qed.

Lemma with_io_holds {A} k X (none : outcome A) m : preserves (file_holds k X) m -> preserves (dev_holds k X) (with_io none m).
Proof.
  intros H [d w] [Hd Hw]. cbn in Hd, Hw. unfold with_io. rewrite Hd. specialize (H (mkFile k true, w)).
  destruct (m (mkFile k true, w)) as [r [x w']]. cbn in H. destruct H as [Hx Hw']; [done|]. cbn in Hx, Hw'. by subst.
Qed.

Lemma on_device_holds {A} k B (none : outcome A) m : preserves (dev_holds k ({[k]} ∪ B)) m -> preserves (holds k B) (on_device none m).
Proof.
  intros H [i w] Hi. unfold holds in Hi. cbn in Hi. unfold on_device. destruct (Iface i) as [d|] eqn:E.
  - specialize (H (d, w) Hi). by destruct (m (d, w)) as [r [d' w']].
  - unfold holds. cbn. by rewrite E.
Qed.

Ltac plain_file := unfold io_Read, io_Write, io_SetReadDeadline, io_SetWriteDeadline, file_io, file_Read, file_Write, file_SetDeadline;
  apply on_file_holds; intros; preserve; apply usys_file; intros;
  (apply read_fds || apply write_fds || apply deadline_fds).

Lemma device_Write_holds k X b : preserves (dev_holds k X) (device_Write b).
Proof. apply with_io_holds. plain_file. Qed.

Lemma set_deadline_holds k X r t : preserves (file_holds k X) (file_SetDeadline r t).
Proof. plain_file. Qed.

Lemma iface_Write_holds (P : Platform ux File) k B b : preserves (holds k B) (iface_Write b).
Proof.
  unfold iface_Write. apply preserves_bind; [preserve|]. intros [i w]. destruct (Iface i) as [d|]; [|preserve].
  cbv zeta. apply preserves_bind; [|intros [[x n] e]; preserve]. apply on_device_holds. apply device_Write_holds.
Qed.

Lemma holds_closed k B i w : Iface i = None -> open_fds w = B -> holds k B (i, w).
Proof. intros Hi Hw. unfold holds. cbn. by rewrite Hi. Qed.

Lemma iface_Close_closes (P : Platform ux File) k B s : closePlatform = closePlatform_unix -> k ∉ B -> holds k B s ->
  Iface (iface_Close s).2.1 = None /\ open_fds (iface_Close s).2.2 = B.
Proof.
  intros HP Hk Hs. destruct s as [i w]. unfold holds in Hs. cbn in Hs. unfold iface_Close. rewrite gets_bind. unfold id. rewrite HP.
  destruct (Iface i) as [d|] eqn:Ei; [|by cbn; rewrite Ei]. destruct Hs as [Hd Hw].
  unfold closePlatform_unix, device_Close, with_io, on_device, io_Close, file_io, file_Close, on_file, usys.
  unfold mtry, mbind, M_bind, mret, M_ret, gets, modify, merr, id. rewrite Ei. cbn. repeat (rewrite Hd; cbn).
  pose proof (close_fds w k) as C. destruct (unix_Close w k) as [w' [e|]]; cbn in *; (split; [done|]); rewrite C, Hw; set_solver.
Qed.

Lemma send_on_fds j frame i w : exists r w', mtry (send_on j frame) (i, w) = (Ok r, (i, w')) /\ open_fds w' = open_fds w.
Proof.
  unfold send_on, mtry. rewrite gets_bind. unfold id. destruct (InterfaceByName w (iface_Name i)) as [[idx hw]|e]; [|by eexists _, _].
  destruct (6 <=? length frame)%nat; [|by eexists _, _]. cbv zeta. unfold mbind, M_bind, usys.
  match goal with |- context [raw_Sendto w j frame ?a] => pose proof (sendto_fds w j frame a) as H; destruct (raw_Sendto w j frame a) as [w' [e|]] end;
    by eexists _, _.
Qed.

Lemma send_linux_holds k B frame : preserves (holds k B) (sendRawFrame_linux frame).
Proof.
  intros [i w] Hs. unfold sendRawFrame_linux. destruct (raw_Socket w (htons ETH_P_ARP)) as [w1 r] eqn:E.
  assert (usys (S := Interface File) (fun w => raw_Socket w (htons ETH_P_ARP)) (i, w) = (Ok r, (i, w1))) as E1 by (unfold usys; by rewrite E).
  rewrite (bind_ok _ _ _ _ _ E1). destruct r as [j|e].
  - destruct (socket_ok _ _ _ _ E) as [Hj H1]. destruct (send_on_fds j frame i w1) as (r & w2 & E2 & H2). rewrite (bind_ok _ _ _ _ _ E2).
    assert (holds k B (i, (unix_Close w2 j).1)) as H4.
    { unfold holds in Hs |- *. cbn in Hs |- *. replace (open_fds (unix_Close w2 j).1) with (open_fds w); [done|].
      rewrite close_fds, H2, H1. set_solver. }
    unfold mbind, M_bind, usys. destruct (unix_Close w2 j), r; exact H4.
  - apply socket_err in E as H1. unfold holds in Hs |- *. cbn in Hs |- *. by rewrite H1.
Qed.

Lemma announce_holds (P : Platform ux File) k B send vip : (forall f, preserves (holds k B) (send f)) ->
  preserves (holds k B) (iface_SendGratuitousARP send vip).
Proof. intros H. unfold iface_SendGratuitousARP. apply preserves_bind; [preserve|]. intros [i w]. preserve. Qed.

Lemma send_bsd_holds (P : Platform ux File) k B os frame : preserves (holds k B) (sendRawFrame_bsd os frame).
Proof.
  unfold sendRawFrame_bsd, sendRawFrame_write. apply preserves_bind; [preserve|]. intros [i w].
  destruct (Iface i ≫= devIo); [|preserve]. apply preserves_bind; [apply iface_Write_holds|]. intros [x [n e]]. preserve.
Qed.

Lemma unix_op_holds (P : Platform ux File) k B s s' : closePlatform = closePlatform_unix -> k ∉ B ->
  holds k B s -> unix_op P s s' -> holds k B s'.
Proof.
  intros HP Hk Hs Hop. destruct Hop as [n s|b s|t s|t s|t s|vip s|os vip s|s].
  - refine (on_device_holds _ _ _ _ _ s Hs). apply with_io_holds. plain_file.
  - by apply iface_Write_holds.
  - refine (on_device_holds _ _ _ _ _ s Hs). apply with_io_holds, set_deadline_holds.
  - refine (on_device_holds _ _ _ _ _ s Hs). apply with_io_holds, set_deadline_holds.
  - refine (on_device_holds _ _ _ _ _ s Hs). unfold device_SetDeadline, device_SetReadDeadline, device_SetWriteDeadline. preserve;
      apply with_io_holds, set_deadline_holds.
  - apply announce_holds; [apply send_linux_holds|done].
  - apply announce_holds; [apply send_bsd_holds|done].
  - destruct (iface_Close_closes P k B s HP Hk Hs) as [H1 H2]. destruct (iface_Close s).2 as [i w]. by apply holds_closed.
Qed.

Lemma unix_ops_hold (P : Platform ux File) k B s s' : closePlatform = closePlatform_unix -> k ∉ B ->
  holds k B s -> rtc (unix_op P) s s' -> holds k B s'.
Proof. intros HP Hk Hs H. induction H; [done|]. apply IHrtc. by eapply unix_op_holds. Qed.

Lemma platform_unix (P : Platform ux File) : P ∈ [linux; darwin; netbsd] ->
  closePlatform = closePlatform_unix /\ forall c w, opens_one c w (Create c w).
Proof.
  intros HP. rewrite !elem_of_cons, elem_of_nil in HP. destruct HP as [->|[->|[->|[]]]]; (split; [done|]); intros c w.
  - apply Create_linux_opens.
  - apply Create_bsd_opens.
  - apply Create_bsd_opens.
Qed.
End Life.

(** C32. An interface owns exactly one descriptor, for as long as it is open: a
    failed [NewInterface] leaves the descriptors of the process as they were,
    on every error path of the three Unix platforms; after a successful one any
    sequence of reads, writes, deadlines, announcements (with the raw socket of
    Linux or through the device) and closes leaves either the interface open
    with its one new descriptor or closed with none; and [Close] at any point
    ends closed, with the descriptors the process had before. *)
Theorem interface_lifecycle `{RL : RawLaws} (P : Platform ux File) c w0 : P ∈ [linux; darwin; netbsd] ->
  match NewInterface c w0 with
  | (Ok i, w1) => exists k, k ∉ open_fds w0 /\ forall s, rtc (unix_op P) (i, w1) s ->
      match Iface s.1 with
      | Some d => devIo d = Some (mkFile k true) /\ open_fds s.2 = {[k]} ∪ open_fds w0
      | None => open_fds s.2 = open_fds w0
      end /\
      Iface (iface_Close s).2.1 = None /\ open_fds (iface_Close s).2.2 = open_fds w0
  | (Err _, w1) => open_fds w1 = open_fds w0
  | (Panic, _) => False
  end.
Proof.
  intros HP. destruct (platform_unix P HP) as [Hc Ho]. unfold NewInterface. destruct (negb _); [done|].
  specialize (Ho c w0). unfold mbind, M_bind, mtry. destruct (Create c w0) as [[d|e|] w1]; cbn in Ho |- *; [|done|done].
  destruct Ho as (k & Hk & Hd & _ & _ & Hw). exists k. split; [done|]. intros s Hs.
  apply (unix_ops_hold P k (open_fds w0)) in Hs; [|done|done|by split].
  split; [exact Hs|]. by apply (iface_Close_closes P k).
Qed.

(** ** Configuration on Linux *)

(** What the kernel keeps of a link, and what the netlink requests change. *)
Record LinkView (A : Type) := mkView { v_mac : list Z; v_addrs : list A; v_mtu : Z; v_up : bool }.
Arguments mkView {A} _ _ _ _.
Arguments v_mac {A} _.
Arguments v_addrs {A} _.
Arguments v_mtu {A} _.
Arguments v_up {A} _.

Class LinkLaws `{NL : Netlink} := {
  view : ux -> Link -> LinkView NLAddr;
  hw_view : forall w l hw w' r, LinkSetHardwareAddr w l hw = (w', r) ->
    view w' l = match r with None => mkView hw (v_addrs (view w l)) (v_mtu (view w l)) (v_up (view w l)) | Some _ => view w l end;
  add_view : forall w l a w' r, AddrAdd w l a = (w', r) ->
    view w' l = match r with None => mkView (v_mac (view w l)) (a :: v_addrs (view w l)) (v_mtu (view w l)) (v_up (view w l)) | Some _ => view w l end;
  (** EEXIST says the address is there. *)
  add_exists : forall w l a w' e, AddrAdd w l a = (w', Some e) -> errors_is e EEXIST = true -> a ∈ v_addrs (view w l);
  mtu_view : forall w l m w' r, LinkSetMTU w l m = (w', r) ->
    view w' l = match r with None => mkView (v_mac (view w l)) (v_addrs (view w l)) m (v_up (view w l)) | Some _ => view w l end;
  up_view : forall w l w' r, LinkSetUp w l = (w', r) ->
    view w' l = match r with None => mkView (v_mac (view w l)) (v_addrs (view w l)) (v_mtu (view w l)) true | Some _ => view w l end }.

Section LinuxConfigure.
Context `{LL : LinkLaws}.

(** A step that keeps the addresses and whether the link is up. *)
Definition keeps (l : Link) (w w' : ux) : Prop :=
  v_addrs (view w l) ⊆ v_addrs (view w' l) /\ v_up (view w' l) = v_up (view w l).

Lemma usys_run {S A} (f : ux -> ux * A) (s : S) w w' a : f w = (w', a) -> usys f (s, w) = (Ok a, (s, w')).
Proof. intros E. unfold usys. by rewrite E. Qed.

Lemma find_link_eq i w : find_link (i, w) =
  (match LinkByName w (iface_Name i) with inl l => Ok l | inr e => Err (ErrWrap "failed to find interface" e) end, (i, w)).
Proof. unfold find_link. rewrite gets_bind. unfold id. by destruct (LinkByName w (iface_Name i)). Qed.

Lemma set_mac_view l mac (i : Interface File) w : exists r w', set_mac l mac (i, w) = (r, (i, w')) /\ keeps l w w' /\
  match r with
  | Ok _ => exists hw, ParseMAC mac = Some hw /\ (v_mac (view w' l) = hw \/ v_mac (view w' l) = v_mac (view w l))
  | Err _ => True
  | Panic => False
  end.
Proof.
  unfold set_mac. destruct (ParseMAC mac) as [hw|]; [|by eexists _, _].
  destruct (LinkSetHardwareAddr w l hw) as [w' r] eqn:E. rewrite (bind_ok _ _ _ _ _ (usys_run _ _ _ _ _ E)).
  apply hw_view in E. assert (keeps l w w') by (unfold keeps; destruct r; by rewrite E).
  destruct r as [e|]; cbn [check_except].
  - destruct (errors_is e EOPNOTSUPP); eexists _, _; (split; [done|]); (split; [done|]); [|done]. exists hw. rewrite E. by auto.
  - eexists _, _. split; [done|]. split; [done|]. exists hw. rewrite E. by auto.
Qed.

Lemma keeps_trans l w1 w2 w3 : keeps l w1 w2 -> keeps l w2 w3 -> keeps l w1 w3.
Proof. intros [A1 B1] [A2 B2]. split; [by etrans|congruence]. Qed.

(** The configured link. *)
Definition configured (l : Link) (a : NLAddr) (mtu : Z) (w w' : ux) : Prop :=
  v_up (view w' l) = true /\ v_mtu (view w' l) = (if mtu <=? 0 then DefaultMTU else mtu) /\
  a ∈ v_addrs (view w' l) /\ v_addrs (view w l) ⊆ v_addrs (view w' l).

(** From the address on. *)
Lemma configure_rest l a mtu (i : Interface File) w : exists r w',
  (err ← usys (fun w => AddrAdd w l a);
   check_except (Some EEXIST) "failed to add IP address" err;;
   let mtu := if mtu <=? 0 then DefaultMTU else mtu in
   err ← usys (fun w => LinkSetMTU w l mtu);
   check_except None "failed to set MTU" err;;
   err ← usys (fun w => LinkSetUp w l);
   check_except None "failed to bring up interface" err) (i, w) = (r, (i, w')) /\
  match r with
  | Ok _ => configured l a mtu w w' /\ v_mac (view w' l) = v_mac (view w l)
  | Err _ => keeps l w w'
  | Panic => False
  end.
Proof.
  destruct (AddrAdd w l a) as [w1 r1] eqn:E1. rewrite (bind_ok _ _ _ _ _ (usys_run _ _ _ _ _ E1)).
  apply add_view in E1 as V1. cbv zeta. set (m := if mtu <=? 0 then DefaultMTU else mtu).
  assert (keeps l w w1) as K1 by (unfold keeps; destruct r1; rewrite V1; cbn; set_solver).
  assert (check_except (Some EEXIST) "failed to add IP address" r1 (i, w1) = (Ok tt, (i, w1)) /\ a ∈ v_addrs (view w1 l) /\ v_mac (view w1 l) = v_mac (view w l)
    \/ exists e, check_except (Some EEXIST) "failed to add IP address" r1 (i, w1) = (Err e, (i, w1))) as [(C1 & A1 & M1)|[e C1]].
  { destruct r1 as [e|]; cbn [check_except]; [|left; rewrite V1; cbn; set_solver].
    destruct (errors_is e EEXIST) eqn:Ee; [|by right; eexists]. left. rewrite V1. split_and!; try done. by eapply add_exists. }
  2: { rewrite (bind_err _ _ _ _ _ C1). by eexists _, _. }
  rewrite (bind_ok _ _ _ _ _ C1). destruct (LinkSetMTU w1 l m) as [w2 r2] eqn:E2. rewrite (bind_ok _ _ _ _ _ (usys_run _ _ _ _ _ E2)).
  apply mtu_view in E2. destruct r2 as [e|]; cbn [check_except].
  { eexists _, _. split; [done|]. unfold keeps in K1 |- *. by rewrite E2. }
  rewrite (bind_ok (mret tt) _ (i, w2) tt (i, w2) eq_refl). destruct (LinkSetUp w2 l) as [w3 r3] eqn:E3. rewrite (bind_ok _ _ _ _ _ (usys_run _ _ _ _ _ E3)).
  apply up_view in E3. destruct K1 as [K1 K2]. destruct r3 as [e|]; cbn [check_except]; eexists _, _; (split; [done|]).
  - unfold keeps. by rewrite E3, E2.
  - unfold configured. rewrite E3, E2. by split_and!.
Qed.
End LinuxConfigure.

(** [ConfigureInterface] on Linux: a success has found the link and parsed the
    address, and leaves the link up, with the given MTU (1420 for one that is
    not positive), the address added to those it had, and its hardware address
    the given one or, where the kernel does not support that, unchanged.  A
    failure at any step never brings the link up and removes no address. *)
Theorem linux_configure `{LL : LinkLaws} mac ipCIDR mtu (i : Interface File) w :
  match ConfigureInterface_linux mac ipCIDR mtu (i, w) with
  | (Ok _, (i', w')) => i' = i /\ exists l a, LinkByName w (iface_Name i) = inl l /\ nl_ParseAddr ipCIDR = inl a /\
      configured l a mtu w w' /\
      (v_mac (view w' l) = v_mac (view w l) \/ ParseMAC mac = Some (v_mac (view w' l)))
  | (Err _, (i', w')) => i' = i /\ forall l, LinkByName w (iface_Name i) = inl l -> keeps l w w'
  | (Panic, _) => False
  end.
Proof.
  unfold ConfigureInterface_linux. pose proof (find_link_eq i w) as Ef. destruct (LinkByName w (iface_Name i)) as [l|e] eqn:El;
    [|by rewrite (bind_err _ _ _ _ _ Ef)].
  rewrite (bind_ok _ _ _ _ _ Ef). set (m := if bool_decide (mac = []) then _ else _).
  assert (exists r w1, m (i, w) = (r, (i, w1)) /\ keeps l w w1 /\ r <> Panic /\
    forall x, r = Ok x -> v_mac (view w1 l) = v_mac (view w l) \/ ParseMAC mac = Some (v_mac (view w1 l))) as (r & w1 & E1 & K1 & P1 & M1).
  { unfold m. destruct (bool_decide (mac = [])); [eexists _, _; split_and!; [done|done|done|by auto]|].
    destruct (set_mac_view l mac i w) as (r & w1 & E & K & H). exists r, w1. split_and!; [done|done|by intros ->|].
    intros x ->. destruct H as (hw & Hp & [Hm|Hm]); [right; by rewrite Hp, Hm|by left]. }
  destruct r as [u|e|]; [|by rewrite (bind_err _ _ _ _ _ E1); split; [|intros ? [= <-]]|done].
  rewrite (bind_ok _ _ _ _ _ E1). destruct (nl_ParseAddr ipCIDR) as [a|e] eqn:Ea; [|split; [done|]; by intros ? [= <-]].
  destruct (configure_rest l a mtu i w1) as (r & w2 & E2 & H). cbv zeta in E2. rewrite E2. destruct r as [[]|e|]; [|split; [done|]; intros ? [= <-]; by eapply keeps_trans|done].
  split; [done|]. exists l, a. destruct H as [(H1 & H2 & H3 & H4) Hm]. split_and!; [done|done|unfold configured; split_and!; try done|by rewrite Hm; eapply M1].
  etrans; [apply K1|done].
Qed.

(** ** Configuration on macOS and NetBSD *)
Class ExecLaws `{CMD : Commands} := {
  executed : ux -> list (list (list Z));
  exec_log : forall w argv, executed (CombinedOutput w argv).1 = executed w ++ [argv] }.

(** The commands of a configuration, in order. *)
Definition plan (x : Dialect) (name : list Z) (hw : option (list Z)) (ip mask : list Z) (mtu : Z) : list (list (list Z)) :=
  (fun args => str "ifconfig" :: name :: args) <$>
    match hw with Some m => [[mac_keyword x; HardwareAddr_String m]] | None => [] end ++
    [addr_args x ip mask; [str "mtu"; itoa mtu]; [str "up"]].

Section BSDConfigure.
Context `{EL : ExecLaws}.

Lemma runCommand_eq argv (i : Interface File) w : exists w' r, runCommand argv (i, w) = (r, (i, w')) /\ executed w' = executed w ++ [argv] /\ r <> Panic.
Proof.
  unfold runCommand, mbind, M_bind, usys. pose proof (exec_log w argv) as H. destruct (CombinedOutput w argv) as [w' [out [e|]]]; by eexists _, _.
Qed.

(** A command whose failure ends the configuration. *)
Lemma run_eq {B} msg argv (k : unit -> M (Interface File * ux) B) i w : exists w', executed w' = executed w ++ [argv] /\
  (((r ← mtry (runCommand argv); match r with inl _ => mret tt | inr e => merr (ErrWrap msg e) end) ≫= k) (i, w) = k tt (i, w') \/
   exists e, ((r ← mtry (runCommand argv); match r with inl _ => mret tt | inr e => merr (ErrWrap msg e) end) ≫= k) (i, w) = (Err e, (i, w'))).
Proof.
  destruct (runCommand_eq argv i w) as (w' & r & E & H & P). exists w'. split; [done|]. unfold mbind, M_bind, mtry. rewrite E.
  destruct r as [[]|e|]; [by left|right; by eexists|done].
Qed.

Lemma ifconfig_mac_eq x name mac hw (i : Interface File) w : ParseMAC mac = Some hw -> exists w',
  ifconfig_mac x name mac (i, w) = (Ok tt, (i, w')) /\ executed w' = executed w ++ [[str "ifconfig"; name; mac_keyword x; HardwareAddr_String hw]].
Proof.
  intros Hm. unfold ifconfig_mac. rewrite Hm. destruct (runCommand_eq [str "ifconfig"; name; mac_keyword x; HardwareAddr_String hw] i w) as (w' & r & E & H & P).
  exists w'. split; [|done]. unfold mignore, mbind, M_bind, mtry. rewrite E. by destruct r.
Qed.

(** The three commands every configuration runs. *)
Lemma addr_commands x (i : Interface File) name ip mask mtu w :
  let run msg args := (r ← mtry (runCommand (str "ifconfig" :: name :: args));
                       match r with inl _ => mret tt | inr e => merr (ErrWrap msg e) end) in
  exists w' ran, executed w' = executed w ++ ran /\
    match (run "failed to add IP address" (addr_args x ip mask);; run "failed to set MTU" [str "mtu"; itoa mtu];;
           run "failed to bring up interface" [str "up"]) (i, w) with
    | (Ok _, s) => s = (i, w') /\ ran = plan x name None ip mask mtu
    | (Err _, s) => s = (i, w') /\ ran <> [] /\ ran `prefix_of` plan x name None ip mask mtu
    | (Panic, _) => False
    end.
Proof.
  intros run. unfold run.
  match goal with |- context [(?m ≫= ?k) (i, w)] => destruct (run_eq "failed to add IP address" (str "ifconfig" :: name :: addr_args x ip mask) k i w)
    as (w1 & H1 & [->|[e ->]]) end.
  2: { eexists w1, _. split; [exact H1|]. split_and!; [done|done|]. by eexists. }
  match goal with |- context [(?m ≫= ?k) (i, w1)] => destruct (run_eq "failed to set MTU" (str "ifconfig" :: name :: [str "mtu"; itoa mtu]) k i w1)
    as (w2 & H2 & [->|[e ->]]) end; rewrite H1 in H2.
  2: { eexists w2, _. split; [by rewrite H2, <- app_assoc|]. split_and!; [done|done|]. by eexists. }
  destruct (runCommand_eq (str "ifconfig" :: name :: [str "up"]) i w2) as (w3 & r & E & H & P). rewrite H2 in H.
  unfold mbind, M_bind, mtry. rewrite E. eexists w3, _. split; [rewrite H, <- !app_assoc; done|]. destruct r as [[]|e|]; [done| |done].
  split_and!; [done|done|]. by eexists [].
Qed.
End BSDConfigure.

(** [ConfigureInterface] on macOS and NetBSD, for an IPv4 CIDR and a hardware
    address that is empty or parses: the commands run are a prefix of the plan
    (hardware address, address with its dotted netmask, MTU, up), each at most
    once and in this order; a success has run them all; a failure stops at the
    command that failed, which is not the one for the hardware address. *)
Theorem bsd_configure `{EL : ExecLaws} x mac ipCIDR mtu (i : Interface File) d w hw ip n mask :
  Iface i = Some d -> ParseCIDR ipCIDR = Some (ip, (n, mask)) -> To4 ip <> [] -> length mask = 4%nat ->
  match hw with Some m => mac <> [] /\ ParseMAC mac = Some m | None => mac = [] end ->
  let cmds := plan x (d_Name d) hw (IP_String ip) (strings_Join (itoa <$> mask) [46]) (if mtu <=? 0 then DefaultMTU else mtu) in
  match ConfigureInterface_bsd x mac ipCIDR mtu (i, w) with
  | (Ok _, (i', w')) => i' = i /\ executed w' = executed w ++ cmds
  | (Err _, (i', w')) => i' = i /\ exists ran, executed w' = executed w ++ ran /\ ran `prefix_of` cmds /\
      (length (match hw with Some _ => [()] | None => [] end) < length ran)%nat
  | (Panic, _) => False
  end.
Proof.
  intros Hi Hc H4 Hl Hm cmds. unfold ConfigureInterface_bsd. rewrite gets_bind. unfold id. cbv beta iota. rewrite Hi, Hc.
  set (m := if bool_decide (mac = []) then _ else _).
  assert (exists w1, m (i, w) = (Ok tt, (i, w1)) /\ executed w1 = executed w ++
    (match hw with Some a => [[str "ifconfig"; d_Name d; mac_keyword x; HardwareAddr_String a]] | None => [] end)) as (w1 & E1 & H1).
  { unfold m, iface_Name. rewrite Hi. destruct hw as [a|].
    - destruct Hm as [Hne Hp]. rewrite bool_decide_eq_false_2 by done. by apply ifconfig_mac_eq.
    - subst mac. exists w. by rewrite app_nil_r. }
  rewrite (bind_ok _ _ _ _ _ E1). rewrite bool_decide_eq_false_2 by done.
  assert (slice mask 0 4 = Ok mask) as Hs. { unfold slice. rewrite Hl. cbn [bool_decide andb]. cbn. rewrite drop_0, take_ge; [done|lia]. }
  rewrite (bind_ok _ _ (i, w1) mask (i, w1)) by (unfold mlift; by rewrite Hs). cbv zeta.
  destruct (addr_commands x i (iface_Name i) (IP_String ip) (strings_Join (itoa <$> mask) [46]) (if mtu <=? 0 then DefaultMTU else mtu) w1)
    as (w2 & ran & H2 & H3). rewrite H1, <- app_assoc in H2. replace (iface_Name i) with (d_Name d) in * by (unfold iface_Name; by rewrite Hi).
  cbv zeta in H3. match goal with |- context [(?m ≫= ?k) (i, w1)] => destruct ((m ≫= k) (i, w1)) as [[[]|e|] s] end; [|destruct H3 as (-> & Hne & [rest Hr])|done].
  - destruct H3 as [-> ->]. split; [done|]. rewrite H2. unfold cmds, plan. by destruct hw.
  - split; [done|]. eexists. split; [exact H2|]. split.
    + exists rest. unfold cmds, plan. rewrite fmap_app. unfold plan in Hr. cbn [app] in Hr. rewrite Hr, <- app_assoc. by destruct hw.
    + destruct ran; [done|]. destruct hw; cbn; lia.
Qed.

(** ** A system *)
Module UnixSample.
Record box := mkBox { b_fds : gset Z; b_view : LinkView (list Z); b_cmds : list (list (list Z)) }.

Definition opened (w : box) : box * (Z + goerr) :=
  let k := fresh (b_fds w) in (mkBox ({[k]} ∪ b_fds w) (b_view w) (b_cmds w), inl k).
Definition set_view (v : LinkView (list Z)) (w : box) : box := mkBox (b_fds w) v (b_cmds w).

#[export] Instance system : Unix := {|
  ux := box;
  unix_Open w p := if bool_decide (p = str "/dev/net/tun") then opened w else (w, inr (ErrNew "no such file or directory"));
  unix_Close w k := (mkBox (b_fds w ∖ {[k]}) (b_view w) (b_cmds w), None);
  SetNonblock w _ := (w, None);
  fd_read w _ n := (w, mkIO 0 [] (Some (ErrNew "i/o timeout")));
  fd_write w _ b := (w, mkIO (len b) [] None);
  fd_deadline w _ _ _ := (w, None);
  NewIfreq _ := None;
  IoctlTUNSETIFF w _ n _ := (w, inl n);
  InterfaceByName w _ := inl (3, v_mac (b_view w)) |}.

#[export] Instance raw : RawSockets := {| raw_Socket w _ := opened w; raw_Sendto w _ _ _ := (w, None) |}.

Lemma opened_ok w w' k : opened w = (w', inl k) -> k ∉ b_fds w /\ b_fds w' = {[k]} ∪ b_fds w.
Proof. intros [= <- <-]. split; [apply is_fresh|done]. Qed.

#[export, refine] Instance fd_laws : FdLaws := {| open_fds := b_fds |}.
Proof.
  all: try done.
  - intros w p w' k. unfold unix_Open, system. case_bool_decide; [apply opened_ok|done].
  - intros w p w' e. unfold unix_Open, system. case_bool_decide; [done|]. by intros [= <- _].
Defined.

#[export] Instance raw_laws : RawLaws.
Proof. split; [|done|done]. intros w p w' k. apply opened_ok. Defined.

#[export] Instance netlink : Netlink := {|
  Link := unit; NLAddr := list Z;
  LinkByName _ n := if bool_decide (n = str "edge0") then inl tt else inr (ErrNew "Link not found");
  LinkSetHardwareAddr w _ hw := (set_view (mkView hw (v_addrs (b_view w)) (v_mtu (b_view w)) (v_up (b_view w))) w, None);
  nl_ParseAddr s := inl s;
  AddrAdd w _ a := (set_view (mkView (v_mac (b_view w)) (a :: v_addrs (b_view w)) (v_mtu (b_view w)) (v_up (b_view w))) w, None);
  LinkSetMTU w _ m := (set_view (mkView (v_mac (b_view w)) (v_addrs (b_view w)) m (v_up (b_view w))) w, None);
  LinkSetUp w _ := (set_view (mkView (v_mac (b_view w)) (v_addrs (b_view w)) (v_mtu (b_view w)) true) w, None) |}.

#[export, refine] Instance link_laws : LinkLaws := {| view w _ := b_view w |}.
Proof. all: try done; by intros w [] * [= <- <-]. Defined.

#[export] Instance commands : Commands := fun w argv => (mkBox (b_fds w) (b_view w) (b_cmds w ++ [argv]), ([], None)).
#[export, refine] Instance exec_laws : ExecLaws := {| executed := b_cmds |}.
Proof. done. Defined.

Definition w0 : ux := mkBox {[0; 1; 2]} (mkView [2; 0; 0; 0; 0; 1] [] 1500 false) [].
Definition cfg : Config := mkConfig (str "edge0") TAP [] false 0 0 0.
Definition tap7 : Interface File := mkInterface (Some (file_device 7 (str "tap7") cfg)) [].
End UnixSample.
Import UnixSample.

Lemma interface_lifecycle_witness : exists i w1, NewInterface (PL := linux) cfg w0 = (Ok i, w1) /\
  open_fds (iface_Close (PL := linux) (iface_Read 10 (i, w1)).2).2.2 = open_fds w0.
Proof.
  assert (linux ∈ [linux; darwin; netbsd]) as H by left. pose proof (interface_lifecycle linux cfg w0 H) as L.
  assert (succeeds (NewInterface (PL := linux) cfg w0) = true) as B by (vm_compute; reflexivity).
  destruct (NewInterface (PL := linux) cfg w0) as [[i|e|] w1]; [|discriminate B|discriminate B].
  exists i, w1. split; [reflexivity|]. destruct L as (k & _ & L).
  destruct (L (iface_Read 10 (i, w1)).2) as (_ & _ & C); [apply rtc_once; constructor|]. exact C.
Defined.

Lemma bsd_configure_witness : exists w', ConfigureInterface_darwin (str "02:00:00:00:00:01") (str "10.64.0.9/16") 0 (tap7, w0) = (Ok tt, (tap7, w')) /\
  executed w' = plan darwin_dialect (str "tap7") (Some [2; 0; 0; 0; 0; 1]) (str "10.64.0.9") (str "255.255.0.0") 1420.
Proof.
  pose proof (bsd_configure darwin_dialect (str "02:00:00:00:00:01") (str "10.64.0.9/16") 0 tap7 (file_device 7 (str "tap7") cfg) w0
    (Some [2; 0; 0; 0; 0; 1]) (v4InV6Prefix ++ [10; 64; 0; 9]) 16 [255; 255; 0; 0] eq_refl) as L.
  specialize (L ltac:(vm_compute; reflexivity) ltac:(discriminate) eq_refl ltac:(split; [discriminate|vm_compute; reflexivity])).
  change (ConfigureInterface_bsd darwin_dialect) with ConfigureInterface_darwin in L.
  assert (succeeds (ConfigureInterface_darwin (str "02:00:00:00:00:01") (str "10.64.0.9/16") 0 (tap7, w0)) = true) as B by (vm_compute; reflexivity).
  destruct (ConfigureInterface_darwin _ _ _ _) as [[[]|e|] [i w']]; [|discriminate B|discriminate B].
  destruct L as [-> L]. exists w'. split; [reflexivity|]. exact L.
Defined.

Definition edge0 : Interface File := mkInterface (Some (file_device 3 (str "edge0") cfg)) [].

Lemma linux_configure_witness : exists w', ConfigureInterface_linux (str "02:00:00:00:00:09") (str "10.64.0.9/16") 0 (edge0, w0) = (Ok tt, (edge0, w')) /\
  v_up (view w' tt) = true /\ v_mtu (view w' tt) = 1420 /\ str "10.64.0.9/16" ∈ v_addrs (view w' tt).
Proof.
  pose proof (linux_configure (str "02:00:00:00:00:09") (str "10.64.0.9/16") 0 edge0 w0) as L.
  assert (succeeds (ConfigureInterface_linux (str "02:00:00:00:00:09") (str "10.64.0.9/16") 0 (edge0, w0)) = true) as B by (vm_compute; reflexivity).
  destruct (ConfigureInterface_linux _ _ _ _) as [[[]|e|] [i w']]; [|discriminate B|discriminate B].
  destruct L as [-> ([] & a & _ & [= <-] & (U & M & A & _) & _)]. exists w'. split; [reflexivity|]. split; [exact U|]. split; [exact M|exact A].
Defined.
