(* ===== verification/TapWindows.v ===== *)
(** * TAP devices on Windows: [device_windows.go], [link_windows.go],
    [close_windows.go], [arp_windows.go]

    The search of the registry for a TAP adapter, the change of its hardware
    address, the opening of the device over the overlapped handles of
    [Overlapped], and the configuration of its address through the IP helper
    library.  Registry, adapters, processes and the procedures of the library
    are parameters. *)
From S2P Require Import Prelude GoBytes GoNet Log Frame Overlapped TapDevice.
From stdpp Require Import gmap list strings relations.
From Stdlib Require Import ZArith Lia.
Open Scope Z_scope.

(** ** The system *)
Definition ERROR_BUFFER_OVERFLOW : goerr := ErrNew "The file name is too long.".
Definition ERROR_FILE_NOT_FOUND : goerr := ErrNew "The system cannot find the file specified.".
Definition ERROR_ACCESS_DENIED : goerr := ErrNew "Access is denied.".
Definition ERROR_NOT_FOUND : goerr := ErrNew "Element not found.".
Definition ERROR_OBJECT_ALREADY_EXISTS : goerr := ErrNew "The object already exists.".

(** An entry of [GetAdaptersAddresses]: the name up to its terminator. *)
Record Adapter := mkAdapter { AdapterName : option (list Z); IfIndex : Z; PhysicalAddressLength : Z; PhysicalAddress : list Z }.

(** [MibUnicastIpAddressRow]; the address is the 28 bytes of a
    [RawSockaddrInet6]. *)
Record MibUnicastIpAddressRow := mkRow {
  Address : list Z; InterfaceIndex : Z; PrefixOrigin : Z; SuffixOrigin : Z; ValidLifetime : Z; PreferredLifetime : Z;
  OnLinkPrefixLength : Z; SkipAsSource : Z; DadState : Z; ScopeId : Z }.

(** [MibIpInterfaceRow]: the fields the code names, and the others. *)
Record MibIpInterfaceRow := mkIfRow { if_Family : Z; if_Index : Z; NlMtu : Z; if_others : list Z }.

(** What [proc.Call] returns: the procedure's result and the thread's last
    error, none for [ERROR_SUCCESS]. *)
Definition CallResult : Type := Z * option goerr.

Class WinTap `{W : WinAPI} := {
  (** The registry: a key below an open key or below [LOCAL_MACHINE]. *)
  OpenKey : win -> option Z -> list Z -> Z -> win * (Z + goerr);
  KeyClose : win -> Z -> win * option goerr;
  ReadSubKeyNames : win -> Z -> list (list Z) + goerr;
  GetStringValue : win -> Z -> list Z -> list Z + goerr;
  SetStringValue : win -> Z -> list Z -> list Z -> win * option goerr;
  (** With the size of the buffer, which is written on an overflow. *)
  GetAdaptersAddresses : win -> Z -> win * (list Adapter + goerr) * Z;
  time_Sleep : win -> Z -> win;
  cmd_Run : win -> list (list Z) -> win * (list Z * option goerr);
  UTF16PtrFromString : list Z -> option goerr;
  CreateFile : win -> list Z -> win * (Z + goerr);
  DeviceIoControl : win -> Z -> Z -> list Z -> win * (Z * option goerr);
  CreateUnicastIpAddressEntry : win -> MibUnicastIpAddressRow -> win * CallResult;
  DeleteUnicastIpAddressEntry : win -> MibUnicastIpAddressRow -> win * CallResult;
  GetIpInterfaceEntry : win -> MibIpInterfaceRow -> win * (MibIpInterfaceRow * CallResult);
  SetIpInterfaceEntry : win -> MibIpInterfaceRow -> win * CallResult }.

(** ** [device_windows.go] *)
Definition networkAdaptersRegKey : list Z := str "SYSTEM\CurrentControlSet\Control\Class\{4d36e972-e325-11ce-bfc1-08002be10318}".
Definition componentIDRegValue : list Z := str "ComponentId".
Definition netCfgInstanceIDValue : list Z := str "NetCfgInstanceID".
Definition networkAddressValue : list Z := str "NetworkAddress".
Definition tapWindows11ComponentID : list Z := str "tap0901".
Definition tapWindows10ComponentID : list Z := str "root\tap0901".
Definition tapDevicePath (guid : list Z) : list Z := str "\\.\Global\" ++ guid ++ str ".tap".

Definition QUERY_VALUE : Z := 1.
Definition SET_VALUE : Z := 2.
Definition ENUMERATE_SUB_KEYS : Z := 8.

Definition TAP_IOCTL_SET_MEDIA_STATUS : Z :=
  Z.lor (Z.lor (Z.lor (Z.shiftl 0x22 16) (Z.shiftl 0 14)) (Z.shiftl 6 2)) 0.

(** [%02X] of each byte, with hyphens. *)
Definition upper_hex2 (b : Z) : list Z := ascii_upper <$> hex2 b.

Definition is_hex_rune (r : Z) : bool :=
  ((48 <=? r) && (r <=? 57)) || ((97 <=? r) && (r <=? 102)) || ((65 <=? r) && (r <=? 70)).

Definition formatMACForRegistry (macStr : list Z) : outcome (list Z) :=
  match ParseMAC macStr with
  | Some hw => six ← slice hw 0 6; Ok (strings_Join (upper_hex2 <$> six) [45])
  | None => if (length macStr =? 12)%nat && forallb is_hex_rune (runes macStr) then Ok (ascii_upper <$> macStr)
            else Err (ErrNew "invalid MAC format")
  end.

Section Device.
Context `{WT : WinTap}.

Definition wcall {A} (f : win -> win * A) : M win A := fun w => let '(w', a) := f w in (Ok a, w').

(** At most three attempts, each with the size the last one asked for. *)
Fixpoint get_adapters (n : nat) (bufferSize : Z) (ret : goerr) : M win (list Adapter) :=
  match n with
  | O => merr (ErrWrap "GetAdaptersAddresses failed after attempts" ret)
  | S n' =>
      if bufferSize =? 0 then merr (ErrNew "buffer size zero") else
      '(r, size) ← wcall (fun w => let '(w', r, size) := GetAdaptersAddresses w bufferSize in (w', (r, size)));
      match r with
      | inl adapters => mret adapters
      | inr e => if errors_is e ERROR_BUFFER_OVERFLOW then get_adapters n' size e
                 else merr (ErrWrap "GetAdaptersAddresses call failed" e)
      end
  end.

Definition adapter_mac (a : Adapter) : option (list Z) :=
  if (0 <? PhysicalAddressLength a) && (PhysicalAddressLength a <=? len (PhysicalAddress a))
  then Some (take 6 (take (Z.to_nat (PhysicalAddressLength a)) (PhysicalAddress a))) else None.

Definition adapter_named (guid : list Z) (a : Adapter) : bool :=
  bool_decide (match AdapterName a with Some n => take 256 n | None => [] end = guid).

Definition findInterfaceIndexAndInfoByGUID (guid : list Z) : M win (Z * option (list Z)) :=
  adapters ← get_adapters 3 15000 (ErrNew "<nil>");
  match List.find (adapter_named guid) adapters with
  | None => merr (ErrNew "adapter GUID not found via GetAdaptersAddresses")
  | Some a => if IfIndex a =? 0 then merr (ErrNew "found GUID but IfIndex is 0") else mret (IfIndex a, adapter_mac a)
  end.

(** The subkey, opened for writing when there is an address to write, else or
    when that fails for reading. *)
Definition open_subkey (key : Z) (name targetMAC : list Z) : M win (option Z) :=
  let set := negb (bool_decide (targetMAC = [])) in
  r ← wcall (fun w => OpenKey w (Some key) name (if set then Z.lor QUERY_VALUE SET_VALUE else QUERY_VALUE));
  match r with
  | inl k => mret (Some k)
  | inr _ => if set then r ← wcall (fun w => OpenKey w (Some key) name QUERY_VALUE);
                         mret (match r with inl k => Some k | inr _ => None end)
             else mret None
  end.

(** The first subkey of a TAP adapter with an instance id: that id and the
    name of the subkey. *)
Fixpoint scan_subkeys (key : Z) (targetMAC : list Z) (names : list (list Z)) : M win (option (list Z * list Z)) :=
  match names with
  | [] => mret None
  | name :: names' =>
      o ← open_subkey key name targetMAC;
      match o with
      | None => scan_subkeys key targetMAC names'
      | Some k =>
          w ← gets id;
          let found :=
            match GetStringValue w k componentIDRegValue with
            | inl compID =>
                if bool_decide (compID = tapWindows11ComponentID) || bool_decide (compID = tapWindows10ComponentID) then
                  match GetStringValue w k netCfgInstanceIDValue with inl guid => Some (guid, name) | inr _ => None end
                else None
            | inr _ => None
            end in
          wcall (fun w => KeyClose w k);;
          match found with Some x => mret (Some x) | None => scan_subkeys key targetMAC names' end
      end
  end.

(** A command with its output on standard output, or combined. *)
Definition run_cmd (argv : list (list Z)) : M win (list Z * option goerr) := wcall (fun w => cmd_Run w argv).

Definition list_adapters_script : list Z :=
  str "Get-NetAdapter | Where-Object {$_.InterfaceDescription -like " ++ [34] ++ str "*TAP-Windows*" ++ [34] ++
  str "} | Select-Object -ExpandProperty ifIndex".

Definition netsh (ifIndexStr admin : list Z) : list (list Z) :=
  [str "netsh"; str "interface"; str "set"; str "interface"; str "index=" ++ ifIndexStr; str "admin=" ++ admin].

(** The sleeps are in nanoseconds. *)
Definition restartTapWindows : M win unit :=
  '(out, err) ← run_cmd [str "powershell"; str "-Command"; list_adapters_script];
  match err with
  | Some _ => merr (ErrNew "failed to list adapters")
  | None =>
      let ifIndexStr := TrimSpace out in
      if bool_decide (ifIndexStr = []) then merr (ErrNew "no TAP-Windows adapter found") else
      '(_, err) ← run_cmd (netsh ifIndexStr (str "disabled"));
      match err with
      | Some _ => merr (ErrNew "failed to disable adapter")
      | None =>
          modify (fun w => time_Sleep w 5000);;
          '(_, err) ← run_cmd (netsh ifIndexStr (str "enabled"));
          match err with
          | Some _ => merr (ErrNew "failed to enable adapter")
          | None => modify (fun w => time_Sleep w 10000)
          end
      end
  end.

(** The wait for the adapter to report the new address: its index and address,
    or the last error. *)
Fixpoint refresh (n : nat) (guid desiredMAC : list Z) (lastErr : goerr) : M win ((Z * list Z) + goerr) :=
  match n with
  | O => mret (inr lastErr)
  | S n' =>
      modify (fun w => time_Sleep w (600 * 10 ^ 6));;
      r ← mtry (findInterfaceIndexAndInfoByGUID guid);
      match r with
      | inr e => refresh n' guid desiredMAC e
      | inl (_, None) => refresh n' guid desiredMAC (ErrNew "adapter returned empty MAC during refresh")
      | inl (idx, Some mac) =>
          if bool_decide (mac = desiredMAC) then mret (inl (idx, mac))
          else refresh n' guid desiredMAC (ErrNew "adapter still reports another MAC")
      end
  end.

(** The target address is written to the adapter's key, the adapter restarted,
    and its index and address read again. *)
Definition apply_mac (key : Z) (subkeyName guid targetMAC desiredMAC : list Z) (ifIdx : Z) (currentMAC : option (list Z))
  : M win (Z * option (list Z)) :=
  r ← wcall (fun w => OpenKey w (Some key) subkeyName SET_VALUE);
  match r with
  | inr e => merr (ErrWrap "failed open key for write access" e)
  | inl k =>
      errSet ← wcall (fun w => SetStringValue w k networkAddressValue targetMAC);
      wcall (fun w => KeyClose w k);;
      match errSet with
      | Some e => merr (ErrWrap "failed write NetworkAddress" e)
      | None =>
          r ← mtry restartTapWindows;
          match r with
          | inr _ => mret (ifIdx, currentMAC)
          | inl _ =>
              r ← refresh 10 guid desiredMAC (ErrNew "<nil>");
              mret (match r with inl (idx, mac) => (idx, Some mac) | inr _ => (ifIdx, Some desiredMAC) end)
          end
      end
  end.

Definition target_mac (c : Config) : outcome (option (list Z * list Z)) :=
  if bool_decide (c_MACAddress c = []) then Ok None else
  match ParseMAC (c_MACAddress c) with
  | None => Err (ErrNew "invalid target MAC")
  | Some desiredMAC =>
      if (length desiredMAC =? 6)%nat then
        match formatMACForRegistry (c_MACAddress c) with
        | Ok targetMAC => Ok (Some (targetMAC, desiredMAC))
        | Err e => Err (ErrWrap "invalid target MAC" e)
        | Panic => Panic
        end
      else Err (ErrNew "parsed MAC address is not 6 bytes long")
  end.

(** What is done with the adapters' key open. *)
Definition with_adapters_key (target : option (list Z * list Z)) (key : Z) : M win (list Z * list Z * Z * option (list Z)) :=
  w ← gets id;
  match ReadSubKeyNames w key with
  | inr e => merr (ErrWrap "failed read subkeys" e)
  | inl subkeys =>
      found ← scan_subkeys key (default [] (fst <$> target)) subkeys;
      match found with
      | None => merr (ErrNew "no TAP adapter (ComponentId=root\tap0901 or ComponentId=root\tap0901) found in registry")
      | Some (instanceID, subkeyName) =>
          r ← mtry (findInterfaceIndexAndInfoByGUID instanceID);
          match r with
          | inr e => merr (ErrWrap "found TAP in registry but API lookup failed" e)
          | inl (ifIdx, currentMAC) =>
              '(ifIdx, currentMAC) ←
                match target with
                | Some (targetMAC, desiredMAC) => apply_mac key subkeyName instanceID targetMAC desiredMAC ifIdx currentMAC
                | None => mret (ifIdx, currentMAC)
                end;
              let devPath := tapDevicePath instanceID in
              if bool_decide (devPath = []) || bool_decide (instanceID = []) || (ifIdx =? 0)
              then merr (ErrNew "internal error finalizing path/GUID/IfIndex")
              else mret (devPath, instanceID, ifIdx, currentMAC)
          end
      end
  end.

Definition findAndConfigureTapDevice (c : Config) : M win (list Z * list Z * Z * option (list Z)) :=
  target ← mlift (target_mac c);
  r ← wcall (fun w => OpenKey w None networkAdaptersRegKey (Z.lor ENUMERATE_SUB_KEYS QUERY_VALUE));
  match r with
  | inr e => merr (ErrWrap "failed open adapters key" e)
  | inl key =>
      r ← mtry (with_adapters_key target key);
      wcall (fun w => KeyClose w key);;
      match r with inl x => mret x | inr e => merr e end
  end.

Definition GetHandle_windows (d : Device Handle) : Z := handle d.

Definition deviceIoControl (d : Device Handle) (ioctl : Z) (inBuffer : list Z) : M win Z :=
  if GetHandle_windows d =? InvalidHandle then merr (ErrNew "deviceIoControl: invalid handle") else
  '(n, err) ← wcall (fun w => DeviceIoControl w (GetHandle_windows d) ioctl inBuffer);
  match err with Some e => merr (ErrWrap "DeviceIoControl failed" e) | None => mret n end.

Definition Create_windows (c : Config) : M win (Device Handle) :=
  if negb (bool_decide (c_DevType c = TAP)) then merr (ErrNew "only TAP mode supported") else
  r ← mtry (findAndConfigureTapDevice c);
  match r with
  | inr e => merr (ErrWrap "failed find/configure TAP device" e)
  | inl (devPath, instanceID, idx, initialMAC) =>
      match UTF16PtrFromString devPath with
      | Some e => merr (ErrWrap "failed convert path" e)
      | None =>
          r ← wcall (fun w => CreateFile w devPath);
          match r with
          | inr e =>
              merr (ErrWrap (if errors_is e ERROR_FILE_NOT_FOUND then "TAP device not found"
                             else if bool_decide (e = ERROR_ACCESS_DENIED) then "access denied opening TAP"
                             else "failed open TAP device") e)
          | inl winHandle =>
              let dev := mkDevice instanceID (c_DevType c) c (Some (NewOverlapped winHandle 0)) winHandle idx initialMAC in
              r ← mtry (deviceIoControl dev TAP_IOCTL_SET_MEDIA_STATUS [1; 0; 0; 0]);
              match r with
              | inr e => wcall (fun w => CloseHandle w winHandle);; merr (ErrWrap "failed set TAP media status connected" e)
              | inl _ => mret dev
              end
          end
      end
  end.

Definition GetIfIndex_windows (d : Device Handle) (_ : win) : Z := ifIndex d.
Definition GetMACAddress_windows (d : Device Handle) (_ : win) : option (list Z) := macAddr d.
End Device.

(** ** [link_windows.go] *)
Definition AF_INET : Z := 2.
Definition AF_INET6 : Z := 23.

(** The bytes of [RawSockaddrInet4], copied over the zeroed address field, and
    of [RawSockaddrInet6]. *)
Definition sockaddr4 (ip4 : list Z) : list Z := copy_at (replicate 28 0) 0 28 (le_put 2 AF_INET ++ [0; 0] ++ ip4 ++ replicate 8 0).
Definition sockaddr6 (ip6 : list Z) : list Z := le_put 2 AF_INET6 ++ [0; 0] ++ [0; 0; 0; 0] ++ ip6 ++ [0; 0; 0; 0].

(** The address field for an address of 4 or 16 bytes. *)
Definition row_address (ip : list Z) : option (list Z) :=
  if negb (bool_decide (To4 ip = [])) then Some (sockaddr4 (To4 ip))
  else if bool_decide (length ip = 16)%nat then Some (sockaddr6 ip) else None.

(** [callProcErr]: the result of the procedure is only logged. *)
Definition callProcErr (r : CallResult) : option goerr := r.2.

Section Link.
Context `{WT : WinTap}.

Definition set_row (idx prefixLen : Z) (addr : list Z) : MibUnicastIpAddressRow :=
  mkRow addr idx 1 1 0xFFFFFFFF 0xFFFFFFFF (u8 prefixLen) 0 4 0.
Definition delete_row (idx : Z) (addr : list Z) : MibUnicastIpAddressRow := mkRow addr idx 0 0 0 0 0 0 0 0.

Definition setIPAddress (idx : Z) (ipCIDR : list Z) : M win unit :=
  match ParseCIDR ipCIDR with
  | None => merr (ErrNew "parse CIDR")
  | Some (ip, (prefixLen, _)) =>
      match row_address ip with
      | None => merr (ErrNew "invalid IP format")
      | Some addr =>
          r ← wcall (fun w => CreateUnicastIpAddressEntry w (set_row idx prefixLen addr));
          match callProcErr r with
          | Some e => if errors_is e ERROR_OBJECT_ALREADY_EXISTS then mret tt
                      else merr (ErrWrap "CreateUnicastIpAddressEntry call failed" e)
          | None => mret tt
          end
      end
  end.

Definition deleteIPAddress (idx : Z) (ipCIDR : list Z) : M win unit :=
  match ParseCIDR ipCIDR with
  | None => merr (ErrNew "parse CIDR")
  | Some (ip, _) =>
      match row_address ip with
      | None => merr (ErrNew "invalid IP format")
      | Some addr =>
          r ← wcall (fun w => DeleteUnicastIpAddressEntry w (delete_row idx addr));
          match callProcErr r with
          | Some e => if errors_is e ERROR_NOT_FOUND then mret tt else merr (ErrWrap "DeleteUnicastIpAddressEntry call failed" e)
          | None => mret tt
          end
      end
  end.

Definition setMTUAndEnable (idx family mtu : Z) : M win unit :=
  '(keyRow, r) ← wcall (fun w => GetIpInterfaceEntry w (mkIfRow family idx 0 []));
  match callProcErr r with
  | Some e => if errors_is e ERROR_NOT_FOUND then merr (ErrWrap "cannot get interface entry" e)
              else merr (ErrWrap "GetIpInterfaceEntry call failed" e)
  | None =>
      if (0 <? mtu) && negb (NlMtu keyRow =? u32 mtu) then
        r ← wcall (fun w => SetIpInterfaceEntry w (mkIfRow (if_Family keyRow) (if_Index keyRow) (u32 mtu) (if_others keyRow)));
        match callProcErr r with Some e => merr (ErrWrap "SetIpInterfaceEntry call failed" e) | None => mret tt end
      else mret tt
  end.

(** A call on the system from a method of the interface. *)
Definition lift_win {A} (m : M win A) : M (Interface Handle * win) A := fun '(i, w) => let '(r, w') := m w in (r, (i, w')).

Definition set_configured (ip : list Z) : M (Interface Handle * win) unit :=
  modify (fun '(i, w) => (mkInterface (Iface i) ip, w)).

(** [close_windows.go]. *)
Definition closePlatform_windows : M (Interface Handle * win) unit :=
  '(i, _) ← gets id;
  if bool_decide (configuredIP i = []) then mret tt else
  match Iface i with
  | None => set_configured []
  | Some d =>
      if ifIndex d =? 0 then set_configured [] else
      mignore (lift_win (deleteIPAddress (ifIndex d) (configuredIP i)));; set_configured []
  end.

#[export] Instance handle_io : DeviceIO win Handle := {|
  io_Close := handle_Close; io_Fd := h; io_Read := handle_Read; io_Write := handle_Write;
  io_SetReadDeadline := SetReadDeadline; io_SetWriteDeadline := SetWriteDeadline |}.

#[export] Instance windows_os : Platform win Handle := {|
  GOOS_windows := true; Create := Create_windows; GetIfIndex := GetIfIndex_windows; GetMACAddress := GetMACAddress_windows;
  closePlatform := closePlatform_windows |}.

Definition ConfigureInterface_windows (mac ipCIDR : list Z) (mtu : Z) : M (Interface Handle * win) unit :=
  '(i, w) ← gets id;
  match Iface i with
  | None => merr (ErrNew "underlying device is nil")
  | Some _ =>
      let idx := iface_GetIfIndex i w in
      if idx =? 0 then merr (ErrNew "IfIndex is 0") else
      (if negb (bool_decide (configuredIP i = [])) && negb (bool_decide (configuredIP i = ipCIDR))
       then mignore (lift_win (deleteIPAddress idx (configuredIP i))) else mret tt);;
      r ← mtry (lift_win (setIPAddress idx ipCIDR));
      match r with
      | inr e => merr (ErrWrap "set IP address failed" e)
      | inl _ =>
          set_configured ipCIDR;;
          match ParseCIDR ipCIDR with
          | None => merr (ErrNew "internal re-parse CIDR")
          | Some (ip, _) =>
              let family := if bool_decide (To4 ip = []) && bool_decide (length ip = 16)%nat then AF_INET6 else AF_INET in
              mignore (lift_win (setMTUAndEnable idx family (if mtu <=? 0 then DefaultMTU else mtu)))
          end
      end
  end.

Definition IfUp_windows (ipCIDR : list Z) : M (Interface Handle * win) unit := ConfigureInterface_windows [] ipCIDR DefaultMTU.

(** [strings.ReplaceAll(mac, ":", "")]. *)
Definition macNoColons (mac : list Z) : list Z := List.filter (fun c => negb (c =? 58)) mac.

Definition quoted (s : list Z) : list Z := [34] ++ s ++ [34].
Definition registry_script (value : list Z) : list Z :=
  str "Get-ChildItem " ++ quoted (str "HKLM:\SYSTEM\CurrentControlSet\Control\Class\{4d36e972-e325-11ce-bfc1-08002be10318}") ++
  str " | Get-ItemProperty | Where-Object { $_.DriverDesc -like " ++ quoted (str "*TAP*") ++
  str " } | ForEach-Object { Set-ItemProperty -Path $_.PSPath -Name " ++ quoted (str "MacAddress") ++
  str " -Value " ++ quoted value ++ str " }".

Definition powershell (script : list Z) : M win unit :=
  '(_, err) ← run_cmd [str "powershell"; str "-Command"; script];
  match err with Some _ => merr (ErrNew "PowerShell failed") | None => mret tt end.

Definition setMacViaRegistry (mac : list Z) : M win unit := powershell (registry_script (macNoColons mac)).
Definition setMacViaRegistryByIndex (idx : Z) (mac : list Z) : M win unit :=
  powershell (str "$ifIndex = " ++ itoa idx ++ str "; " ++ registry_script (macNoColons mac)).

Definition IfMac_windows (mac : list Z) : M (Interface Handle * win) unit :=
  '(i, w) ← gets id;
  match Iface i with
  | None => merr (ErrNew "underlying device is nil")
  | Some _ =>
      let idx := iface_GetIfIndex i w in
      '(_, err) ← lift_win (run_cmd [str "powershell"; str "-Command";
        str "Set-NetAdapter -InterfaceIndex " ++ itoa idx ++ str " -MacAddress '" ++ macNoColons mac ++ str "' -Confirm:$false"]);
      match err with
      | Some _ => mignore (lift_win (setMacViaRegistryByIndex idx mac))
      | None => mret tt
      end
  end.

(** [arp_windows.go]. *)
Definition sendRawFrame_windows : list Z -> M (Interface Handle * win) unit := sendRawFrame_write "windows".
End Link.

(** ** Handles *)

(** What the calls do to the open handles and keys of the process. *)
Class TapLaws `{EL : EventLaws} `{WT : !WinTap} := {
  openkey_law w p n a : match OpenKey w p n a with
    | (w', inl k) => k ∉ handles w /\ handles w' = {[k]} ∪ handles w
    | (w', inr _) => handles w' = handles w
    end;
  keyclose_law w k : handles (KeyClose w k).1 = handles w ∖ {[k]};
  setvalue_law w k n v : handles (SetStringValue w k n v).1 = handles w;
  adapters_law w n : handles (GetAdaptersAddresses w n).1.1 = handles w;
  sleep_law w n : handles (time_Sleep w n) = handles w;
  cmd_law w argv : handles (cmd_Run w argv).1 = handles w;
  createfile_law w p : match CreateFile w p with
    | (w', inl k) => k <> 0 /\ k <> InvalidHandle /\ k ∉ handles w /\ handles w' = {[k]} ∪ handles w
    | (w', inr _) => handles w' = handles w
    end;
  ioctl_law w k c b : handles (DeviceIoControl w k c b).1 = handles w;
  createip_law w r : handles (CreateUnicastIpAddressEntry w r).1 = handles w;
  deleteip_law w r : handles (DeleteUnicastIpAddressEntry w r).1 = handles w;
  getif_law w r : handles (GetIpInterfaceEntry w r).1 = handles w;
  setif_law w r : handles (SetIpInterfaceEntry w r).1 = handles w }.

Section Quiet.
Context `{TL : TapLaws}.

(** The method does not panic and leaves the handles as they were. *)
Definition quiet {A} (m : M win A) : Prop := forall w, (m w).1 <> Panic /\ handles (m w).2 = handles w.

Lemma quiet_ret {A} (a : A) : quiet (mret a).
Proof. done. Qed.
Lemma quiet_fail {A} e : quiet (merr e : M win A).
Proof. done. Qed.
Lemma quiet_gets {A} (f : win -> A) : quiet (gets f).
Proof. done. Qed.
Lemma quiet_call {A} (f : win -> win * A) : (forall w, handles (f w).1 = handles w) -> quiet (wcall f).
Proof. intros H w. specialize (H w). unfold wcall. by destruct (f w). Qed.
Lemma quiet_sleep n : quiet (modify (fun w => time_Sleep w n)).
Proof. intros w. split; [done|]. apply sleep_law. Qed.
Lemma quiet_bind {A B} (m : M win A) (k : A -> M win B) : quiet m -> (forall a, quiet (k a)) -> quiet (m ≫= k).
Proof.
  intros Hm Hk w. unfold mbind, M_bind. destruct (Hm w) as [H1 H2]. destruct (m w) as [[a|e|] w']; cbn in *; [|done|done].
  rewrite <-H2. apply Hk.
Qed.
Lemma quiet_try {A} (m : M win A) : quiet m -> quiet (mtry m).
Proof. intros Hm w. destruct (Hm w) as [H1 H2]. unfold mtry. by destruct (m w) as [[a|e|] w']. Qed.

Lemma wcall_eq {A} (f : win -> win * A) w w' a : f w = (w', a) -> wcall f w = (Ok a, w').
Proof. intros E. unfold wcall. by rewrite E. Qed.

(** A key is opened, used and closed. *)
Lemma quiet_bracket {A B} (f : win -> win * (Z + goerr)) (fail : goerr -> M win A) (body : Z -> M win B) (rest : B -> M win A) :
  (forall w, match f w with (w', inl k) => k ∉ handles w /\ handles w' = {[k]} ∪ handles w | (w', inr _) => handles w' = handles w end) ->
  (forall e, quiet (fail e)) -> (forall k, quiet (body k)) -> (forall k, forall w, exists b w', body k w = (Ok b, w')) -> (forall b, quiet (rest b)) ->
  quiet (r ← wcall f; match r with inr e => fail e | inl k => b ← body k; wcall (fun w => KeyClose w k);; rest b end).
Proof.
  intros Hf He Hb Ho Hr w. specialize (Hf w). destruct (f w) as [w1 [k|e]] eqn:Ef; rewrite (bind_ok _ _ _ _ _ (wcall_eq _ _ _ _ Ef)).
  - destruct Hf as [Hk H1]. destruct (Ho k w1) as (b & w2 & E). rewrite (bind_ok _ _ _ _ _ E). destruct (Hb k w1) as [_ H2]. rewrite E in H2. cbn in H2.
    pose proof (keyclose_law w2 k) as C. unfold wcall. unfold mbind, M_bind. destruct (KeyClose w2 k) as [w3 r]. cbn in C.
    replace (handles w) with (handles w3) by (rewrite C, H2, H1; set_solver). apply Hr.
  - rewrite <-Hf. apply He.
Qed.

End Quiet.

Ltac quiet_step :=
  match goal with
  | |- quiet (mbind _ _) => apply quiet_bind; [|intros]
  | |- quiet (mret _) => apply quiet_ret
  | |- quiet (merr _) => apply quiet_fail
  | |- quiet (gets _) => apply quiet_gets
  | |- quiet (mtry _) => apply quiet_try
  | |- quiet (modify (fun w => time_Sleep w _)) => apply quiet_sleep
  | |- quiet (if ?b then _ else _) => destruct b
  | |- quiet (match ?x with _ => _ end) => destruct x
  end.
Ltac be_quiet := repeat (quiet_step || (progress cbv zeta)).

Section Handles.
Context `{TL : TapLaws}.

Lemma try_ok {A} (m : M win A) w : quiet m -> exists r w', mtry m w = (Ok r, w').
Proof. intros H. destruct (H w) as [H1 _]. unfold mtry. destruct (m w) as [[a|e|] w']; [by eexists _, _|by eexists _, _|done]. Qed.

Lemma get_adapters_quiet n : forall size ret, quiet (get_adapters n size ret).
Proof.
  induction n as [|n IH]; intros size ret; cbn [get_adapters]; be_quiet; [|apply IH].
  apply quiet_call. intros w. pose proof (adapters_law w size) as H. by destruct (GetAdaptersAddresses w size) as [[w' r] k].
Qed.

Lemma find_quiet guid : quiet (findInterfaceIndexAndInfoByGUID guid).
Proof. unfold findInterfaceIndexAndInfoByGUID. be_quiet. apply get_adapters_quiet. Qed.

Lemma run_quiet argv : quiet (run_cmd argv).
Proof. apply quiet_call. intros. apply cmd_law. Qed.

Lemma restart_quiet : quiet restartTapWindows.
Proof. unfold restartTapWindows. be_quiet; apply run_quiet. Qed.

Lemma refresh_quiet n guid mac : forall e, quiet (refresh n guid mac e).
Proof. induction n as [|n IH]; intros e; cbn [refresh]; be_quiet; (apply IH || apply find_quiet). Qed.

Lemma open_subkey_cases key name t w :
  match open_subkey key name t w with
  | (Ok (Some k), w') => k ∉ handles w /\ handles w' = {[k]} ∪ handles w
  | (Ok None, w') => handles w' = handles w
  | _ => False
  end.
Proof.
  unfold open_subkey. cbv zeta. set (b := negb _). unfold wcall. unfold mbind, M_bind.
  match goal with |- context [OpenKey w ?p ?n ?a] => pose proof (openkey_law w p n a) as H; destruct (OpenKey w p n a) as [w1 [k|e]] end; [done|].
  destruct b; [|done].
  match goal with |- context [OpenKey w1 ?p ?n ?a] => pose proof (openkey_law w1 p n a) as H1; destruct (OpenKey w1 p n a) as [w2 [k|e2]] end;
    cbn; rewrite <-H; done.
Qed.

Lemma scan_quiet key t names : quiet (scan_subkeys key t names).
Proof.
  induction names as [|name names IH]; [apply quiet_ret|]. intros w. cbn [scan_subkeys]. pose proof (open_subkey_cases key name t w) as H.
  destruct (open_subkey key name t w) as [[[k|]|e|] w1] eqn:E; [| |done|done]; rewrite (bind_ok _ _ _ _ _ E).
  - rewrite gets_bind. unfold id. cbv zeta. pose proof (keyclose_law w1 k) as C.
    set (found := match GetStringValue w1 k componentIDRegValue with inl _ => _ | inr _ => _ end). clearbody found.
    unfold wcall. unfold mbind, M_bind. destruct (KeyClose w1 k) as [w2 r]. cbn in C.
    assert (handles w2 = handles w) as H2 by (rewrite C, (proj2 H); set_solver). destruct found; [done|]. rewrite <-H2. apply IH.
  - rewrite <-H. apply IH.
Qed.

Lemma apply_mac_quiet key sub guid t m idx cur : quiet (apply_mac key sub guid t m idx cur).
Proof.
  unfold apply_mac. apply (quiet_bracket (fun w => OpenKey w (Some key) sub SET_VALUE) (fun e => merr (ErrWrap "failed open key for write access" e))
    (fun k => wcall (fun w => SetStringValue w k networkAddressValue t))).
  - intros w. apply openkey_law.
  - intros. apply quiet_fail.
  - intros. apply quiet_call. intros. apply setvalue_law.
  - intros k w. unfold wcall. destruct (SetStringValue w k networkAddressValue t). by eexists _, _.
  - intros. be_quiet; (apply restart_quiet || apply refresh_quiet).
Qed.

Lemma with_key_quiet target key : quiet (with_adapters_key target key).
Proof. unfold with_adapters_key. be_quiet; (apply scan_quiet || apply find_quiet || apply apply_mac_quiet). Qed.

Lemma format_ok s hw : ParseMAC s = Some hw -> length hw = 6%nat -> formatMACForRegistry s = Ok (strings_Join (upper_hex2 <$> hw) [45]).
Proof.
  intros Hp Hl. unfold formatMACForRegistry. rewrite Hp. unfold slice. rewrite Hl. cbn [andb]. rewrite drop_0. cbn. by rewrite take_ge by lia.
Qed.

Lemma target_mac_ok c : target_mac c <> Panic.
Proof.
  unfold target_mac. destruct (bool_decide _); [done|]. destruct (ParseMAC (c_MACAddress c)) as [m|] eqn:E; [|done].
  destruct (Nat.eqb_spec (length m) 6); [|done]. by rewrite (format_ok _ _ E).
Qed.

Lemma configure_quiet c : quiet (findAndConfigureTapDevice c).
Proof.
  unfold findAndConfigureTapDevice. apply quiet_bind.
  { intros w. unfold mlift. pose proof (target_mac_ok c). by destruct (target_mac c). }
  intros target. apply (quiet_bracket (fun w => OpenKey w None networkAdaptersRegKey (Z.lor ENUMERATE_SUB_KEYS QUERY_VALUE))
    (fun e => merr (ErrWrap "failed open adapters key" e)) (fun k => mtry (with_adapters_key target k))).
  - intros w. apply openkey_law.
  - intros. apply quiet_fail.
  - intros. apply quiet_try, with_key_quiet.
  - intros. apply try_ok, with_key_quiet.
  - intros [x|e]; be_quiet.
Qed.
End Handles.

(** ** What a creation returns *)
Section Returns.
Context `{WT : WinTap}.

(** Every value the method returns has the property. *)
Definition returns {A} (Q : A -> Prop) (m : M win A) : Prop := forall w a w', m w = (Ok a, w') -> Q a.

Lemma returns_ret {A} (Q : A -> Prop) a : Q a -> returns Q (mret a).
Proof. by intros H w b w' [= <- _]. Qed.
Lemma returns_fail {A} (Q : A -> Prop) e : returns Q (merr e).
Proof. by intros w a w'. Qed.
Lemma returns_bind {A B} (P : A -> Prop) (Q : B -> Prop) (m : M win A) k :
  returns P m -> (forall a, P a -> returns Q (k a)) -> returns Q (m ≫= k).
Proof.
  intros Hm Hk w b w'. unfold mbind, M_bind. destruct (m w) as [[a|e|] w1] eqn:E; [|done|done]. intros E2.
  by eapply (Hk a (Hm _ _ _ E)).
Qed.
Lemma returns_any {A} (m : M win A) : returns (fun _ => True) m.
Proof. done. Qed.
Lemma returns_try {A} (Q : A -> Prop) (m : M win A) : returns Q m -> returns (fun r => match r with inl a => Q a | inr _ => True end) (mtry m).
Proof.
  intros H w a w'. unfold mtry. destruct (m w) as [[b|e|] w1] eqn:E; [|by intros [= <- _]|done]. intros [= <- _]. by eapply H.
Qed.

(** A hardware address as an adapter reports it. *)
Definition mac_ok (m : option (list Z)) : Prop := match m with Some m => (0 < length m <= 6)%nat | None => True end.

Lemma adapter_mac_ok a : mac_ok (adapter_mac a).
Proof.
  unfold adapter_mac. destruct (_ && _) eqn:E; [|done]. apply andb_prop in E as [E1 E2]. apply Z.ltb_lt in E1. apply Z.leb_le in E2.
  unfold mac_ok. unfold len in E2. rewrite !length_take. lia.
Qed.

Lemma find_returns guid : returns (fun r => r.1 <> 0 /\ mac_ok r.2) (findInterfaceIndexAndInfoByGUID guid).
Proof.
  unfold findInterfaceIndexAndInfoByGUID. eapply returns_bind; [apply returns_any|]. intros l _.
  destruct (List.find _ l) as [a|]; [|apply returns_fail]. destruct (Z.eqb_spec (IfIndex a) 0); [apply returns_fail|].
  apply returns_ret. split; [done|apply adapter_mac_ok].
Qed.

Lemma refresh_returns n guid m : forall e, returns (fun r => match r with inl (idx, mac) => idx <> 0 /\ mac = m | inr _ => True end) (refresh n guid m e).
Proof.
  induction n as [|n IH]; intros e; cbn [refresh]; [by apply returns_ret|].
  eapply returns_bind; [apply returns_any|]. intros _ _. eapply returns_bind; [apply returns_try, find_returns|].
  intros [[idx [mac|]]|err] H; [|apply IH|apply IH]. case_bool_decide; [|apply IH]. apply returns_ret. by destruct H.
Qed.

(** The restart of the adapter works whenever it is tried. *)
Definition restarts : Prop := forall w, exists w', restartTapWindows w = (Ok tt, w').

Lemma apply_returns key sub guid t m idx cur : idx <> 0 -> mac_ok cur -> length m = 6%nat ->
  returns (fun r => r.1 <> 0 /\ mac_ok r.2 /\ (restarts -> r.2 = Some m)) (apply_mac key sub guid t m idx cur).
Proof.
  intros Hi Hc Hm. assert (mac_ok (Some m)) as Hm' by (cbn; lia). unfold apply_mac.
  eapply returns_bind; [apply returns_any|]. intros [k|e] _; [|apply returns_fail].
  eapply returns_bind; [apply returns_any|]. intros err _. eapply returns_bind; [apply returns_any|]. intros _ _. destruct err; [apply returns_fail|].
  intros w a w'. unfold mbind at 1, M_bind at 1, mtry. destruct (restartTapWindows w) as [[u|e|] w1] eqn:E; [| |done].
  - revert a w'. generalize w1. eapply returns_bind; [apply refresh_returns|]. intros [[i2 m2]|e2] H2; apply returns_ret; [|done]. by destruct H2 as [? ->].
  - intros [= <- <-]. split_and!; [done|done|]. intros R. destruct (R w) as [w2 E2]. rewrite E in E2. done.
Qed.

(** The registry's address and the desired one come from the configuration. *)
Lemma target_cases c t : target_mac c = Ok t ->
  match t with
  | None => c_MACAddress c = []
  | Some (r, m) => ParseMAC (c_MACAddress c) = Some m /\ length m = 6%nat /\ r = strings_Join (upper_hex2 <$> m) [45]
  end.
Proof.
  unfold target_mac. case_bool_decide; [by intros [= <-]|]. destruct (ParseMAC (c_MACAddress c)) as [m|] eqn:E; [|done].
  destruct (Nat.eqb_spec (length m) 6); [|done]. unfold formatMACForRegistry. rewrite E. unfold slice. rewrite e. cbn. rewrite drop_0, take_ge by lia.
  by intros [= <-].
Qed.

Definition found_ok (c : Config) (r : list Z * list Z * Z * option (list Z)) : Prop :=
  let '(path, guid, idx, mac) := r in
  path = tapDevicePath guid /\ guid <> [] /\ idx <> 0 /\ mac_ok mac /\
  (restarts -> forall m, ParseMAC (c_MACAddress c) = Some m -> mac = Some m).

Lemma configure_returns c : returns (found_ok c) (findAndConfigureTapDevice c).
Proof.
  unfold findAndConfigureTapDevice. apply (returns_bind (fun t => target_mac c = Ok t)).
  { intros w a w'. unfold mlift. destruct (target_mac c); [|done|done]. by intros [= -> _]. }
  intros t Ht. apply target_cases in Ht. eapply returns_bind; [apply returns_any|]. intros [key|e] _; [|apply returns_fail].
  apply (returns_bind (fun r => match r with inl a => found_ok c a | inr _ => True end)).
  2: { intros [x|e] H; (eapply returns_bind; [apply returns_any|]; intros _ _); [by apply returns_ret|apply returns_fail]. }
  apply returns_try. unfold with_adapters_key. eapply returns_bind; [apply returns_any|]. intros w _.
  destruct (ReadSubKeyNames w key) as [subkeys|e]; [|apply returns_fail]. eapply returns_bind; [apply returns_any|].
  intros [[guid sub]|] _; [|apply returns_fail]. eapply returns_bind; [apply returns_try, find_returns|].
  intros [[idx cur]|e] H; [|apply returns_fail]. destruct H as [Hi Hc]. cbn in Hi, Hc.
  apply (returns_bind (fun r => r.1 <> 0 /\ mac_ok r.2 /\ (restarts -> forall m, ParseMAC (c_MACAddress c) = Some m -> r.2 = Some m))).
  - destruct t as [[r m]|].
    + destruct Ht as (Hp & Hl & _). intros w1 a w2 E. destruct (apply_returns _ _ _ _ _ _ _ Hi Hc Hl _ _ _ E) as (H1 & H2 & H3).
      split_and!; [done|done|]. intros R m' Hm'. rewrite H3 by done. congruence.
    + apply returns_ret. split_and!; [done|done|]. rewrite Ht. done.
  - intros [i2 m2] (H1 & H2 & H3). cbv zeta. destruct (_ || _ || _) eqn:E; [apply returns_fail|]. apply returns_ret. cbn.
    apply orb_false_elim in E as [E E3]. apply orb_false_elim in E as [_ E2]. apply bool_decide_eq_false_1 in E2. by split_and!.
Qed.
End Returns.

(** A device is well formed when it is created: a TAP device named by the
    instance id of its adapter, with its interface index, a hardware address of
    at most six bytes when there is one, and its handle wrapped for overlapped
    I/O, without events or deadlines, whose reads and writes are asked not to
    wait. *)
Definition device_ok (c : Config) (d : Device Handle) : Prop :=
  d_DevType d = TAP /\ d_Config d = c /\ d_Name d <> [] /\ ifIndex d <> 0 /\ mac_ok (macAddr d) /\
  devIo d = Some (NewOverlapped (handle d) OverlappedNonBlocking).

Lemma created_device_facts `{WT : WinTap} c w d w' : Create_windows c w = (Ok d, w') ->
  device_ok c d /\
  (restarts -> forall m, ParseMAC (c_MACAddress c) = Some m -> macAddr d = Some m).
Proof.
  unfold Create_windows. case_bool_decide as Ht; [|done]. cbn [negb]. revert w d w'.
  match goal with |- forall w d w', ?body w = _ -> _ =>
    change (returns (fun d => device_ok c d /\ (restarts -> forall m, ParseMAC (c_MACAddress c) = Some m -> macAddr d = Some m)) body) end.
  eapply returns_bind; [apply returns_try, configure_returns|]. intros [[[[path guid] idx] mac]|e] H; [|apply returns_fail].
  destruct H as (_ & Hg & Hi & Hm & Hr). destruct (UTF16PtrFromString path); [apply returns_fail|].
  eapply returns_bind; [apply returns_any|]. intros [k|e] _; [|apply returns_fail]. cbv zeta.
  eapply returns_bind; [apply returns_any|]. intros [n|e] _; [by apply returns_ret|].
  eapply returns_bind; [apply returns_any|]. intros _ _. apply returns_fail.
Qed.

(** ** The life of an interface on Windows *)
Section WindowsLife.
Context `{TL : TapLaws}.

(** The operations of an interface, one after another. *)
Inductive win_op : Interface Handle * win -> Interface Handle * win -> Prop :=
  | win_read n s : win_op s (iface_Read n s).2
  | win_write b s : win_op s (iface_Write b s).2
  | win_read_deadline t s : win_op s (iface_SetReadDeadline t s).2
  | win_write_deadline t s : win_op s (iface_SetWriteDeadline t s).2
  | win_deadline t s : win_op s (iface_SetDeadline t s).2
  | win_announce vip s : win_op s (iface_SendGratuitousARP sendRawFrame_windows vip s).2
  | win_configure mac ip mtu s : win_op s (ConfigureInterface_windows mac ip mtu s).2
  | win_mac mac s : win_op s (IfMac_windows mac s).2
  | win_close s : win_op s (iface_Close s).2.

(** The handle [k] with its pool of events, and the other handles [B]. *)
Definition handle_holds (k : Z) (B : gset Z) (s : Handle * win) : Prop := h s.1 = k /\ events_ok B (s, []).
Definition device_holds (k : Z) (B : gset Z) (s : Device Handle * win) : Prop :=
  exists x, devIo s.1 = Some x /\ handle_holds k B (x, s.2).
Definition win_holds (k : Z) (B : gset Z) (s : Interface Handle * win) : Prop :=
  match Iface s.1 with Some d => device_holds k B (d, s.2) | None => handles s.2 = B end.

Lemma asyncIo_total req m lo hi e s : exists r s', asyncIo req m lo hi e s = (Ok r, s').
Proof.
  destruct s as [x w]. unfold asyncIo, final_result, RGetLastError, gets, sys, mret, M_ret, mbind, M_bind. cbn.
  repeat (case_match; cbn in *; simplify_eq; try (by eexists _, _)).
Qed.

Lemma asyncIo_run req m lo hi e x w : exists r w', asyncIo req m lo hi e (x, w) = (Ok r, (x, w')).
Proof.
  destruct (asyncIo_total req m lo hi e (x, w)) as (r & [x' w'] & E).
  pose proof (asyncIo_unmoved x (handles w) req m lo hi e (x, w) (conj eq_refl eq_refl)) as [U _]. rewrite E in U. cbn in U. subst x'. by eexists _, _.
Qed.

Lemma putEvent_run e x w : exists x' w', putEvent e (x, w) = (Ok tt, (x', w')) /\ h x' = h x.
Proof. unfold putEvent, sys, set_events, modify. unfold mbind, M_bind. destruct (ResetEvent w e) as [w' q]. by eexists _, _. Qed.

Lemma with_event_holds k B name req m lo hi post : preserves (handle_holds k B) (with_event name (asyncIo req m lo hi) post).
Proof.
  intros [x w] [Hh I]. cbn in Hh. unfold with_event. pose proof (getEvent_cases x w) as G.
  destruct (getEvent (x, w)) as [[e|err|] [x1 w1]] eqn:E; [| |done].
  - rewrite (bind_ok _ _ _ (inl e) (x1, w1)) by (unfold mtry; by rewrite E). destruct G as [Hx _].
    assert (events_ok B ((x1, w1), [e])) as I1 by (eapply op_step_ok; [exact I|by apply op_begin]).
    destruct (asyncIo_run req m lo hi e x1 w1) as (r & w2 & Ea). rewrite (bind_ok _ _ _ _ _ Ea).
    assert (events_ok B ((x1, w2), [e])) as I2 by (eapply op_step_ok; [exact I1|by eapply op_io; [left|]]).
    destruct (putEvent_run e x1 w2) as (x3 & w3 & Ep & H3). rewrite (bind_ok _ _ _ _ _ Ep).
    split; [cbn; congruence|]. eapply op_step_ok; [exact I2|by eapply (op_end _ [] e [])].
  - rewrite (bind_ok _ _ _ (inr err) (x1, w1)) by (unfold mtry; by rewrite E). destruct G as [-> Hw]. split; [done|].
    eapply op_step_ok; [exact I|by eapply op_fail].
Qed.

Lemma with_timeout_holds k B dl m io : (forall t, preserves (handle_holds k B) (io t)) -> preserves (handle_holds k B) (with_timeout dl m io).
Proof. intros H. unfold with_timeout, calculateTimeoutMillis. preserve. Qed.

Lemma Read_holds k B n : preserves (handle_holds k B) (handle_Read n).
Proof. unfold handle_Read, ReadTimeout. apply preserves_bind; [preserve|]. intros x. apply with_timeout_holds. intros t. apply with_event_holds. Qed.

Lemma Write_holds k B b : preserves (handle_holds k B) (handle_Write b).
Proof. unfold handle_Write, WriteTimeout. apply preserves_bind; [preserve|]. intros x. apply with_timeout_holds. intros t. apply with_event_holds. Qed.

Lemma deadline_holds k B t : preserves (handle_holds k B) (SetReadDeadline t) /\ preserves (handle_holds k B) (SetWriteDeadline t).
Proof.
  split; intros [x w] [Hh I]; (split; [done|]); (eapply op_step_ok; [exact I|]); eapply Overlapped.op_deadline; [by left|by right].
Qed.

Lemma io_holds {A} k B (none : outcome A) m : preserves (handle_holds k B) m -> preserves (device_holds k B) (with_io none m).
Proof.
  intros H [d w] (x & Hd & Hx). cbn in Hd. unfold with_io. rewrite Hd. specialize (H (x, w) Hx).
  destruct (m (x, w)) as [r [x' w']]. by exists x'.
Qed.

Lemma dev_holds_lift {A} k B (none : outcome A) m : preserves (device_holds k B) m -> preserves (win_holds k B) (on_device none m).
Proof.
  intros H [i w] Hi. unfold win_holds in Hi. cbn in Hi. unfold on_device. destruct (Iface i) as [d|] eqn:E.
  - specialize (H (d, w) Hi). by destruct (m (d, w)) as [r [d' w']].
  - unfold win_holds. cbn. by rewrite E.
Qed.

Lemma win_move k B i i' w w' : Iface i' = Iface i -> handles w' = handles w -> win_holds k B (i, w) -> win_holds k B (i', w').
Proof.
  intros Hi Hw H. unfold win_holds in *. cbn in *. rewrite Hi. destruct (Iface i) as [d|]; [|congruence].
  destruct H as (x & Hd & Hh & I). exists x. split; [done|]. split; [done|]. by eapply events_move.
Qed.

Lemma lift_holds {A} k B (m : M win A) : quiet m -> preserves (win_holds k B) (lift_win m).
Proof.
  intros H [i w] Hi. unfold lift_win. destruct (H w) as [_ H2]. destruct (m w) as [r w']. by eapply win_move.
Qed.

Lemma configured_holds k B ip : preserves (win_holds k B) (set_configured ip).
Proof. intros [i w] H. by eapply win_move. Qed.

Lemma deleteIP_quiet idx ip : quiet (deleteIPAddress idx ip).
Proof. unfold deleteIPAddress. be_quiet; apply quiet_call; intros; apply deleteip_law. Qed.
Lemma setIP_quiet idx ip : quiet (setIPAddress idx ip).
Proof. unfold setIPAddress. be_quiet; apply quiet_call; intros; apply createip_law. Qed.
Lemma setMTU_quiet idx f m : quiet (setMTUAndEnable idx f m).
Proof. unfold setMTUAndEnable. be_quiet; apply quiet_call; intros; (apply getif_law || apply setif_law). Qed.
Lemma powershell_quiet s : quiet (powershell s).
Proof. unfold powershell. be_quiet; apply run_quiet. Qed.

Ltac held := repeat (preserve_step || apply configured_holds || apply lift_holds).

Lemma closePlatform_holds k B : preserves (win_holds k B) closePlatform_windows.
Proof. unfold closePlatform_windows. held. apply deleteIP_quiet. Qed.

Lemma configure_holds k B mac ip mtu : preserves (win_holds k B) (ConfigureInterface_windows mac ip mtu).
Proof. unfold ConfigureInterface_windows. held; (apply deleteIP_quiet || apply setIP_quiet || apply setMTU_quiet). Qed.

Lemma IfMac_holds k B mac : preserves (win_holds k B) (IfMac_windows mac).
Proof. unfold IfMac_windows. held; (apply run_quiet || apply powershell_quiet). Qed.

Lemma win_Write_holds k B b : preserves (win_holds k B) (iface_Write b).
Proof.
  unfold iface_Write. apply preserves_bind; [preserve|]. intros [i w]. destruct (Iface i) as [d|]; [|preserve]. cbv zeta.
  apply preserves_bind; [|intros [[x n] e]; preserve]. apply dev_holds_lift, io_holds, Write_holds.
Qed.

(** The handle is closed with its events. *)
Lemma handle_Close_closes k B x w : k <> 0 -> k <> InvalidHandle -> handle_holds k B (x, w) ->
  exists r s', handle_Close (x, w) = (r, s') /\ r <> Panic /\ handles s'.2 = B.
Proof.
  intros K0 Ki [Hh I]. cbn in Hh. pose proof (close_ok B x w [] I) as C.
  assert (device x <> ∅) as Hd. { unfold device. rewrite Hh. destruct (Z.eqb_spec k 0); [done|]. destruct (Z.eqb_spec k InvalidHandle); [done|]. cbn. set_solver. }
  destruct (handle_Close (x, w)) as [r [x2 w2]]. exists r, (x2, w2). split; [done|]. cbn.
  destruct r as [u|e|]; [| |done]; (split; [done|]); destruct C as [[_ _ _ H4] C2]; destruct (C2 Hd) as [P D]; cbn in *; rewrite H4, P, D; set_solver.
Qed.

Lemma close_closes k B s : k <> 0 -> k <> InvalidHandle -> win_holds k B s ->
  Iface (iface_Close s).2.1 = None /\ handles (iface_Close s).2.2 = B.
Proof.
  intros K0 Ki Hs. destruct s as [i w]. unfold iface_Close. rewrite gets_bind. unfold id. cbv beta iota.
  destruct (Iface i) as [d|] eqn:Ei; [|unfold win_holds in Hs; cbn in Hs |- *; rewrite Ei in *; done].
  assert (exists i1 w1, closePlatform (i, w) = (Ok tt, (i1, w1)) /\ Iface i1 = Some d) as (i1 & w1 & E1 & Hi1).
  { unfold closePlatform, windows_os, closePlatform_windows. rewrite gets_bind. unfold id. cbv beta iota. rewrite Ei.
    destruct (bool_decide _); [by eexists _, _|]. destruct (ifIndex d =? 0); [by eexists _, _|].
    destruct (deleteIP_quiet (ifIndex d) (configuredIP i) w) as [Hp _]. unfold mignore, set_configured, modify, mtry, lift_win. unfold mbind, M_bind.
    destruct (deleteIPAddress (ifIndex d) (configuredIP i) w) as [[u|e|] w1]; [by eexists _, _|by eexists _, _|done]. }
  pose proof (closePlatform_holds k B (i, w) Hs) as H1. change closePlatform_windows with (closePlatform (Platform := windows_os)) in H1.
  rewrite (bind_ok _ _ _ _ _ E1). rewrite E1 in H1. cbn in H1. unfold win_holds in H1. cbn in H1. rewrite Hi1 in H1.
  destruct H1 as (x & Hd & Hx). cbn in Hd, Hx.
  destruct (handle_Close_closes k B x w1 K0 Ki Hx) as (r & [x2 w2] & Ec & Hr & Hh). cbn in Hh.
  assert (exists r', mtry (on_device (Ok tt) device_Close) (i1, w1) = (Ok r', (mkInterface (Some (set_devIo None d)) (configuredIP i1), w2))) as (r' & E2).
  { unfold mtry, on_device. rewrite Hi1. unfold device_Close. rewrite gets_bind. cbn [fst]. rewrite Hd. unfold mtry, with_io, modify.
    unfold mbind, M_bind. rewrite Hd. change (io_Close (x, w1)) with (handle_Close (x, w1)). rewrite Ec. destruct r as [u|e|]; [by eexists|by eexists|done]. }
  rewrite (bind_ok _ _ _ _ _ E2). by destruct r'.
Qed.

Lemma win_op_holds k B s s' : k <> 0 -> k <> InvalidHandle -> win_holds k B s -> win_op s s' -> win_holds k B s'.
Proof.
  intros K0 Ki Hs Hop. destruct Hop as [n s|b s|t s|t s|t s|vip s|mac ip mtu s|mac s|s].
  - refine (dev_holds_lift _ _ _ _ _ s Hs). apply io_holds, Read_holds.
  - by apply win_Write_holds.
  - refine (dev_holds_lift _ _ _ _ _ s Hs). apply io_holds, deadline_holds.
  - refine (dev_holds_lift _ _ _ _ _ s Hs). apply io_holds, deadline_holds.
  - refine (dev_holds_lift _ _ _ _ _ s Hs). unfold device_SetDeadline, device_SetReadDeadline, device_SetWriteDeadline. preserve;
      apply io_holds, deadline_holds.
  - revert s Hs. change (preserves (win_holds k B) (iface_SendGratuitousARP sendRawFrame_windows vip)). unfold iface_SendGratuitousARP, sendRawFrame_windows, sendRawFrame_write.
    apply preserves_bind; [preserve|]. intros [i w]. apply preserves_bind; [preserve|]. intros f.
    apply preserves_bind; [apply win_Write_holds|]. intros [b [n e]]. preserve.
  - by apply configure_holds.
  - by apply IfMac_holds.
  - destruct (close_closes k B s K0 Ki Hs) as [H1 H2]. unfold win_holds. by rewrite H1.
Qed.

Lemma create_holds c w0 : match Create_windows c w0 with
  | (Ok d, w1) => exists k, k <> 0 /\ k <> InvalidHandle /\ k ∉ handles w0 /\ device_holds k (handles w0) (d, w1)
  | (Err _, w1) => handles w1 = handles w0
  | (Panic, _) => False
  end.
Proof.
  unfold Create_windows. destruct (negb _); [done|]. destruct (try_ok (findAndConfigureTapDevice c) w0 (configure_quiet c)) as (r & w1 & E).
  destruct (quiet_try _ (configure_quiet c) w0) as [_ H1]. rewrite E in H1. cbn in H1. rewrite (bind_ok _ _ _ _ _ E).
  destruct r as [[[[path guid] idx] mac]|e]; [|done]. destruct (UTF16PtrFromString path); [done|].
  pose proof (createfile_law w1 path) as C. destruct (CreateFile w1 path) as [w2 [k|e]] eqn:Ec; rewrite (bind_ok _ _ _ _ _ (wcall_eq _ _ _ _ Ec)); [|by cbn; rewrite C].
  rewrite H1 in C. destruct C as (K0 & Ki & KB & H2). cbv zeta. set (dev := mkDevice _ _ _ _ _ _ _).
  assert (quiet (deviceIoControl dev TAP_IOCTL_SET_MEDIA_STATUS [1; 0; 0; 0])) as Q.
  { unfold deviceIoControl. be_quiet. apply quiet_call. intros. apply ioctl_law. }
  destruct (try_ok _ w2 Q) as (r & w3 & E3). destruct (quiet_try _ Q w2) as [_ H3]. rewrite E3 in H3. cbn in H3. rewrite (bind_ok _ _ _ _ _ E3).
  rewrite H2 in H3. destruct r as [n|e].
  - exists k. split_and!; try done. exists (NewOverlapped k 0). split; [done|]. split; [done|].
    assert (device (NewOverlapped k 0) = {[k]}) as D. { unfold device. cbn. destruct (Z.eqb_spec k 0); [done|]. by destruct (Z.eqb_spec k InvalidHandle). }
    constructor; cbn [fst snd]; rewrite ?D; cbn; [constructor|set_solver..|]. rewrite H3. set_solver.
  - pose proof (close_law w3 k ltac:(rewrite H3; set_solver)) as L. destruct (CloseHandle w3 k) as [w4 q] eqn:Eq. destruct L as [_ L].
    rewrite (bind_ok _ _ _ _ _ (wcall_eq _ _ _ _ Eq)). cbn. rewrite L, H3. set_solver.
Qed.
End WindowsLife.

(** C34. A device Windows returns is well formed, and its handle is open: a valid
    one that was not open before, and the only one [Create_windows] has opened
    and not closed again.  And where the adapter can be restarted, a device
    created for a hardware address reports that address, confirmed by the adapter
    or not. *)
Theorem created_device_ok `{TL : TapLaws} c w d w' : Create_windows c w = (Ok d, w') ->
  device_ok c d /\
  (handle d <> 0 /\ handle d <> InvalidHandle /\ handle d ∉ handles w /\ handles w' = {[handle d]} ∪ handles w) /\
  (restarts -> forall m, ParseMAC (c_MACAddress c) = Some m -> macAddr d = Some m).
Proof.
  intros E. destruct (created_device_facts c w d w' E) as [D R]. split; [exact D|]. split; [|exact R].
  pose proof (create_holds c w) as H. rewrite E in H. destruct H as (k & K0 & Ki & Kn & x & Ex & Hk & Hev).
  destruct D as (_ & _ & _ & _ & _ & Ed). cbn in Ex. rewrite Ed in Ex. injection Ex as <-. cbn in Hk. subst k.
  pose proof (ev_handles _ _ Hev) as Hh. cbn in Hh. split_and!; try done. rewrite Hh. unfold device. cbn.
  destruct (Z.eqb_spec (handle d) 0); [done|]. destruct (Z.eqb_spec (handle d) InvalidHandle); [done|]. cbn. set_solver.
Qed.

(** C33. The handles of an interface on Windows: a failed [NewInterface] leaves
    none behind, neither the device nor a key of the registry, on any of its
    error paths; after a successful one every sequence of operations leaves
    open what was before, the device and the events of its pool; [Close] at any
    point ends closed with what was open before. *)
Theorem windows_lifecycle `{TL : TapLaws} c w0 :
  match NewInterface c w0 with
  | (Ok i, w1) => exists k, k ∉ handles w0 /\ forall s, rtc win_op (i, w1) s ->
      match Iface s.1 with
      | Some d => exists x, devIo d = Some x /\ h x = k /\ NoDup (h_events x) /\
          handles s.2 = list_to_set (h_events x) ∪ {[k]} ∪ handles w0
      | None => handles s.2 = handles w0
      end /\
      Iface (iface_Close s).2.1 = None /\ handles (iface_Close s).2.2 = handles w0
  | (Err _, w1) => handles w1 = handles w0
  | (Panic, _) => False
  end.
Proof.
  unfold NewInterface. destruct (negb _); [done|]. pose proof (create_holds c w0) as Hc. change (Create_windows c w0) with (Create c w0) in Hc.
  unfold mbind, M_bind, mtry. destruct (Create c w0) as [[d|e|] w1]; cbn; [|done|done].
  destruct Hc as (k & K0 & Ki & KB & Hd). exists k. split; [done|]. intros s Hr.
  assert (win_holds k (handles w0) s) as Hs.
  { assert (win_holds k (handles w0) (mkInterface (Some d) [], w1)) as H0 by exact Hd. clear -H0 Hr K0 Ki TL. induction Hr; eauto using win_op_holds. }
  split; [|by apply (close_closes k)]. unfold win_holds in Hs. destruct (Iface s.1) as [d'|]; [|done].
  destruct Hs as (x & Hx & Hh & [I1 _ _ I4]). cbn in *. exists x. rewrite app_nil_r in *. split_and!; [done|done|done|]. rewrite I4. f_equal. f_equal.
  unfold device. rewrite Hh. destruct (Z.eqb_spec k 0); [done|]. by destruct (Z.eqb_spec k InvalidHandle).
Qed.

(** ** Addresses *)

(** The addresses of an adapter, as the address fields of their rows.  A
    deletion removes the row's address; a creation that reports an error other
    than that the address exists adds none, any other at most the row's. *)
Class AddrLaws `{WT : WinTap} := {
  ip_addrs : win -> Z -> gset (list Z);
  create_addrs w r : match CreateUnicastIpAddressEntry w r with
    | (w', c) => (forall j, j <> InterfaceIndex r -> ip_addrs w' j = ip_addrs w j) /\
        match callProcErr c with
        | Some e => if errors_is e ERROR_OBJECT_ALREADY_EXISTS then ip_addrs w' (InterfaceIndex r) ⊆ {[Address r]} ∪ ip_addrs w (InterfaceIndex r)
                    else ip_addrs w' (InterfaceIndex r) = ip_addrs w (InterfaceIndex r)
        | None => ip_addrs w' (InterfaceIndex r) ⊆ {[Address r]} ∪ ip_addrs w (InterfaceIndex r)
        end
    end;
  delete_addrs w r j : ip_addrs (DeleteUnicastIpAddressEntry w r).1 j =
    if bool_decide (j = InterfaceIndex r) then ip_addrs w j ∖ {[Address r]} else ip_addrs w j;
  getif_addrs w r j : ip_addrs (GetIpInterfaceEntry w r).1 j = ip_addrs w j;
  setif_addrs w r j : ip_addrs (SetIpInterfaceEntry w r).1 j = ip_addrs w j;
  close_addrs w k j : ip_addrs (CloseHandle w k).1 j = ip_addrs w j;
  cancel_addrs w k o j : ip_addrs (CancelIoEx w k o).1 j = ip_addrs w j }.

(** The address a CIDR configures. *)
Definition cidr_addr (s : list Z) : gset (list Z) :=
  match ParseCIDR s with
  | Some (ip, _) => match row_address ip with Some a => {[a]} | None => ∅ end
  | None => ∅
  end.

Section Addresses.
Context `{AL : AddrLaws}.

Inductive addr_op : Interface Handle * win -> Interface Handle * win -> Prop :=
  | addr_configure mac ip mtu s : addr_op s (ConfigureInterface_windows mac ip mtu s).2
  | addr_close s : addr_op s (iface_Close s).2.

Lemma delete_run idx ip w : exists r w', mtry (deleteIPAddress idx ip) w = (Ok r, w') /\
  (forall j, ip_addrs w' j = if bool_decide (j = idx) then ip_addrs w j ∖ cidr_addr ip else ip_addrs w j).
Proof.
  unfold deleteIPAddress, cidr_addr, mtry. destruct (ParseCIDR ip) as [[a m]|].
  2: { eexists _, _. split; [done|]. intros j. case_bool_decide; [set_solver|done]. }
  destruct (row_address a) as [addr|]; [|eexists _, _; split; [done|]; intros j; case_bool_decide; [set_solver|done]].
  pose proof (fun j => delete_addrs w (delete_row idx addr) j) as D. unfold wcall, mbind, M_bind.
  destruct (DeleteUnicastIpAddressEntry w (delete_row idx addr)) as [w' c]. cbn in D. destruct (callProcErr c) as [e|]; [|by eexists _, _].
  destruct (errors_is e ERROR_NOT_FOUND); by eexists _, _.
Qed.

Lemma set_run idx ip w : exists r w', mtry (setIPAddress idx ip) w = (Ok r, w') /\
  (forall j, j <> idx -> ip_addrs w' j = ip_addrs w j) /\
  match r with
  | inl _ => ip_addrs w' idx ⊆ cidr_addr ip ∪ ip_addrs w idx /\ is_Some (ParseCIDR ip)
  | inr _ => ip_addrs w' idx = ip_addrs w idx
  end.
Proof.
  unfold setIPAddress, cidr_addr, mtry. destruct (ParseCIDR ip) as [[a [n m]]|]; [|by eexists _, _].
  destruct (row_address a) as [addr|]; [|by eexists _, _].
  pose proof (create_addrs w (set_row idx n addr)) as C. unfold wcall, mbind, M_bind.
  destruct (CreateUnicastIpAddressEntry w (set_row idx n addr)) as [w' c]. cbn in C. destruct C as [C1 C2].
  destruct (callProcErr c) as [e|]; [destruct (errors_is e ERROR_OBJECT_ALREADY_EXISTS)|]; eexists _, _; (split; [done|]); (split; [done|]); try done; by split.
Qed.

Lemma mtu_run idx f m w : exists r w', mtry (setMTUAndEnable idx f m) w = (Ok r, w') /\ forall j, ip_addrs w' j = ip_addrs w j.
Proof.
  unfold setMTUAndEnable, mtry, wcall, mbind, M_bind. pose proof (getif_addrs w (mkIfRow f idx 0 [])) as G.
  destruct (GetIpInterfaceEntry w (mkIfRow f idx 0 [])) as [w1 [row c]]. cbn in G. destruct (callProcErr c) as [e|].
  { destruct (errors_is e ERROR_NOT_FOUND); by eexists _, _. }
  destruct (_ && _); [|by eexists _, _].
  match goal with |- context [SetIpInterfaceEntry w1 ?r] => pose proof (setif_addrs w1 r) as S; destruct (SetIpInterfaceEntry w1 r) as [w2 c2] end.
  cbn in S. destruct (callProcErr c2); eexists _, _; (split; [done|]); intros j; by rewrite S.
Qed.

Lemma lift_ignore {A} (m : M win A) i w r w' : mtry m w = (Ok r, w') -> mignore (lift_win m) (i, w) = (Ok tt, (i, w')).
Proof. unfold mtry, mignore, mtry, lift_win. unfold mbind, M_bind. destruct (m w) as [[a|e|] w1]; [by intros [= _ <-]|by intros [= _ <-]|done]. Qed.
Lemma lift_try {A} (m : M win A) i w r w' : mtry m w = (Ok r, w') -> mtry (lift_win m) (i, w) = (Ok r, (i, w')).
Proof. unfold mtry, lift_win. destruct (m w) as [[a|e|] w1]; [by intros [= <- <-]|by intros [= <- <-]|done]. Qed.

(** Beside the addresses [B] of the adapter there is at most the configured
    one; other adapters keep theirs. *)
Definition addrs_ok (idx : Z) (B : Z -> gset (list Z)) (s : Interface Handle * win) : Prop :=
  match Iface s.1 with Some d => ifIndex d = idx | None => configuredIP s.1 = [] end /\
  ip_addrs s.2 idx ⊆ B idx ∪ (if bool_decide (configuredIP s.1 = []) then ∅ else cidr_addr (configuredIP s.1)) /\
  (forall j, j <> idx -> ip_addrs s.2 j = B j).

Lemma configure_addrs idx B mac ip mtu : preserves (addrs_ok idx B) (ConfigureInterface_windows mac ip mtu).
Proof.
  intros [i w] Hok. pose proof Hok as (Hi & Hs & Ho). cbn in Hi, Hs, Ho. unfold ConfigureInterface_windows. rewrite gets_bind. unfold id. cbv beta iota zeta.
  destruct (Iface i) as [d|] eqn:Ei; [|done].
  assert (iface_GetIfIndex i w = idx) as ->. { unfold iface_GetIfIndex. by rewrite Ei. }
  destruct (idx =? 0); [done|].
  set (del := if _ && _ then _ else _).
  assert (exists w1, del (i, w) = (Ok tt, (i, w1)) /\ (forall j, j <> idx -> ip_addrs w1 j = B j) /\
    ip_addrs w1 idx ⊆ B idx ∪ (if bool_decide (configuredIP i = []) then ∅ else cidr_addr (configuredIP i)) /\
    (configuredIP i <> ip -> ip_addrs w1 idx ⊆ B idx)) as (w1 & E1 & O1 & S1 & N1).
  { unfold del. destruct (bool_decide (configuredIP i = [])) eqn:Eb; [exists w; split_and!; try done; set_solver|].
    destruct (bool_decide (configuredIP i = ip)) eqn:Ec; [apply bool_decide_eq_true in Ec; exists w; by split_and!|]. cbn.
    destruct (delete_run idx (configuredIP i) w) as (r & w1 & Ed & Hd). exists w1. split; [by eapply lift_ignore|].
    split; [intros j Hj; rewrite Hd, bool_decide_eq_false_2 by done; by apply Ho|]. rewrite Hd, bool_decide_eq_true_2 by done.
    split; [set_solver|]. intros _. set_solver. }
  rewrite (bind_ok _ _ _ _ _ E1). destruct (set_run idx ip w1) as (r & w2 & E2 & O2 & S2). rewrite (bind_ok _ _ _ _ _ (lift_try _ i _ _ _ E2)).
  destruct r as [[]|e].
  2: { split; [apply Hok|]. cbn. rewrite S2. split; [done|]. intros j Hj. rewrite O2 by done. by apply O1. }
  destruct S2 as [S2 [[a [n m]] Hp]]. unfold set_configured.
  rewrite (bind_ok _ _ _ tt (mkInterface (Iface i) ip, w2)) by done. rewrite Hp. cbv zeta. rewrite Ei.
  match goal with |- context [setMTUAndEnable idx ?f ?m] => destruct (mtu_run idx f m w2) as (r & w3 & E3 & H3) end.
  rewrite (lift_ignore _ _ _ _ _ E3). split; [done|]. cbn. rewrite H3. split.
  - assert (ip <> []) as Hne by (by intros ->). rewrite bool_decide_eq_false_2 by done.
    destruct (decide (configuredIP i = ip)) as [Eq|Ne]; [|specialize (N1 Ne); set_solver].
    rewrite Eq, bool_decide_eq_false_2 in S1 by done. set_solver.
  - intros j Hj. rewrite H3, O2 by done. by apply O1.
Qed.

Lemma sys_addrs {S A} X (f : win -> win * A) : (forall w j, ip_addrs (f w).1 j = ip_addrs w j) ->
  preserves (fun s : S * win => forall j, ip_addrs s.2 j = X j) (sys f).
Proof. intros H [s w] Hx j. unfold sys. specialize (H w j). destruct (f w). cbn in *. by rewrite H. Qed.

Lemma handle_Close_addrs X : preserves (fun s : Handle * win => forall j, ip_addrs s.2 j = X j) handle_Close.
Proof.
  unfold handle_Close, set_events. repeat (preserve_step || (apply preserves_modify; intros [? ?]; done)); apply sys_addrs; intros;
    (apply close_addrs || apply cancel_addrs).
Qed.

Lemma device_Close_addrs X : preserves (fun s : Device Handle * win => forall j, ip_addrs s.2 j = X j) device_Close.
Proof.
  unfold device_Close. repeat (preserve_step || (apply preserves_modify; intros [? ?]; done)).
  intros [d' w] H. unfold with_io. destruct (devIo d') as [x|]; [|done]. specialize (handle_Close_addrs X (x, w) H).
  change (io_Close (x, w)) with (handle_Close (x, w)). by destruct (handle_Close (x, w)) as [r [x' w']].
Qed.

Lemma close_events_total l : forall (x : Handle) w, exists w', mfor l (fun e => mignore (sys (fun w => CloseHandle w e))) (x, w) = (Ok tt, (x, w')).
Proof.
  induction l as [|e l IH]; intros x w; [by eexists|]. cbn [mfor]. destruct (CloseHandle w e) as [w1 r] eqn:E.
  rewrite (bind_ok _ _ _ tt (x, w1)); [apply IH|]. unfold mignore, mtry, sys. unfold mbind, M_bind. by rewrite E.
Qed.

Lemma device_Close_total d w : (device_Close (d, w)).1 <> Panic.
Proof.
  unfold device_Close. rewrite gets_bind. cbn [fst]. destruct (devIo d) as [x|] eqn:Ed; [|done].
  assert (exists r s', handle_Close (x, w) = (r, s') /\ r <> Panic) as (r & [x' w'] & E & Hr).
  { unfold handle_Close. rewrite gets_bind. cbn [fst]. destruct (_ || _); [by eexists _, _|].
    destruct (CancelIoEx w (h x) None) as [w1 r1] eqn:E1. rewrite (bind_ok _ _ _ r1 (x, w1)) by (unfold sys; by rewrite E1).
    destruct (CloseHandle w1 (h x)) as [w2 r2] eqn:E2. rewrite (bind_ok _ _ _ r2 (x, w2)) by (unfold sys; by rewrite E2).
    erewrite bind_ok; [|reflexivity]. rewrite gets_bind. cbn [fst h_events].
    destruct (close_events_total (h_events x) (mkHandle 0 (h_events x) (defaultTimeout x) (readDeadline x) (writeDeadline x)) w2) as [w3 E3].
    rewrite (bind_ok _ _ _ _ _ E3). destruct r2; by eexists _, _. }
  unfold mtry, with_io, modify. unfold mbind, M_bind. rewrite Ed. change (io_Close (x, w)) with (handle_Close (x, w)). rewrite E.
  by destruct r.
Qed.

(** The clean-up deletes what was configured. *)
Lemma closePlatform_addrs idx B i d w : idx <> 0 -> Iface i = Some d -> addrs_ok idx B (i, w) ->
  exists w', closePlatform (i, w) = (Ok tt, (mkInterface (Some d) [], w')) /\ ip_addrs w' idx ⊆ B idx /\ forall j, j <> idx -> ip_addrs w' j = B j.
Proof.
  intros H0 Ei (Hi & Hs & Ho). cbn in Hi, Hs, Ho. rewrite Ei in Hi. unfold closePlatform, windows_os, closePlatform_windows. rewrite gets_bind. unfold id. cbv beta iota.
  case_bool_decide as Ec. { destruct i as [o c]. cbn in *. subst. exists w. split_and!; [done|set_solver|done]. }
  rewrite Ei. destruct (Z.eqb_spec (ifIndex d) 0); [congruence|]. rewrite Hi. destruct (delete_run idx (configuredIP i) w) as (r & w1 & E & H).
  rewrite (bind_ok _ _ _ _ _ (lift_ignore _ i _ _ _ E)). unfold set_configured, modify. cbn [Iface]. rewrite Ei. eexists. split; [done|]. split.
  - rewrite H, bool_decide_eq_true_2 by done. set_solver.
  - intros j Hj. rewrite H, bool_decide_eq_false_2 by done. by apply Ho.
Qed.

Lemma iface_Close_addrs idx B s : idx <> 0 -> addrs_ok idx B s ->
  addrs_ok idx B (iface_Close s).2 /\ ip_addrs (iface_Close s).2.2 idx ⊆ B idx.
Proof.
  intros H0 Hs. destruct s as [i w]. unfold iface_Close. rewrite gets_bind. unfold id. cbv beta iota.
  destruct (Iface i) as [d|] eqn:Ei.
  - destruct (closePlatform_addrs idx B i d w H0 Ei Hs) as (w1 & E1 & S1 & O1). rewrite (bind_ok _ _ _ _ _ E1).
    pose proof (device_Close_addrs (ip_addrs w1) (d, w1) (fun _ => eq_refl)) as Hd. pose proof (device_Close_total d w1) as T.
    unfold mtry, on_device, modify. unfold mbind, M_bind. cbn [Iface]. destruct (device_Close (d, w1)) as [r [d' w2]]. cbn in Hd.
    assert (addrs_ok idx B (mkInterface None [], w2) /\ ip_addrs w2 idx ⊆ B idx) as G.
    { rewrite Hd. split; [|done]. split; [done|]. cbn. rewrite Hd. split; [set_solver|]. intros j Hj. rewrite Hd. by apply O1. }
    destruct r as [u|e|]; [exact G|exact G|done].
  - split; [done|]. destruct Hs as (Hi & Hs & _). cbn in *. rewrite Ei in Hi. rewrite Hi in Hs. cbn in Hs. set_solver.
Qed.
End Addresses.

(** The addresses an interface on Windows leaves: after any sequence of
    configurations and closes its adapter has, beside the addresses it had,
    at most the one configured last, other adapters have theirs, and [Close]
    leaves no address behind. *)
Theorem windows_addresses `{AL : AddrLaws} d w0 s : ifIndex d <> 0 ->
  rtc addr_op (mkInterface (Some d) [], w0) s ->
  ip_addrs s.2 (ifIndex d) ⊆ ip_addrs w0 (ifIndex d) ∪ cidr_addr (configuredIP s.1) /\
  (forall j, j <> ifIndex d -> ip_addrs s.2 j = ip_addrs w0 j) /\
  ip_addrs (iface_Close s).2.2 (ifIndex d) ⊆ ip_addrs w0 (ifIndex d).
Proof.
  intros H0 Hr. assert (addrs_ok (ifIndex d) (ip_addrs w0) (mkInterface (Some d) [], w0)) as I0 by (split; [done|]; cbn; set_solver).
  assert (addrs_ok (ifIndex d) (ip_addrs w0) s) as I.
  { clear -I0 Hr H0 AL. induction Hr as [s|s1 s2 s3 Ho _ IH]; [done|]. apply IH. destruct Ho; [by apply configure_addrs|by apply iface_Close_addrs]. }
  pose proof (iface_Close_addrs _ _ s H0 I) as [_ C]. destruct I as (_ & S & O). split_and!; [|done|done]. case_bool_decide; set_solver.
Qed.

(** ** Failures that are not seen *)

Lemma parseIPv4_length s ip : parseIPv4 s = Some ip -> length ip = 4%nat.
Proof. unfold parseIPv4. repeat case_match; try done. intros E. repeat (apply bind_Some in E as (? & _ & E)). by simplify_eq. Qed.

Lemma v6_groups_length f : forall s acc ell acc' ell', v6_groups f s acc ell = Some (acc', ell') ->
  (length acc + 2 * f <= 16)%nat -> (length acc' <= 16)%nat.
Proof.
  induction f as [|f IH]; intros s acc ell acc' ell'; cbn [v6_groups].
  - destruct s; [|done]. intros [= <- _]. lia.
  - destruct (_ || _); [done|]. intros H Hl.
    assert (forall v, length (acc ++ [v / 256; v mod 256]) = (length acc + 2)%nat) as La by (intros; rewrite length_app; done).
    repeat (case_match; try discriminate H);
      try (apply bind_Some in H as (v & Hv & H); try discriminate H; simplify_eq; rewrite ?La; try lia;
           first [case_match; [|discriminate H]; case_match; simplify_eq; rewrite ?La; try lia|idtac];
           try (eapply IH; [exact H|]; rewrite La; lia)).
    apply parseIPv4_length in Hv. rewrite length_app. match goal with E : _ || bool_decide _ = false |- _ => apply orb_false_elim in E as [_ E]; apply bool_decide_eq_false_1 in E end. lia.
Qed.

#[local] Opaque v6_groups.
Lemma parseIPv6_shape s : parseIPv6 s = Some (replicate 16 0) \/ exists r, parseIPv6 s = (v6_groups 8 r.1 [] r.2 ≫= v6_expand).
Proof.
  unfold parseIPv6. repeat match goal with |- context [match ?x with _ => _ end] => is_var x; destruct x end;
    first [left; reflexivity | right; eexists (_, None); cbn [fst snd]; reflexivity | right; eexists (_, Some O); cbn [fst snd]; reflexivity].
Qed.

Lemma ParseAddr_length s ip : ParseAddr s = Some ip -> length ip = 4%nat \/ length ip = 16%nat.
Proof.
  assert (forall r, (match v6_groups 8 r.1 [] r.2 with Some x => v6_expand x | None => None end) = Some ip -> length ip = 16%nat) as G.
  { intros [t ell]. cbn [fst snd]. destruct (v6_groups 8 t [] ell) as [[acc e]|] eqn:E; [|done]. apply v6_groups_length in E; [|cbn; lia].
    unfold v6_expand. case_bool_decide; [|case_bool_decide; [intros [= <-]; lia|done]]. destruct e as [e|]; [|done]. intros [= <-].
    rewrite !length_app, length_take, length_replicate, length_drop. lia. }
  unfold ParseAddr. destruct (addr_kind s) as [k|]; [|done]. destruct (decide (k = 46)) as [->|]; [intros H; left; by eapply parseIPv4_length|].
  destruct (decide (k = 58)) as [->|]; [|by repeat case_match]. case_bool_decide; [done|]. intros Hp. right.
  destruct (parseIPv6_shape s) as [E|[r E]]; rewrite E in Hp; [by injection Hp as <-|exact (G r Hp)].
Qed.
#[local] Transparent v6_groups.

Lemma row_address_some s ip m : ParseCIDR s = Some (ip, m) -> is_Some (row_address ip).
Proof.
  unfold ParseCIDR. intros H. apply bind_Some in H as (i & _ & H). apply bind_Some in H as (a & Ha & H). apply bind_Some in H as (n & _ & H).
  apply ParseAddr_length in Ha. destruct (n <=? 8 * len a); [|done]. injection H as <- _.
  assert (length (if bool_decide (length a = 4)%nat then v4InV6Prefix ++ a else a) = 16%nat) as L by (case_bool_decide; rewrite ?length_app; cbn; lia).
  unfold row_address. destruct (negb _); [by eexists|]. rewrite bool_decide_eq_true_2 by done. by eexists.
Qed.

Section Failures.
Context `{WT : WinTap}.

Lemma delete_total idx ip w : exists r w', mtry (deleteIPAddress idx ip) w = (Ok r, w').
Proof.
  unfold deleteIPAddress, mtry, wcall, mbind, M_bind. repeat (case_match; simplify_eq; try (by eexists _, _)).
Qed.

Lemma mtu_total idx f m w : exists r w', mtry (setMTUAndEnable idx f m) w = (Ok r, w').
Proof.
  unfold setMTUAndEnable, mtry, wcall, mbind, M_bind. repeat (case_match; simplify_eq; try (by eexists _, _)).
Qed.
End Failures.

(** The procedures of the IP helper library return their error code and do not
    set the last error, which is what [callProcErr] looks at: configuring a
    well-formed CIDR then succeeds and is recorded, whatever they return. *)
Theorem return_codes_ignored `{WT : WinTap} mac ip mtu (i : Interface Handle) d w x :
  (forall w r, (CreateUnicastIpAddressEntry w r).2.2 = None) ->
  Iface i = Some d -> ifIndex d <> 0 -> ParseCIDR ip = Some x ->
  exists w', ConfigureInterface_windows mac ip mtu (i, w) = (Ok tt, (mkInterface (Some d) ip, w')).
Proof.
  intros Hl Hi H0 Hp. unfold ConfigureInterface_windows. rewrite gets_bind. unfold id. cbv beta iota zeta. rewrite Hi. unfold iface_GetIfIndex. rewrite Hi.
  change (GetIfIndex d w) with (ifIndex d). destruct (Z.eqb_spec (ifIndex d) 0) as [|_]; [done|]. set (del := if _ && _ then _ else _).
  assert (exists w1, del (i, w) = (Ok tt, (i, w1))) as (w1 & E1).
  { unfold del. destruct (_ && _); [|by eexists]. destruct (delete_total (ifIndex d) (configuredIP i) w) as (r & w1 & E). eexists. by eapply lift_ignore. }
  rewrite (bind_ok _ _ _ _ _ E1).
  assert (exists w2, mtry (setIPAddress (ifIndex d) ip) w1 = (Ok (inl tt), w2)) as (w2 & E2).
  { unfold setIPAddress, mtry. rewrite Hp. destruct x as [a [n m]]. destruct (row_address_some _ _ _ Hp) as [addr ->].
    specialize (Hl w1 (set_row (ifIndex d) n addr)). unfold wcall, mbind, M_bind.
    destruct (CreateUnicastIpAddressEntry w1 (set_row (ifIndex d) n addr)) as [w2 [r1 e]]. cbn in Hl. subst e. by eexists. }
  rewrite (bind_ok _ _ _ _ _ (lift_try _ i _ _ _ E2)). unfold set_configured. rewrite (bind_ok _ _ _ tt (mkInterface (Iface i) ip, w2)) by done.
  rewrite Hp, Hi. destruct x as [a m]. cbv zeta. match goal with |- context [setMTUAndEnable ?j ?f ?k] => destruct (mtu_total j f k w2) as (r & w3 & E3) end.
  exists w3. by eapply lift_ignore.
Qed.

(** ** Writing and announcing *)

Lemma announcement_frame m vip frame : length m = 6%nat -> SendGratuitousARP (Some m) vip = Ok frame ->
  FastDestination frame = Ok BroadcastAddr /\ length frame = 42%nat.
Proof.
  intros Hl. unfold SendGratuitousARP. assert (To4 vip = [] \/ length (To4 vip) = 4%nat) as H4.
  { unfold To4. case_bool_decide; [by right|]. case_bool_decide; [|by left]. cbn. case_bool_decide; [|by left]. right. rewrite length_drop. lia. }
  destruct (To4 vip) as [|b ip4]; [done|]. destruct H4 as [?|H4]; [done|]. rewrite bool_decide_eq_false_2 by lia.
  do 3 (destruct ip4 as [|? ip4]; [done|]). destruct ip4; [|done]. do 6 (destruct m as [|? m]; [done|]). destruct m; [|done].
  intros [= <-]. split; reflexivity.
Qed.

(** On Windows the announcement of an address is written to the device itself
    with its destination replaced by the device's own hardware address: what the
    handle is given is not a broadcast. *)
Theorem announcement_not_broadcast `{WT : WinTap} (i : Interface Handle) d x m vip frame w :
  Iface i = Some d -> devIo d = Some x -> macAddr d = Some m -> length m = 6%nat -> m <> BroadcastAddr ->
  SendGratuitousARP (Some m) vip = Ok frame ->
  FastDestination frame = Ok BroadcastAddr /\
  exists written, FastDestination written = Ok m /\ length written = length frame /\ IsBroadcast m = false /\
    (iface_SendGratuitousARP sendRawFrame_windows vip (i, w)).2.2 = (handle_Write written (x, w)).2.2.
Proof.
  intros Hi Hd Hm Hl Hb Hf. destruct (announcement_frame m vip frame Hl Hf) as [Hdst Hlen]. split; [done|].
  assert (copy_at frame 0 6 m = m ++ drop 6 frame) as Hc.
  { unfold copy_at. rewrite Hl. change (Nat.min (6 - 0) 6) with 6%nat. change (0 + 6)%nat with 6%nat. by rewrite take_0, (take_ge m) by lia. }
  exists (m ++ drop 6 frame). split_and!.
  - unfold FastDestination, slice. rewrite length_app, Hl. cbn. rewrite drop_0, take_app_le, take_ge by lia. done.
  - rewrite length_app, length_drop. lia.
  - unfold IsBroadcast. rewrite Hl. cbn. do 6 (destruct m as [|? m]; [done|]). destruct m; [|done]. cbn.
    destruct (_ && _) eqn:E; [|done]. exfalso. apply Hb. unfold BroadcastAddr. rewrite !andb_true_iff, !Z.eqb_eq in E. naive_solver.
  - unfold iface_SendGratuitousARP. rewrite gets_bind. unfold id, HardwareAddr. cbv beta iota. rewrite Hi. cbn [mbind option_bind].
    change (GetMACAddress d w) with (macAddr d). rewrite Hm, Hf. rewrite (bind_ok _ _ (i, w) frame (i, w)) by done.
    unfold sendRawFrame_windows, sendRawFrame_write, iface_Write. unfold mbind, M_bind, gets, id. rewrite Hi.
    change (GetMACAddress d w) with (macAddr d). rewrite Hm, Hl, Hlen. cbn [GOOS_windows windows_os andb Nat.leb ethernetHeaderSize Nat.eqb].
    rewrite Hc.
    unfold on_device. rewrite Hi. unfold device_Write, with_io. rewrite Hd. change (io_Write ?b (x, w)) with (handle_Write b (x, w)).
    destruct (handle_Write _ (x, w)) as [[[[? ?] [?|]]|?|] [x' w']]; [done| |done|done]. cbn. by destruct (_ =? _).
Qed.

(** ** The registry's form of a hardware address *)
Lemma hexval_range c v : hexval c = Some v -> 0 <= v < 16.
Proof. unfold hexval. repeat case_match; intros [= <-]; lia. Qed.

Lemma xtoi2_byte c1 c2 b : xtoi2 c1 c2 = Some b -> is_byte b.
Proof.
  unfold xtoi2. intros H. apply bind_Some in H as (x & Hx & H). apply bind_Some in H as (y & Hy & H). injection H as <-.
  apply hexval_range in Hx, Hy. unfold is_byte. lia.
Qed.

Lemma mac_groups_bytes n sep : forall s m, mac_groups n sep s = Some m -> bytes_ok m.
Proof.
  induction n as [|n IH]; intros s m; cbn [mac_groups]; [destruct s; [by intros [= <-]; constructor|done]|].
  assert (forall c1 c2 e s', (b ← xtoi2 c1 c2; if e =? sep then r ← mac_groups n sep s'; Some (b :: r) else None) = Some m -> bytes_ok m) as G.
  { intros c1 c2 e s' H. apply bind_Some in H as (b & Hb & H). destruct (e =? sep); [|done]. apply bind_Some in H as (r & Hr & H). injection H as <-.
    constructor; [by eapply xtoi2_byte|by eapply IH]. }
  destruct n, s as [|c1 [|c2 [|e s']]]; try done; [|apply G|apply G].
  intros H. apply bind_Some in H as (b & Hb & H). injection H as <-. constructor; [by eapply xtoi2_byte|constructor].
Qed.

Lemma mac_quads_bytes n : forall s m, mac_quads n s = Some m -> bytes_ok m.
Proof.
  induction n as [|n IH]; intros s m; cbn [mac_quads]; [by destruct s|].
  assert (forall c1 c2 c3 c4 e s', (a ← xtoi2 c1 c2; b ← xtoi2 c3 c4; if e =? 46 then r ← mac_quads n s'; Some (a :: b :: r) else None) = Some m -> bytes_ok m) as G.
  { intros c1 c2 c3 c4 e s' H. apply bind_Some in H as (a & Ha & H). apply bind_Some in H as (b & Hb & H). destruct (e =? 46); [|done].
    apply bind_Some in H as (r & Hr & H). injection H as <-. constructor; [by eapply xtoi2_byte|]. constructor; [by eapply xtoi2_byte|by eapply IH]. }
  destruct n, s as [|c1 [|c2 [|c3 [|c4 [|e s']]]]]; try done; [|apply G|apply G].
  intros H. apply bind_Some in H as (a & Ha & H). apply bind_Some in H as (b & Hb & H). injection H as <-.
  constructor; [by eapply xtoi2_byte|]. constructor; [by eapply xtoi2_byte|constructor].
Qed.

Lemma ParseMAC_bytes s m : ParseMAC s = Some m -> bytes_ok m.
Proof.
  unfold ParseMAC. case_bool_decide; [done|]. cbv zeta. destruct (_ || _).
  - destruct (_ && _); [apply mac_groups_bytes|done].
  - destruct (_ =? 46); [|done]. destruct (_ && _); [apply mac_quads_bytes|done].
Qed.

Lemma upper_digit d : 0 <= d < 16 -> hexval (ascii_upper (hexdigit d)) = Some d.
Proof.
  intros H. assert (d ∈ [0; 1; 2; 3; 4; 5; 6; 7; 8; 9; 10; 11; 12; 13; 14; 15]) as Hd
    by (rewrite !elem_of_cons, elem_of_nil; lia).
  rewrite !elem_of_cons, elem_of_nil in Hd. repeat (destruct Hd as [->|Hd]; [reflexivity|]). done.
Qed.

Lemma upper_byte b : is_byte b -> xtoi2 (ascii_upper (hexdigit (b / 16))) (ascii_upper (hexdigit (b mod 16))) = Some b.
Proof.
  intros H. unfold is_byte in H. unfold xtoi2. rewrite !upper_digit; [| |apply Z.mod_pos_bound; lia].
  { transitivity (Some (16 * (b / 16) + b mod 16)); [reflexivity|]. by rewrite <-Z.div_mod by lia. }
  split; [apply Z.div_pos; lia|apply Z.div_lt_upper_bound; lia].
Qed.

(** The value written to the registry for a configured hardware address is
    seventeen characters that parse back to it: six bytes, whichever of the
    accepted forms the configuration has it in. *)
Theorem registry_mac_roundtrip c t m : target_mac c = Ok (Some (t, m)) ->
  ParseMAC (c_MACAddress c) = Some m /\ length m = 6%nat /\ bytes_ok m /\ length t = 17%nat /\ ParseMAC t = Some m.
Proof.
  intros H. apply target_cases in H as (Hp & Hl & ->). pose proof (ParseMAC_bytes _ _ Hp) as Hb. split_and!; try done; clear Hp;
    do 6 (destruct m as [|? m]; [done|]); (destruct m; [|done]); [done|].
  repeat (apply Forall_cons in Hb as [? Hb]). unfold ParseMAC. cbn [fmap list_fmap strings_Join upper_hex2 hex2 app length].
  cbn -[xtoi2 Z.div Z.modulo hexdigit ascii_upper]. rewrite !upper_byte by done. reflexivity.
Qed.

(** ** A system: one adapter, which may refuse addresses *)
Module WindowsSample.
Record wsys := mkWsys { ws_handles : gset Z; ws_addrs : gset (list Z); ws_refuses : bool }.

Definition opened (w : wsys) : wsys * (Z + goerr) :=
  let k := fresh ({[0; InvalidHandle]} ∪ ws_handles w) in (mkWsys ({[k]} ∪ ws_handles w) (ws_addrs w) (ws_refuses w), inl k).
Definition closed (w : wsys) (k : Z) : wsys * option goerr := (mkWsys (ws_handles w ∖ {[k]}) (ws_addrs w) (ws_refuses w), None).

#[export] Instance api : WinAPI := {|
  win := wsys;
  time_Now := fun _ => 0;
  CreateEvent := opened;
  ResetEvent := fun w _ => (w, None);
  CloseHandle := closed;
  CancelIoEx := fun w _ _ => (w, None);
  StartIO := fun w req _ _ _ _ => (w, match req with WriteReq b => mkIO (len b) [] None | ReadReq _ => mkIO 0 [] (Some ERROR_IO_PENDING) end);
  WaitForSingleObject := fun w _ _ => (w, inl WAIT_TIMEOUT);
  GetOverlappedResult := fun w _ _ => (w, mkIO 1 [7] None);
  GetLastError := fun _ => Some (ErrNew "The handle is invalid.") |}.

Definition guid : list Z := str "{G}".

#[export] Instance tap : WinTap := {|
  OpenKey w _ _ _ := opened w;
  KeyClose := closed;
  ReadSubKeyNames _ _ := inl [str "0001"];
  GetStringValue _ _ n := inl (if bool_decide (n = componentIDRegValue) then tapWindows11ComponentID else guid);
  SetStringValue w _ _ _ := (w, None);
  GetAdaptersAddresses w _ := (w, inl [mkAdapter (Some guid) 5 6 [0; 255; 1; 2; 3; 4; 0; 0]], 15000);
  time_Sleep w _ := w;
  cmd_Run w _ := (w, (str "5", None));
  UTF16PtrFromString _ := None;
  CreateFile w _ := opened w;
  DeviceIoControl w _ _ _ := (w, (0, None));
  CreateUnicastIpAddressEntry w r :=
    if ws_refuses w then (w, (5, None))
    else (mkWsys (ws_handles w) (if InterfaceIndex r =? 5 then {[Address r]} ∪ ws_addrs w else ws_addrs w) (ws_refuses w), (0, None));
  DeleteUnicastIpAddressEntry w r :=
    (mkWsys (ws_handles w) (if InterfaceIndex r =? 5 then ws_addrs w ∖ {[Address r]} else ws_addrs w) (ws_refuses w), (0, None));
  GetIpInterfaceEntry w r := (w, (r, (0, None)));
  SetIpInterfaceEntry w r := (w, (0, None)) |}.

Lemma opened_fresh w w' k : opened w = (w', inl k) -> k <> 0 /\ k <> InvalidHandle /\ k ∉ ws_handles w /\ ws_handles w' = {[k]} ∪ ws_handles w.
Proof.
  unfold opened. intros E. injection E as <- <-. pose proof (is_fresh ({[0; InvalidHandle]} ∪ ws_handles w)) as F. cbn [ws_handles].
  split_and!; [set_solver..|done].
Qed.

#[export, refine] Instance event_laws : EventLaws := {| handles := ws_handles |}.
Proof.
  - intros w. unfold CreateEvent, api. destruct (opened w) as [w' r] eqn:E. destruct r as [k|e]; [|done]. destruct (opened_fresh _ _ _ E) as (? & ? & ? & ?). done.
  - intros w k _. cbn. done.
  - done.
  - done.
  - done.
  - done.
  - done.
Defined.

#[export] Instance tap_laws : TapLaws.
Proof.
  split; try done.
  - intros w p n a. unfold OpenKey, tap. destruct (opened w) as [w' r] eqn:E. destruct r as [k|e]; [|done]. by destruct (opened_fresh _ _ _ E) as (? & ? & ? & ?).
  - intros w p. unfold CreateFile, tap. destruct (opened w) as [w' r] eqn:E. destruct r as [k|e]; [|done]. exact (opened_fresh _ _ _ E).
  - intros w r. cbn. by destruct (ws_refuses w).
Defined.

#[export, refine] Instance addr_laws : AddrLaws := {| ip_addrs w j := if j =? 5 then ws_addrs w else ∅ |}.
Proof.
  all: try done.
  - intros w r. cbn. destruct (ws_refuses w); cbn; [split; [done|]; destruct (_ =? 5); set_solver|]. split.
    + intros j Hj. destruct (Z.eqb_spec j 5) as [->|]; [|done]. by destruct (Z.eqb_spec (InterfaceIndex r) 5).
    + destruct (Z.eqb_spec (InterfaceIndex r) 5); set_solver.
  - intros w r j. cbn. case_bool_decide as E.
    + subst j. destruct (Z.eqb_spec (InterfaceIndex r) 5); [done|set_solver].
    + destruct (Z.eqb_spec j 5) as [->|]; [|done]. destruct (Z.eqb_spec (InterfaceIndex r) 5) as [E2|]; [by rewrite E2 in E|done].
Defined.

Definition w0 : win := mkWsys {[7; 8]} ∅ false.
Definition cfg : Config := mkConfig [] TAP (str "02:0a:0b:0c:0d:0e") false 0 0 0.
Definition dev : Device Handle := mkDevice guid TAP cfg (Some (NewOverlapped 9 0)) 9 5 (Some [2; 10; 11; 12; 13; 14]).
End WindowsSample.
Import WindowsSample.

Lemma windows_lifecycle_witness : exists i w1, NewInterface cfg w0 = (Ok i, w1) /\
  handles (iface_Close (iface_Read 10 (iface_Write (replicate 20 1) (i, w1)).2).2).2.2 = handles w0.
Proof.
  pose proof (windows_lifecycle cfg w0) as L.
  assert (succeeds (NewInterface cfg w0) = true) as B by (vm_compute; reflexivity).
  destruct (NewInterface cfg w0) as [[i|e|] w1]; [|discriminate B|discriminate B].
  exists i, w1. split; [reflexivity|]. destruct L as (k & _ & L).
  destruct (L (iface_Read 10 (iface_Write (replicate 20 1) (i, w1)).2).2) as (_ & _ & C); [|exact C].
  eapply rtc_l; [apply win_write|]. apply rtc_once. constructor.
Defined.

Lemma created_device_ok_witness : exists d w1, Create_windows cfg w0 = (Ok d, w1) /\ device_ok cfg d /\ handle d ∈ handles w1 /\ macAddr d = Some [2; 10; 11; 12; 13; 14].
Proof.
  pose proof (created_device_ok cfg w0) as L.
  assert (succeeds (Create_windows cfg w0) = true) as B by (vm_compute; reflexivity).
  destruct (Create_windows cfg w0) as [[d|e|] w1]; [|discriminate B|discriminate B].
  exists d, w1. split; [reflexivity|]. destruct (L d w1 eq_refl) as (H1 & (_ & _ & _ & Ho) & H2). split; [exact H1|].
  split; [rewrite Ho; apply elem_of_union_l, elem_of_singleton; reflexivity|]. apply H2.
  - intros w. eexists. vm_compute. reflexivity.
  - vm_compute. reflexivity.
Defined.

Lemma windows_addresses_witness : exists s, rtc addr_op (mkInterface (Some dev) [], w0) s /\ configuredIP s.1 = str "10.64.0.9/16" /\
  ip_addrs s.2 5 ⊆ cidr_addr (str "10.64.0.9/16") /\ ip_addrs (iface_Close s).2.2 5 ⊆ ∅.
Proof.
  set (s1 := (ConfigureInterface_windows [] (str "10.64.0.7/16") 1400 (mkInterface (Some dev) [], w0)).2).
  set (s2 := (ConfigureInterface_windows [] (str "10.64.0.9/16") 1400 s1).2).
  assert (rtc addr_op (mkInterface (Some dev) [], w0) s2) as Hr.
  { eapply rtc_l; [exact (addr_configure [] (str "10.64.0.7/16") 1400 _)|]. apply rtc_once. exact (addr_configure [] (str "10.64.0.9/16") 1400 s1). }
  assert (configuredIP s2.1 = str "10.64.0.9/16") as Hc by (vm_compute; reflexivity).
  destruct (windows_addresses dev w0 s2 ltac:(discriminate) Hr) as (H1 & _ & H3).
  exists s2. split; [exact Hr|]. split; [exact Hc|]. rewrite Hc in H1. split; [|exact H3]. intros a Ha. apply H1 in Ha.
  apply elem_of_union in Ha as [Ha|Ha]; [|exact Ha]. exfalso. exact (not_elem_of_empty a Ha).
Defined.

Definition refusing : win := mkWsys ∅ ∅ true.

Lemma return_codes_ignored_witness : exists w', ConfigureInterface_windows [] (str "10.64.0.9/16") 1400 (mkInterface (Some dev) [], refusing) =
  (Ok tt, (mkInterface (Some dev) (str "10.64.0.9/16"), w')).
Proof.
  apply (return_codes_ignored [] (str "10.64.0.9/16") 1400 (mkInterface (Some dev) []) dev refusing
    (v4InV6Prefix ++ [10; 64; 0; 9], (16, [255; 255; 0; 0]))).
  - intros w r. cbn. destruct (ws_refuses w); reflexivity.
  - reflexivity.
  - discriminate.
  - vm_compute. reflexivity.
Defined.

Lemma announcement_not_broadcast_witness : exists frame, SendGratuitousARP (Some [2; 10; 11; 12; 13; 14]) [10; 64; 0; 9] = Ok frame /\
  FastDestination frame = Ok BroadcastAddr.
Proof.
  destruct (SendGratuitousARP (Some [2; 10; 11; 12; 13; 14]) [10; 64; 0; 9]) as [frame|e|] eqn:E; [|discriminate E|discriminate E].
  exists frame. split; [reflexivity|].
  refine (proj1 (announcement_not_broadcast (mkInterface (Some dev) []) dev (NewOverlapped 9 0) [2; 10; 11; 12; 13; 14] [10; 64; 0; 9] frame w0
    eq_refl eq_refl eq_refl eq_refl _ E)). discriminate.
Defined.

Lemma registry_mac_roundtrip_witness : target_mac cfg = Ok (Some (str "02-0A-0B-0C-0D-0E", [2; 10; 11; 12; 13; 14])) /\
  ParseMAC (str "02-0A-0B-0C-0D-0E") = Some [2; 10; 11; 12; 13; 14].
Proof.
  assert (target_mac cfg = Ok (Some (str "02-0A-0B-0C-0D-0E", [2; 10; 11; 12; 13; 14]))) as E by (vm_compute; reflexivity).
  split; [exact E|]. destruct (registry_mac_roundtrip _ _ _ E) as (_ & _ & _ & _ & H). exact H.
Defined.
