(* ===== verification/Commands.v ===== *)
(** * Commands: [cmd/edge], [cmd/supernode], and the loading of configurations

    The log command with its time specifications and outputs over the logger of
    [Log], the configuration the up command makes of a loaded one and its
    flags, the control command over the management client, and the start and
    end of both programs as the calls they make.  Parsing of the command line
    (urfave/cli), of configuration files (viper) and flags are parameters. *)
From S2P Require Import Prelude GoBytes GoNet SNState.
From S2P Require Import Log GoTime Management ManagementProps Transport EdgeRun EdgeSetup Benchmark.
From stdpp Require Import gmap list strings.
From Stdlib Require Import ZArith Lia.
Open Scope Z_scope.

(** ** [edge_logs.go] *)
Definition timeFormats : list (list tok) := [L_RFC3339Nano; L_RFC3339; L_T; L_space; L_date].

Definition errTimeSpec : goerr := ErrNew "invalid time specification".

(** A duration before now, or the first layout that fits. *)
Definition parseTimeSpec (now : Time) (spec : list Z) : outcome Time :=
  match ParseDuration spec with
  | Some d => Ok (mkTime (unixNano now + i64 (- d)) (zone now))
  | None =>
      match foldr (fun l r => match time_Parse_layout l spec with Some t => Some t | None => r end) None timeFormats with
      | Some t => Ok t
      | None => Err errTimeSpec
      end
  end.

(** The flags: [None] for one that is not set. *)
Record LogsFlags := mkLogsFlags {
  lf_pretty : bool; lf_last : bool; lf_since : bool; lf_between : bool; lf_count : Z;
  lf_start : option (list Z); lf_end : option (list Z); lf_limit : Z }.

(** What the command does outside: the bytes on standard output, the messages
    on standard error and its exit code. *)
Record CmdResult := mkResult { cmd_out : list Z; cmd_err : list string; cmd_code : Z }.

Definition exit_with (msg : string) (code : Z) (warnings : list string) : CmdResult := mkResult [] (warnings ++ [msg]) code.

(** [t.Format(time.RFC3339)]; [None] is the zero time. *)
Definition format_RFC3339 (t : option Time) : list Z :=
  match t with
  | Some t => RFC3339Nano (mkTime (unixNano t / 10 ^ 9 * 10 ^ 9) (zone t))
  | None => str "0001-01-01T00:00:00Z"
  end.

Definition pretty_entry (i : nat) (e : LogEntry) : list Z :=
  str "Entry " ++ itoa (Z.of_nat i + 1) ++ str " (ID: " ++ itoa (le_ID e) ++ str ", Inserted: " ++ format_RFC3339 (InsertedAt e) ++ str "):" ++ [10] ++
  LogData e ++ [10] ++ str "---" ++ [10].

Definition output_entries (pretty : bool) (results : list LogEntry) : list Z :=
  if pretty then concat (imap pretty_entry results) else results ≫= fun e => LogData e ++ [10].

(** [os.IsNotExist] does not look into wrapped errors. *)
Definition ErrNotExist : goerr := ErrNew "file does not exist".
Definition os_IsNotExist (e : goerr) : bool := bool_decide (e = ErrNotExist).

(** What is made of the retrieved entries. *)
Definition logs_result (pretty : bool) (warnings : list string) (r : list LogEntry + goerr) : CmdResult :=
  match r with
  | inr e => if errors_is e ErrNotInitialized then exit_with "Internal Error: Logger DB handle became unavailable." 2 warnings
             else exit_with "Error retrieving logs" 1 warnings
  | inl [] => mkResult [] (warnings ++ ["No log entries found matching the criteria."]) 0
  | inl results => mkResult (output_entries pretty results) (warnings ++ (if pretty then ["Pretty-printing requested (implementation pending)..."] else [])) 0
  end.

Definition modeCount (f : LogsFlags) : nat := length (List.filter id [lf_last f; lf_since f; lf_between f]).

Section Logs.
Context `{SQL : SQLite, ZL : ZeroLog}.

Definition retrieve (f : LogsFlags) : M LogState CmdResult :=
  now ← gets log_clock;
  if lf_last f || (modeCount f =? 0)%nat then
    let warnings := match lf_start f, lf_end f with
                    | None, None => []
                    | _, _ => ["Warning: --start (-s) and --end (-e) flags are ignored in --last mode."]
                    end in
    if lf_count f <=? 0 then mret (exit_with "Error: --count (-n) must be a positive number." 1 warnings) else
    r ← mtry (GetLastNLogs (lf_count f)); mret (logs_result (lf_pretty f) warnings r)
  else if lf_since f then
    match lf_start f with
    | None => mret (exit_with "Error: --start (-s) flag is required for --since mode." 1 [])
    | Some spec =>
        let warnings := match lf_end f with Some _ => ["Warning: --end (-e) flag is ignored in --since mode."] | None => [] end in
        match parseTimeSpec now spec with
        | Ok startTime => r ← mtry (GetLogsSince startTime (lf_limit f)); mret (logs_result (lf_pretty f) warnings r)
        | Err _ => mret (exit_with "Error parsing start time" 1 warnings)
        | Panic => mpanic
        end
    end
  else
    match lf_start f, lf_end f with
    | None, _ => mret (exit_with "Error: --start (-s) flag is required for --between mode." 1 [])
    | _, None => mret (exit_with "Error: --end (-e) flag is required for --between mode." 1 [])
    | Some startSpec, Some endSpec =>
        match parseTimeSpec now startSpec, parseTimeSpec now endSpec with
        | Ok startTime, Ok endTime =>
            let warnings := if unixNano endTime <? unixNano startTime then ["Warning: Start time is after end time."] else [] in
            r ← mtry (GetLogsBetween startTime endTime (lf_limit f)); mret (logs_result (lf_pretty f) warnings r)
        | Err _, _ => mret (exit_with "Error parsing start time" 1 [])
        | _, Err _ => mret (exit_with "Error parsing end time" 1 [])
        | _, _ => mpanic
        end
    end.

(** The logger is closed on every return after it was opened. *)
Definition logsCmd (home : list Z) (f : LogsFlags) : M LogState CmdResult :=
  if (1 <? modeCount f)%nat
  then mret (exit_with "Error: Only one mode flag (--last, --since, --between) can be specified at a time." 1 []) else
  r ← mtry (Init home (str "edge.db"));
  match r with
  | inr e => mret (exit_with (if os_IsNotExist e then "Error: Database file not found" else "Error initializing logger (required for DB access)") 1 [])
  | inl _ => res ← retrieve f; mignore Close;; mret res
  end.
End Logs.

(** ** [config.go]: loading a configuration *)

(** What viper finds: an error of reading a file that is there, the path of the
    file (empty when there is none) and what reading it again yields, the values
    set in a given configuration, and the local port. *)
Class Viper (C : Type) := {
  ReadInConfig : option goerr;
  ConfigFileUsed : list Z;
  config_content : list Z + goerr;
  Unmarshal : C -> C + goerr;
  viper_local_port : option Z }.

Definition set_UDPBufferSize (v : Z) (c : EdgeConfig) : EdgeConfig := mkEdgeConfig v (cfg_EdgeID c) (cfg_Community c) (cfg_TapName c) (cfg_LocalPort c) (cfg_SupernodeAddr c) (cfg_HeartbeatInterval c) (cfg_ProtocolVersion c) (cfg_VerifyHash c) (cfg_EnableVFuze c) (cfg_ConfigFile c) (cfg_APIListenAddr c) (cfg_EncryptionPassphrase c) (cfg_CompressPayload c) (cfg_WSEnabled c) (cfg_SupernodeURL c) (cfg_WSSCert c) (cfg_WSSKey c) (cfg_WSSEnabled c) (cfg_ProxyURL c).
Definition set_EdgeID (v : list Z) (c : EdgeConfig) : EdgeConfig := mkEdgeConfig (cfg_UDPBufferSize c) v (cfg_Community c) (cfg_TapName c) (cfg_LocalPort c) (cfg_SupernodeAddr c) (cfg_HeartbeatInterval c) (cfg_ProtocolVersion c) (cfg_VerifyHash c) (cfg_EnableVFuze c) (cfg_ConfigFile c) (cfg_APIListenAddr c) (cfg_EncryptionPassphrase c) (cfg_CompressPayload c) (cfg_WSEnabled c) (cfg_SupernodeURL c) (cfg_WSSCert c) (cfg_WSSKey c) (cfg_WSSEnabled c) (cfg_ProxyURL c).
Definition set_Community (v : list Z) (c : EdgeConfig) : EdgeConfig := mkEdgeConfig (cfg_UDPBufferSize c) (cfg_EdgeID c) v (cfg_TapName c) (cfg_LocalPort c) (cfg_SupernodeAddr c) (cfg_HeartbeatInterval c) (cfg_ProtocolVersion c) (cfg_VerifyHash c) (cfg_EnableVFuze c) (cfg_ConfigFile c) (cfg_APIListenAddr c) (cfg_EncryptionPassphrase c) (cfg_CompressPayload c) (cfg_WSEnabled c) (cfg_SupernodeURL c) (cfg_WSSCert c) (cfg_WSSKey c) (cfg_WSSEnabled c) (cfg_ProxyURL c).
Definition set_TapName (v : list Z) (c : EdgeConfig) : EdgeConfig := mkEdgeConfig (cfg_UDPBufferSize c) (cfg_EdgeID c) (cfg_Community c) v (cfg_LocalPort c) (cfg_SupernodeAddr c) (cfg_HeartbeatInterval c) (cfg_ProtocolVersion c) (cfg_VerifyHash c) (cfg_EnableVFuze c) (cfg_ConfigFile c) (cfg_APIListenAddr c) (cfg_EncryptionPassphrase c) (cfg_CompressPayload c) (cfg_WSEnabled c) (cfg_SupernodeURL c) (cfg_WSSCert c) (cfg_WSSKey c) (cfg_WSSEnabled c) (cfg_ProxyURL c).
Definition set_LocalPort (v : Z) (c : EdgeConfig) : EdgeConfig := mkEdgeConfig (cfg_UDPBufferSize c) (cfg_EdgeID c) (cfg_Community c) (cfg_TapName c) v (cfg_SupernodeAddr c) (cfg_HeartbeatInterval c) (cfg_ProtocolVersion c) (cfg_VerifyHash c) (cfg_EnableVFuze c) (cfg_ConfigFile c) (cfg_APIListenAddr c) (cfg_EncryptionPassphrase c) (cfg_CompressPayload c) (cfg_WSEnabled c) (cfg_SupernodeURL c) (cfg_WSSCert c) (cfg_WSSKey c) (cfg_WSSEnabled c) (cfg_ProxyURL c).
Definition set_HeartbeatInterval (v : Z) (c : EdgeConfig) : EdgeConfig := mkEdgeConfig (cfg_UDPBufferSize c) (cfg_EdgeID c) (cfg_Community c) (cfg_TapName c) (cfg_LocalPort c) (cfg_SupernodeAddr c) v (cfg_ProtocolVersion c) (cfg_VerifyHash c) (cfg_EnableVFuze c) (cfg_ConfigFile c) (cfg_APIListenAddr c) (cfg_EncryptionPassphrase c) (cfg_CompressPayload c) (cfg_WSEnabled c) (cfg_SupernodeURL c) (cfg_WSSCert c) (cfg_WSSKey c) (cfg_WSSEnabled c) (cfg_ProxyURL c).
Definition set_EnableVFuze (v : bool) (c : EdgeConfig) : EdgeConfig := mkEdgeConfig (cfg_UDPBufferSize c) (cfg_EdgeID c) (cfg_Community c) (cfg_TapName c) (cfg_LocalPort c) (cfg_SupernodeAddr c) (cfg_HeartbeatInterval c) (cfg_ProtocolVersion c) (cfg_VerifyHash c) v (cfg_ConfigFile c) (cfg_APIListenAddr c) (cfg_EncryptionPassphrase c) (cfg_CompressPayload c) (cfg_WSEnabled c) (cfg_SupernodeURL c) (cfg_WSSCert c) (cfg_WSSKey c) (cfg_WSSEnabled c) (cfg_ProxyURL c).
Definition set_ConfigFile (v : list Z) (c : EdgeConfig) : EdgeConfig := mkEdgeConfig (cfg_UDPBufferSize c) (cfg_EdgeID c) (cfg_Community c) (cfg_TapName c) (cfg_LocalPort c) (cfg_SupernodeAddr c) (cfg_HeartbeatInterval c) (cfg_ProtocolVersion c) (cfg_VerifyHash c) (cfg_EnableVFuze c) v (cfg_APIListenAddr c) (cfg_EncryptionPassphrase c) (cfg_CompressPayload c) (cfg_WSEnabled c) (cfg_SupernodeURL c) (cfg_WSSCert c) (cfg_WSSKey c) (cfg_WSSEnabled c) (cfg_ProxyURL c).
Definition set_APIListenAddr (v : list Z) (c : EdgeConfig) : EdgeConfig := mkEdgeConfig (cfg_UDPBufferSize c) (cfg_EdgeID c) (cfg_Community c) (cfg_TapName c) (cfg_LocalPort c) (cfg_SupernodeAddr c) (cfg_HeartbeatInterval c) (cfg_ProtocolVersion c) (cfg_VerifyHash c) (cfg_EnableVFuze c) (cfg_ConfigFile c) v (cfg_EncryptionPassphrase c) (cfg_CompressPayload c) (cfg_WSEnabled c) (cfg_SupernodeURL c) (cfg_WSSCert c) (cfg_WSSKey c) (cfg_WSSEnabled c) (cfg_ProxyURL c).
Definition set_EncryptionPassphrase (v : list Z) (c : EdgeConfig) : EdgeConfig := mkEdgeConfig (cfg_UDPBufferSize c) (cfg_EdgeID c) (cfg_Community c) (cfg_TapName c) (cfg_LocalPort c) (cfg_SupernodeAddr c) (cfg_HeartbeatInterval c) (cfg_ProtocolVersion c) (cfg_VerifyHash c) (cfg_EnableVFuze c) (cfg_ConfigFile c) (cfg_APIListenAddr c) v (cfg_CompressPayload c) (cfg_WSEnabled c) (cfg_SupernodeURL c) (cfg_WSSCert c) (cfg_WSSKey c) (cfg_WSSEnabled c) (cfg_ProxyURL c).
Definition set_CompressPayload (v : bool) (c : EdgeConfig) : EdgeConfig := mkEdgeConfig (cfg_UDPBufferSize c) (cfg_EdgeID c) (cfg_Community c) (cfg_TapName c) (cfg_LocalPort c) (cfg_SupernodeAddr c) (cfg_HeartbeatInterval c) (cfg_ProtocolVersion c) (cfg_VerifyHash c) (cfg_EnableVFuze c) (cfg_ConfigFile c) (cfg_APIListenAddr c) (cfg_EncryptionPassphrase c) v (cfg_WSEnabled c) (cfg_SupernodeURL c) (cfg_WSSCert c) (cfg_WSSKey c) (cfg_WSSEnabled c) (cfg_ProxyURL c).
Definition set_WSEnabled (v : bool) (c : EdgeConfig) : EdgeConfig := mkEdgeConfig (cfg_UDPBufferSize c) (cfg_EdgeID c) (cfg_Community c) (cfg_TapName c) (cfg_LocalPort c) (cfg_SupernodeAddr c) (cfg_HeartbeatInterval c) (cfg_ProtocolVersion c) (cfg_VerifyHash c) (cfg_EnableVFuze c) (cfg_ConfigFile c) (cfg_APIListenAddr c) (cfg_EncryptionPassphrase c) (cfg_CompressPayload c) v (cfg_SupernodeURL c) (cfg_WSSCert c) (cfg_WSSKey c) (cfg_WSSEnabled c) (cfg_ProxyURL c).
Definition set_SupernodeURL (v : list Z) (c : EdgeConfig) : EdgeConfig := mkEdgeConfig (cfg_UDPBufferSize c) (cfg_EdgeID c) (cfg_Community c) (cfg_TapName c) (cfg_LocalPort c) (cfg_SupernodeAddr c) (cfg_HeartbeatInterval c) (cfg_ProtocolVersion c) (cfg_VerifyHash c) (cfg_EnableVFuze c) (cfg_ConfigFile c) (cfg_APIListenAddr c) (cfg_EncryptionPassphrase c) (cfg_CompressPayload c) (cfg_WSEnabled c) v (cfg_WSSCert c) (cfg_WSSKey c) (cfg_WSSEnabled c) (cfg_ProxyURL c).
Definition set_WSSCert (v : list Z) (c : EdgeConfig) : EdgeConfig := mkEdgeConfig (cfg_UDPBufferSize c) (cfg_EdgeID c) (cfg_Community c) (cfg_TapName c) (cfg_LocalPort c) (cfg_SupernodeAddr c) (cfg_HeartbeatInterval c) (cfg_ProtocolVersion c) (cfg_VerifyHash c) (cfg_EnableVFuze c) (cfg_ConfigFile c) (cfg_APIListenAddr c) (cfg_EncryptionPassphrase c) (cfg_CompressPayload c) (cfg_WSEnabled c) (cfg_SupernodeURL c) v (cfg_WSSKey c) (cfg_WSSEnabled c) (cfg_ProxyURL c).
Definition set_WSSKey (v : list Z) (c : EdgeConfig) : EdgeConfig := mkEdgeConfig (cfg_UDPBufferSize c) (cfg_EdgeID c) (cfg_Community c) (cfg_TapName c) (cfg_LocalPort c) (cfg_SupernodeAddr c) (cfg_HeartbeatInterval c) (cfg_ProtocolVersion c) (cfg_VerifyHash c) (cfg_EnableVFuze c) (cfg_ConfigFile c) (cfg_APIListenAddr c) (cfg_EncryptionPassphrase c) (cfg_CompressPayload c) (cfg_WSEnabled c) (cfg_SupernodeURL c) (cfg_WSSCert c) v (cfg_WSSEnabled c) (cfg_ProxyURL c).
Definition set_WSSEnabled (v : bool) (c : EdgeConfig) : EdgeConfig := mkEdgeConfig (cfg_UDPBufferSize c) (cfg_EdgeID c) (cfg_Community c) (cfg_TapName c) (cfg_LocalPort c) (cfg_SupernodeAddr c) (cfg_HeartbeatInterval c) (cfg_ProtocolVersion c) (cfg_VerifyHash c) (cfg_EnableVFuze c) (cfg_ConfigFile c) (cfg_APIListenAddr c) (cfg_EncryptionPassphrase c) (cfg_CompressPayload c) (cfg_WSEnabled c) (cfg_SupernodeURL c) (cfg_WSSCert c) (cfg_WSSKey c) v (cfg_ProxyURL c).
Definition set_ProxyURL (v : list Z) (c : EdgeConfig) : EdgeConfig := mkEdgeConfig (cfg_UDPBufferSize c) (cfg_EdgeID c) (cfg_Community c) (cfg_TapName c) (cfg_LocalPort c) (cfg_SupernodeAddr c) (cfg_HeartbeatInterval c) (cfg_ProtocolVersion c) (cfg_VerifyHash c) (cfg_EnableVFuze c) (cfg_ConfigFile c) (cfg_APIListenAddr c) (cfg_EncryptionPassphrase c) (cfg_CompressPayload c) (cfg_WSEnabled c) (cfg_SupernodeURL c) (cfg_WSSCert c) (cfg_WSSKey c) (cfg_WSSEnabled c) v.

(** What [LoadConfig] prints on standard output: the path and the content of the
    configuration file. *)
Definition config_report `{Viper EdgeConfig} : list Z :=
  if bool_decide (is_Some ReadInConfig) || bool_decide (ConfigFileUsed = []) then [] else
  str "Using config file: " ++ ConfigFileUsed ++ [10] ++
  match config_content with
  | inl data => str "Config content:" ++ [10] ++ data ++ [10]
  | inr e => str "Failed to read config file: " ++ error_text e ++ [10]
  end.

(** The flags of the flag package are parsed into the configuration before the
    values of file and environment. *)
Definition edge_LoadConfig `{Viper EdgeConfig} (hostname : list Z + goerr) (flags : option (EdgeConfig -> EdgeConfig)) : outcome EdgeConfig :=
  match ReadInConfig with
  | Some e => Err e
  | None =>
      let cfg := match flags with Some f => f DefaultEdgeConfig | None => DefaultEdgeConfig end in
      match Unmarshal cfg with
      | inr e => Err e
      | inl cfg =>
          cfg ← (if bool_decide (cfg_EdgeID cfg = []) then
                   match hostname with inl h => Ok (set_EdgeID h cfg) | inr e => Err e end
                 else Ok cfg);
          Ok (if cfg_LocalPort cfg =? 0 then
                match viper_local_port with Some p => set_LocalPort p cfg | None => cfg end
              else cfg)
      end
  end.

(** ** [edge_up.go] *)

(** The flags that are set, with their values, and the first argument. *)
Record UpFlags := mkUpFlags {
  uf_arg : option (list Z); uf_community : option (list Z); uf_id : option (list Z); uf_proxy_url : option (list Z);
  uf_supernode : option (list Z); uf_ws : option bool; uf_wss : option bool; uf_wss_cert : option (list Z); uf_wss_key : option (list Z);
  uf_api_listen : option (list Z); uf_config : option (list Z); uf_tap : option (list Z); uf_port : option Z; uf_enableFuze : option bool;
  uf_heartbeat : option Z; uf_udpbuffersize : option Z; uf_passphrase : option (list Z); uf_compress : option bool }.

Definition no_flags : UpFlags := mkUpFlags None None None None None None None None None None None None None None None None None None.

(** [if c.IsSet(name) { set }] *)
Definition when_set {A} (o : option A) (set : A -> EdgeConfig -> EdgeConfig) (c : EdgeConfig) : EdgeConfig :=
  match o with Some v => set v c | None => c end.
Definition when_nonempty (o : option (list Z)) (set : list Z -> EdgeConfig -> EdgeConfig) (c : EdgeConfig) : EdgeConfig :=
  match o with Some v => if bool_decide (v = []) then c else set v c | None => c end.

Definition up_positional (arg : option (list Z)) (c : EdgeConfig) : EdgeConfig :=
  when_nonempty arg (fun url c =>
    let c := set_SupernodeURL url c in
    if bool_decide (cfg_Community c = []) then set_Community (str "default") c else c) c.

(** The community is appended to the URL. *)
Definition up_community_query (c : EdgeConfig) : EdgeConfig :=
  let url := cfg_SupernodeURL c in
  if negb (bool_decide (url = [])) && negb (contains url (str "?community=")) then
    let community := if bool_decide (cfg_Community c = []) then str "default" else cfg_Community c in
    let separator := if contains url (str "?") then str "&" else str "?" in
    let c := set_SupernodeURL (url ++ separator ++ str "community=" ++ community) c in
    if bool_decide (cfg_Community c = []) then set_Community community c else c
  else c.

Definition up_scheme (c : EdgeConfig) : EdgeConfig :=
  if bool_decide (cfg_SupernodeURL c = []) then c
  else if HasPrefix (cfg_SupernodeURL c) (str "wss://") then set_WSSEnabled true c
  else if HasPrefix (cfg_SupernodeURL c) (str "ws://") then set_WSEnabled true c
  else c.

(** The remaining flags, which replace the values of the configuration. *)
Definition up_plain_flags (f : UpFlags) (c : EdgeConfig) : EdgeConfig :=
  let c := when_set (uf_ws f) set_WSEnabled c in
  let c := when_set (uf_wss f) set_WSSEnabled c in
  let c := when_set (uf_wss_cert f) set_WSSCert c in
  let c := when_set (uf_wss_key f) set_WSSKey c in
  let c := when_set (uf_api_listen f) set_APIListenAddr c in
  let c := when_set (uf_config f) set_ConfigFile c in
  let c := when_set (uf_tap f) set_TapName c in
  let c := when_set (uf_port f) set_LocalPort c in
  let c := when_set (uf_enableFuze f) set_EnableVFuze c in
  let c := when_set (uf_heartbeat f) set_HeartbeatInterval c in
  let c := when_set (uf_udpbuffersize f) set_UDPBufferSize c in
  let c := when_set (uf_passphrase f) set_EncryptionPassphrase c in
  when_set (uf_compress f) set_CompressPayload c.

(** The configuration the client is created with. *)
Definition up_config (f : UpFlags) (c : EdgeConfig) : EdgeConfig :=
  let c := up_positional (uf_arg f) c in
  let c := when_nonempty (uf_community f) set_Community c in
  let c := when_nonempty (uf_id f) set_EdgeID c in
  let c := when_set (uf_proxy_url f) set_ProxyURL c in
  let c := when_set (uf_supernode f) set_SupernodeURL c in
  up_plain_flags f (up_scheme (up_community_query c)).

(** The calls of a program, and how it ends. *)
Inductive event := EvNewClient (c : EdgeConfig) | EvInitialSetup | EvRun | EvClose | EvExit (code : Z).

(** [log.Fatalf] exits with code 1. *)
Definition up_calls (loaded : outcome EdgeConfig) (created : EdgeConfig -> option goerr) (setup : option goerr) (f : UpFlags) : list event :=
  match loaded with
  | Ok cfg =>
      let cfg := up_config f cfg in
      EvNewClient cfg ::
      match created cfg with
      | Some _ => [EvExit 1]
      | None => EvInitialSetup :: match setup with Some _ => [EvClose; EvExit 127] | None => [EvRun; EvExit 0] end
      end
  | _ => [EvExit 1]
  end.

(** ** [edge_ctl.go], [client.go] *)

(** The management client's password is the community of the configuration
    file. *)
Definition NewEdgeManagementClient `{Viper EdgeConfig} (hostname : list Z + goerr) (dir : list Z) (peer : option (list Z -> list Z))
    : list Z * outcome ManagementClient :=
  (config_report,
   match edge_LoadConfig hostname None with
   | Ok cfg =>
       let client := NewManagementClient dir (str "edge") (cfg_Community cfg) in
       if IsManagementServerStarted client peer then Ok client else Err (ErrNew "Unable to connect to edge management (is edge up and running ?)")
   | Err e => Err (ErrWrap "Failed to load configuration" e)
   | Panic => Panic
   end).

(** What is printed on standard output, and the exit code. *)
Definition ctl `{Viper EdgeConfig} (hostname : list Z + goerr) (dir : list Z) (peer : option (list Z -> list Z)) (command : list Z)
    : outcome (list Z * Z) :=
  let '(out, client) := NewEdgeManagementClient hostname dir peer in
  match client with
  | Ok mgmt =>
      match SendCommand mgmt peer command with
      | Ok res => Ok (out ++ res ++ [10], 0)
      | Err _ => Ok (out, 1)
      | Panic => Panic
      end
  | Err _ => Ok (out, 1)
  | Panic => Panic
  end.

Definition ctlCmd `{Viper EdgeConfig} (hostname : list Z + goerr) (dir : list Z) (peer : option (list Z -> list Z)) (args : list (list Z))
    : outcome (list Z * Z) :=
  ctl hostname dir peer (strings_Join args [32]).

(** ** [supernode/config.go] and [cmd/supernode/main.go] *)

(** The flags of the supernode; [None] is a flag that was not given. *)
Record SNFlags := mkSNFlags {
  sf_config : option (list Z); sf_listen : option (list Z); sf_cleanup : option Z; sf_expiry : option Z; sf_debug : option bool;
  sf_enableFuze : option bool; sf_subnet : option (list Z); sf_subnetcidr : option Z; sf_ws : option bool; sf_ws_listen : option (list Z);
  sf_wss : option bool; sf_wss_cert : option (list Z); sf_wss_key : option (list Z); sf_wss_listen : option (list Z) }.

Definition sn_parse_flags (f : SNFlags) (c : SNState.Config) : SNState.Config :=
  SNState.mkConfig (default (Debug c) (sf_debug f)) (default (CommunitySubnet c) (sf_subnet f)) (default (CommunitySubnetCIDR c) (sf_subnetcidr f))
    (default (ExpiryDuration c) (sf_expiry f)) (default (CleanupInterval c) (sf_cleanup f)) (UDPBufferSize c) (StrictHashChecking c)
    (default (EnableVFuze c) (sf_enableFuze f)) (default (ListenAddr c) (sf_listen f)) (default (ConfigFile c) (sf_config f))
    (default (WSEnabled c) (sf_ws f)) (default (WSListenAddr c) (sf_ws_listen f)) (default (WSSEnabled c) (sf_wss f))
    (default (WSSCert c) (sf_wss_cert f)) (default (WSSKey c) (sf_wss_key f)) (default (WSSListenAddr c) (sf_wss_listen f)).

(** The values of file and environment come after the flags. *)
Definition sn_LoadConfig `{Viper SNState.Config} (f : SNFlags) : outcome SNState.Config :=
  match ReadInConfig with
  | Some e => Err e
  | None => match Unmarshal (sn_parse_flags f DefaultConfig) with inl c => Ok c | inr e => Err e end
  end.

(** The calls of [main] up to [Listen]; the rest of its run is in [SNListen]. *)
Inductive sn_event :=
  | SnListenUDP (addr : list Z) | SnInitializeDB | SnLoadPoolState | SnNewSupernode (c : SNState.Config) | SnNotify | SnListen | SnExit (code : Z).

(** A failure exits by [log.Fatalf], without the deferred [CloseDB]. *)
Definition sn_main (loaded : outcome SNState.Config) (resolves : list Z -> bool) (listens : list Z -> bool) (initialized pool_loaded : bool)
  : list sn_event :=
  match loaded with
  | Ok cfg =>
      if negb (resolves (ListenAddr cfg)) then [SnExit 1] else
      SnListenUDP (ListenAddr cfg) ::
      if negb (listens (ListenAddr cfg)) then [SnExit 1] else
      SnInitializeDB ::
      if negb initialized then [SnExit 1] else
      SnLoadPoolState ::
      if negb pool_loaded then [SnExit 1] else
      [SnNewSupernode cfg; SnNotify; SnListen]
  | _ => [SnExit 1]
  end.

(** The supernode listens only with its configuration, its socket and the
    state of its address pools. *)
Lemma sn_main_listens loaded resolves listens initialized pool_loaded : SnListen ∈ sn_main loaded resolves listens initialized pool_loaded ->
  exists cfg, loaded = Ok cfg /\ sn_main loaded resolves listens initialized pool_loaded =
    [SnListenUDP (ListenAddr cfg); SnInitializeDB; SnLoadPoolState; SnNewSupernode cfg; SnNotify; SnListen].
Proof.
  unfold sn_main. destruct loaded as [cfg| |]; [|set_solver|set_solver]. intros H. exists cfg. split; [done|].
  destruct (resolves _), (listens _), initialized, pool_loaded; cbn [negb] in *; set_solver.
Qed.

(** ** [cmd/benchmark/main.go] *)
Definition parseComponent `{UnicodeLower} (compStr : list Z) : outcome Component :=
  let s := ToLower compStr in
  if bool_decide (s = str "protocol") then Ok ComponentProtocolOnly
  else if bool_decide (s = str "udp") then Ok ComponentUDPOnly
  else if bool_decide (s = str "tap") then Ok ComponentTAPOnly
  else if bool_decide (s = str "all") then Ok ComponentAll
  else Err (ErrNew "unknown component").

Inductive bench_event := BenchAll | BenchOne (c : Component) | BenchPrint (c : Component) | BenchSave (rs : list LatencyResults) (file : list Z) | BenchFatal.

(** [all] and [one] are what the benchmarks return, [saves] whether the file is
    written. *)
Definition bench_main `{UnicodeLower} (euid : Z) (component : list Z) (allComponents : bool) (output : list Z)
    (all : list LatencyResults) (one : Component -> outcome LatencyResults) (saves : bool) : list bench_event :=
  let save rs := if negb (bool_decide (output = [])) && negb (bool_decide (rs = [])) then BenchSave rs output :: (if saves then [] else [BenchFatal]) else [] in
  if negb (euid =? 0) && (bool_decide (component = str "tap") || bool_decide (component = str "all") || allComponents) && negb allComponents
  then [BenchFatal]
  else if allComponents then BenchAll :: save all
  else match parseComponent component with
       | Ok c => BenchOne c :: match one c with Ok r => BenchPrint c :: save [r] | _ => [BenchFatal] end
       | _ => [BenchFatal]
       end.

(** ** Times on the command line *)
Lemma leadingInt_stops l c rest : forallb is_digit l = true -> is_digit c = false -> forall x,
  leadingInt (l ++ c :: rest) x = None \/ exists v, leadingInt (l ++ c :: rest) x = Some (v, c :: rest).
Proof.
  intros Hl Hc. induction l as [|d l IH]; intros x; cbn [app leadingInt].
  - rewrite Hc. right. by eexists.
  - cbn [forallb] in Hl. apply andb_prop in Hl as [Hd Hl]. rewrite Hd. destruct (_ <? x); [by left|]. cbv zeta. destruct (_ <? _); [by left|]. by apply IH.
Qed.

(** A date is not a duration: what follows the year is not a unit. *)
Lemma date_not_duration y rest d : 0 <= y < 10000 -> is_digit d = true -> ParseDuration (pad_digits 4 y ++ 45 :: d :: rest) = None.
Proof.
  intros Hy Hd. rewrite pad_digits_eq by (cbn; lia).
  assert (exists a l, digits 4 y = a :: l /\ is_digit a = true /\ length l = 3%nat) as (a & l & E & Ha & Hl).
  { pose proof (length_digits 4 y) as L. pose proof (digits_digits 4 y) as D. destruct (digits 4 y) as [|a l]; [done|].
    exists a, l. cbn in L, D. apply andb_prop in D as [D _]. split_and!; [done|done|lia]. }
  pose proof (digits_digits 4 y) as Hall. rewrite E in *. unfold ParseDuration.
  assert (forall X (f : list Z -> X), match (a :: l) ++ 45 :: d :: rest with 45 :: s' => (true, s') | 43 :: s' => (false, s') | _ => (false, (a :: l) ++ 45 :: d :: rest) end
    = (false, (a :: l) ++ 45 :: d :: rest)) as Hs.
  { intros _ _. cbn [app]. assert (48 <= a <= 57) as Hr by (unfold is_digit in Ha; lia). destruct a as [|p|p]; [lia| |lia].
    do 6 (destruct p as [p|p|]; try done; try lia). }
  rewrite (Hs Z (fun _ => 0)). rewrite bool_decide_eq_false_2 by (destruct l; [done|done]). rewrite bool_decide_eq_false_2 by done.
  assert (duration_term ((a :: l) ++ 45 :: d :: rest) = None) as Ht.
  { pose proof (leadingInt_stops (a :: l) 45 (d :: rest) Hall eq_refl 0) as HL. cbn [app] in HL |- *. unfold duration_term. cbv beta iota.
    rewrite Ha, orb_true_r. cbn [negb]. destruct HL as [->|[v ->]]; [done|]. cbn [mbind option_bind]. cbv zeta beta iota. destruct (negb _ && negb _); [done|].
    assert (take_while in_unit (45 :: d :: rest) = [45]) as ->; [|done].
    cbn [take_while]. change (in_unit 45) with true. cbv iota. unfold in_unit at 1. by rewrite Hd, orb_true_r. }
  cbn [app] in Ht |- *. cbn [length duration_terms]. by rewrite Ht.
Qed.

(** A timestamp on the command line is the instant it denotes: the text
    [RFC3339Nano] writes for an instant, with whatever offset and fraction, is
    read back by [parseTimeSpec] as that instant, and not as a duration. *)
Theorem timespec_roundtrip now t : printable t -> parseTimeSpec now (RFC3339Nano t) = Ok t.
Proof.
  intros Ht. unfold parseTimeSpec, timeFormats. cbn [foldr]. rewrite (parse_RFC3339Nano t Ht).
  destruct Ht as [Hy _]. unfold RFC3339Nano. cbv zeta. destruct (civil _) as [[y m] d] eqn:Ec. cbn [fst] in Hy.
  destruct (civil_days _ _ _ _ Ec) as (_ & Hm & _). rewrite (pad_digits_eq 2 m) by (cbn; lia). cbn [digits app].
  rewrite date_not_duration; [done|done|]. apply digit_is. apply Z.mod_pos_bound. lia.
Qed.

Lemma timespec_roundtrip_witness : parseTimeSpec (mkTime 0 0) (str "2023-10-27T15:04:05.25+02:00") = Ok (mkTime 1698411845250000000 7200).
Proof.
  change (str "2023-10-27T15:04:05.25+02:00") with (RFC3339Nano (mkTime 1698411845250000000 7200)). apply timespec_roundtrip.
  split; [vm_compute; split; congruence|]. split; vm_compute; reflexivity.
Defined.

(** ** The log command *)
Section LogsProps.
Context `{SQL : SQLite, JT : JsonTime, ZL : ZeroLog, LAWS : !SQLiteLaws}.

Lemma GetLastNLogs_rows path old new s n : log_inv path old new s -> 0 < n ->
  match GetLastNLogs n s with
  | (Ok entries, s') => s' = s /\ entries = log_entry <$> reverse (take (Z.to_nat n) (reverse (old ++ new)))
  | (Err e, s') => s' = s
  | (Panic, _) => False
  end.
Proof.
  intros [_ Hh (d & Hd & Hr) _] Hn. unfold GetLastNLogs, getHandle. munfold. unfold id. rewrite Hh. destruct (Z.leb_spec n 0) as [|_]; [lia|].
  rewrite Hd. pose proof (sql_last_rows d n Hn) as H. destruct (sql_last d n) as [rows|e]; [|done]. split; [done|]. by rewrite H, Hr, fmap_reverse.
Qed.

(** Closing adds the line that says so, when it can be written, and gives the
    handle up. *)
Lemma Close_rows path old s : log_inv path old [] s -> dbWriterInstance s = Some path ->
  let s' := (mignore Close s).2 in
  (mignore Close s).1 = Ok tt /\ dbHandle s' = None /\ dbWriterInstance s' = None /\
  exists d extra, files s' !! path = Some d /\ sql_rows d = old ++ extra /\ (length extra <= 1)%nat.
Proof.
  intros [_ _ (d & Hd & Hr) _] Hw. rewrite app_nil_r in Hr. unfold mignore, Close, log_event, sqlite_Write. munfold. unfold id. rewrite Hw.
  cbn [files set_logger log_clock]. rewrite Hd. destruct (sql_insert d _) as [d'|e] eqn:Ei; cbn [files set_files count_write set_logger].
  - rewrite lookup_insert_eq. destruct (sql_insert_rows _ _ _ Ei) as (i & at_ & Hr' & _).
    destruct (sql_close d'); cbn; (split_and!; try done); exists d'; eexists; rewrite lookup_insert_eq, Hr', Hr; (split_and!; try done); cbn; lia.
  - rewrite Hd. destruct (sql_close d); cbn; (split_and!; try done); exists d, []; rewrite Hr, app_nil_r; by split_and!; try (cbn; lia).
Qed.

Lemma Init_writer home file s s0 : dbWriterInstance s = None -> Init home file s = (Ok tt, s0) -> dbWriterInstance s0 = dbHandle s0.
Proof.
  intros Hw. unfold Init. case_bool_decide; [done|]. rewrite gets_bind. unfold id. destruct (AppDir home (appDirCache s)) as [dir cache]. munfold.
  cbn [dbWriterInstance set_appdir]. rewrite Hw, bool_decide_eq_false_2 by (intros [? ?]; done). cbv zeta. unfold newSQLiteWriter. munfold.
  destruct (sql_ping _); [done|]. destruct (sql_create _); [|done]. destruct (sql_prepare _); [done|]. by intros [= <-].
Qed.
End LogsProps.

(** [edge logs] prints the newest lines: with [--last] or no mode, in a process
    that has not logged yet, over a database it can open, the command prints the
    data of the newest [count] rows, oldest first and one to a line, or fails
    when the query does; the handle is given up and the rows are still there,
    after them at most the line that the logger was closed. *)
Theorem logs_last `{SQL : SQLite, JT : JsonTime, ZL : ZeroLog, LAWS : !SQLiteLaws} home f s s0 :
  lf_since f = false -> lf_between f = false -> lf_pretty f = false -> 0 < lf_count f ->
  dbWriterInstance s = None -> writeSinceStart s = 0 -> Init home (str "edge.db") s = (Ok tt, s0) ->
  exists path rows, (exists d, files s0 !! path = Some d /\ sql_rows d = rows) /\
  match logsCmd home f s with
  | (Ok r, s') =>
      (cmd_code r = 0 /\ cmd_out r = (reverse (take (Z.to_nat (lf_count f)) (reverse rows)) ≫= fun x => row_data x ++ [10]) \/
       cmd_out r = [] /\ 0 < cmd_code r) /\
      dbHandle s' = None /\ exists d extra, files s' !! path = Some d /\ sql_rows d = rows ++ extra /\ (length extra <= 1)%nat
  | _ => False
  end.
Proof.
  intros Hs Hb Hp Hn Hw Hc Hi. destruct (Init_inv _ _ _ _ Hw Hc Hi) as (path & rows & Hinv). exists path, rows.
  split. { destruct Hinv as [_ _ (d & Hd & Hr) _]. exists d. by rewrite app_nil_r in Hr. }
  pose proof (Init_writer _ _ _ _ Hw Hi) as Hw0. rewrite (inv_handle _ _ _ _ Hinv) in Hw0.
  unfold logsCmd. assert ((1 <? modeCount f)%nat = false) as ->.
  { unfold modeCount. rewrite Hs, Hb. by destruct (lf_last f). }
  rewrite (bind_ok _ _ _ (inl tt) s0) by (unfold mtry; by rewrite Hi).
  pose proof (GetLastNLogs_rows path rows [] s0 (lf_count f) Hinv Hn) as H. rewrite app_nil_r in H.
  assert (exists r, retrieve f s0 = (Ok r, s0) /\
    (cmd_code r = 0 /\ cmd_out r = (reverse (take (Z.to_nat (lf_count f)) (reverse rows)) ≫= fun x => row_data x ++ [10]) \/
     cmd_out r = [] /\ 0 < cmd_code r)) as (r & Er & Hr).
  { unfold retrieve. rewrite gets_bind. assert (lf_last f || (modeCount f =? 0)%nat = true) as ->. { unfold modeCount. rewrite Hs, Hb. by destruct (lf_last f). }
    destruct (Z.leb_spec (lf_count f) 0) as [|_]; [lia|]. cbv zeta. set (ws := match lf_start f with Some _ => _ | None => _ end). clearbody ws.
    unfold mbind, M_bind, mtry. destruct (GetLastNLogs (lf_count f) s0) as [[entries|e|] s1]; [| |done].
    - destruct H as [-> ->]. eexists. split; [done|]. left. rewrite Hp. set (l := reverse _). clearbody l.
      destruct l as [|x l]; [done|]. split; [done|]. cbn. f_equal. f_equal. clear. induction l as [|y l IH]; [done|]. cbn. by rewrite IH.
    - subst s1. eexists. split; [done|]. right. unfold logs_result, exit_with. by destruct (errors_is e ErrNotInitialized). }
  rewrite (bind_ok _ _ _ _ _ Er). destruct (Close_rows path rows s0 Hinv Hw0) as (C1 & C2 & _ & C3).
  unfold mbind, M_bind. destruct (mignore Close s0) as [o s']. cbn in C1, C2, C3. subst o. cbn. done.
Qed.

Module LogsSample.
Export LogSample.
Definition three : LogState :=
  mkLog {[ str "/home/u/.n2n-go/edge.db" := [mkRow 7 [] (str "a"); mkRow 8 [] (str "b"); mkRow 9 [] (str "c")] ]} None None LogNop 0 [] (mkTime 0 0).
Definition last_two : LogsFlags := mkLogsFlags false false false false 2 None None 1000.
End LogsSample.
Import LogsSample.

Lemma logs_last_witness : exists path rows r s', logsCmd (str "/home/u") last_two three = (Ok r, s') /\
  (cmd_code r = 0 /\ cmd_out r = (reverse (take 2 (reverse rows)) ≫= fun x => row_data x ++ [10]) \/ cmd_out r = [] /\ 0 < cmd_code r) /\
  exists d extra, files s' !! path = Some d /\ d = rows ++ extra.
Proof.
  assert (succeeds (Init (str "/home/u") (str "edge.db") three) = true) as B by (vm_compute; reflexivity).
  destruct (Init (str "/home/u") (str "edge.db") three) as [[u|e|] s0] eqn:E; [|discriminate B|discriminate B]. destruct u.
  destruct (logs_last (str "/home/u") last_two three s0 eq_refl eq_refl eq_refl eq_refl eq_refl eq_refl E) as (path & rows & _ & H).
  destruct (logsCmd (str "/home/u") last_two three) as [[r|e|] s']; [|destruct H|destruct H].
  exists path, rows, r, s'. split; [reflexivity|]. destruct H as (H1 & _ & d & extra & H2 & H3 & _). split; [exact H1|]. exists d, extra. split; [exact H2|exact H3].
Defined.

(** ** The up command *)
Lemma contains_head s p : p <> [] -> head p = Some 63 -> 63 ∉ s -> contains s p = false.
Proof.
  intros Hp Hh. induction s as [|c s IH]; intros Hn; cbn [contains]; unfold HasPrefix.
  - rewrite take_nil, bool_decide_eq_false_2; [done|]. congruence.
  - rewrite bool_decide_eq_false_2.
    + apply IH. by apply not_elem_of_cons in Hn as [_ ?].
    + destruct p as [|b p]; [done|]. injection Hh as ->. cbn. intros [= -> _]. apply Hn. left.
Qed.

Lemma contains_app s p q : contains (s ++ p ++ q) p = true.
Proof.
  induction s as [|c s IH]; [|cbn [app contains]; by rewrite IH, orb_true_r].
  assert (HasPrefix (p ++ q) p = true) as H by (unfold HasPrefix; rewrite take_app_le, firstn_all by lia; by apply bool_decide_eq_true_2).
  cbn [app]. destruct (p ++ q); cbn [contains]; by rewrite H.
Qed.

(** The community an argument stands for, and the flags. *)
Definition shortcut_community (c : EdgeConfig) : list Z := if bool_decide (cfg_Community c = []) then str "default" else cfg_Community c.
Definition spelled_out (url community : list Z) (f : UpFlags) : UpFlags :=
  mkUpFlags None (Some community) (uf_id f) (uf_proxy_url f) (Some (url ++ str "?community=" ++ community)) (uf_ws f) (uf_wss f) (uf_wss_cert f)
    (uf_wss_key f) (uf_api_listen f) (uf_config f) (uf_tap f) (uf_port f) (uf_enableFuze f) (uf_heartbeat f) (uf_udpbuffersize f)
    (uf_passphrase f) (uf_compress f).

(** C39. The shortcut of the up command: without a community flag and a supernode
    flag, a URL as first argument, without a query, gives the configuration that
    the community flag and the supernode flag with the community in its query
    give, whatever other flags there are.  The community is [default], as the
    comments say, when the loaded configuration has none, and else the
    configured one. *)
Theorem up_shortcut url f c : url <> [] -> 63 ∉ url ->
  uf_arg f = Some url -> uf_community f = None -> uf_supernode f = None ->
  up_config f c = up_config (spelled_out url (shortcut_community c) f) c.
Proof.
  intros Hu Hq Ha Hco Hs.
  assert (shortcut_community c <> []) as Hne by (unfold shortcut_community; case_bool_decide; [discriminate|done]).
  assert ((if bool_decide (cfg_Community c = []) then set_Community (str "default") (set_SupernodeURL url c) else set_SupernodeURL url c) =
    set_Community (shortcut_community c) (set_SupernodeURL url c)) as Ec.
  { unfold shortcut_community. case_bool_decide; [done|]. by destruct c. }
  unfold up_config, spelled_out. cbn [uf_arg uf_community uf_id uf_proxy_url uf_supernode]. rewrite Ha, Hco, Hs.
  set (f' := mkUpFlags _ _ _ _ _ _ _ _ _ _ _ _ _ _ _ _ _ _). cbv zeta.
  change (up_plain_flags f') with (up_plain_flags f). f_equal. f_equal.
  unfold up_positional, when_nonempty, when_set. rewrite (bool_decide_eq_false_2 (url = [])) by done.
  cbn [cfg_Community set_SupernodeURL]. cbv zeta. rewrite Ec. clear Ec. generalize dependent (shortcut_community c). intros com Hne.
  rewrite (bool_decide_eq_false_2 (com = [])) by done.
  destruct c as [x1 x2 x3 x4 x5 x6 x7 x8 x9 x10 x11 x12 x13 x14 x15 x16 x17 x18 x19 x20].
  destruct (uf_id f) as [eid|], (uf_proxy_url f) as [px|]; try destruct (bool_decide (eid = []));
    cbv [up_community_query set_SupernodeURL set_Community set_EdgeID set_ProxyURL cfg_SupernodeURL cfg_Community cfg_UDPBufferSize cfg_EdgeID
      cfg_TapName cfg_LocalPort cfg_SupernodeAddr cfg_HeartbeatInterval cfg_ProtocolVersion cfg_VerifyHash cfg_EnableVFuze
      cfg_ConfigFile cfg_APIListenAddr cfg_EncryptionPassphrase cfg_CompressPayload cfg_WSEnabled cfg_WSSCert
      cfg_WSSKey cfg_WSSEnabled cfg_ProxyURL];
    rewrite !(contains_head url) by done; rewrite contains_app, andb_false_r;
    rewrite (bool_decide_eq_false_2 (url = [])), (bool_decide_eq_false_2 (com = [])) by done; reflexivity.
Qed.

Definition shortcut_flags : UpFlags :=
  mkUpFlags (Some (str "wss://host/n2n")) None None None None None None None None None None None (Some 7000) None None None None None.

Definition acme_config : EdgeConfig := set_Community (str "acme") DefaultEdgeConfig.

Lemma up_shortcut_witness :
  up_config shortcut_flags DefaultEdgeConfig = up_config (spelled_out (str "wss://host/n2n") (str "default") shortcut_flags) DefaultEdgeConfig /\
  up_config shortcut_flags acme_config = up_config (spelled_out (str "wss://host/n2n") (str "acme") shortcut_flags) acme_config.
Proof.
  assert (63 ∉ str "wss://host/n2n") as Hq by (apply (bool_decide_unpack _); vm_compute; exact I). split.
  - apply (up_shortcut (str "wss://host/n2n") shortcut_flags DefaultEdgeConfig); [discriminate|exact Hq|reflexivity|reflexivity|reflexivity].
  - apply (up_shortcut (str "wss://host/n2n") shortcut_flags acme_config); [discriminate|exact Hq|reflexivity|reflexivity|reflexivity].
Defined.

(** ** The control command *)
Lemma refused_out `{SQL : SQLite, TP : TimeParse, CW : ConsoleWriter, UL : UnicodeLower, CS : ConnSink}
    (s : ManagementServer) (env : nat -> Z * LogState) input :
  password s <> [] -> match read_line input with Some (line, _) => TrimSpace line <> password s | None => True end ->
  answers s env input = nokAuthString ++ [10] \/ answers s env input = [].
Proof.
  intros Hp Hr. unfold answers, handleConnection.
  destruct (authenticate_refused s (mkConn input ReadEOF [] false []) Hp Hr) as (c' & E & _ & H).
  rewrite (bind_ok _ _ _ _ _ E). done.
Qed.

(** C40. The control command speaks with the community of the configuration file:
    an edge that the up command started with another, non-empty community on its
    command line refuses it (the configured one has no newline, and is compared
    without surrounding space; without one the first line sent is the command
    [ping]).  Whatever it was to send, the command then prints nothing but
    the path and the content of the configuration file, as loading it always does,
    and exits with 1. *)
Theorem ctl_other_community `{SQL : SQLite, TP : TimeParse, CW : ConsoleWriter, UL : UnicodeLower, CS : ConnSink, VP : Viper EdgeConfig}
    (s : ManagementServer) (env : nat -> Z * LogState) hostname dir cfg f args :
  edge_LoadConfig hostname None = Ok cfg ->
  password s = cfg_Community (up_config f cfg) -> cfg_Community (up_config f cfg) <> [] -> 10 ∉ cfg_Community cfg ->
  TrimSpace ((if bool_decide (cfg_Community cfg = []) then str "ping" else cfg_Community cfg) ++ [10]) <> cfg_Community (up_config f cfg) ->
  ctlCmd hostname dir (Some (answers s env)) args = Ok (config_report, 1).
Proof.
  intros Hl Hup. rewrite <-Hup. clear Hup. intros Hp Hn Ht. unfold ctlCmd, ctl, NewEdgeManagementClient. rewrite Hl. unfold NewManagementClient, IsManagementServerStarted, SendCommand.
  cbn [cl_password]. change (bool_decide (str "ping" = [])) with false. cbv iota zeta.
  destruct (bool_decide (cfg_Community cfg = [])) eqn:E.
  - cbn [mbind outcome_bind app drop].
    destruct (refused_out s env (str "ping" ++ [10]) Hp Ht) as [H|H]; cbn [app] in *; rewrite H; reflexivity.
  - destruct (refused_out s env (cfg_Community cfg ++ [10]) Hp) as [H|H].
    { rewrite read_line_app by done. done. }
    all: rewrite H; reflexivity.
Qed.

Import MgmtSample.
Definition other_flags : UpFlags :=
  mkUpFlags None (Some (str "ab")) None None None None None None None None None None None None None None None None.

(** A configuration file with the community [home]. *)
Definition home_file : Viper EdgeConfig := {|
  ReadInConfig := None; ConfigFileUsed := str "/etc/n2n-go/edge.yaml"; config_content := inl (str "community: home");
  Unmarshal := fun c => inl (set_Community (str "home") c); viper_local_port := None |}.

Lemma ctl_other_community_witness : exists s env cfg,
  edge_LoadConfig (H := home_file) (inl (str "host")) None = Ok cfg /\ password s = cfg_Community (up_config other_flags cfg) /\
  ctlCmd (H := home_file) (inl (str "host")) [] (Some (answers s env)) [str "status"] =
    Ok (str "Using config file: /etc/n2n-go/edge.yaml" ++ [10] ++ str "Config content:" ++ [10] ++ str "community: home" ++ [10], 1).
Proof.
  destruct (edge_LoadConfig (H := home_file) (inl (str "host")) None) as [cfg|e|] eqn:E; [|vm_compute in E; discriminate E|vm_compute in E; discriminate E].
  assert (cfg_Community cfg = str "home") as Hh by (vm_compute in E; injection E as <-; reflexivity).
  assert (cfg_Community (up_config other_flags cfg) = str "ab") as Hu by (vm_compute in E; injection E as <-; vm_compute; reflexivity).
  exists (server (str "ab")), env, cfg. split; [reflexivity|]. split; [rewrite Hu; vm_compute; reflexivity|].
  refine (ctl_other_community (VP := home_file) (server (str "ab")) env (inl (str "host")) [] cfg other_flags [str "status"] E _ _ _ _).
  - rewrite Hu. vm_compute. reflexivity.
  - rewrite Hu. vm_compute. discriminate.
  - rewrite Hh. apply no_newline. vm_compute. reflexivity.
  - rewrite Hu, Hh. vm_compute. discriminate.
Defined.
